(* ===== verification/_CoqProject ===== *)
-Q . S2P
Prelude.v
Machine.v
Types.v
Environment.v
Formats.v
Descriptors.v
DescriptorsFacts.v
ReattachGuard.v
ReattachGuardFacts.v
Handles.v
Claims.v
ClaimsFacts.v
Negotiation.v
NegotiationFacts.v
Stream.v
StreamFacts.v
DeliveryFacts.v
Controls.v
ControlsFacts.v
Frame.v
FrameFacts.v
Mjpeg.v
MjpegFacts.v
Utlist.v
UtlistFacts.v
FreeInfo.v
FreeInfoFacts.v
Portability.v
PortabilityFacts.v
Start.v
Transfers.v
TransfersFacts.v
Assembly.v
StartFacts.v
Status.v
StatusFacts.v
Discovery.v
DiscoveryFacts.v
Printf.v
Diag.v
DiagFacts.v
Context.v
ContextFacts.v
Device.v
DeviceFacts.v
Session.v
SessionFacts.v
PipelineFacts.v
