(* ===== verification/Prelude.v ===== *)
(** * libuvc: a verification development

    libuvc is a C library that drives USB video cameras through libusb.  This
    library models its core and proves what makes it correct.  It follows the code
    under src/: one definition per function, with the function's name, the same
    branches and the same calls in the same order.

    ** The program and its model

    - src/device.c parses what a camera says of itself.  [Descriptors] has every
      parser, on byte buffers with explicit bounds; [DescriptorsFacts] shows that
      parsing ends on every input, where it is memory safe, that what it hands out is
      well formed, and that a frame descriptor survives encoding and parsing.
      [Formats] is the table of pixel formats of src/stream.c.
    - A camera's kernel driver has to be detached while the library uses it and to
      be handed back afterwards, even if the process dies.  [ReattachGuard] is
      src/reattach_guard.c, the helper process that does this; [Claims] is the
      claiming and releasing of interfaces in src/device.c around it.
      [ReattachGuardFacts] and [ClaimsFacts] show that at whatever call the process
      dies, the helper knows every interface that is owed and has not been given up, and
      that it repairs them.
    - src/stream.c negotiates a format with the camera ([Negotiation]), opens a
      stream and assembles frames from payloads ([Stream]), prepares the transfers
      ([Start]) and runs them ([Transfers]).  [NegotiationFacts] has the wire format
      and the search for a format; [StreamFacts] the safety of the payload processor
      and the reassembly of frames; [DeliveryFacts] what user code gets;
      [StartFacts] the choice of the altsetting; [TransfersFacts] that no
      interleaving of completions, the callback thread and the application's calls
      reaches freed memory, and that a stop ends: no thread is left asleep.
    - src/ctrl.c and src/ctrl-gen.c read and set the controls of a camera
      ([Controls]); [ControlsFacts] shows that settings are kept and kept apart.
    - src/frame.c converts images ([Frame]); [FrameFacts] compares the conversions
      with a reference and says when they stay inside their buffers.
      src/frame-mjpeg.c decodes motion JPEG ([Mjpeg]) with libjpeg, which is a
      parameter; [MjpegFacts] says where the decoded lines go.
    - src/device.c and src/init.c find devices ([Discovery]), open and close them
      ([Device]), free what the parsers built ([FreeInfo]), keep the status transfer of
      an open device running ([Status]) and the event thread of a context ([Context]).  [DiscoveryFacts] shows which device
      is found and what is left in memory, [DeviceFacts] the order of claims,
      releases and closing on every path, [FreeInfoFacts] that every block is freed
      once and which are not, [StatusFacts] and [ContextFacts] that no
      interleaving of the threads touches what was freed or given back.
    - include/utlist.h has the macros for doubly linked lists.  [Utlist] is those the
      library uses, on a heap of nodes, and the loop of [uvc_exit] that frees the nodes
      it visits; [UtlistFacts] shows that a history of insertions and removals does to
      the nodes what it does to a list, which is how the other files have them.
    - src/diag.c prints errors, control blocks and device descriptions ([Diag], with
      the formatted output of C in [Printf]); [DiagFacts] shows that a control block
      can be read back from its text and which descriptions can be printed at all.
      [Portability] has the replacements of C functions in src/stream.c and
      src/misc.c for platforms without them, [PortabilityFacts] what they do.
    - [Session] composes the parts into what an application calls: starting to
      stream, stopping, closing a device with open streams.  [SessionFacts] shows that
      starting is all or nothing and in which order closing gives things back.
    - [Assembly] says what the payload processor is for: an abstract assembler that has
      images and no buffers, which the code implements on every sequence of payloads
      ([assembly_refines]).  [PipelineFacts] puts the parts together, from the call that
      starts to stream through the transfers that complete to the frames an application
      polls: the stream is a mailbox for the newest frame ([stream_is_mailbox]).
    - [Types] and [Handles] are the structs of include/libuvc/libuvc.h and
      libuvc_internal.h; [Prelude] is what all files share,
      [Machine] the runs of the concurrent parts.

    The parts call each other as the code does: [Negotiation] and [Stream] claim
    interfaces through [Claims], [Device] parses through [Descriptors], [Transfers]
    runs the payload processor of [Stream] in its callback and fills the user's frame
    as in [Stream].  Where one part only needs to know how another ended (whether
    [uvc_close] could stop the transfers), the result is an argument.

    ** How C is modelled

    A function returns an [outcome]: a value, or the rule of the language that was
    broken.  "Returns" thus means that it ends and is free of undefined behaviour.
    Integers are [Z] with their wrap-around written out ([u8] ... [u64]), buffers
    are lists of bytes that are read and written with bounds checks, linked lists are
    lists (justified by [dl_lists_refine]), pointers that may be null are options.  Calls of libusb and of the
    operating system are requests to an [Environment], which answers from the whole
    history, so a theorem over every environment holds for every device and every
    failure; what is asked of an environment is a named hypothesis, with a witness.

    Concurrent parts are step functions.  A step is a critical section of the code,
    or one access outside; a list of labels is an interleaving; the theorems are
    about every list.  In [Transfers] these are the application, libusb's event
    thread and the thread that calls the user, with their waits on a condition variable; in [Status] the event thread and the
    thread that closes the device; in [Context] the application and the event
    thread.  The theorems are proved from invariants ([tinv], [sinv], [cinv]) that
    every step keeps.

    ** Fuel and bounds

    Loops over data recurse on the data.  The scans of descriptors take one unit of
    fuel per byte, which is enough since a block has at least three bytes
    ([get_device_info_terminates]); the recursion over format families takes the
    height of the table; reads that are repeated when a signal interrupts them take
    the fuel a hypothesis bounds ([settles]).  The wait in [uvc_stream_stop] is
    bounded by its five timeouts ([stop_returns]), the one in
    [uvc_stop_status_xfer] by 250 polls ([status_wait_bounded]).  [stream_is_mailbox] is
    about fewer than 2^31 payloads: the number of a frame has 32 bits, and polling
    compares numbers.

    ** What is shown to go wrong

    Some theorems state what the code does where that is not what it should do: a
    restart after a timed-out stop ([restart_after_timeout_is_unsafe]), a context
    used again after its last device was closed ([reopened_context_unserviced]), a
    payload size of 0 ([zero_payload_divides_by_zero]), an end of frame without data
    ([header_only_eof_ignored]), frames with errors, which polls return
    ([flagged_frame_is_polled]), a reconfigured stream ([reconfigured_stream_overflows]), parsers without a length check
    ([frame_uncompressed_safe_iff]), images of odd sizes ([conversion_safe_iff]),
    JPEG files larger than their frame ([mjpeg_safe_iff]), the printing of devices that
    advertise an interval of 0 or a GUID without a zero ([print_diag_safe_iff]), the time
    of day on Windows ([windows_time_wrong]).

    ** Not modelled

    The generator of src/ctrl-gen.c is a build script, src/example.c, src/test.c and
    tests/ are programs that use the library.  Of utlist.h, the macros that nothing uses
    are left out; of src/device.c, the getters that return what libusb knows; of
    src/reattach_guard.c, the empty functions for systems other than Linux.  The unused
    floating-point macro of src/frame.c is left out, and so are the debug traces.

    What an allocator answers is the environment's choice, or part of a label in
    [Transfers], and each theorem says which allocations have to succeed, because the
    code does not check them.  Taken to succeed throughout are the allocations of the
    descriptor parsers (but not that of the description itself), of the lists and
    structures of [Discovery] and of the transfers' buffers in [Session]; and
    [pthread_create] for the event thread in [Context].  User callbacks are taken to
    return, and the application to make one call on a stream at a time.  Memory
    ordering below the level of the mutexes is not modelled: a critical section is
    one step, and so is the unlocked read of [running]. *)

From stdpp Require Import prelude.

#[global] Open Scope Z_scope.

(** ** C outcomes

    A C function either returns or does not, because it reached undefined
    behaviour ([Undef] says which rule of the language was broken), because a
    loop of it is out of fuel ([Diverged]) or because it ended the process
    ([Exited]).  So "returns" always includes termination. *)

Inductive fault :=
  | OutOfBounds
  | NullDeref
  | DivByZero
  | BadShift
  | Diverged
  | Exited
  | UseAfterFree
  | Uninitialised
  | BadArgument.

Inductive outcome (A : Type) :=
  | Ret (a : A)
  | Undef (f : fault).

Arguments Ret {A} a.
Arguments Undef {A} f.

#[export] Instance fault_eq_dec : EqDecision fault.
Proof. solve_decision. Defined.

#[export] Instance outcome_ret : MRet outcome := @Ret.

#[export] Instance outcome_bind : MBind outcome := λ A B f m,
  match m with
  | Ret a => f a
  | Undef e => Undef e
  end.

(** [returns m P]: [m] returns, without undefined behaviour, a value in [P]. *)
Definition returns {A} (m : outcome A) (P : A → Prop) : Prop :=
  match m with
  | Ret a => P a
  | Undef _ => False
  end.

(** [if_returns m P]: whenever [m] returns, its value is in [P]. *)
Definition if_returns {A} (m : outcome A) (P : A → Prop) : Prop :=
  match m with
  | Ret a => P a
  | Undef _ => True
  end.

Definition faults {A} (m : outcome A) (e : fault) : Prop := m = Undef e.

(** ** Machine integers

    A [w]-bit unsigned value is a [Z] in [[0, 2^w)]; [wrapu] is the conversion
    to that type and [wraps] the conversion to the signed type of the same
    width. *)

Definition fits (w z : Z) : Prop := 0 ≤ z < 2 ^ w.

#[export] Instance fits_dec w z : Decision (fits w z).
Proof. unfold fits. apply _. Defined.

Definition wrapu (w z : Z) : Z := z mod 2 ^ w.
Definition wraps (w z : Z) : Z := (z + 2 ^ (w - 1)) mod 2 ^ w - 2 ^ (w - 1).

Abbreviation u8 := (wrapu 8).
Abbreviation u16 := (wrapu 16).
Abbreviation u32 := (wrapu 32).
Abbreviation u64 := (wrapu 64).
Abbreviation i32 := (wraps 32).

(** [~x] on 32-bit unsigned integers. *)
Definition not32 (x : Z) : Z := 2 ^ 32 - 1 - x.

(** C booleans and truth tests. *)
Definition nz (z : Z) : bool := negb (z =? 0).
Definition c_bool (b : bool) : Z := if b then 1 else 0.

(** ** Memory blocks *)

Abbreviation bytes := (list Z).

Definition bytes_ok (l : bytes) : Prop := Forall (fits 8) l.

Definition len {A} (l : list A) : Z := Z.of_nat (length l).

Definition rd {A} (buf : list A) (i : Z) : outcome A :=
  if decide (0 ≤ i) then
    match buf !! Z.to_nat i with
    | Some b => Ret b
    | None => Undef OutOfBounds
    end
  else Undef OutOfBounds.

Definition wr {A} (buf : list A) (i : Z) (v : A) : outcome (list A) :=
  if decide (0 ≤ i < len buf) then Ret (<[Z.to_nat i := v]> buf)
  else Undef OutOfBounds.

(** [memcpy(dst + doff, src + soff, n)] *)
Definition memcpy (dst : bytes) (doff : Z) (src : bytes) (soff n : Z) : outcome bytes :=
  if decide (0 ≤ doff ∧ 0 ≤ soff ∧ 0 ≤ n ∧ doff + n ≤ len dst ∧ soff + n ≤ len src)
  then Ret (take (Z.to_nat doff) dst
            ++ take (Z.to_nat n) (drop (Z.to_nat soff) src)
            ++ drop (Z.to_nat (doff + n)) dst)
  else Undef OutOfBounds.

Definition rd_bytes (src : bytes) (soff n : Z) : outcome bytes :=
  if decide (0 ≤ soff ∧ 0 ≤ n ∧ soff + n ≤ len src)
  then Ret (take (Z.to_nat n) (drop (Z.to_nat soff) src))
  else Undef OutOfBounds.

(** A dereference of a possibly null pointer. *)
Definition deref {A} (p : option A) : outcome A :=
  match p with
  | Some a => Ret a
  | None => Undef NullDeref
  end.

(** Unsigned division and remainder, which trap on a zero divisor. *)
Definition cdiv (a b : Z) : outcome Z :=
  if decide (b = 0) then Undef DivByZero else Ret (a / b).
Definition cmod (a b : Z) : outcome Z :=
  if decide (b = 0) then Undef DivByZero else Ret (a mod b).

(** [1 << i] on [int] and [1u << i]: undefined when the result does not fit. *)
Definition shl1 (i : Z) : outcome Z :=
  if decide (0 ≤ i < 31) then Ret (Z.shiftl 1 i) else Undef BadShift.
Definition shl1u (i : Z) : outcome Z :=
  if decide (0 ≤ i < 32) then Ret (u32 (Z.shiftl 1 i)) else Undef BadShift.

(** ** The little-endian macros of libuvc_internal.h *)

Definition SW_TO_SHORT (p : bytes) (o : Z) : outcome Z :=
  b0 ← rd p o;
  b1 ← rd p (o + 1);
  Ret (Z.lor b0 (Z.shiftl b1 8)).

(** The operands are promoted to [int], so the expression is a signed 32-bit
    value: a fourth byte of 128 or more makes it negative. *)
Definition DW_TO_INT (p : bytes) (o : Z) : outcome Z :=
  b0 ← rd p o;
  b1 ← rd p (o + 1);
  b2 ← rd p (o + 2);
  b3 ← rd p (o + 3);
  Ret (i32 (Z.lor (Z.lor (Z.lor b0 (Z.shiftl b1 8)) (Z.shiftl b2 16)) (Z.shiftl b3 24))).

Definition SHORT_TO_SW (s : Z) (p : bytes) (o : Z) : outcome bytes :=
  p ← wr p o (u8 s);
  wr p (o + 1) (u8 (Z.shiftr s 8)).

Definition INT_TO_DW (i : Z) (p : bytes) (o : Z) : outcome bytes :=
  p ← wr p o (u8 i);
  p ← wr p (o + 1) (u8 (Z.shiftr i 8));
  p ← wr p (o + 2) (u8 (Z.shiftr i 16));
  wr p (o + 3) (u8 (Z.shiftr i 24)).

(** ** Reference readings, for specifications

    Total little-endian views of a block: the value the macros compute on an
    access that is in bounds. *)

Definition byte_at (p : bytes) (i : Z) : Z := default 0 (p !! Z.to_nat i).
Definition le16_at (p : bytes) (o : Z) : Z := byte_at p o + 2 ^ 8 * byte_at p (o + 1).
Definition le32_at (p : bytes) (o : Z) : Z :=
  byte_at p o + 2 ^ 8 * byte_at p (o + 1)
  + 2 ^ 16 * byte_at p (o + 2) + 2 ^ 24 * byte_at p (o + 3).

(** The bytes of an integer, least significant first. *)
Definition le16 (z : Z) : bytes := [u8 z; u8 (Z.shiftr z 8)].
Definition le32 (z : Z) : bytes :=
  [u8 z; u8 (Z.shiftr z 8); u8 (Z.shiftr z 16); u8 (Z.shiftr z 24)].

Create HintDb cmodel.

(** ** The [returns] logic *)

Section outcome_laws.
Context {A B : Type}.
Implicit Types (m : outcome A) (f : A → outcome B).

Lemma bind_Ret_inv m f b : m ≫= f = Ret b ↔ ∃ a, m = Ret a ∧ f a = Ret b.
Proof. destruct m; naive_solver. Qed.

Lemma returns_iff m P : returns m P ↔ ∃ a, m = Ret a ∧ P a.
Proof. destruct m; naive_solver. Qed.

Lemma returns_bind m f (Q : B → Prop) :
  returns (m ≫= f) Q ↔ returns m (λ a, returns (f a) Q).
Proof. destruct m; naive_solver. Qed.

Lemma if_returns_bind m f (Q : B → Prop) :
  if_returns (m ≫= f) Q ↔ if_returns m (λ a, if_returns (f a) Q).
Proof. destruct m; naive_solver. Qed.

Lemma returns_mono m (P Q : A → Prop) :
  returns m P → (∀ a, P a → Q a) → returns m Q.
Proof. destruct m; naive_solver. Qed.

Lemma if_returns_mono m (P Q : A → Prop) :
  if_returns m P → (∀ a, P a → Q a) → if_returns m Q.
Proof. destruct m; naive_solver. Qed.

Lemma returns_if_returns m P : returns m P → if_returns m P.
Proof. destruct m; naive_solver. Qed.

Lemma if_returns_iff m P : if_returns m P ↔ ∀ a, m = Ret a → P a.
Proof. destruct m; naive_solver. Qed.
End outcome_laws.

(** ** Integer lemmas *)

Lemma wrapu_fits w z : 0 ≤ w → fits w (wrapu w z).
Proof. intros. apply Z.mod_pos_bound. by apply Z.pow_pos_nonneg. Qed.

Lemma wrapu_id w z : fits w z → wrapu w z = z.
Proof. apply Z.mod_small. Qed.

Lemma fits_mono v w z : 0 ≤ v ≤ w → fits v z → fits w z.
Proof.
  unfold fits. intros ? [? ?]. split; [done|].
  pose proof (Z.pow_le_mono_r 2 v w). lia.
Qed.

Lemma wrapu_wraps w z : 0 < w → wrapu w (wraps w z) = wrapu w z.
Proof.
  intros. unfold wrapu, wraps. rewrite Zminus_mod_idemp_l. f_equal. lia.
Qed.

Lemma wraps_small w z : 0 < w → 0 ≤ z < 2 ^ (w - 1) → wraps w z = z.
Proof.
  intros Hw Hz. unfold wraps.
  assert (2 ^ w = 2 * 2 ^ (w - 1)) as Hp.
  { rewrite <- Z.pow_succ_r by lia. f_equal. lia. }
  rewrite Z.mod_small; lia.
Qed.

(** Bytes put side by side do not overlap, so [|] adds them. *)
Lemma lor_shiftl_add w a b :
  0 ≤ w → fits w a → 0 ≤ b → Z.lor a (Z.shiftl b w) = a + b * 2 ^ w.
Proof.
  intros Hw [Ha1 Ha2] Hb.
  assert (Z.land a (Z.shiftl b w) = 0) as Hl.
  { apply Z.bits_inj'. intros n Hn. rewrite Z.land_spec, Z.bits_0.
    destruct (decide (n < w)).
    - rewrite Z.shiftl_spec_low by done. apply andb_false_r.
    - destruct (decide (a = 0)) as [->|]; [by rewrite Z.bits_0|].
      rewrite (Z.bits_above_log2 a n); [done|lia|].
      apply Z.log2_lt_pow2; [lia|]. pose proof (Z.pow_le_mono_r 2 w n). lia. }
  rewrite <- Z.lxor_lor, <- Z.add_nocarry_lxor by done.
  by rewrite Z.shiftl_mul_pow2.
Qed.

(** Single-bit masks of 32 bits. *)
Lemma bit_pow i : 0 ≤ i < 32 → u32 (Z.shiftl 1 i) = 2 ^ i.
Proof.
  intros Hi. rewrite Z.shiftl_1_l. apply wrapu_id. split; [by apply Z.pow_nonneg|].
  apply Z.pow_lt_mono_r; lia.
Qed.

Lemma testbit_bit i j : 0 ≤ i < 32 → 0 ≤ j → Z.testbit (u32 (Z.shiftl 1 i)) j = bool_decide (i = j).
Proof.
  intros Hi Hj. rewrite bit_pow by done. case_bool_decide as E.
  - subst. by apply Z.pow2_bits_true.
  - by apply Z.pow2_bits_false.
Qed.

Lemma testbit_not32 x j : fits 32 x → 0 ≤ j < 32 → Z.testbit (not32 x) j = negb (Z.testbit x j).
Proof.
  intros [? ?] Hj. rewrite <- Z.lnot_spec by lia.
  rewrite <- (Z.mod_pow2_bits_low (Z.lnot x) 32) by lia. f_equal.
  unfold not32, Z.lnot. rewrite <- (Z.mod_unique (Z.pred (- x)) (2 ^ 32) (-1) (2 ^ 32 - 1 - x)); lia.
Qed.

Lemma bit_fits i : fits 32 (u32 (Z.shiftl 1 i)).
Proof. by apply wrapu_fits. Qed.

Lemma land_bit a i :
  0 ≤ i < 32 → (Z.land a (u32 (Z.shiftl 1 i)) =? 0) = negb (Z.testbit a i).
Proof.
  intros Hi. destruct (Z.testbit a i) eqn:E; simpl.
  - apply Z.eqb_neq. intros Hz. apply (f_equal (λ z, Z.testbit z i)) in Hz.
    rewrite Z.land_spec, E, testbit_bit, bool_decide_true, Z.bits_0 in Hz by lia. done.
  - apply Z.eqb_eq, Z.bits_inj'. intros j Hj.
    rewrite Z.land_spec, testbit_bit, Z.bits_0 by lia.
    case_bool_decide; subst; [by rewrite E|by rewrite andb_false_r].
Qed.

Lemma fits_bits w a : 0 ≤ w → 0 ≤ a → (∀ j, w ≤ j → Z.testbit a j = false) → fits w a.
Proof.
  intros Hw Ha Hj. split; [done|].
  destruct (decide (a = 0)) as [->|]; [by apply Z.pow_pos_nonneg|].
  apply Z.log2_lt_pow2; [lia|]. destruct (decide (Z.log2 a < w)); [done|].
  pose proof (Z.bit_log2 a). rewrite Hj in *; [|lia]. naive_solver lia.
Qed.

Lemma fits_testbit w a j : 0 ≤ w → fits w a → w ≤ j → Z.testbit a j = false.
Proof.
  intros Hw [Ha1 Ha2] Hj. destruct (decide (a = 0)) as [->|]; [apply Z.bits_0|].
  apply Z.bits_above_log2; [done|]. apply Z.log2_lt_pow2; [lia|].
  pose proof (Z.pow_le_mono_r 2 w j). lia.
Qed.

Lemma set_bit_fits a i : 0 ≤ i < 32 → fits 32 a → fits 32 (Z.lor a (u32 (Z.shiftl 1 i))).
Proof.
  intros Hi Ha. pose proof (bit_fits i). apply fits_bits; [lia| |].
  - apply Z.lor_nonneg. unfold fits in *. lia.
  - intros j Hj. rewrite Z.lor_spec, !(fits_testbit 32) by (done || lia). done.
Qed.

Lemma testbit_set_bit a i j :
  0 ≤ i < 32 → 0 ≤ j →
  Z.testbit (Z.lor a (u32 (Z.shiftl 1 i))) j = Z.testbit a j || bool_decide (i = j).
Proof. intros. by rewrite Z.lor_spec, testbit_bit. Qed.

Lemma clear_bit_fits a i : fits 32 a → fits 32 (Z.land a (not32 (u32 (Z.shiftl 1 i)))).
Proof.
  intros Ha. apply fits_bits; [lia| |].
  - apply Z.land_nonneg. left. apply Ha.
  - intros j Hj. rewrite Z.land_spec, (fits_testbit 32 a) by (done || lia). done.
Qed.

Lemma testbit_clear_bit a i j :
  0 ≤ i < 32 → fits 32 a → 0 ≤ j →
  Z.testbit (Z.land a (not32 (u32 (Z.shiftl 1 i)))) j = Z.testbit a j && bool_decide (i ≠ j).
Proof.
  intros Hi Ha Hj. rewrite Z.land_spec. destruct (decide (j < 32)).
  - rewrite testbit_not32 by (apply bit_fits || lia). rewrite testbit_bit by done.
    f_equal. do 2 case_bool_decide; naive_solver.
  - rewrite (fits_testbit 32 a) by (done || lia). done.
Qed.

Lemma nz_true z : nz z = true ↔ z ≠ 0.
Proof. unfold nz. rewrite negb_true_iff. apply Z.eqb_neq. Qed.

Lemma nz_false z : nz z = false ↔ z = 0.
Proof. unfold nz. rewrite negb_false_iff. apply Z.eqb_eq. Qed.

(** ** Memory lemmas *)

Section memory.
Context {A : Type}.
Implicit Types l : list A.

Lemma len_nonneg l : 0 ≤ len l.
Proof. unfold len. lia. Qed.

Lemma len_app l k : len (l ++ k) = len l + len k.
Proof. unfold len. rewrite length_app. lia. Qed.

Lemma len_cons x l : len (x :: l) = 1 + len l.
Proof. unfold len. simpl. lia. Qed.

Lemma len_nil_inv l : len l = 0 → l = [].
Proof. destruct l; [done|]. unfold len. simpl. lia. Qed.

Lemma len_drop n l : 0 ≤ n ≤ len l → len (drop (Z.to_nat n) l) = len l - n.
Proof. unfold len. rewrite length_drop. lia. Qed.

Lemma len_take n l : 0 ≤ n ≤ len l → len (take (Z.to_nat n) l) = n.
Proof. unfold len. rewrite length_take. lia. Qed.

Lemma rd_Ret l i x : rd l i = Ret x ↔ 0 ≤ i ∧ l !! Z.to_nat i = Some x.
Proof. unfold rd. case_decide; [|naive_solver]. destruct (l !! Z.to_nat i); naive_solver. Qed.

Lemma returns_rd l i P :
  0 ≤ i < len l → (∀ x, l !! Z.to_nat i = Some x → P x) → returns (rd l i) P.
Proof.
  intros Hi HP. unfold rd, len in *. rewrite decide_True by lia.
  destruct (lookup_lt_is_Some_2 l (Z.to_nat i)) as [x Hx]; [lia|].
  rewrite Hx. by apply HP.
Qed.

Lemma rd_oob l i : ¬ (0 ≤ i < len l) → rd l i = Undef OutOfBounds.
Proof.
  intros Hi. unfold rd, len in *. case_decide; [|done].
  rewrite lookup_ge_None_2 by lia. done.
Qed.

Lemma rd_in_range l i x : rd l i = Ret x → 0 ≤ i < len l.
Proof.
  rewrite rd_Ret. intros [? Hx]. apply lookup_lt_Some in Hx. unfold len. lia.
Qed.

Lemma wr_in l i x : 0 ≤ i < len l → wr l i x = Ret (<[Z.to_nat i := x]> l).
Proof. intros. unfold wr. by rewrite decide_True. Qed.

Lemma wr_Ret_len l i x l' : wr l i x = Ret l' → len l' = len l.
Proof. unfold wr. case_decide; [|done]. intros [= <-]. unfold len. by rewrite length_insert. Qed.
End memory.

Lemma rd_byte_at p i : 0 ≤ i < len p → rd p i = Ret (byte_at p i).
Proof.
  intros Hi. unfold byte_at. destruct (rd p i) as [x|e] eqn:E.
  - apply rd_Ret in E as [_ E]. by rewrite E.
  - exfalso. pose proof (returns_rd p i (λ _, True) Hi (λ _ _, I)) as H. by rewrite E in H.
Qed.

Lemma bytes_ok_lookup p i b : bytes_ok p → p !! i = Some b → fits 8 b.
Proof. intros Hp. by apply Forall_lookup_1. Qed.

Lemma byte_at_fits p i : bytes_ok p → fits 8 (byte_at p i).
Proof.
  intros Hp. unfold byte_at. destruct (p !! Z.to_nat i) eqn:E; simpl; [|done].
  by eapply bytes_ok_lookup.
Qed.

Lemma rd_fits p i b : bytes_ok p → rd p i = Ret b → fits 8 b.
Proof. intros Hp [_ E]%rd_Ret. by eapply bytes_ok_lookup. Qed.

Lemma bytes_ok_drop p n : bytes_ok p → bytes_ok (drop n p).
Proof. apply Forall_drop. Qed.

Lemma bytes_ok_take p n : bytes_ok p → bytes_ok (take n p).
Proof. apply Forall_take. Qed.

Lemma le16_at_fits p o : bytes_ok p → fits 16 (le16_at p o).
Proof.
  intros Hp. unfold le16_at.
  pose proof (byte_at_fits p o Hp). pose proof (byte_at_fits p (o + 1) Hp).
  unfold fits in *. lia.
Qed.

Lemma le32_at_fits p o : bytes_ok p → fits 32 (le32_at p o).
Proof.
  intros Hp. unfold le32_at.
  pose proof (byte_at_fits p o Hp). pose proof (byte_at_fits p (o + 1) Hp).
  pose proof (byte_at_fits p (o + 2) Hp). pose proof (byte_at_fits p (o + 3) Hp).
  unfold fits in *. lia.
Qed.

Lemma SW_TO_SHORT_in p o :
  bytes_ok p → 0 ≤ o → o + 2 ≤ len p → SW_TO_SHORT p o = Ret (le16_at p o).
Proof.
  intros Hp Ho Hl. unfold SW_TO_SHORT. rewrite !rd_byte_at by lia. simpl.
  pose proof (byte_at_fits p o Hp). pose proof (byte_at_fits p (o + 1) Hp) as [??].
  rewrite lor_shiftl_add by (done || lia). f_equal. unfold le16_at. lia.
Qed.

Lemma DW_TO_INT_in p o :
  bytes_ok p → 0 ≤ o → o + 4 ≤ len p → DW_TO_INT p o = Ret (i32 (le32_at p o)).
Proof.
  intros Hp Ho Hl. unfold DW_TO_INT. rewrite !rd_byte_at by lia. cbn [mbind outcome_bind].
  pose proof (byte_at_fits p o Hp) as H0. pose proof (byte_at_fits p (o + 1) Hp) as H1.
  pose proof (byte_at_fits p (o + 2) Hp) as H2. pose proof (byte_at_fits p (o + 3) Hp) as H3.
  unfold fits in *. do 2 f_equal. unfold le32_at.
  rewrite (lor_shiftl_add 8) by (unfold fits; lia).
  rewrite (lor_shiftl_add 16) by (unfold fits; lia).
  rewrite (lor_shiftl_add 24) by (unfold fits; lia). lia.
Qed.

Lemma u32_i32 z : fits 32 z → u32 (i32 z) = z.
Proof. intros. rewrite wrapu_wraps by lia. by apply wrapu_id. Qed.

(** Every value of the width survives the trip through its bytes. *)
Lemma le16_roundtrip z l : fits 16 z → le16_at (le16 z ++ l) 0 = z.
Proof.
  intros [??]. unfold le16_at, le16, byte_at, wrapu. simpl.
  rewrite Z.shiftr_div_pow2 by lia.
  change (2 ^ 8) with 256 in *. change (2 ^ 16) with 65536 in *.
  Z.to_euclidean_division_equations. lia.
Qed.

Lemma le32_roundtrip z l : fits 32 z → le32_at (le32 z ++ l) 0 = z.
Proof.
  intros [??]. unfold le32_at, le32, byte_at, wrapu. simpl.
  rewrite !Z.shiftr_div_pow2 by lia.
  change (2 ^ 8) with 256 in *. change (2 ^ 16) with 65536 in *.
  change (2 ^ 24) with 16777216 in *. change (2 ^ 32) with 4294967296 in *.
  Z.to_euclidean_division_equations. lia.
Qed.

Lemma le16_ok z : bytes_ok (le16 z).
Proof. repeat constructor; by apply wrapu_fits. Qed.

Lemma le32_ok z : bytes_ok (le32 z).
Proof. repeat constructor; by apply wrapu_fits. Qed.

(** ** Inverting a computation that returned

    [inv_ret H] splits [H : m ≫= f = Ret b] into the equations of its steps. *)

Ltac inv_ret_step H :=
  match type of H with
  | _ ≫= _ = Ret _ =>
      let a := fresh "a" in let Ha := fresh "Ha" in
      apply bind_Ret_inv in H as (a & Ha & H); cbn beta in H
  | (let '(_, _) := ?p in _) = Ret _ =>
      let x := fresh "x" in let y := fresh "y" in destruct p as [x y]; cbn beta iota in H
  | match ?p with (_, _) => _ end = Ret _ =>
      let x := fresh "x" in let y := fresh "y" in destruct p as [x y]; cbn beta iota in H
  | Undef _ = Ret _ => discriminate H
  end.

Ltac inv_ret H := repeat inv_ret_step H.

(** ** Divergence

    A computation whose loops have enough fuel never reports [Diverged]. *)

Definition converges {A} (m : outcome A) : Prop := m ≠ Undef Diverged.

Lemma converges_Ret {A} (a : A) : converges (Ret a).
Proof. done. Qed.

Lemma converges_bind {A B} (m : outcome A) (f : A → outcome B) :
  converges m → (∀ a, m = Ret a → converges (f a)) → converges (m ≫= f).
Proof. unfold converges. destruct m; naive_solver. Qed.

Lemma converges_rd {A} (l : list A) i : converges (rd l i).
Proof. unfold converges, rd. repeat case_match; congruence. Qed.

Lemma converges_deref {A} (p : option A) : converges (deref p).
Proof. by destruct p. Qed.

Lemma converges_rd_bytes p o n : converges (rd_bytes p o n).
Proof. unfold converges, rd_bytes. case_decide; congruence. Qed.

Lemma converges_returns {A} (m : outcome A) P : returns m P → converges m.
Proof. by destruct m. Qed.

#[export] Hint Resolve converges_Ret converges_rd converges_deref converges_rd_bytes : cmodel.

(** Discharges [converges] goals of straight-line code. *)
Ltac converge :=
  repeat first
    [ solve [auto with cmodel]
    | match goal with
      | |- converges (_ ≫= _) => apply converges_bind; [|intros ? ?]
      | |- converges (match ?p with _ => _ end) => destruct p
      | |- converges (let '(_, _) := ?p in _) => destruct p
      end ].

Lemma converges_SW p o : converges (SW_TO_SHORT p o).
Proof. unfold SW_TO_SHORT. converge. Qed.

Lemma converges_DW p o : converges (DW_TO_INT p o).
Proof. unfold DW_TO_INT. converge. Qed.

#[export] Hint Resolve converges_SW converges_DW : cmodel.

Lemma SW_TO_SHORT_Ret p o v : SW_TO_SHORT p o = Ret v → 0 ≤ o ∧ o + 2 ≤ len p.
Proof. unfold SW_TO_SHORT. intros H. inv_ret H. apply rd_in_range in Ha, Ha0. lia. Qed.

Lemma DW_TO_INT_Ret p o v : DW_TO_INT p o = Ret v → 0 ≤ o ∧ o + 4 ≤ len p.
Proof. unfold DW_TO_INT. intros H. inv_ret H. apply rd_in_range in Ha, Ha2. lia. Qed.

Lemma rd_bytes_in p o n :
  0 ≤ o → 0 ≤ n → o + n ≤ len p →
  rd_bytes p o n = Ret (take (Z.to_nat n) (drop (Z.to_nat o) p)).
Proof. intros. unfold rd_bytes. by rewrite decide_True. Qed.

Lemma rd_bytes_Ret p o n l :
  rd_bytes p o n = Ret l → 0 ≤ o ∧ 0 ≤ n ∧ o + n ≤ len p ∧ len l = n.
Proof.
  unfold rd_bytes. case_decide as Hd; [|done]. intros [= <-]. split_and!; try lia.
  unfold len in *. rewrite length_take, length_drop. lia.
Qed.

Lemma memcpy_in dst doff src soff n :
  0 ≤ doff → 0 ≤ soff → 0 ≤ n → doff + n ≤ len dst → soff + n ≤ len src →
  ∃ dst', memcpy dst doff src soff n = Ret dst' ∧ len dst' = len dst
    ∧ take (Z.to_nat (doff + n)) dst'
      = take (Z.to_nat doff) dst ++ take (Z.to_nat n) (drop (Z.to_nat soff) src)
    ∧ drop (Z.to_nat (doff + n)) dst' = drop (Z.to_nat (doff + n)) dst.
Proof.
  intros H1 H2 H3 H4 H5. unfold memcpy. rewrite decide_True by lia. eexists. split; [done|].
  set (a := take _ dst). set (b := take _ (drop _ src)). set (c := drop _ dst).
  assert (length a = Z.to_nat doff) as Ha by (unfold a, len in *; rewrite length_take; lia).
  assert (length b = Z.to_nat n) as Hb by (unfold b, len in *; rewrite length_take, length_drop; lia).
  assert (length (a ++ b) = Z.to_nat (doff + n)) as Hab by (rewrite length_app; lia).
  split_and!.
  - unfold len in *. rewrite !length_app, Ha, Hb. unfold c. rewrite length_drop. lia.
  - rewrite app_assoc, <- Hab. apply take_app_length.
  - rewrite app_assoc, <- Hab. apply drop_app_length.
Qed.

Lemma memcpy_oob dst doff src soff n :
  ¬ (0 ≤ doff ∧ 0 ≤ soff ∧ 0 ≤ n ∧ doff + n ≤ len dst ∧ soff + n ≤ len src) →
  memcpy dst doff src soff n = Undef OutOfBounds.
Proof. intros. unfold memcpy. by rewrite decide_False. Qed.

(** Accesses to a block in parts. *)

Lemma wr_app {A} (pre l l' : list A) k y :
  wr l k y = Ret l' → wr (pre ++ l) (len pre + k) y = Ret (pre ++ l').
Proof.
  unfold wr. case_decide as Hk; [|done]. intros [= <-].
  rewrite decide_True by (rewrite len_app; pose proof (len_nonneg pre); lia).
  f_equal. unfold len in *. rewrite insert_app_r_alt by lia. do 2 f_equal. lia.
Qed.

Lemma rd_app {A} (pre l : list A) k : 0 ≤ k → rd (pre ++ l) (len pre + k) = rd l k.
Proof.
  intros Hk. unfold rd, len. rewrite !decide_True by lia.
  rewrite lookup_app_r by lia. by replace (Z.to_nat _ - length pre)%nat with (Z.to_nat k) by lia.
Qed.

Lemma wr_head {A} (l post : list A) k y :
  0 ≤ k < len l → wr (l ++ post) k y = Ret (<[Z.to_nat k := y]> l ++ post).
Proof.
  intros Hk. rewrite wr_in by (rewrite len_app; pose proof (len_nonneg post); lia).
  f_equal. apply insert_app_l. unfold len in Hk. lia.
Qed.

Lemma rd_cases {A} (l : list A) i :
  rd l i = Undef OutOfBounds ∨ ∃ x, rd l i = Ret x.
Proof. unfold rd. case_decide; [destruct (l !! Z.to_nat i)|]; eauto. Qed.

Lemma wr_cases {A} (l : list A) i x :
  wr l i x = Undef OutOfBounds ∨ ∃ l', wr l i x = Ret l' ∧ len l' = len l.
Proof.
  destruct (wr l i x) as [l'|e] eqn:E.
  - right. exists l'. split; [done|]. by eapply wr_Ret_len.
  - left. unfold wr in E. case_decide; congruence.
Qed.

Lemma wr_oob {A} (l : list A) i x : ¬ (0 ≤ i < len l) → wr l i x = Undef OutOfBounds.
Proof. intros. unfold wr. by rewrite decide_False. Qed.
