(* ===== verification/Machine.v ===== *)
(** * Machine: interleavings of steps

    The concurrent parts are step functions on labels.  A step is not possible in
    every state ([None]) and may be undefined behaviour.  Here are the runs over a
    list of labels and what invariants say of them, for all three. *)

From stdpp Require Import prelude.
From S2P Require Import Prelude.

Section machine.
Context {L S : Type} (step : L → S → option (outcome S)).

(** A sequence of steps; it stops at a fault, and is [None] when a step is not
    possible. *)
Fixpoint run_labels (ls : list L) (s : S) : option (outcome S) :=
  match ls with
  | [] => Some (Ret s)
  | l :: ls =>
      match step l s with
      | Some (Ret s') => run_labels ls s'
      | other => other
      end
  end.

(** Every label of the run is allowed by [ok] in the state it meets. *)
Fixpoint legal (ok : L → S → Prop) (ls : list L) (s : S) : Prop :=
  match ls with
  | [] => True
  | l :: ls => ok l s ∧ match step l s with Some (Ret s') => legal ok ls s' | _ => True end
  end.

Lemma legal_labels (ok : L → Prop) ls s : Forall ok ls → legal (λ l _, ok l) ls s.
Proof.
  intros Hls. revert s. induction Hls as [|l ls Hl _ IH]; intros s; cbn [legal]; [done|].
  split; [done|]. destruct (step l s) as [[s'|]|]; [apply IH|done|done].
Qed.

(** An invariant of the steps holds after a run, which does not fault. *)
Lemma run_invariant (I : S → Prop) (ok : L → S → Prop) :
  (∀ l s o, I s → ok l s → step l s = Some o → returns o I) →
  ∀ ls s o, I s → legal ok ls s → run_labels ls s = Some o → returns o I.
Proof.
  intros Hstep ls. induction ls as [|l ls IH]; intros s o Hi Hd Hr; cbn [run_labels legal] in *.
  { by injection Hr as <-. }
  destruct Hd as [Hl Hd]. destruct (step l s) as [o1|] eqn:E; [|done].
  pose proof (Hstep l s o1 Hi Hl E) as H1. destruct o1 as [s'|]; [|done]. by apply (IH s').
Qed.

(** What no step takes away stays. *)
Lemma run_keeps (P : S → Prop) :
  (∀ l s s', P s → step l s = Some (Ret s') → P s') →
  ∀ ls s s', P s → run_labels ls s = Some (Ret s') → P s'.
Proof.
  intros Hstep ls. induction ls as [|l ls IH]; intros s s' Hp Hr; cbn [run_labels] in Hr.
  { by injection Hr as <-. }
  destruct (step l s) as [[s1|]|] eqn:E; try done. apply (IH s1); [by eapply Hstep|done].
Qed.
End machine.
