(* ===== verification/Types.v ===== *)
(** * Types: the data of include/libuvc/libuvc.h and libuvc_internal.h

    Error codes and enumerations as the integers C gives them, the descriptor
    tree, the control blocks, and the part of libusb's descriptor structs the
    library reads.  Doubly linked lists are lists in list order ([DL_APPEND] is
    [++ [x]], [head->prev] is the last element); a nullable pointer is an
    [option].  The [parent] back pointers are the position in the tree. *)

From stdpp Require Import prelude.
From S2P Require Import Prelude.

(** ** enum uvc_error; libusb uses the same numbers for the codes it shares. *)
Definition UVC_SUCCESS : Z := 0.
Definition UVC_ERROR_IO : Z := -1.
Definition UVC_ERROR_INVALID_PARAM : Z := -2.
Definition UVC_ERROR_ACCESS : Z := -3.
Definition UVC_ERROR_NO_DEVICE : Z := -4.
Definition UVC_ERROR_NOT_FOUND : Z := -5.
Definition UVC_ERROR_BUSY : Z := -6.
Definition UVC_ERROR_TIMEOUT : Z := -7.
Definition UVC_ERROR_OVERFLOW : Z := -8.
Definition UVC_ERROR_PIPE : Z := -9.
Definition UVC_ERROR_INTERRUPTED : Z := -10.
Definition UVC_ERROR_NO_MEM : Z := -11.
Definition UVC_ERROR_NOT_SUPPORTED : Z := -12.
Definition UVC_ERROR_INVALID_DEVICE : Z := -50.
Definition UVC_ERROR_INVALID_MODE : Z := -51.
Definition UVC_ERROR_CALLBACK_EXISTS : Z := -52.
Definition UVC_ERROR_OTHER : Z := -99.

Abbreviation LIBUSB_SUCCESS := UVC_SUCCESS (only parsing).
Abbreviation LIBUSB_ERROR_NOT_FOUND := UVC_ERROR_NOT_FOUND (only parsing).
Abbreviation LIBUSB_ERROR_NOT_SUPPORTED := UVC_ERROR_NOT_SUPPORTED (only parsing).

(** ** enum uvc_frame_format.  [UNKNOWN] and [ANY] are the same value. *)
Definition UVC_FRAME_FORMAT_UNKNOWN : Z := 0.
Definition UVC_FRAME_FORMAT_ANY : Z := 0.
Definition UVC_FRAME_FORMAT_UNCOMPRESSED : Z := 1.
Definition UVC_FRAME_FORMAT_COMPRESSED : Z := 2.
Definition UVC_FRAME_FORMAT_YUYV : Z := 3.
Definition UVC_FRAME_FORMAT_UYVY : Z := 4.
Definition UVC_FRAME_FORMAT_RGB : Z := 5.
Definition UVC_FRAME_FORMAT_BGR : Z := 6.
Definition UVC_FRAME_FORMAT_MJPEG : Z := 7.
Definition UVC_FRAME_FORMAT_H264 : Z := 8.
Definition UVC_FRAME_FORMAT_H265 : Z := 9.
Definition UVC_FRAME_FORMAT_GRAY8 : Z := 10.
Definition UVC_FRAME_FORMAT_GRAY16 : Z := 11.
Definition UVC_FRAME_FORMAT_BY8 : Z := 12.
Definition UVC_FRAME_FORMAT_BA81 : Z := 13.
Definition UVC_FRAME_FORMAT_SGRBG8 : Z := 14.
Definition UVC_FRAME_FORMAT_SGBRG8 : Z := 15.
Definition UVC_FRAME_FORMAT_SRGGB8 : Z := 16.
Definition UVC_FRAME_FORMAT_SBGGR8 : Z := 17.
Definition UVC_FRAME_FORMAT_NV12 : Z := 18.
Definition UVC_FRAME_FORMAT_P010 : Z := 19.
Definition UVC_FRAME_FORMAT_COUNT : Z := 20.

(** ** enum uvc_req_code *)
Definition UVC_SET_CUR : Z := 0x01.
Definition UVC_GET_CUR : Z := 0x81.
Definition UVC_GET_MIN : Z := 0x82.
Definition UVC_GET_MAX : Z := 0x83.
Definition UVC_GET_RES : Z := 0x84.
Definition UVC_GET_LEN : Z := 0x85.
Definition UVC_GET_INFO : Z := 0x86.
Definition UVC_GET_DEF : Z := 0x87.

(** ** VideoStreaming control selectors *)
Definition UVC_VS_PROBE_CONTROL : Z := 0x01.
Definition UVC_VS_COMMIT_CONTROL : Z := 0x02.
Definition UVC_VS_STILL_PROBE_CONTROL : Z := 0x03.
Definition UVC_VS_STILL_COMMIT_CONTROL : Z := 0x04.
Definition UVC_VS_STILL_IMAGE_TRIGGER_CONTROL : Z := 0x05.

(** ** The descriptor tree *)

Record uvc_still_frame_res := {
  sr_bResolutionIndex : Z;
  sr_wWidth : Z;
  sr_wHeight : Z;
}.

Record uvc_still_frame_desc := {
  sf_bDescriptorSubtype : Z;
  sf_bEndPointAddress : Z;
  sf_imageSizePatterns : list uvc_still_frame_res;
  sf_bNumCompressionPattern : Z;
  sf_bCompression : list Z;          (* [] for NULL *)
}.

Record uvc_frame_desc := {
  fr_bDescriptorSubtype : Z;
  fr_bFrameIndex : Z;
  fr_bmCapabilities : Z;
  fr_wWidth : Z;
  fr_wHeight : Z;
  fr_dwMinBitRate : Z;
  fr_dwMaxBitRate : Z;
  fr_dwMaxVideoFrameBufferSize : Z;
  fr_dwDefaultFrameInterval : Z;
  fr_dwMinFrameInterval : Z;
  fr_dwMaxFrameInterval : Z;
  fr_dwFrameIntervalStep : Z;
  fr_bFrameIntervalType : Z;
  fr_dwBytesPerLine : Z;
  fr_intervals : option (list Z);    (* the heap array, terminator included *)
}.

(** [fm_guidFormat] is the union with [fourccFormat] (its first four bytes);
    [fm_bBitsPerPixel] is the union with [bmFlags]. *)
Record uvc_format_desc := {
  fm_bDescriptorSubtype : Z;
  fm_bFormatIndex : Z;
  fm_bNumFrameDescriptors : Z;
  fm_guidFormat : bytes;
  fm_bBitsPerPixel : Z;
  fm_bDefaultFrameIndex : Z;
  fm_bAspectRatioX : Z;
  fm_bAspectRatioY : Z;
  fm_bmInterlaceFlags : Z;
  fm_bCopyProtect : Z;
  fm_bVariableSize : Z;
  fm_frame_descs : list uvc_frame_desc;
  fm_still_frame_desc : list uvc_still_frame_desc;
}.

Record uvc_streaming_interface := {
  si_bInterfaceNumber : Z;
  si_format_descs : list uvc_format_desc;
  si_bEndpointAddress : Z;
  si_bTerminalLink : Z;
  si_bStillCaptureMethod : Z;
}.

Record uvc_input_terminal := {
  it_bTerminalID : Z;
  it_wTerminalType : Z;
  it_wObjectiveFocalLengthMin : Z;
  it_wObjectiveFocalLengthMax : Z;
  it_wOcularFocalLength : Z;
  it_bmControls : Z;
}.

Record uvc_processing_unit := {
  pu_bUnitID : Z;
  pu_bSourceID : Z;
  pu_bmControls : Z;
}.

Record uvc_selector_unit := { su_bUnitID : Z }.

Record uvc_extension_unit := {
  xu_bUnitID : Z;
  xu_guidExtensionCode : bytes;
  xu_bmControls : Z;
}.

Record uvc_control_interface := {
  ci_input_term_descs : list uvc_input_terminal;
  ci_selector_unit_descs : list uvc_selector_unit;
  ci_processing_unit_descs : list uvc_processing_unit;
  ci_extension_unit_descs : list uvc_extension_unit;
  ci_bcdUVC : Z;
  ci_dwClockFrequency : Z;
  ci_bEndpointAddress : Z;
  ci_bInterfaceNumber : Z;
}.

(** ** libusb's configuration descriptor, as far as the library reads it *)

Record usb_endpoint := {
  ep_bEndpointAddress : Z;
  ep_wMaxPacketSize : Z;
  ep_wBytesPerInterval : option Z;   (* SuperSpeed companion, when present *)
}.

Record usb_altsetting := {
  as_bInterfaceNumber : Z;
  as_bAlternateSetting : Z;
  as_bInterfaceClass : Z;
  as_bInterfaceSubClass : Z;
  as_endpoint : list usb_endpoint;
  as_extra : bytes;
}.

(** [interface[i].altsetting[j]] *)
Abbreviation usb_config := (list (list usb_altsetting)).

Record uvc_device_info := {
  di_config : usb_config;
  di_ctrl_if : uvc_control_interface;
  di_stream_ifs : list uvc_streaming_interface;
}.

(** ** Control blocks *)

Record uvc_stream_ctrl := {
  sc_bmHint : Z;
  sc_bFormatIndex : Z;
  sc_bFrameIndex : Z;
  sc_dwFrameInterval : Z;
  sc_wKeyFrameRate : Z;
  sc_wPFrameRate : Z;
  sc_wCompQuality : Z;
  sc_wCompWindowSize : Z;
  sc_wDelay : Z;
  sc_dwMaxVideoFrameSize : Z;
  sc_dwMaxPayloadTransferSize : Z;
  sc_dwClockFrequency : Z;
  sc_bmFramingInfo : Z;
  sc_bPreferredVersion : Z;
  sc_bMinVersion : Z;
  sc_bMaxVersion : Z;
  sc_bInterfaceNumber : Z;
}.

Record uvc_still_ctrl := {
  st_bFormatIndex : Z;
  st_bFrameIndex : Z;
  st_bCompressionIndex : Z;
  st_dwMaxVideoFrameSize : Z;
  st_dwMaxPayloadTransferSize : Z;
  st_bInterfaceNumber : Z;
}.

(** ** Zero-initialised objects ([calloc]) *)

Definition ctrl_if_zero : uvc_control_interface := {|
  ci_input_term_descs := []; ci_selector_unit_descs := [];
  ci_processing_unit_descs := []; ci_extension_unit_descs := [];
  ci_bcdUVC := 0; ci_dwClockFrequency := 0;
  ci_bEndpointAddress := 0; ci_bInterfaceNumber := 0 |}.

Definition info_zero (config : usb_config) : uvc_device_info := {|
  di_config := config; di_ctrl_if := ctrl_if_zero; di_stream_ifs := [] |}.

(** ** Field assignments *)

Definition set_ctrl_if (info : uvc_device_info) (c : uvc_control_interface) : uvc_device_info :=
  {| di_config := di_config info; di_ctrl_if := c; di_stream_ifs := di_stream_ifs info |}.

Definition set_stream_ifs (info : uvc_device_info) (l : list uvc_streaming_interface) : uvc_device_info :=
  {| di_config := di_config info; di_ctrl_if := di_ctrl_if info; di_stream_ifs := l |}.

Definition set_format_descs (s : uvc_streaming_interface) (l : list uvc_format_desc) : uvc_streaming_interface :=
  {| si_bInterfaceNumber := si_bInterfaceNumber s; si_format_descs := l;
     si_bEndpointAddress := si_bEndpointAddress s; si_bTerminalLink := si_bTerminalLink s;
     si_bStillCaptureMethod := si_bStillCaptureMethod s |}.

Definition set_frame_descs (f : uvc_format_desc) (l : list uvc_frame_desc) : uvc_format_desc :=
  {| fm_bDescriptorSubtype := fm_bDescriptorSubtype f; fm_bFormatIndex := fm_bFormatIndex f;
     fm_bNumFrameDescriptors := fm_bNumFrameDescriptors f; fm_guidFormat := fm_guidFormat f;
     fm_bBitsPerPixel := fm_bBitsPerPixel f; fm_bDefaultFrameIndex := fm_bDefaultFrameIndex f;
     fm_bAspectRatioX := fm_bAspectRatioX f; fm_bAspectRatioY := fm_bAspectRatioY f;
     fm_bmInterlaceFlags := fm_bmInterlaceFlags f; fm_bCopyProtect := fm_bCopyProtect f;
     fm_bVariableSize := fm_bVariableSize f; fm_frame_descs := l;
     fm_still_frame_desc := fm_still_frame_desc f |}.

Definition set_still_frame_desc (f : uvc_format_desc) (l : list uvc_still_frame_desc) : uvc_format_desc :=
  {| fm_bDescriptorSubtype := fm_bDescriptorSubtype f; fm_bFormatIndex := fm_bFormatIndex f;
     fm_bNumFrameDescriptors := fm_bNumFrameDescriptors f; fm_guidFormat := fm_guidFormat f;
     fm_bBitsPerPixel := fm_bBitsPerPixel f; fm_bDefaultFrameIndex := fm_bDefaultFrameIndex f;
     fm_bAspectRatioX := fm_bAspectRatioX f; fm_bAspectRatioY := fm_bAspectRatioY f;
     fm_bmInterlaceFlags := fm_bmInterlaceFlags f; fm_bCopyProtect := fm_bCopyProtect f;
     fm_bVariableSize := fm_bVariableSize f; fm_frame_descs := fm_frame_descs f;
     fm_still_frame_desc := l |}.

(** ** Well-formed descriptors

    What the parser promises to the negotiation code about every frame it
    builds: fields at their width and, when discrete, an interval array that is
    zero-terminated and has no zero before the terminator. *)

Record frame_wf (f : uvc_frame_desc) : Prop := {
  wf_index : fits 8 (fr_bFrameIndex f);
  wf_width : fits 16 (fr_wWidth f);
  wf_height : fits 16 (fr_wHeight f);
  wf_maxrate : fits 32 (fr_dwMaxBitRate f);
  wf_bufsize : fits 32 (fr_dwMaxVideoFrameBufferSize f);
  wf_default : fits 32 (fr_dwDefaultFrameInterval f);
  wf_min : fits 32 (fr_dwMinFrameInterval f);
  wf_max : fits 32 (fr_dwMaxFrameInterval f);
  wf_step : fits 32 (fr_dwFrameIntervalStep f);
  wf_intervals :
    match fr_intervals f with
    | None => fr_bFrameIntervalType f = 0
    | Some a => ∃ l, a = l ++ [0] ∧ len l = fr_bFrameIntervalType f
                     ∧ 0 < len l ∧ Forall (λ z, fits 32 z ∧ z ≠ 0) l
    end;
}.

Definition format_wf (f : uvc_format_desc) : Prop :=
  fits 8 (fm_bFormatIndex f) ∧ length (fm_guidFormat f) = 16%nat
  ∧ fits 8 (fm_bBitsPerPixel f) ∧ Forall frame_wf (fm_frame_descs f).

Definition stream_if_wf (s : uvc_streaming_interface) : Prop :=
  Forall format_wf (si_format_descs s).

Definition info_wf (info : uvc_device_info) : Prop :=
  Forall stream_if_wf (di_stream_ifs info).
