(* ===== verification/Environment.v ===== *)
(** * Environment: libusb, the device and the operating system

    Everything outside the library answers requests.  A [request] is one call of
    a libusb function or a system call with its arguments; the [Environment]
    answers it from the whole history of requests and answers, so a theorem over
    every [Environment] holds for every device, kernel and libusb, with any
    memory and any failures.  The code runs in the monad [io]: it threads the
    history and may reach undefined behaviour. *)

From stdpp Require Import prelude.
From S2P Require Import Prelude.

(** ** Requests and answers *)

(** The blocks whose allocation the code asks for one at a time. *)
Inductive heap_block :=
  | BGuard
  | BDevice
  | BHandle
  | BInfo
  | BStream
  | BOutbuf
  | BHoldbuf
  | BMetaOutbuf
  | BMetaHoldbuf.

#[export] Instance heap_block_eq_dec : EqDecision heap_block.
Proof. solve_decision. Defined.

Inductive request :=
  (* libusb *)
  | ControlTransfer (bmRequestType bRequest wValue wIndex : Z) (data : bytes) (wLength timeout : Z)
  | DetachKernelDriver (idx : Z)
  | AttachKernelDriver (idx : Z)
  | ClaimInterface (idx : Z)
  | ReleaseInterface (idx : Z)
  | SetInterfaceAltSetting (idx alt : Z)
  | GetDeviceDescriptor
  | GetBusNumber
  | GetDeviceAddress
  | LibusbOpen
  | WrapSysDevice (sys_dev : Z)
  | SetAutoDetachKernelDriver (enable : Z)
  | LibusbClose
  | AllocTransfer
  | SubmitTransfer
  (* system calls *)
  | Open (path : bytes)
  | Read (fd n : Z)
  | Close (fd : Z)
  | IoctlConnect (fd ifno : Z)
  | Poll (ms : Z)
  | Setsid
  | Sysconf
  | Calloc (b : heap_block)
  | Malloc (b : heap_block)
  | Free
  | Mmap
  | Munmap
  | Pipe2
  | RawFork
  | Waitpid
  (* a store to memory another process reads: the armed mask of the reattach record *)
  | StoreArmed (armed : Z).

(** [rs_code] is the returned number, [rs_errno] the [errno] left behind and
    [rs_data] what was stored through the pointer arguments. *)
Record response := {
  rs_code : Z;
  rs_errno : Z;
  rs_data : list Z;
}.

#[export] Instance request_eq_dec : EqDecision request.
Proof. solve_decision. Defined.

#[export] Instance response_eq_dec : EqDecision response.
Proof. solve_decision. Defined.

Abbreviation event := (request * response)%type.
Abbreviation trace := (list event).

Class Environment := answer : trace → request → response.

(** ** The monad *)

Definition io (A : Type) : Type := trace → outcome (A * trace).

#[export] Instance io_ret : MRet io := λ A a t, Ret (a, t).

#[export] Instance io_bind : MBind io := λ A B f m t,
  match m t with
  | Ret (a, t') => f a t'
  | Undef e => Undef e
  end.

Definition lift {A} (m : outcome A) : io A := λ t,
  match m with
  | Ret a => Ret (a, t)
  | Undef e => Undef e
  end.

Definition ask `{Environment} (q : request) : io response := λ t,
  Ret (answer t q, t ++ [(q, answer t q)]).

(** A call of which only the returned number matters. *)
Definition call `{Environment} (q : request) : io Z :=
  r ← ask q;
  mret (rs_code r).

(** A caller's buffer after the environment stored [data] in it: at most the
    buffer's length is written, and what is stored are bytes. *)
Definition store_into (buf data : bytes) : bytes :=
  (u8 <$> take (length buf) data) ++ drop (length data) buf.

(** [libusb_control_transfer]: the returned number and the caller's buffer
    afterwards.  [wLength] bytes of the buffer are sent; an IN transfer (bit 7 of
    the request type) fills at most as many. *)
Definition control_transfer `{Environment} (bmRequestType bRequest wValue wIndex : Z) (data : bytes)
    (wLength timeout : Z) : io (Z * bytes) :=
  sent ← lift (rd_bytes data 0 wLength);
  r ← ask (ControlTransfer bmRequestType bRequest wValue wIndex sent wLength timeout);
  mret (rs_code r,
        if Z.testbit bmRequestType 7
        then store_into sent (rs_data r) ++ drop (Z.to_nat wLength) data else data).

(** ** Reasoning *)

(** [wp m P t]: from history [t], [m] returns without undefined behaviour and
    its value and the history it leaves are in [P]. *)
Definition wp {A} (m : io A) (P : A → trace → Prop) (t : trace) : Prop :=
  returns (m t) (λ '(a, t'), P a t').

Section wp_laws.
Context `{Environment}.
Context {A B : Type}.
Implicit Types (m : io A) (f : A → io B).

Lemma wp_ret (a : A) P t : wp (mret a) P t ↔ P a t.
Proof. done. Qed.

Lemma wp_bind m f P t : wp (m ≫= f) P t ↔ wp m (λ a t', wp (f a) P t') t.
Proof. unfold wp, mbind, io_bind. by destruct (m t) as [[a t']|]. Qed.

Lemma wp_mono m (P Q : A → trace → Prop) t :
  wp m P t → (∀ a t', P a t' → Q a t') → wp m Q t.
Proof. unfold wp. destruct (m t) as [[a t']|]; naive_solver. Qed.

Lemma wp_ask q (P : response → trace → Prop) t :
  wp (ask q) P t ↔ P (answer t q) (t ++ [(q, answer t q)]).
Proof. done. Qed.

Lemma wp_call q P t : wp (call q) P t ↔ P (rs_code (answer t q)) (t ++ [(q, answer t q)]).
Proof. done. Qed.

Lemma wp_lift (o : outcome A) P t : wp (lift o) P t ↔ returns o (λ a, P a t).
Proof. unfold wp, lift. by destruct o. Qed.

Lemma wp_Ret m P t a t' : m t = Ret (a, t') → wp m P t ↔ P a t'.
Proof. unfold wp. by intros ->. Qed.

Lemma wp_iff m P t : wp m P t ↔ ∃ a t', m t = Ret (a, t') ∧ P a t'.
Proof.
  unfold wp. rewrite returns_iff. split.
  - intros ([a t'] & ? & ?). eauto.
  - intros (a & t' & ? & ?). by exists (a, t').
Qed.

Lemma wp_and m (P Q : A → trace → Prop) t :
  wp m P t → wp m Q t → wp m (λ a t', P a t' ∧ Q a t') t.
Proof. unfold wp. destruct (m t) as [[a t']|]; naive_solver. Qed.
End wp_laws.

(** Running a step: the equations of a bind on a given history. *)
Section run_laws.
Context `{Environment} {A B : Type}.
Implicit Types f : A → io B.

Lemma run_bind (m : io A) f t a t' : m t = Ret (a, t') → (m ≫= f) t = f a t'.
Proof. unfold mbind, io_bind. by intros ->. Qed.

Lemma run_ret (a : A) f t : (mret a ≫= f) t = f a t.
Proof. done. Qed.

Lemma run_lift (o : outcome A) f t a : o = Ret a → (lift o ≫= f) t = f a t.
Proof. by intros ->. Qed.

Lemma run_ask q (f : response → io B) t :
  (ask q ≫= f) t = f (answer t q) (t ++ [(q, answer t q)]).
Proof. done. Qed.

Lemma run_call q (f : Z → io B) t :
  (call q ≫= f) t = f (rs_code (answer t q)) (t ++ [(q, answer t q)]).
Proof. done. Qed.

Lemma bind_assoc {C} (m : io A) f (g : B → io C) t :
  ((m ≫= f) ≫= g) t = (m ≫= λ a, f a ≫= g) t.
Proof. unfold mbind, io_bind. by destruct (m t) as [[]|]. Qed.

Lemma run_bind_inv (m : io A) f t b t'' :
  (m ≫= f) t = Ret (b, t'') → ∃ a t', m t = Ret (a, t') ∧ f a t' = Ret (b, t'').
Proof. unfold mbind, io_bind. destruct (m t) as [[a t']|]; naive_solver. Qed.
End run_laws.

Ltac io_step :=
  first [rewrite run_ret | rewrite run_ask | rewrite run_call | erewrite run_lift by eassumption]; cbn beta.

(** One step of straight-line code. *)
Ltac wp_step :=
  first
    [ rewrite wp_bind
    | rewrite wp_ret
    | rewrite wp_call
    | rewrite wp_ask
    | rewrite wp_lift ].

Ltac wp_run := repeat (wp_step; cbn beta).

Lemma store_into_len buf data : len (store_into buf data) = len buf.
Proof.
  unfold store_into, len. rewrite length_app, length_fmap, length_take, length_drop. lia.
Qed.

Lemma store_into_ok buf data : bytes_ok buf → bytes_ok (store_into buf data).
Proof.
  intros Hb. apply Forall_app. split; [|by apply bytes_ok_drop].
  apply Forall_fmap, Forall_true. intros x. by apply wrapu_fits.
Qed.

(** A full-length answer replaces the buffer. *)
Lemma store_into_full buf data :
  length data = length buf → bytes_ok data → store_into buf data = data.
Proof.
  intros Hl Hd. unfold store_into. rewrite <- Hl, firstn_all, drop_ge, app_nil_r by lia.
  clear Hl. induction Hd as [|x l Hx _ IH]; [done|].
  cbn [fmap list_fmap]. rewrite IH. by rewrite wrapu_id.
Qed.

(** A transfer of the whole buffer. *)
Lemma run_control_transfer `{Environment} {B} ty rq v ix data n tmo (f : Z * bytes → io B) t :
  n = len data →
  let q := ControlTransfer ty rq v ix data n tmo in
  (control_transfer ty rq v ix data n tmo ≫= f) t
  = f (rs_code (answer t q), if Z.testbit ty 7 then store_into data (rs_data (answer t q)) else data)
      (t ++ [(q, answer t q)]).
Proof.
  intros -> q. unfold control_transfer. rewrite bind_assoc.
  pose proof (len_nonneg data).
  rewrite (run_lift _ _ _ (take (Z.to_nat (len data)) (drop (Z.to_nat 0) data))) by (apply rd_bytes_in; lia).
  simpl drop. unfold len. rewrite Nat2Z.id, firstn_all. fold (len data). rewrite bind_assoc, run_ask, run_ret.
  rewrite drop_all, app_nil_r. done.
Qed.
