(* ===== verification/Formats.v ===== *)
(** * Formats: the frame-format table of src/stream.c

    [_get_format_entry] maps a format to its GUID or to the formats it stands
    for, [_uvc_frame_format_matches_guid] is the test the negotiation applies to
    a format descriptor, [uvc_frame_format_for_guid] is the lookup
    [uvc_stream_start] applies to the same descriptor later. *)

From stdpp Require Import prelude.
From S2P Require Import Prelude Types.

Record format_table_entry := {
  fe_format : Z;
  fe_abstract_fmt : Z;
  fe_guid : bytes;
  fe_children : list Z;
}.

Definition guid_zero : bytes := replicate 16 0.

(** The twelve bytes most GUIDs share after their FourCC. *)
Definition guid_tail : bytes :=
  [0x00; 0x00; 0x10; 0x00; 0x80; 0x00; 0x00; 0xaa; 0x00; 0x38; 0x9b; 0x71].

Definition ABS_FMT (fmt : Z) (children : list Z) : option format_table_entry :=
  Some {| fe_format := fmt; fe_abstract_fmt := 0; fe_guid := guid_zero; fe_children := children |}.

Definition FMT (fmt : Z) (guid : bytes) : option format_table_entry :=
  Some {| fe_format := fmt; fe_abstract_fmt := 0; fe_guid := guid; fe_children := [] |}.

Definition _get_format_entry (format : Z) : option format_table_entry :=
  if format =? UVC_FRAME_FORMAT_ANY then
    ABS_FMT UVC_FRAME_FORMAT_ANY [UVC_FRAME_FORMAT_UNCOMPRESSED; UVC_FRAME_FORMAT_COMPRESSED]
  else if format =? UVC_FRAME_FORMAT_UNCOMPRESSED then
    ABS_FMT UVC_FRAME_FORMAT_UNCOMPRESSED
      [UVC_FRAME_FORMAT_YUYV; UVC_FRAME_FORMAT_UYVY; UVC_FRAME_FORMAT_GRAY8;
       UVC_FRAME_FORMAT_GRAY16; UVC_FRAME_FORMAT_NV12; UVC_FRAME_FORMAT_P010;
       UVC_FRAME_FORMAT_BGR; UVC_FRAME_FORMAT_RGB]
  else if format =? UVC_FRAME_FORMAT_YUYV then
    FMT UVC_FRAME_FORMAT_YUYV ([0x59; 0x55; 0x59; 0x32] ++ guid_tail)
  else if format =? UVC_FRAME_FORMAT_UYVY then
    FMT UVC_FRAME_FORMAT_UYVY ([0x55; 0x59; 0x56; 0x59] ++ guid_tail)
  else if format =? UVC_FRAME_FORMAT_GRAY8 then
    FMT UVC_FRAME_FORMAT_GRAY8 ([0x59; 0x38; 0x30; 0x30] ++ guid_tail)
  else if format =? UVC_FRAME_FORMAT_GRAY16 then
    FMT UVC_FRAME_FORMAT_GRAY16 ([0x59; 0x31; 0x36; 0x20] ++ guid_tail)
  else if format =? UVC_FRAME_FORMAT_NV12 then
    FMT UVC_FRAME_FORMAT_NV12 ([0x4e; 0x56; 0x31; 0x32] ++ guid_tail)
  else if format =? UVC_FRAME_FORMAT_P010 then
    FMT UVC_FRAME_FORMAT_P010 ([0x50; 0x30; 0x31; 0x30] ++ guid_tail)
  else if format =? UVC_FRAME_FORMAT_BGR then
    FMT UVC_FRAME_FORMAT_BGR
      [0x7d; 0xeb; 0x36; 0xe4; 0x4f; 0x52; 0xce; 0x11; 0x9f; 0x53; 0x00; 0x20; 0xaf; 0x0b; 0xa7; 0x70]
  else if format =? UVC_FRAME_FORMAT_RGB then
    FMT UVC_FRAME_FORMAT_RGB
      [0x7e; 0xeb; 0x36; 0xe4; 0x4f; 0x52; 0xce; 0x11; 0x9f; 0x53; 0x00; 0x20; 0xaf; 0x0b; 0xa7; 0x70]
  else if format =? UVC_FRAME_FORMAT_BY8 then
    FMT UVC_FRAME_FORMAT_BY8 ([0x42; 0x59; 0x38; 0x20] ++ guid_tail)
  else if format =? UVC_FRAME_FORMAT_BA81 then
    FMT UVC_FRAME_FORMAT_BA81 ([0x42; 0x41; 0x38; 0x31] ++ guid_tail)
  else if format =? UVC_FRAME_FORMAT_SGRBG8 then
    FMT UVC_FRAME_FORMAT_SGRBG8 ([0x47; 0x52; 0x42; 0x47] ++ guid_tail)
  else if format =? UVC_FRAME_FORMAT_SGBRG8 then
    FMT UVC_FRAME_FORMAT_SGBRG8 ([0x47; 0x42; 0x52; 0x47] ++ guid_tail)
  else if format =? UVC_FRAME_FORMAT_SRGGB8 then
    FMT UVC_FRAME_FORMAT_SRGGB8 ([0x52; 0x47; 0x47; 0x42] ++ guid_tail)
  else if format =? UVC_FRAME_FORMAT_SBGGR8 then
    FMT UVC_FRAME_FORMAT_SBGGR8 ([0x42; 0x47; 0x47; 0x52] ++ guid_tail)
  else if format =? UVC_FRAME_FORMAT_COMPRESSED then
    ABS_FMT UVC_FRAME_FORMAT_COMPRESSED
      [UVC_FRAME_FORMAT_MJPEG; UVC_FRAME_FORMAT_H264; UVC_FRAME_FORMAT_H265]
  else if format =? UVC_FRAME_FORMAT_MJPEG then
    FMT UVC_FRAME_FORMAT_MJPEG ([0x4d; 0x4a; 0x50; 0x47] ++ replicate 12 0)
  else if format =? UVC_FRAME_FORMAT_H264 then
    FMT UVC_FRAME_FORMAT_H264 ([0x48; 0x32; 0x36; 0x34] ++ guid_tail)
  else if format =? UVC_FRAME_FORMAT_H265 then
    FMT UVC_FRAME_FORMAT_H265 ([0x48; 0x32; 0x36; 0x35] ++ guid_tail)
  else None.

(** The loop over [children], with the recursive call as a parameter. *)
Fixpoint any_child (test : Z → outcome bool) (children : list Z) : outcome bool :=
  match children with
  | [] => Ret false
  | c :: cs => b ← test c; if (b : bool) then Ret true else any_child test cs
  end.

(** The recursion is on the table; [fuel] bounds its depth. *)
Fixpoint matches_guid_rec (fuel : nat) (fmt : Z) (guid : bytes) : outcome bool :=
  match fuel with
  | O => Undef Diverged
  | S fuel =>
      match _get_format_entry fmt with
      | None => Ret false
      | Some format =>
          if negb (nz (fe_abstract_fmt format)) && bool_decide (guid = fe_guid format)
          then Ret true
          else any_child (λ child, matches_guid_rec fuel child guid) (fe_children format)
      end
  end.

(** Three levels are what the table has: ANY, its two families, the formats. *)
Definition _uvc_frame_format_matches_guid (fmt : Z) (guid : bytes) : outcome bool :=
  matches_guid_rec 3 fmt guid.

(** [for (fmt = 0; fmt < UVC_FRAME_FORMAT_COUNT; ++fmt)] *)
Fixpoint for_guid_loop (fmts : list Z) (guid : bytes) : Z :=
  match fmts with
  | [] => UVC_FRAME_FORMAT_UNKNOWN
  | fmt :: rest =>
      match _get_format_entry fmt with
      | None => for_guid_loop rest guid
      | Some format =>
          if nz (fe_abstract_fmt format) then for_guid_loop rest guid
          else if bool_decide (fe_guid format = guid) then fe_format format
          else for_guid_loop rest guid
      end
  end.

Definition uvc_frame_format_for_guid (guid : bytes) : Z :=
  for_guid_loop (seqZ 0 UVC_FRAME_FORMAT_COUNT) guid.

(** ** Specification: a format stands for itself and for what its children stand for. *)

Inductive descends : Z → Z → Prop :=
  | descends_refl fmt : descends fmt fmt
  | descends_child fmt e c f :
      _get_format_entry fmt = Some e → c ∈ fe_children e → descends c f → descends fmt f.

Definition has_guid (f : Z) (guid : bytes) : Prop :=
  ∃ e, _get_format_entry f = Some e ∧ fe_guid e = guid.

(** ** The table *)

Definition all_formats : list Z := seqZ 0 UVC_FRAME_FORMAT_COUNT.

Lemma entry_in_table fmt e : _get_format_entry fmt = Some e → fmt ∈ all_formats.
Proof.
  unfold _get_format_entry. intros H.
  repeat match type of H with
  | (if ?b then _ else _) = _ =>
      destruct b eqn:E; [apply Z.eqb_eq in E as ->; by apply elem_of_seqZ|clear E]
  end. done.
Qed.

Lemma all_formats_ind (P : Z → Prop) :
  Forall P all_formats → ∀ fmt e, _get_format_entry fmt = Some e → P fmt.
Proof.
  intros HP fmt e He. rewrite Forall_forall in HP. eapply HP, entry_in_table, He.
Qed.

Lemma any_child_spec test cs (P : Z → Prop) :
  Forall (λ c, returns (test c) (λ b, b = true ↔ P c)) cs →
  returns (any_child test cs) (λ b, b = true ↔ Exists P cs).
Proof.
  induction 1 as [|c cs Hc _ IH]; simpl.
  - split; [done|]. intros H. inversion H.
  - destruct (test c) as [b|]; [|done]. simpl in *. destruct b; simpl.
    + split; [|done]. intros _. constructor. by apply Hc.
    + eapply returns_mono; [apply IH|]. intros b Hb. rewrite Exists_cons. naive_solver.
Qed.

(** Height of a format in the table: no chain of children is longer. *)
Definition height (fmt : Z) : nat :=
  if fmt =? UVC_FRAME_FORMAT_ANY then 2
  else if (fmt =? UVC_FRAME_FORMAT_UNCOMPRESSED) || (fmt =? UVC_FRAME_FORMAT_COMPRESSED) then 1
  else 0.

Lemma height_child fmt e c :
  _get_format_entry fmt = Some e → c ∈ fe_children e → (height c < height fmt)%nat.
Proof.
  intros He. revert e He.
  assert (∀ fmt e, _get_format_entry fmt = Some e →
    ∀ e', _get_format_entry fmt = Some e' →
    Forall (λ c, (height c < height fmt)%nat) (fe_children e')) as H.
  { apply (all_formats_ind (λ fmt, ∀ e', _get_format_entry fmt = Some e' →
      Forall (λ c, (height c < height fmt)%nat) (fe_children e'))).
    repeat (apply Forall_cons; split);
      [intros e' [= <-]; simpl; repeat constructor ..|constructor]. }
  intros e He Hc. specialize (H fmt e He e He). rewrite Forall_forall in H. by apply H.
Qed.

Lemma entry_concrete fmt e : _get_format_entry fmt = Some e → fe_abstract_fmt e = 0.
Proof.
  unfold _get_format_entry. intros H.
  repeat match type of H with
  | (if ?b then _ else _) = _ => destruct b; [by injection H as <-|]
  end. done.
Qed.

Lemma matches_guid_rec_spec fuel fmt guid :
  (height fmt < fuel)%nat →
  returns (matches_guid_rec fuel fmt guid)
    (λ b, b = true ↔ ∃ f, descends fmt f ∧ has_guid f guid).
Proof.
  revert fmt. induction fuel as [|fuel IH]; intros fmt Hh; [lia|]. simpl.
  destruct (_get_format_entry fmt) as [e|] eqn:He; simpl.
  2: { split; [done|]. intros (f & Hd & e' & He' & _). inversion Hd; congruence. }
  rewrite (entry_concrete fmt e He). simpl. case_bool_decide as Hg; simpl.
  { split; [|done]. intros _. exists fmt. split; [constructor|]. by exists e. }
  eapply returns_mono.
  - apply (any_child_spec _ _ (λ c, ∃ f, descends c f ∧ has_guid f guid)).
    apply Forall_forall. intros c Hc. apply IH. pose proof (height_child _ _ _ He Hc). lia.
  - intros b ->. rewrite Exists_exists. split.
    + intros (c & Hc & f & Hd & Hf). exists f. split; [|done]. by eapply descends_child.
    + intros (f & Hd & Hf). inversion Hd as [|? e' c ? He' Hc Hdc]; subst.
      * destruct Hf as (e' & He' & ?). congruence.
      * rewrite He in He'. injection He' as <-. naive_solver.
Qed.

(** [_uvc_frame_format_matches_guid] terminates on every input and accepts
    exactly the GUIDs of the formats the requested format stands for. *)
Theorem matches_guid_iff fmt guid :
  ∃ b, _uvc_frame_format_matches_guid fmt guid = Ret b
       ∧ (b = true ↔ ∃ f, descends fmt f ∧ has_guid f guid).
Proof.
  apply returns_iff, matches_guid_rec_spec. unfold height.
  repeat case_match; lia.
Qed.

(** ** GUID lookup *)

Lemma for_guid_complete f guid :
  f ≠ UVC_FRAME_FORMAT_UNKNOWN → has_guid f guid → guid ≠ guid_zero →
  uvc_frame_format_for_guid guid = f.
Proof.
  intros Hf (e & He & <-) Hz. revert e He Hf Hz.
  assert (∀ fmt e, _get_format_entry fmt = Some e →
    ∀ e', _get_format_entry fmt = Some e' → fmt ≠ UVC_FRAME_FORMAT_UNKNOWN →
    fe_guid e' ≠ guid_zero → uvc_frame_format_for_guid (fe_guid e') = fmt) as H.
  { apply (all_formats_ind (λ fmt, ∀ e', _get_format_entry fmt = Some e' →
      fmt ≠ UVC_FRAME_FORMAT_UNKNOWN → fe_guid e' ≠ guid_zero →
      uvc_frame_format_for_guid (fe_guid e') = fmt)).
    repeat (apply Forall_cons; split);
      [intros e' [= <-] Hf Hz; first [by destruct Hf|by destruct Hz|vm_compute; reflexivity]..|constructor]. }
  intros e He. by apply (H f e He).
Qed.

Lemma matches_guid_true fmt guid :
  _uvc_frame_format_matches_guid fmt guid = Ret true →
  ∃ f, descends fmt f ∧ has_guid f guid.
Proof.
  intros H. unfold _uvc_frame_format_matches_guid in H.
  assert (returns (matches_guid_rec 3 fmt guid)
    (λ b, b = true ↔ ∃ f, descends fmt f ∧ has_guid f guid)) as Hs.
  { apply matches_guid_rec_spec. unfold height. repeat case_match; lia. }
  rewrite H in Hs. by apply Hs.
Qed.

(** A descriptor the negotiation accepts for a requested format is resolved
    by [uvc_stream_start]'s lookup to a concrete format that the request stands
    for: the two table walks agree on every GUID but the all-zero one. *)
Theorem accepted_guid_resolves cf guid :
  guid ≠ guid_zero →
  _uvc_frame_format_matches_guid cf guid = Ret true →
  uvc_frame_format_for_guid guid ≠ UVC_FRAME_FORMAT_UNKNOWN
  ∧ descends cf (uvc_frame_format_for_guid guid)
  ∧ has_guid (uvc_frame_format_for_guid guid) guid.
Proof.
  intros Hz (f & Hd & Hg)%matches_guid_true.
  assert (f ≠ UVC_FRAME_FORMAT_UNKNOWN) as Hf.
  { intros ->. destruct Hg as (e & [= <-] & <-). by apply Hz. }
  rewrite (for_guid_complete f) by done. done.
Qed.

Definition h265_guid : bytes := [0x48; 0x32; 0x36; 0x35] ++ guid_tail.

Lemma accepted_guid_resolves_witness :
  descends UVC_FRAME_FORMAT_COMPRESSED (uvc_frame_format_for_guid h265_guid).
Proof.
  apply (accepted_guid_resolves UVC_FRAME_FORMAT_COMPRESSED h265_guid);
    [discriminate|vm_compute; reflexivity].
Defined.

(** The entries of the format families carry [abstract_fmt = 0] and a zero
    GUID, so a descriptor with an all-zero GUID is accepted for each family,
    while [uvc_stream_start]'s lookup reports it as unknown. *)
Theorem zero_guid_accepted_but_unknown fmt :
  fmt ∈ [UVC_FRAME_FORMAT_ANY; UVC_FRAME_FORMAT_UNCOMPRESSED; UVC_FRAME_FORMAT_COMPRESSED] →
  _uvc_frame_format_matches_guid fmt guid_zero = Ret true
  ∧ uvc_frame_format_for_guid guid_zero = UVC_FRAME_FORMAT_UNKNOWN.
Proof.
  intros Hf. split; [|vm_compute; reflexivity].
  rewrite !elem_of_cons, elem_of_nil in Hf.
  destruct Hf as [->|[->|[->|[]]]]; vm_compute; reflexivity.
Qed.

Lemma zero_guid_accepted_but_unknown_witness :
  _uvc_frame_format_matches_guid UVC_FRAME_FORMAT_ANY guid_zero = Ret true.
Proof. apply zero_guid_accepted_but_unknown. repeat constructor. Defined.
