(* ===== verification/Descriptors.v ===== *)
(** * Descriptors: the descriptor parser of src/device.c

    The class-specific descriptors of an interface are one byte array, [extra],
    scanned block by block.  A parser gets the pointer to its block, modelled as
    the suffix of [extra] that starts there: a read past the block but inside
    [extra] gives the byte that is there, a read past [extra] is undefined.  A
    parser returns its error code with the state it leaves, because the C code
    has already linked the objects it built when it reports an error. *)

From stdpp Require Import prelude.
From S2P Require Import Prelude Types.

(** ** Descriptor subtypes *)
Definition UVC_VC_HEADER : Z := 0x01.
Definition UVC_VC_INPUT_TERMINAL : Z := 0x02.
Definition UVC_VC_OUTPUT_TERMINAL : Z := 0x03.
Definition UVC_VC_SELECTOR_UNIT : Z := 0x04.
Definition UVC_VC_PROCESSING_UNIT : Z := 0x05.
Definition UVC_VC_EXTENSION_UNIT : Z := 0x06.

Definition UVC_VS_INPUT_HEADER : Z := 0x01.
Definition UVC_VS_OUTPUT_HEADER : Z := 0x02.
Definition UVC_VS_STILL_IMAGE_FRAME : Z := 0x03.
Definition UVC_VS_FORMAT_UNCOMPRESSED : Z := 0x04.
Definition UVC_VS_FRAME_UNCOMPRESSED : Z := 0x05.
Definition UVC_VS_FORMAT_MJPEG : Z := 0x06.
Definition UVC_VS_FRAME_MJPEG : Z := 0x07.
Definition UVC_VS_FORMAT_FRAME_BASED : Z := 0x10.
Definition UVC_VS_FRAME_FRAME_BASED : Z := 0x11.

Definition UVC_ITT_CAMERA : Z := 0x0201.

(** ** VideoStreaming blocks *)

(** [format_descs->prev]: the last format, a null dereference on an empty list. *)
Definition last_format (s : uvc_streaming_interface) : outcome uvc_format_desc :=
  deref (last (si_format_descs s)).

(** Storing through the pointer [format_descs->prev]. *)
Definition store_last_format (s : uvc_streaming_interface) (f : uvc_format_desc) : uvc_streaming_interface :=
  set_format_descs s (take (length (si_format_descs s) - 1) (si_format_descs s) ++ [f]).

Definition uvc_parse_vs_input_header (s : uvc_streaming_interface) (block : bytes)
    : outcome (Z * uvc_streaming_interface) :=
  b6 ← rd block 6;
  b8 ← rd block 8;
  b9 ← rd block 9;
  Ret (UVC_SUCCESS,
    {| si_bInterfaceNumber := si_bInterfaceNumber s;
       si_format_descs := si_format_descs s;
       si_bEndpointAddress := Z.land b6 0x8f;
       si_bTerminalLink := b8;
       si_bStillCaptureMethod := b9 |}).

Definition uvc_parse_vs_format_uncompressed (s : uvc_streaming_interface) (block : bytes)
    : outcome (Z * uvc_streaming_interface) :=
  b2 ← rd block 2;
  b3 ← rd block 3;
  guid ← rd_bytes block 5 16;
  b21 ← rd block 21;
  b22 ← rd block 22;
  b23 ← rd block 23;
  b24 ← rd block 24;
  b25 ← rd block 25;
  b26 ← rd block 26;
  Ret (UVC_SUCCESS, set_format_descs s (si_format_descs s ++ [
    {| fm_bDescriptorSubtype := b2; fm_bFormatIndex := b3; fm_bNumFrameDescriptors := 0;
       fm_guidFormat := guid; fm_bBitsPerPixel := b21; fm_bDefaultFrameIndex := b22;
       fm_bAspectRatioX := b23; fm_bAspectRatioY := b24; fm_bmInterlaceFlags := b25;
       fm_bCopyProtect := b26; fm_bVariableSize := 0;
       fm_frame_descs := []; fm_still_frame_desc := [] |}])).

Definition uvc_parse_vs_frame_format (s : uvc_streaming_interface) (block : bytes) (block_size : Z)
    : outcome (Z * uvc_streaming_interface) :=
  if block_size <? 28 then Ret (UVC_ERROR_INVALID_DEVICE, s) else
  b2 ← rd block 2;
  b3 ← rd block 3;
  b4 ← rd block 4;
  guid ← rd_bytes block 5 16;
  b21 ← rd block 21;
  b22 ← rd block 22;
  b23 ← rd block 23;
  b24 ← rd block 24;
  b25 ← rd block 25;
  b26 ← rd block 26;
  b27 ← rd block 27;
  Ret (UVC_SUCCESS, set_format_descs s (si_format_descs s ++ [
    {| fm_bDescriptorSubtype := b2; fm_bFormatIndex := b3; fm_bNumFrameDescriptors := b4;
       fm_guidFormat := guid; fm_bBitsPerPixel := b21; fm_bDefaultFrameIndex := b22;
       fm_bAspectRatioX := b23; fm_bAspectRatioY := b24; fm_bmInterlaceFlags := b25;
       fm_bCopyProtect := b26; fm_bVariableSize := b27;
       fm_frame_descs := []; fm_still_frame_desc := [] |}])).

(** [fourccFormat] is the first four bytes of the zeroed [guidFormat]; the store
    of 0 to [bBitsPerPixel] overwrites [bmFlags], which shares its byte. *)
Definition uvc_parse_vs_format_mjpeg (s : uvc_streaming_interface) (block : bytes)
    : outcome (Z * uvc_streaming_interface) :=
  b2 ← rd block 2;
  b3 ← rd block 3;
  b5 ← rd block 5;
  let bmFlags_or_bpp := b5 in
  let bmFlags_or_bpp := 0 in
  b6 ← rd block 6;
  b7 ← rd block 7;
  b8 ← rd block 8;
  b9 ← rd block 9;
  b10 ← rd block 10;
  Ret (UVC_SUCCESS, set_format_descs s (si_format_descs s ++ [
    {| fm_bDescriptorSubtype := b2; fm_bFormatIndex := b3; fm_bNumFrameDescriptors := 0;
       fm_guidFormat := [0x4d; 0x4a; 0x50; 0x47] ++ replicate 12 0;
       fm_bBitsPerPixel := bmFlags_or_bpp; fm_bDefaultFrameIndex := b6;
       fm_bAspectRatioX := b7; fm_bAspectRatioY := b8; fm_bmInterlaceFlags := b9;
       fm_bCopyProtect := b10; fm_bVariableSize := 0;
       fm_frame_descs := []; fm_still_frame_desc := [] |}])).

(** [dwMaxVideoFrameBufferSize] after the first half of the repair. *)
Definition repair_bufsize (bpp : Z) (f : uvc_frame_desc) : Z :=
  if (fr_dwMaxVideoFrameBufferSize f =? 0) && nz (fr_wWidth f) && nz (fr_wHeight f) then
    if nz bpp then u32 (u32 (bpp * fr_wWidth f) * fr_wHeight f) / 8
    else u32 (u32 (fr_wWidth f * fr_wHeight f) * 2)
  else fr_dwMaxVideoFrameBufferSize f.

(** The advertised interval range: [min_interval] and [max_interval]. *)
Definition interval_range (f : uvc_frame_desc) : outcome (Z * Z) :=
  if fr_bFrameIntervalType f =? 0 then
    Ret (fr_dwMinFrameInterval f, fr_dwMaxFrameInterval f)
  else
    a ← deref (fr_intervals f);
    lo ← rd a 0;
    hi ← rd a (fr_bFrameIntervalType f - 1);
    Ret (lo, hi).

Definition repair_default (lo hi d : Z) : Z :=
  if nz lo && nz hi && (lo <=? hi) && ((d =? 0) || (d <? lo) || (hi <? d))
  then Z.min hi (Z.max lo d) else d.

Definition set_repaired (f : uvc_frame_desc) (bufsize d : Z) : uvc_frame_desc :=
  {| fr_bDescriptorSubtype := fr_bDescriptorSubtype f; fr_bFrameIndex := fr_bFrameIndex f;
     fr_bmCapabilities := fr_bmCapabilities f; fr_wWidth := fr_wWidth f;
     fr_wHeight := fr_wHeight f; fr_dwMinBitRate := fr_dwMinBitRate f;
     fr_dwMaxBitRate := fr_dwMaxBitRate f; fr_dwMaxVideoFrameBufferSize := bufsize;
     fr_dwDefaultFrameInterval := d; fr_dwMinFrameInterval := fr_dwMinFrameInterval f;
     fr_dwMaxFrameInterval := fr_dwMaxFrameInterval f;
     fr_dwFrameIntervalStep := fr_dwFrameIntervalStep f;
     fr_bFrameIntervalType := fr_bFrameIntervalType f;
     fr_dwBytesPerLine := fr_dwBytesPerLine f; fr_intervals := fr_intervals f |}.

Definition uvc_repair_frame_desc (bpp : Z) (f : uvc_frame_desc) : outcome uvc_frame_desc :=
  let bufsize := repair_bufsize bpp f in
  '(lo, hi) ← interval_range f;
  Ret (set_repaired f bufsize (repair_default lo hi (fr_dwDefaultFrameInterval f))).

(** [for (i = 0; i < n; ++i)]: the discrete intervals at [p], a zero replaced by 1. *)
Fixpoint read_intervals (n : nat) (block : bytes) (p : Z) : outcome (list Z) :=
  match n with
  | O => Ret []
  | S n =>
      d ← DW_TO_INT block p;
      let interval := u32 d in
      rest ← read_intervals n block (p + 4);
      Ret ((if nz interval then interval else 1) :: rest)
  end.

(** The interval part both frame parsers share: [type] is the interval count. *)
Definition read_frame_intervals (type : Z) (block : bytes)
    : outcome (Z * Z * Z * option (list Z)) :=
  if type =? 0 then
    lo ← DW_TO_INT block 26;
    hi ← DW_TO_INT block 30;
    step ← DW_TO_INT block 34;
    Ret (u32 lo, u32 hi, u32 step, None)
  else
    l ← read_intervals (Z.to_nat type) block 26;
    Ret (0, 0, 0, Some (l ++ [0])).

Definition append_frame (s : uvc_streaming_interface) (format : uvc_format_desc)
    (frame : uvc_frame_desc) : uvc_streaming_interface :=
  store_last_format s (set_frame_descs format (fm_frame_descs format ++ [frame])).

Definition uvc_parse_vs_frame_frame (s : uvc_streaming_interface) (block : bytes) (block_size : Z)
    : outcome (Z * uvc_streaming_interface) :=
  if (block_size <? 26) || bool_decide (si_format_descs s = []) then
    Ret (UVC_ERROR_INVALID_DEVICE, s)
  else
  type ← rd block 21;
  if ((type =? 0) && (block_size <? 38)) || (nz type && (block_size <? 26 + 4 * type)) then
    Ret (UVC_ERROR_INVALID_DEVICE, s)
  else
  format ← last_format s;
  b2 ← rd block 2;
  b3 ← rd block 3;
  b4 ← rd block 4;
  b5 ← rd block 5;
  b6 ← rd block 6;
  b7 ← rd block 7;
  b8 ← rd block 8;
  minrate ← DW_TO_INT block 9;
  maxrate ← DW_TO_INT block 13;
  dflt ← DW_TO_INT block 17;
  bpl ← DW_TO_INT block 22;
  '(lo, hi, step, intervals) ← read_frame_intervals type block;
  frame ← uvc_repair_frame_desc (fm_bBitsPerPixel format)
    {| fr_bDescriptorSubtype := b2; fr_bFrameIndex := b3; fr_bmCapabilities := b4;
       fr_wWidth := u16 (b5 + Z.shiftl b6 8); fr_wHeight := u16 (b7 + Z.shiftl b8 8);
       fr_dwMinBitRate := u32 minrate; fr_dwMaxBitRate := u32 maxrate;
       fr_dwMaxVideoFrameBufferSize := 0; fr_dwDefaultFrameInterval := u32 dflt;
       fr_dwMinFrameInterval := lo; fr_dwMaxFrameInterval := hi;
       fr_dwFrameIntervalStep := step; fr_bFrameIntervalType := type;
       fr_dwBytesPerLine := u32 bpl; fr_intervals := intervals |};
  Ret (UVC_SUCCESS, append_frame s format frame).

Definition uvc_parse_vs_frame_uncompressed (s : uvc_streaming_interface) (block : bytes)
    : outcome (Z * uvc_streaming_interface) :=
  format ← last_format s;
  b2 ← rd block 2;
  b3 ← rd block 3;
  b4 ← rd block 4;
  b5 ← rd block 5;
  b6 ← rd block 6;
  b7 ← rd block 7;
  b8 ← rd block 8;
  minrate ← DW_TO_INT block 9;
  maxrate ← DW_TO_INT block 13;
  bufsize ← DW_TO_INT block 17;
  dflt ← DW_TO_INT block 21;
  type ← rd block 25;
  '(lo, hi, step, intervals) ← read_frame_intervals type block;
  frame ← uvc_repair_frame_desc (fm_bBitsPerPixel format)
    {| fr_bDescriptorSubtype := b2; fr_bFrameIndex := b3; fr_bmCapabilities := b4;
       fr_wWidth := u16 (b5 + Z.shiftl b6 8); fr_wHeight := u16 (b7 + Z.shiftl b8 8);
       fr_dwMinBitRate := u32 minrate; fr_dwMaxBitRate := u32 maxrate;
       fr_dwMaxVideoFrameBufferSize := u32 bufsize; fr_dwDefaultFrameInterval := u32 dflt;
       fr_dwMinFrameInterval := lo; fr_dwMaxFrameInterval := hi;
       fr_dwFrameIntervalStep := step; fr_bFrameIntervalType := type;
       fr_dwBytesPerLine := 0; fr_intervals := intervals |};
  Ret (UVC_SUCCESS, append_frame s format frame).

(** [for (i = 1; i <= numImageSizePatterns; ++i)]; [i] is the resolution index. *)
Fixpoint read_size_patterns (n : nat) (i : Z) (block : bytes) (p : Z) : outcome (list uvc_still_frame_res) :=
  match n with
  | O => Ret []
  | S n =>
      w ← SW_TO_SHORT block p;
      h ← SW_TO_SHORT block (p + 2);
      rest ← read_size_patterns n (i + 1) block (p + 4);
      Ret ({| sr_bResolutionIndex := u8 i; sr_wWidth := u16 w; sr_wHeight := u16 h |} :: rest)
  end.

(** [for (i = 0; i < n; ++i) { ++p; bCompression[i] = *p; }] *)
Fixpoint read_compressions (n : nat) (block : bytes) (p : Z) : outcome (list Z) :=
  match n with
  | O => Ret []
  | S n =>
      b ← rd block (p + 1);
      rest ← read_compressions n block (p + 1);
      Ret (b :: rest)
  end.

Definition uvc_parse_vs_still_image_frame (s : uvc_streaming_interface) (block : bytes)
    : outcome (Z * uvc_streaming_interface) :=
  format ← last_format s;
  b2 ← rd block 2;
  b3 ← rd block 3;
  n ← rd block 4;
  res ← read_size_patterns (Z.to_nat n) 1 block 5;
  let p := 5 + 4 * n in
  ncomp ← rd block p;
  comp ← read_compressions (Z.to_nat ncomp) block p;
  Ret (UVC_SUCCESS, store_last_format s (set_still_frame_desc format
    (fm_still_frame_desc format ++ [
    {| sf_bDescriptorSubtype := b2; sf_bEndPointAddress := b3;
       sf_imageSizePatterns := res; sf_bNumCompressionPattern := ncomp;
       sf_bCompression := comp |}]))).

(** The unsupported subtypes (output header, MPEG2-TS, DV, colour, stream-based)
    and the unknown ones are skipped. *)
Definition uvc_parse_vs (s : uvc_streaming_interface) (block : bytes) (block_size : Z)
    : outcome (Z * uvc_streaming_interface) :=
  subtype ← rd block 2;
  if subtype =? UVC_VS_INPUT_HEADER then uvc_parse_vs_input_header s block
  else if subtype =? UVC_VS_STILL_IMAGE_FRAME then uvc_parse_vs_still_image_frame s block
  else if subtype =? UVC_VS_FORMAT_UNCOMPRESSED then uvc_parse_vs_format_uncompressed s block
  else if subtype =? UVC_VS_FORMAT_MJPEG then uvc_parse_vs_format_mjpeg s block
  else if (subtype =? UVC_VS_FRAME_UNCOMPRESSED) || (subtype =? UVC_VS_FRAME_MJPEG) then
    uvc_parse_vs_frame_uncompressed s block
  else if subtype =? UVC_VS_FORMAT_FRAME_BASED then uvc_parse_vs_frame_format s block block_size
  else if subtype =? UVC_VS_FRAME_FRAME_BASED then uvc_parse_vs_frame_frame s block block_size
  else Ret (UVC_SUCCESS, s).

(** ** The block scanner

    The [while (buffer_left > 0)] loop of [uvc_scan_control] and
    [uvc_scan_streaming]: [buffer] holds exactly the [buffer_left] bytes left.
    [fuel] bounds the iterations. *)
Fixpoint scan_blocks {St} (fuel : nat) (parse : St → bytes → Z → outcome (Z * St))
    (st : St) (buffer : bytes) : outcome (Z * St) :=
  match buffer, fuel with
  | [], _ => Ret (UVC_SUCCESS, st)
  | _ :: _, O => Undef Diverged
  | block_size :: _, S fuel =>
      if (block_size <? 3) || (len buffer <? block_size) then Ret (UVC_ERROR_INVALID_DEVICE, st)
      else
        '(parse_ret, st) ← parse st buffer block_size;
        if parse_ret =? UVC_SUCCESS
        then scan_blocks fuel parse st (drop (Z.to_nat block_size) buffer)
        else Ret (parse_ret, st)
  end.

Definition stream_if_new (num : Z) : uvc_streaming_interface :=
  {| si_bInterfaceNumber := num; si_format_descs := []; si_bEndpointAddress := 0;
     si_bTerminalLink := 0; si_bStillCaptureMethod := 0 |}.

(** One iteration per byte of [extra] is enough, since a block has at least 3. *)
Definition uvc_scan_streaming (info : uvc_device_info) (interface_idx : Z)
    : outcome (Z * uvc_device_info) :=
  if (interface_idx <? 0) || (len (di_config info) <=? interface_idx) then
    Ret (UVC_ERROR_INVALID_DEVICE, info)
  else
  interface ← rd (di_config info) interface_idx;
  if len interface <? 1 then Ret (UVC_ERROR_INVALID_DEVICE, info) else
  if_desc ← rd interface 0;
  '(ret, s) ← scan_blocks (length (as_extra if_desc)) uvc_parse_vs
                (stream_if_new (as_bInterfaceNumber if_desc)) (as_extra if_desc);
  Ret (ret, set_stream_ifs info (di_stream_ifs info ++ [s])).

(** ** VideoControl blocks *)

(** [for (i = last; i >= first; --i) bmControls = block[i] + (bmControls << 8)]
    over the [n] bytes from [first], from the last to the first. *)
Fixpoint read_bmControls (n : nat) (block : bytes) (first acc : Z) : outcome Z :=
  match n with
  | O => Ret acc
  | S n =>
      b ← rd block (first + Z.of_nat n);
      read_bmControls n block first (u64 (b + u64 (Z.shiftl acc 8)))
  end.

Definition set_units (c : uvc_control_interface) (it : list uvc_input_terminal)
    (su : list uvc_selector_unit) (pu : list uvc_processing_unit)
    (xu : list uvc_extension_unit) : uvc_control_interface :=
  {| ci_input_term_descs := it; ci_selector_unit_descs := su;
     ci_processing_unit_descs := pu; ci_extension_unit_descs := xu;
     ci_bcdUVC := ci_bcdUVC c; ci_dwClockFrequency := ci_dwClockFrequency c;
     ci_bEndpointAddress := ci_bEndpointAddress c; ci_bInterfaceNumber := ci_bInterfaceNumber c |}.

Definition set_version (c : uvc_control_interface) (bcd clock : Z) : uvc_control_interface :=
  {| ci_input_term_descs := ci_input_term_descs c;
     ci_selector_unit_descs := ci_selector_unit_descs c;
     ci_processing_unit_descs := ci_processing_unit_descs c;
     ci_extension_unit_descs := ci_extension_unit_descs c;
     ci_bcdUVC := bcd; ci_dwClockFrequency := clock;
     ci_bEndpointAddress := ci_bEndpointAddress c; ci_bInterfaceNumber := ci_bInterfaceNumber c |}.

(** [for (i = 12; i < block_size; ++i) uvc_scan_streaming(dev, info, block[i])] *)
Fixpoint scan_collection (n : nat) (block : bytes) (i : Z) (info : uvc_device_info)
    : outcome (Z * uvc_device_info) :=
  match n with
  | O => Ret (UVC_SUCCESS, info)
  | S n =>
      idx ← rd block i;
      '(scan_ret, info) ← uvc_scan_streaming info idx;
      if scan_ret =? UVC_SUCCESS then scan_collection n block (i + 1) info
      else Ret (scan_ret, info)
  end.

Definition uvc_version_supported (bcd : Z) : bool :=
  (bcd =? 0x0100) || (bcd =? 0x010a) || (bcd =? 0x0110) || (bcd =? 0x0150).

Definition uvc_parse_vc_header (info : uvc_device_info) (block : bytes) (block_size : Z)
    : outcome (Z * uvc_device_info) :=
  bcd ← SW_TO_SHORT block 3;
  let c := di_ctrl_if info in
  let info := set_ctrl_if info (set_version c (u16 bcd) (ci_dwClockFrequency c)) in
  if uvc_version_supported (u16 bcd) then
    clock ← DW_TO_INT block 7;
    let info := set_ctrl_if info (set_version c (u16 bcd) (u32 clock)) in
    scan_collection (Z.to_nat (block_size - 12)) block 12 info
  else Ret (UVC_ERROR_NOT_SUPPORTED, info).

Definition uvc_parse_vc_input_terminal (info : uvc_device_info) (block : bytes)
    : outcome (Z * uvc_device_info) :=
  type ← SW_TO_SHORT block 4;
  if negb (type =? UVC_ITT_CAMERA) then Ret (UVC_SUCCESS, info) else
  id ← rd block 3;
  fmin ← SW_TO_SHORT block 8;
  fmax ← SW_TO_SHORT block 10;
  ocular ← SW_TO_SHORT block 12;
  n ← rd block 14;
  bm ← read_bmControls (Z.to_nat n) block 15 0;
  let c := di_ctrl_if info in
  Ret (UVC_SUCCESS, set_ctrl_if info (set_units c
    (ci_input_term_descs c ++ [
      {| it_bTerminalID := id; it_wTerminalType := type;
         it_wObjectiveFocalLengthMin := u16 fmin; it_wObjectiveFocalLengthMax := u16 fmax;
         it_wOcularFocalLength := u16 ocular; it_bmControls := bm |}])
    (ci_selector_unit_descs c) (ci_processing_unit_descs c) (ci_extension_unit_descs c))).

Definition uvc_parse_vc_processing_unit (info : uvc_device_info) (block : bytes)
    : outcome (Z * uvc_device_info) :=
  id ← rd block 3;
  src ← rd block 4;
  n ← rd block 7;
  bm ← read_bmControls (Z.to_nat n) block 8 0;
  let c := di_ctrl_if info in
  Ret (UVC_SUCCESS, set_ctrl_if info (set_units c (ci_input_term_descs c)
    (ci_selector_unit_descs c)
    (ci_processing_unit_descs c ++ [
      {| pu_bUnitID := id; pu_bSourceID := src; pu_bmControls := bm |}])
    (ci_extension_unit_descs c))).

Definition uvc_parse_vc_selector_unit (info : uvc_device_info) (block : bytes)
    : outcome (Z * uvc_device_info) :=
  id ← rd block 3;
  let c := di_ctrl_if info in
  Ret (UVC_SUCCESS, set_ctrl_if info (set_units c (ci_input_term_descs c)
    (ci_selector_unit_descs c ++ [{| su_bUnitID := id |}])
    (ci_processing_unit_descs c) (ci_extension_unit_descs c))).

Definition uvc_parse_vc_extension_unit (info : uvc_device_info) (block : bytes)
    : outcome (Z * uvc_device_info) :=
  id ← rd block 3;
  guid ← rd_bytes block 4 16;
  num_in_pins ← rd block 21;
  size_of_controls ← rd block (22 + num_in_pins);
  bm ← read_bmControls (Z.to_nat size_of_controls) block (23 + num_in_pins) 0;
  let c := di_ctrl_if info in
  Ret (UVC_SUCCESS, set_ctrl_if info (set_units c (ci_input_term_descs c)
    (ci_selector_unit_descs c) (ci_processing_unit_descs c)
    (ci_extension_unit_descs c ++ [
      {| xu_bUnitID := id; xu_guidExtensionCode := guid; xu_bmControls := bm |}]))).

Definition uvc_parse_vc (info : uvc_device_info) (block : bytes) (block_size : Z)
    : outcome (Z * uvc_device_info) :=
  b1 ← rd block 1;
  if negb (b1 =? 36) then Ret (UVC_SUCCESS, info) else
  subtype ← rd block 2;
  if subtype =? UVC_VC_HEADER then uvc_parse_vc_header info block block_size
  else if subtype =? UVC_VC_INPUT_TERMINAL then uvc_parse_vc_input_terminal info block
  else if subtype =? UVC_VC_OUTPUT_TERMINAL then Ret (UVC_SUCCESS, info)
  else if subtype =? UVC_VC_SELECTOR_UNIT then uvc_parse_vc_selector_unit info block
  else if subtype =? UVC_VC_PROCESSING_UNIT then uvc_parse_vc_processing_unit info block
  else if subtype =? UVC_VC_EXTENSION_UNIT then uvc_parse_vc_extension_unit info block
  else Ret (UVC_ERROR_INVALID_DEVICE, info).

(** The search for the VideoControl interface: [altsetting[0]] of every
    interface is dereferenced, from index [idx] on. *)
Fixpoint find_control_if (haveTISCamera : bool) (ifs : usb_config) (idx : Z)
    : outcome (option (Z * usb_altsetting)) :=
  match ifs with
  | [] => Ret None
  | altsetting :: rest =>
      if_desc ← deref (head altsetting);
      if haveTISCamera && (as_bInterfaceClass if_desc =? 255) && (as_bInterfaceSubClass if_desc =? 1)
      then Ret (Some (idx, if_desc))
      else if (as_bInterfaceClass if_desc =? 14) && (as_bInterfaceSubClass if_desc =? 1)
      then Ret (Some (idx, if_desc))
      else find_control_if haveTISCamera rest (idx + 1)
  end.

Definition set_ctrl_endpoint (c : uvc_control_interface) (num ep : Z) : uvc_control_interface :=
  {| ci_input_term_descs := ci_input_term_descs c;
     ci_selector_unit_descs := ci_selector_unit_descs c;
     ci_processing_unit_descs := ci_processing_unit_descs c;
     ci_extension_unit_descs := ci_extension_unit_descs c;
     ci_bcdUVC := ci_bcdUVC c; ci_dwClockFrequency := ci_dwClockFrequency c;
     ci_bEndpointAddress := ep; ci_bInterfaceNumber := num |}.

(** [ids] is what libusb reports as vendor and product, [None] on an error. *)
Definition is_tis_camera (ids : option (Z * Z)) : bool :=
  match ids with
  | Some (vendor, product) => (vendor =? 0x199e) && ((product =? 0x8101) || (product =? 0x8102))
  | None => false
  end.

Definition uvc_scan_control (ids : option (Z * Z)) (info : uvc_device_info)
    : outcome (Z * uvc_device_info) :=
  found ← find_control_if (is_tis_camera ids) (di_config info) 0;
  match found with
  | None => Ret (UVC_ERROR_INVALID_DEVICE, info)
  | Some (interface_idx, if_desc) =>
      let c := di_ctrl_if info in
      let ep := match as_endpoint if_desc with
                | e :: _ => ep_bEndpointAddress e
                | [] => ci_bEndpointAddress c
                end in
      let info := set_ctrl_if info (set_ctrl_endpoint c (u8 interface_idx) ep) in
      scan_blocks (length (as_extra if_desc)) uvc_parse_vc info (as_extra if_desc)
  end.

(** [config] is libusb's answer, [None] when it has no configuration descriptor;
    the partly filled info is freed when the scan fails. *)
Definition uvc_get_device_info (ids : option (Z * Z)) (config : option usb_config)
    : outcome (Z * option uvc_device_info) :=
  match config with
  | None => Ret (UVC_ERROR_IO, None)
  | Some config =>
      '(ret, info) ← uvc_scan_control ids (info_zero config);
      if ret =? UVC_SUCCESS then Ret (ret, Some info) else Ret (ret, None)
  end.
