(* ===== verification/DescriptorsFacts.v ===== *)
(** * DescriptorsFacts: correctness of the descriptor parser

    Totality and functional correctness of the guarded (frame-based) parsers,
    the exact safety condition of the unguarded ones, termination of the whole
    scan, and the well-formedness invariant the negotiation relies on. *)

From stdpp Require Import prelude.
From S2P Require Import Prelude Types Descriptors.

(** ** Reference parsers on total reads *)

Fixpoint intervals_at (n : nat) (block : bytes) (p : Z) : list Z :=
  match n with
  | O => []
  | S n =>
      let d := le32_at block p in
      (if nz d then d else 1) :: intervals_at n block (p + 4)
  end.

Definition frame_intervals_at (type : Z) (block : bytes) : Z * Z * Z * option (list Z) :=
  if type =? 0 then (le32_at block 26, le32_at block 30, le32_at block 34, None)
  else (0, 0, 0, Some (intervals_at (Z.to_nat type) block 26 ++ [0])).

(** The fields of a frame-based frame block (UVC 1.5, frame descriptor). *)
Definition frame_based_fields (block : bytes) : uvc_frame_desc :=
  let type := byte_at block 21 in
  let '(lo, hi, step, intervals) := frame_intervals_at type block in
  {| fr_bDescriptorSubtype := byte_at block 2; fr_bFrameIndex := byte_at block 3;
     fr_bmCapabilities := byte_at block 4; fr_wWidth := le16_at block 5;
     fr_wHeight := le16_at block 7; fr_dwMinBitRate := le32_at block 9;
     fr_dwMaxBitRate := le32_at block 13; fr_dwMaxVideoFrameBufferSize := 0;
     fr_dwDefaultFrameInterval := le32_at block 17; fr_dwMinFrameInterval := lo;
     fr_dwMaxFrameInterval := hi; fr_dwFrameIntervalStep := step;
     fr_bFrameIntervalType := type; fr_dwBytesPerLine := le32_at block 22;
     fr_intervals := intervals |}.

(** The bytes the interval part of a frame block of type [type] takes. *)
Definition interval_bytes (type : Z) : Z := if type =? 0 then 12 else 4 * type.

Definition frame_based_valid (s : uvc_streaming_interface) (block : bytes) (block_size : Z) : Prop :=
  26 ≤ block_size ∧ si_format_descs s ≠ []
  ∧ 26 + interval_bytes (byte_at block 21) ≤ block_size.

(** ** Reads in range *)

Lemma read_intervals_in n block p :
  bytes_ok block → 0 ≤ p → p + 4 * Z.of_nat n ≤ len block →
  read_intervals n block p = Ret (intervals_at n block p).
Proof.
  intros Hb. revert p. induction n as [|n IH]; intros p Hp Hl; [done|].
  simpl. rewrite DW_TO_INT_in by (done || lia). simpl.
  rewrite IH by lia. simpl. by rewrite u32_i32 by (by apply le32_at_fits).
Qed.

Lemma read_frame_intervals_in type block :
  bytes_ok block → 0 ≤ type → 26 + interval_bytes type ≤ len block →
  read_frame_intervals type block = Ret (frame_intervals_at type block).
Proof.
  intros Hb Ht Hl. unfold read_frame_intervals, frame_intervals_at, interval_bytes in *.
  destruct (type =? 0) eqn:E.
  - rewrite !DW_TO_INT_in by (done || lia). simpl.
    by rewrite !u32_i32 by (by apply le32_at_fits).
  - rewrite read_intervals_in by (done || lia). done.
Qed.

Lemma wh_read block o o' :
  bytes_ok block → o' = o + 1 →
  u16 (byte_at block o + Z.shiftl (byte_at block o') 8) = le16_at block o.
Proof.
  intros Hb ->. rewrite Z.shiftl_mul_pow2 by lia.
  replace (_ + _) with (le16_at block o) by (unfold le16_at; lia).
  by apply wrapu_id, le16_at_fits.
Qed.

Lemma intervals_at_wf n block p :
  bytes_ok block → Forall (λ z, fits 32 z ∧ z ≠ 0) (intervals_at n block p).
Proof.
  intros Hb. revert p. induction n as [|n IH]; intros p; simpl; constructor; [|apply IH].
  destruct (nz (le32_at block p)) eqn:E.
  - split; [by apply le32_at_fits|]. by apply nz_true in E.
  - done.
Qed.

Lemma intervals_at_len n block p : length (intervals_at n block p) = n.
Proof. revert p. induction n; intros; simpl; auto. Qed.

(** ** The repair *)

Lemma repair_bufsize_fits bpp f :
  fits 32 (fr_dwMaxVideoFrameBufferSize f) → fits 32 (repair_bufsize bpp f).
Proof.
  intros Hf. unfold repair_bufsize. repeat case_match; try done.
  - pose proof (wrapu_fits 32 (u32 (bpp * fr_wWidth f) * fr_wHeight f)) as [??]; [lia|].
    unfold fits. Z.to_euclidean_division_equations. lia.
  - by apply wrapu_fits.
Qed.

Lemma repair_default_fits lo hi d :
  fits 32 lo → fits 32 hi → fits 32 d → fits 32 (repair_default lo hi d).
Proof. unfold repair_default, fits. intros. case_match; lia. Qed.

Lemma repair_default_range lo hi d :
  0 < lo → lo ≤ hi → lo ≤ repair_default lo hi d ≤ hi.
Proof.
  intros Hlo Hhi. unfold repair_default, nz.
  destruct (d =? 0) eqn:E1, (d <? lo) eqn:E2, (hi <? d) eqn:E3;
    rewrite ?(proj2 (Z.eqb_neq lo 0)), ?(proj2 (Z.eqb_neq hi 0)), ?(proj2 (Z.leb_le lo hi)) by lia;
    simpl; lia.
Qed.

Lemma repair_default_id lo hi d : lo ≤ d ≤ hi → d ≠ 0 → repair_default lo hi d = d.
Proof. intros. unfold repair_default. case_match; lia. Qed.

Lemma repair_default_idem lo hi d :
  0 ≤ lo → 0 ≤ hi → repair_default lo hi (repair_default lo hi d) = repair_default lo hi d.
Proof.
  intros Hlo Hhi. destruct (decide (0 < lo ∧ lo ≤ hi)) as [[H1 H2]|Hn].
  - pose proof (repair_default_range lo hi d H1 H2). rewrite repair_default_id; lia.
  - assert (∀ x, repair_default lo hi x = x) as Hx.
    { intros x. unfold repair_default, nz. case_match eqn:E; [lia|done]. }
    by rewrite !Hx.
Qed.

Lemma interval_range_wf f :
  frame_wf f → ∃ lo hi, interval_range f = Ret (lo, hi) ∧ fits 32 lo ∧ fits 32 hi.
Proof.
  intros []. unfold interval_range. destruct (fr_bFrameIntervalType f =? 0) eqn:E; [eauto|].
  apply Z.eqb_neq in E. destruct (fr_intervals f) as [a|]; [|lia].
  destruct wf_intervals as (l & -> & Hl & Hpos & Hall). simpl.
  assert (∀ i, 0 ≤ i < len l → ∃ x, rd (l ++ [0]) i = Ret x ∧ fits 32 x) as Hrd.
  { intros i Hi. unfold len in Hi.
    destruct (lookup_lt_is_Some_2 l (Z.to_nat i)) as [x Hx]; [lia|]. exists x. split.
    - apply rd_Ret. split; [lia|]. by apply lookup_app_l_Some.
    - by eapply Forall_lookup_1 in Hall as [? _]. }
  destruct (Hrd 0) as (lo & -> & Hlo); [lia|]. destruct (Hrd (fr_bFrameIntervalType f - 1)) as (hi & -> & Hhi); [lia|].
  simpl. eauto.
Qed.

Lemma set_repaired_wf f b d :
  frame_wf f → fits 32 b → fits 32 d → frame_wf (set_repaired f b d).
Proof. intros []. by constructor. Qed.

Lemma set_repaired_id f :
  set_repaired f (fr_dwMaxVideoFrameBufferSize f) (fr_dwDefaultFrameInterval f) = f.
Proof. by destruct f. Qed.

Lemma repair_bufsize_idem bpp f d :
  repair_bufsize bpp (set_repaired f (repair_bufsize bpp f) d) = repair_bufsize bpp f.
Proof.
  unfold repair_bufsize at 1. simpl. destruct (repair_bufsize bpp f =? 0) eqn:E; [|done].
  apply Z.eqb_eq in E. unfold repair_bufsize in E |- *.
  destruct (fr_dwMaxVideoFrameBufferSize f =? 0) eqn:E0, (nz (fr_wWidth f)), (nz (fr_wHeight f));
    simpl in *; lia.
Qed.

Lemma repair_returns bpp f :
  frame_wf f → ∃ lo hi, interval_range f = Ret (lo, hi) ∧ fits 32 lo ∧ fits 32 hi ∧
    uvc_repair_frame_desc bpp f =
      Ret (set_repaired f (repair_bufsize bpp f)
             (repair_default lo hi (fr_dwDefaultFrameInterval f))).
Proof.
  intros Hf. destruct (interval_range_wf f Hf) as (lo & hi & Hr & Hlo & Hhi).
  exists lo, hi. unfold uvc_repair_frame_desc. by rewrite Hr.
Qed.

Lemma repair_wf bpp f : frame_wf f → returns (uvc_repair_frame_desc bpp f) frame_wf.
Proof.
  intros Hf. destruct (repair_returns bpp f Hf) as (lo & hi & _ & Hlo & Hhi & ->). simpl.
  apply set_repaired_wf; [done| |].
  - by apply repair_bufsize_fits, Hf.
  - by apply repair_default_fits; [..|apply Hf].
Qed.

(** On a well-formed frame descriptor [uvc_repair_frame_desc] returns a
    well-formed one that is stable under a second repair, whose default interval
    lies in the advertised range whenever that range is usable, and which is the
    descriptor itself when nothing in it was degenerate. *)
Theorem repair_frame_desc_correct bpp f :
  frame_wf f →
  returns (uvc_repair_frame_desc bpp f) (λ f',
    frame_wf f'
    ∧ uvc_repair_frame_desc bpp f' = Ret f'
    ∧ ∀ lo hi, interval_range f = Ret (lo, hi) →
        (0 < lo → lo ≤ hi → lo ≤ fr_dwDefaultFrameInterval f' ≤ hi)
        ∧ (fr_dwMaxVideoFrameBufferSize f ≠ 0 → fr_dwDefaultFrameInterval f ≠ 0 →
           lo ≤ fr_dwDefaultFrameInterval f ≤ hi → f' = f)).
Proof.
  intros Hf. pose proof (repair_wf bpp f Hf) as Hwf. revert Hwf.
  destruct (repair_returns bpp f Hf) as (lo & hi & Hr & [Hlo _] & [Hhi _] & ->). simpl.
  intros Hwf. split; [done|]. split.
  - unfold uvc_repair_frame_desc. rewrite repair_bufsize_idem.
    change (interval_range (set_repaired f _ _)) with (interval_range f). rewrite Hr. simpl.
    rewrite repair_default_idem by done. by destruct f.
  - intros lo' hi'. rewrite Hr. intros [= <- <-]. split.
    + intros. by apply repair_default_range.
    + intros Hb Hd Hin. rewrite repair_default_id by done. unfold repair_bufsize.
      rewrite (proj2 (Z.eqb_neq _ 0) Hb). apply set_repaired_id.
Qed.

(** A DJI-style degenerate descriptor: no buffer size, default interval 0. *)
Definition degenerate_frame : uvc_frame_desc :=
  {| fr_bDescriptorSubtype := 0x11; fr_bFrameIndex := 1; fr_bmCapabilities := 0;
     fr_wWidth := 1920; fr_wHeight := 1080; fr_dwMinBitRate := 0; fr_dwMaxBitRate := 0;
     fr_dwMaxVideoFrameBufferSize := 0; fr_dwDefaultFrameInterval := 0;
     fr_dwMinFrameInterval := 0; fr_dwMaxFrameInterval := 0; fr_dwFrameIntervalStep := 0;
     fr_bFrameIntervalType := 2; fr_dwBytesPerLine := 0;
     fr_intervals := Some [166666; 333333; 0] |}.

Lemma degenerate_frame_wf : frame_wf degenerate_frame.
Proof.
  constructor; simpl; try (unfold fits; lia).
  exists [166666; 333333]. split_and!; [done..|].
  repeat constructor; unfold fits; lia.
Qed.

Lemma repair_frame_desc_correct_witness :
  returns (uvc_repair_frame_desc 0 degenerate_frame)
    (λ f', 166666 ≤ fr_dwDefaultFrameInterval f' ≤ 333333).
Proof.
  eapply returns_mono; [apply (repair_frame_desc_correct 0), degenerate_frame_wf|].
  intros f' (_ & _ & H). apply (H 166666 333333 eq_refl); lia.
Defined.

(** ** Frame-based frames *)

Lemma frame_intervals_at_wf type block lo hi step ivs :
  bytes_ok block → fits 8 type → frame_intervals_at type block = (lo, hi, step, ivs) →
  fits 32 lo ∧ fits 32 hi ∧ fits 32 step ∧
  match ivs with
  | None => type = 0
  | Some a => ∃ l, a = l ++ [0] ∧ len l = type ∧ 0 < len l ∧ Forall (λ z, fits 32 z ∧ z ≠ 0) l
  end.
Proof.
  intros Hb [Ht _]. unfold frame_intervals_at. destruct (type =? 0) eqn:E.
  - intros [= <- <- <- <-]. pose proof (le32_at_fits block) as Hf.
    apply Z.eqb_eq in E. auto.
  - intros [= <- <- <- <-]. apply Z.eqb_neq in E. repeat split; try done.
    eexists. split; [done|]. unfold len. rewrite intervals_at_len.
    split_and!; [lia..|]. by apply intervals_at_wf.
Qed.

Lemma frame_based_fields_wf block : bytes_ok block → frame_wf (frame_based_fields block).
Proof.
  intros Hb. unfold frame_based_fields.
  destruct (frame_intervals_at (byte_at block 21) block) as [[[lo hi] step] ivs] eqn:E.
  apply frame_intervals_at_wf in E as (? & ? & ? & ?); [|done|by apply byte_at_fits].
  constructor; simpl; try done; by auto using byte_at_fits, le16_at_fits, le32_at_fits.
Qed.

Lemma interval_bytes_guard type block_size :
  0 ≤ type →
  (((type =? 0) && (block_size <? 38)) || (nz type && (block_size <? 26 + 4 * type))) = true
  ↔ block_size < 26 + interval_bytes type.
Proof.
  intros. unfold interval_bytes, nz. destruct (type =? 0) eqn:E; simpl; lia.
Qed.

Lemma last_nonempty {A} (l : list A) : l ≠ [] → ∃ x, last l = Some x.
Proof. intros Hl. destruct (last l) eqn:E; [eauto|]. by apply last_None in E. Qed.

#[export] Instance frame_based_valid_dec s block block_size :
  Decision (frame_based_valid s block block_size).
Proof. unfold frame_based_valid. apply _. Defined.

Lemma frame_based_in s block block_size :
  bytes_ok block → block_size ≤ len block → frame_based_valid s block block_size →
  ∃ format frame, last (si_format_descs s) = Some format
    ∧ uvc_repair_frame_desc (fm_bBitsPerPixel format) (frame_based_fields block) = Ret frame
    ∧ frame_wf frame
    ∧ uvc_parse_vs_frame_frame s block block_size
      = Ret (UVC_SUCCESS, append_frame s format frame).
Proof.
  intros Hb Hl (H26 & Hf & Hg). unfold uvc_parse_vs_frame_frame.
  rewrite (proj2 (Z.ltb_ge block_size 26) H26), bool_decide_false by done. simpl.
  rewrite (rd_byte_at block 21) by lia. simpl. set (type := byte_at block 21) in *.
  pose proof (byte_at_fits block 21 Hb : fits 8 type) as [Ht _].
  rewrite (proj1 (not_true_iff_false _)) by (rewrite interval_bytes_guard; lia).
  destruct (last_nonempty _ Hf) as [format Hlast].
  pose proof (repair_wf (fm_bBitsPerPixel format) _ (frame_based_fields_wf block Hb)) as Hr.
  apply returns_iff in Hr as (frame & Hr & Hwf). exists format, frame.
  split_and!; [done..|]. unfold last_format. rewrite Hlast. simpl.
  rewrite !rd_byte_at, !DW_TO_INT_in by (done || lia). simpl.
  rewrite read_frame_intervals_in by (done || lia). simpl.
  revert Hr. unfold frame_based_fields. fold type.
  destruct (frame_intervals_at type block) as [[[lo hi] step] ivs].
  rewrite !u32_i32 by (by apply le32_at_fits).
  rewrite (wh_read block 5), (wh_read block 7) by done. by intros ->.
Qed.

Lemma frame_based_rejected s block block_size :
  bytes_ok block → block_size ≤ len block → ¬ frame_based_valid s block block_size →
  uvc_parse_vs_frame_frame s block block_size = Ret (UVC_ERROR_INVALID_DEVICE, s).
Proof.
  intros Hb Hl Hv. unfold frame_based_valid, uvc_parse_vs_frame_frame in *.
  destruct (block_size <? 26) eqn:E26; [done|]. apply Z.ltb_ge in E26.
  case_bool_decide as Hf; [done|]. simpl. rewrite (rd_byte_at block 21) by lia. simpl.
  pose proof (byte_at_fits block 21 Hb) as [Ht _].
  rewrite (proj2 (interval_bytes_guard _ block_size Ht)); [done|].
  destruct (decide (26 + interval_bytes (byte_at block 21) ≤ block_size)); [|lia].
  by destruct Hv.
Qed.

(** C13: [uvc_parse_vs_frame_frame] is memory safe on every block of bytes and
    every size that fits the buffer.  It appends exactly the repaired frame the
    block describes to the last format when the block is long enough for its
    interval table and a format precedes it, and otherwise reports
    [UVC_ERROR_INVALID_DEVICE] and changes nothing. *)
Theorem frame_based_parse_correct s block block_size :
  bytes_ok block → block_size ≤ len block →
  (frame_based_valid s block block_size →
     ∃ format frame, last (si_format_descs s) = Some format
       ∧ uvc_repair_frame_desc (fm_bBitsPerPixel format) (frame_based_fields block) = Ret frame
       ∧ frame_wf frame
       ∧ uvc_parse_vs_frame_frame s block block_size
         = Ret (UVC_SUCCESS, append_frame s format frame))
  ∧ (¬ frame_based_valid s block block_size →
     uvc_parse_vs_frame_frame s block block_size = Ret (UVC_ERROR_INVALID_DEVICE, s)).
Proof.
  split; intros; [by apply frame_based_in|by apply frame_based_rejected].
Qed.

(** A frame block cut off after its fixed part, which announces two intervals. *)
Definition truncated_frame_block : bytes :=
  [26; 36; 0x11; 1; 0; 128; 7; 56; 4] ++ replicate 12 0 ++ [2; 0; 0; 0; 0].

Lemma frame_based_parse_correct_witness :
  uvc_parse_vs_frame_frame (stream_if_new 1) truncated_frame_block 26
  = Ret (UVC_ERROR_INVALID_DEVICE, stream_if_new 1).
Proof.
  apply (frame_based_parse_correct (stream_if_new 1) truncated_frame_block 26).
  - repeat constructor; by apply (bool_decide_unpack _).
  - vm_compute. congruence.
  - intros (_ & H & _). by apply H.
Defined.

(** ** Uncompressed and MJPEG frames *)

Lemma read_intervals_Ret n block p l :
  read_intervals n block p = Ret l → (0 < n)%nat → p + 4 * Z.of_nat n ≤ len block.
Proof.
  revert p l. induction n as [|n IH]; intros p l H Hn; [lia|]. simpl in H. inv_ret H.
  apply DW_TO_INT_Ret in Ha as [??]. destruct n; [lia|]. apply IH in Ha0; lia.
Qed.

Lemma read_frame_intervals_Ret type block r :
  0 ≤ type → read_frame_intervals type block = Ret r → 26 + interval_bytes type ≤ len block.
Proof.
  unfold read_frame_intervals, interval_bytes. intros Ht. destruct (type =? 0) eqn:E; intros H.
  - inv_ret H. apply DW_TO_INT_Ret in Ha1. lia.
  - inv_ret H. apply read_intervals_Ret in Ha; lia.
Qed.

Lemma last_format_Some s f : last_format s = Ret f ↔ last (si_format_descs s) = Some f.
Proof. unfold last_format. destruct (last _); naive_solver. Qed.

(** The frame an uncompressed or MJPEG frame block describes. *)
Definition frame_uncompressed_fields (block : bytes) : uvc_frame_desc :=
  let type := byte_at block 25 in
  let '(lo, hi, step, intervals) := frame_intervals_at type block in
  {| fr_bDescriptorSubtype := byte_at block 2; fr_bFrameIndex := byte_at block 3;
     fr_bmCapabilities := byte_at block 4; fr_wWidth := le16_at block 5;
     fr_wHeight := le16_at block 7; fr_dwMinBitRate := le32_at block 9;
     fr_dwMaxBitRate := le32_at block 13; fr_dwMaxVideoFrameBufferSize := le32_at block 17;
     fr_dwDefaultFrameInterval := le32_at block 21; fr_dwMinFrameInterval := lo;
     fr_dwMaxFrameInterval := hi; fr_dwFrameIntervalStep := step;
     fr_bFrameIntervalType := type; fr_dwBytesPerLine := 0;
     fr_intervals := intervals |}.

Lemma frame_uncompressed_fields_wf block :
  bytes_ok block → frame_wf (frame_uncompressed_fields block).
Proof.
  intros Hb. unfold frame_uncompressed_fields.
  destruct (frame_intervals_at (byte_at block 25) block) as [[[lo hi] step] ivs] eqn:E.
  apply frame_intervals_at_wf in E as (? & ? & ? & ?); [|done|by apply byte_at_fits].
  constructor; simpl; try done; by auto using byte_at_fits, le16_at_fits, le32_at_fits.
Qed.

Lemma frame_uncompressed_in s block format :
  bytes_ok block → last (si_format_descs s) = Some format → 26 ≤ len block →
  26 + interval_bytes (byte_at block 25) ≤ len block →
  ∃ frame, uvc_repair_frame_desc (fm_bBitsPerPixel format) (frame_uncompressed_fields block) = Ret frame
    ∧ frame_wf frame
    ∧ uvc_parse_vs_frame_uncompressed s block = Ret (UVC_SUCCESS, append_frame s format frame).
Proof.
  intros Hb Hlast Hl Hi.
  pose proof (repair_wf (fm_bBitsPerPixel format) _ (frame_uncompressed_fields_wf block Hb)) as Hr.
  apply returns_iff in Hr as (frame & Hr & Hwf). exists frame. split_and!; [done..|].
  unfold uvc_parse_vs_frame_uncompressed, last_format. rewrite Hlast. simpl.
  pose proof (byte_at_fits block 25 Hb) as [Ht _].
  rewrite !rd_byte_at, !DW_TO_INT_in by (done || lia). simpl.
  rewrite read_frame_intervals_in by (done || lia). simpl.
  revert Hr. unfold frame_uncompressed_fields.
  destruct (frame_intervals_at (byte_at block 25) block) as [[[lo hi] step] ivs].
  rewrite !u32_i32 by (by apply le32_at_fits).
  rewrite (wh_read block 5), (wh_read block 7) by done. by intros ->.
Qed.

(** C38: the uncompressed/MJPEG frame parser, which takes no account of the block
    size, is free of undefined behaviour exactly when a format precedes the frame
    and the bytes up to the end of its interval table lie in the descriptor
    buffer; otherwise it dereferences null or reads past the buffer. *)
Theorem frame_uncompressed_safe_iff s block :
  bytes_ok block →
  (∃ r, uvc_parse_vs_frame_uncompressed s block = Ret r)
  ↔ si_format_descs s ≠ [] ∧ 26 ≤ len block
    ∧ 26 + interval_bytes (byte_at block 25) ≤ len block.
Proof.
  intros Hb. split.
  - intros [r H]. unfold uvc_parse_vs_frame_uncompressed in H. inv_ret H.
    apply last_format_Some in Ha. split; [intros Hn; by rewrite Hn in Ha|].
    pose proof (rd_in_range _ _ _ Ha11) as Hr. rewrite rd_byte_at in Ha11 by done.
    injection Ha11 as <-. split; [lia|].
    eapply read_frame_intervals_Ret; [|done]. by apply byte_at_fits.
  - intros (Hf & Hl & Hi). destruct (last_nonempty _ Hf) as [format Hlast].
    destruct (frame_uncompressed_in s block format) as (frame & _ & _ & ->); eauto.
Qed.

(** A 26-byte frame block that announces one interval and ends the buffer. *)
Definition short_mjpeg_frame : bytes :=
  [26; 36; 7; 1; 0; 128; 7; 56; 4] ++ replicate 16 0 ++ [1].

Lemma frame_uncompressed_safe_iff_witness :
  ¬ ∃ r, uvc_parse_vs_frame_uncompressed (stream_if_new 1) short_mjpeg_frame = Ret r.
Proof.
  rewrite (frame_uncompressed_safe_iff (stream_if_new 1) short_mjpeg_frame).
  - intros (H & _). by apply H.
  - repeat constructor; by apply (bool_decide_unpack _).
Defined.

(** ** Termination of the scan *)

Section scan.
Context {St : Type} (parse : St → bytes → Z → outcome (Z * St)).

Lemma scan_blocks_converges fuel st buffer :
  (∀ st b n, converges (parse st b n)) → (length buffer ≤ fuel)%nat →
  converges (scan_blocks fuel parse st buffer).
Proof.
  intros Hp. revert st buffer. induction fuel as [|fuel IH]; intros st [|sz rest] Hl;
    simpl in Hl |- *; [done|lia|done|].
  destruct (_ || _) eqn:E; [done|]. apply converges_bind; [by apply Hp|].
  intros [ret st'] _. case_match; [|done]. apply IH. rewrite length_drop. simpl. lia.
Qed.

(** A state invariant of the block parser is one of the scan. *)
Lemma scan_blocks_inv (I : St → Prop) fuel st buffer :
  (∀ st b n, I st → bytes_ok b → n ≤ len b → if_returns (parse st b n) (λ r, I r.2)) →
  I st → bytes_ok buffer →
  if_returns (scan_blocks fuel parse st buffer) (λ r, I r.2).
Proof.
  intros Hp. revert st buffer. induction fuel as [|fuel IH]; intros st [|sz rest] HI Hb;
    simpl; try done.
  destruct (_ || _) eqn:E; [done|]. apply if_returns_bind.
  eapply if_returns_mono; [apply Hp; [done|done|lia]|]. intros [ret st'] HI'. simpl in *.
  case_match; [|done]. apply IH; [done|by apply bytes_ok_drop].
Qed.
End scan.

Lemma converges_read_intervals n block p : converges (read_intervals n block p).
Proof. revert p. induction n; intros p; simpl; converge. Qed.

Lemma converges_read_size_patterns n i block p : converges (read_size_patterns n i block p).
Proof. revert i p. induction n; intros i p; simpl; converge. Qed.

Lemma converges_read_compressions n block p : converges (read_compressions n block p).
Proof. revert p. induction n; intros p; simpl; converge. Qed.

Lemma converges_read_bmControls n block p acc : converges (read_bmControls n block p acc).
Proof. revert acc. induction n; intros acc; simpl; converge. Qed.

#[local] Hint Resolve converges_read_intervals converges_read_size_patterns
  converges_read_compressions converges_read_bmControls : cmodel.

Lemma converges_repair bpp f : converges (uvc_repair_frame_desc bpp f).
Proof. unfold uvc_repair_frame_desc, interval_range. converge. Qed.

Lemma converges_read_frame_intervals type block : converges (read_frame_intervals type block).
Proof. unfold read_frame_intervals. converge. Qed.

#[local] Hint Resolve converges_repair converges_read_frame_intervals : cmodel.

Lemma converges_parse_vs s block block_size : converges (uvc_parse_vs s block block_size).
Proof.
  unfold uvc_parse_vs, uvc_parse_vs_input_header, uvc_parse_vs_still_image_frame,
    uvc_parse_vs_format_uncompressed, uvc_parse_vs_format_mjpeg,
    uvc_parse_vs_frame_uncompressed, uvc_parse_vs_frame_format, uvc_parse_vs_frame_frame,
    last_format.
  converge.
Qed.

Lemma converges_scan_streaming info idx : converges (uvc_scan_streaming info idx).
Proof.
  unfold uvc_scan_streaming. converge.
  apply scan_blocks_converges; [apply converges_parse_vs|done].
Qed.

#[local] Hint Resolve converges_scan_streaming : cmodel.

Lemma converges_scan_collection n block i info : converges (scan_collection n block i info).
Proof. revert i info. induction n; intros i info; simpl; converge. Qed.

#[local] Hint Resolve converges_scan_collection : cmodel.

Lemma converges_parse_vc info block block_size : converges (uvc_parse_vc info block block_size).
Proof.
  unfold uvc_parse_vc, uvc_parse_vc_header, uvc_parse_vc_input_terminal,
    uvc_parse_vc_selector_unit, uvc_parse_vc_processing_unit, uvc_parse_vc_extension_unit.
  cbv zeta. converge.
Qed.

Lemma converges_find_control_if tis ifs idx : converges (find_control_if tis ifs idx).
Proof. revert idx. induction ifs; intros idx; simpl; converge. Qed.

#[local] Hint Resolve converges_find_control_if : cmodel.

(** C26: parsing terminates: for every configuration descriptor, however
    malformed, every scan loop of [uvc_get_device_info] ends within one iteration
    per descriptor byte. *)
Theorem get_device_info_terminates ids config : converges (uvc_get_device_info ids config).
Proof.
  unfold uvc_get_device_info, uvc_scan_control. converge.
  apply scan_blocks_converges; [apply converges_parse_vc|done].
Qed.

(** ** The well-formedness invariant *)

Lemma if_returns_rd_fits {B} p i (f : Z → outcome B) Q :
  bytes_ok p → (∀ b, fits 8 b → if_returns (f b) Q) → if_returns (rd p i ≫= f) Q.
Proof.
  intros Hp Hf. apply if_returns_bind. destruct (rd p i) eqn:E; [|done].
  apply Hf. by eapply rd_fits.
Qed.

Lemma if_returns_skip {A B} (m : outcome A) (f : A → outcome B) Q :
  (∀ a, m = Ret a → if_returns (f a) Q) → if_returns (m ≫= f) Q.
Proof. intros Hf. apply if_returns_bind. destruct m; [|done]. by apply Hf. Qed.

(** Walks through the reads of a parser, remembering that bytes are bytes. *)
Ltac wf_steps :=
  repeat first
    [ apply if_returns_rd_fits; [done|intros ? ?]
    | apply if_returns_skip; intros ? ?
    | match goal with |- if_returns (match ?p with (_, _) => _ end) _ => destruct p end ].

Lemma rd_bytes_len16 p o l : rd_bytes p o 16 = Ret l → length l = 16%nat.
Proof. intros (_ & _ & _ & H)%rd_bytes_Ret. unfold len in H. lia. Qed.

Lemma formats_wf_snoc s f :
  stream_if_wf s → format_wf f → stream_if_wf (set_format_descs s (si_format_descs s ++ [f])).
Proof. intros. apply Forall_app. split; [done|]. by constructor. Qed.

Lemma store_last_format_wf s f :
  stream_if_wf s → format_wf f → stream_if_wf (store_last_format s f).
Proof.
  intros. apply Forall_app. split; [by apply Forall_take|]. by constructor.
Qed.

Lemma last_format_wf s f : stream_if_wf s → last_format s = Ret f → format_wf f.
Proof.
  intros Hs Hl%last_format_Some. apply last_Some in Hl as [l Hl].
  unfold stream_if_wf in Hs. rewrite Hl in Hs. by apply Forall_app in Hs as [_ Hs%Forall_inv].
Qed.

Lemma append_frame_wf s format frame :
  stream_if_wf s → format_wf format → frame_wf frame → stream_if_wf (append_frame s format frame).
Proof.
  intros Hs (? & ? & ? & ?) Hf. apply store_last_format_wf; [done|].
  split_and!; try done. apply Forall_app. split; [done|]. by constructor.
Qed.

Lemma parse_frame_uncompressed_wf s block :
  stream_if_wf s → bytes_ok block →
  if_returns (uvc_parse_vs_frame_uncompressed s block) (λ r, stream_if_wf r.2).
Proof.
  intros Hs Hb. apply if_returns_iff. intros r H.
  assert (∃ r, uvc_parse_vs_frame_uncompressed s block = Ret r) as Hr by eauto.
  unfold uvc_parse_vs_frame_uncompressed in Hr. destruct Hr as [r' Hr]. inv_ret Hr.
  pose proof (rd_in_range _ _ _ Ha11) as Hl. rewrite rd_byte_at in Ha11 by done.
  injection Ha11 as <-. apply read_frame_intervals_Ret in Ha12; [|by apply byte_at_fits].
  destruct (frame_uncompressed_in s block a) as (frame & _ & Hwf & Heq); try done.
  { by apply last_format_Some. }
  { lia. }
  rewrite Heq in H. injection H as <-. apply append_frame_wf; [done| |done].
  by eapply last_format_wf.
Qed.

Lemma parse_frame_based_wf s block block_size :
  stream_if_wf s → bytes_ok block → block_size ≤ len block →
  if_returns (uvc_parse_vs_frame_frame s block block_size) (λ r, stream_if_wf r.2).
Proof.
  intros Hs Hb Hl. destruct (decide (frame_based_valid s block block_size)) as [Hv|Hv].
  - destruct (frame_based_in s block block_size) as (format & frame & Hf & _ & Hwf & ->); [done..|].
    apply append_frame_wf; [done| |done]. eapply last_format_wf; [done|].
    by apply last_format_Some.
  - by rewrite frame_based_rejected.
Qed.

Lemma parse_still_wf s block :
  stream_if_wf s → bytes_ok block →
  if_returns (uvc_parse_vs_still_image_frame s block) (λ r, stream_if_wf r.2).
Proof.
  intros Hs Hb. unfold uvc_parse_vs_still_image_frame. apply if_returns_skip. intros f Hf.
  wf_steps. cbn. apply store_last_format_wf; [done|].
  by apply (last_format_wf s f) in Hf.
Qed.

Lemma parse_vs_wf s block block_size :
  stream_if_wf s → bytes_ok block → block_size ≤ len block →
  if_returns (uvc_parse_vs s block block_size) (λ r, stream_if_wf r.2).
Proof.
  intros Hs Hb Hl. unfold uvc_parse_vs. apply if_returns_skip. intros subtype _.
  repeat (case_match; [
    first [ by apply parse_still_wf | by apply parse_frame_uncompressed_wf
          | by apply parse_frame_based_wf
          | unfold uvc_parse_vs_input_header; by wf_steps
          | unfold uvc_parse_vs_format_uncompressed, uvc_parse_vs_format_mjpeg, uvc_parse_vs_frame_format;
            try (case_match; [done|]); wf_steps; cbn; apply formats_wf_snoc; [done|];
            split_and!; cbn; try done; try (by eapply rd_bytes_len16); by constructor ] |]).
  done.
Qed.

Definition config_ok (config : usb_config) : Prop :=
  Forall (Forall (λ a, bytes_ok (as_extra a))) config.

(** The parser's invariant on the whole device description. *)
Definition info_inv (info : uvc_device_info) : Prop :=
  info_wf info ∧ config_ok (di_config info).

Lemma scan_streaming_inv info idx :
  info_inv info → if_returns (uvc_scan_streaming info idx) (λ r, info_inv r.2).
Proof.
  intros [Hw Hc]. unfold uvc_scan_streaming. case_match; [done|].
  apply if_returns_skip. intros interface [_ Hi]%rd_Ret. case_match; [done|].
  apply if_returns_skip. intros if_desc [_ Hd]%rd_Ret.
  apply if_returns_bind. eapply if_returns_mono.
  - apply (scan_blocks_inv _ stream_if_wf).
    + apply parse_vs_wf.
    + constructor.
    + by do 2 (eapply Forall_lookup_1 in Hc; [|done]).
  - intros [ret s] Hs. cbn. split; [|done]. apply Forall_app. split; [done|]. by constructor.
Qed.

Lemma scan_collection_inv n block i info :
  info_inv info → if_returns (scan_collection n block i info) (λ r, info_inv r.2).
Proof.
  revert i info. induction n as [|n IH]; intros i info Hi; simpl; [done|].
  apply if_returns_skip. intros idx _. apply if_returns_bind.
  eapply if_returns_mono; [by apply scan_streaming_inv|].
  intros [ret info'] Hi'. cbn in *. case_match; [by apply IH|done].
Qed.

Lemma parse_vc_inv info block block_size :
  info_inv info → if_returns (uvc_parse_vc info block block_size) (λ r, info_inv r.2).
Proof.
  intros Hi. unfold uvc_parse_vc. apply if_returns_skip. intros b1 _. case_match; [done|].
  apply if_returns_skip. intros subtype _. repeat (case_match; [
    first [ done
          | unfold uvc_parse_vc_header; apply if_returns_skip; intros bcd _; cbv zeta;
            case_match; [apply if_returns_skip; intros clock _|]; [by apply scan_collection_inv|done]
          | unfold uvc_parse_vc_input_terminal, uvc_parse_vc_selector_unit,
              uvc_parse_vc_processing_unit, uvc_parse_vc_extension_unit;
            apply if_returns_skip; intros ? ?; try (case_match; [done|]);
            by repeat (apply if_returns_skip; intros ? ?) ] |]).
  done.
Qed.

Lemma find_control_if_In tis ifs idx i a :
  find_control_if tis ifs idx = Ret (Some (i, a)) → ∃ alts, alts ∈ ifs ∧ a ∈ alts.
Proof.
  revert idx. induction ifs as [|alts ifs IH]; intros idx H; simpl in H; [done|]. inv_ret H.
  destruct alts as [|b alts]; [done|]. injection Ha as ->.
  repeat case_match; simplify_eq; [eexists; split; left..|].
  destruct (IH _ H) as (l & ? & ?). exists l. split; [by right|done].
Qed.

Lemma scan_control_inv ids info :
  info_inv info → if_returns (uvc_scan_control ids info) (λ r, info_inv r.2).
Proof.
  intros [Hw Hc]. unfold uvc_scan_control. apply if_returns_skip.
  intros [[idx a]|] Hf; [|done]. cbv zeta. apply scan_blocks_inv.
  - intros. by apply parse_vc_inv.
  - done.
  - apply find_control_if_In in Hf as (alts & Halts & Ha).
    unfold config_ok in Hc. rewrite Forall_forall in Hc. specialize (Hc _ Halts).
    rewrite Forall_forall in Hc. by apply Hc.
Qed.

Lemma get_device_info_inv ids config ret info :
  config_ok config →
  uvc_get_device_info ids (Some config) = Ret (ret, Some info) →
  ret = UVC_SUCCESS ∧ info_inv info.
Proof.
  intros Hc H. unfold uvc_get_device_info in H. inv_ret H.
  destruct (x =? UVC_SUCCESS) eqn:E; [|done]. apply Z.eqb_eq in E. simplify_eq. split; [done|].
  assert (if_returns (uvc_scan_control ids (info_zero config)) (λ r, info_inv r.2)) as Hr.
  { apply scan_control_inv. split; [constructor|done]. }
  by rewrite Ha in Hr.
Qed.

(** C7: every device description [uvc_get_device_info] hands out is well formed,
    whatever the device sent: each frame's fields are in range and each discrete
    interval table is zero-terminated with no zero before the terminator. *)
Theorem get_device_info_wf ids config ret info :
  config_ok config →
  uvc_get_device_info ids (Some config) = Ret (ret, Some info) →
  ret = UVC_SUCCESS ∧ info_wf info.
Proof. intros Hc H. by destruct (get_device_info_inv _ _ _ _ Hc H) as (? & ? & _). Qed.

(** ** A sample device: H.265, one 1920x1080 frame at 30 and 60 fps *)

Definition sample_vc_header : bytes :=
  [13; 36; 1; 0x50; 0x01; 40; 0] ++ le32 48000000 ++ [1; 1].

Definition sample_camera_terminal : bytes :=
  [18; 36; 2; 1; 0x01; 0x02; 0; 0; 0; 0; 0; 0; 0; 0; 3; 0x2a; 0x00; 0x02].

Definition sample_vs_input_header : bytes :=
  [14; 36; 1; 1; 77; 0; 0x81; 0; 2; 2; 0; 0; 1; 0].

Definition sample_format : bytes :=
  [28; 36; 0x10; 1; 1; 0x48; 0x32; 0x36; 0x35; 0x00; 0x00; 0x10; 0x00; 0x80; 0x00; 0x00;
   0xaa; 0x00; 0x38; 0x9b; 0x71; 0; 1; 0; 0; 0; 0; 1].

Definition sample_frame : bytes :=
  [34; 36; 0x11; 1; 0] ++ le16 1920 ++ le16 1080 ++ le32 1000 ++ le32 3072
  ++ le32 0 ++ [2] ++ le32 0 ++ le32 166666 ++ le32 333333.

Definition sample_vs_extra : bytes := sample_vs_input_header ++ sample_format ++ sample_frame.

Definition sample_config : usb_config :=
  [[{| as_bInterfaceNumber := 0; as_bAlternateSetting := 0; as_bInterfaceClass := 14;
       as_bInterfaceSubClass := 1;
       as_endpoint := [{| ep_bEndpointAddress := 0x83; ep_wMaxPacketSize := 16;
                          ep_wBytesPerInterval := None |}];
       as_extra := sample_vc_header ++ sample_camera_terminal |}];
   [{| as_bInterfaceNumber := 1; as_bAlternateSetting := 0; as_bInterfaceClass := 14;
       as_bInterfaceSubClass := 2; as_endpoint := []; as_extra := sample_vs_extra |}]].

Definition sample_info : uvc_device_info :=
  match uvc_get_device_info None (Some sample_config) with
  | Ret (_, Some info) => info
  | _ => info_zero []
  end.

Lemma sample_config_ok : config_ok sample_config.
Proof.
  repeat constructor; by apply (bool_decide_unpack _).
Qed.

Lemma sample_get_info :
  uvc_get_device_info None (Some sample_config) = Ret (UVC_SUCCESS, Some sample_info).
Proof. vm_compute. reflexivity. Qed.

Lemma get_device_info_wf_witness : UVC_SUCCESS = UVC_SUCCESS ∧ info_wf sample_info.
Proof.
  apply (get_device_info_wf None sample_config UVC_SUCCESS sample_info).
  - exact sample_config_ok.
  - exact sample_get_info.
Defined.

(** ** Compliant VideoStreaming descriptors are parsed without a fault *)

(** The size the UVC layout gives a block of the subtype, up to the last field
    the parser reads, and the order the layout prescribes. *)
Definition vs_block_compliant (has_format : bool) (block : bytes) (block_size : Z) : Prop :=
  let subtype := byte_at block 2 in
  if subtype =? UVC_VS_INPUT_HEADER then 10 ≤ block_size
  else if subtype =? UVC_VS_STILL_IMAGE_FRAME then
    has_format = true ∧ 6 + 4 * byte_at block 4 ≤ block_size
    ∧ 6 + 4 * byte_at block 4 + byte_at block (5 + 4 * byte_at block 4) ≤ block_size
  else if subtype =? UVC_VS_FORMAT_UNCOMPRESSED then 27 ≤ block_size
  else if subtype =? UVC_VS_FORMAT_MJPEG then 11 ≤ block_size
  else if (subtype =? UVC_VS_FRAME_UNCOMPRESSED) || (subtype =? UVC_VS_FRAME_MJPEG) then
    has_format = true ∧ 26 ≤ block_size ∧ 26 + interval_bytes (byte_at block 25) ≤ block_size
  else True.

Definition vs_is_format (block : bytes) : bool :=
  (byte_at block 2 =? UVC_VS_FORMAT_UNCOMPRESSED) || (byte_at block 2 =? UVC_VS_FORMAT_MJPEG)
  || (byte_at block 2 =? UVC_VS_FORMAT_FRAME_BASED).

(** A chain of blocks that tile the buffer, each compliant. *)
Inductive vs_chain : bool → bytes → Prop :=
  | vs_chain_nil h : vs_chain h []
  | vs_chain_block h buffer :
      3 ≤ byte_at buffer 0 ≤ len buffer →
      vs_block_compliant h buffer (byte_at buffer 0) →
      vs_chain (h || vs_is_format buffer) (drop (Z.to_nat (byte_at buffer 0)) buffer) →
      vs_chain h buffer.

Lemma read_size_patterns_in n i block p :
  bytes_ok block → 0 ≤ p → p + 4 * Z.of_nat n ≤ len block →
  ∃ l, read_size_patterns n i block p = Ret l.
Proof.
  intros Hb. revert i p. induction n as [|n IH]; intros i p Hp Hl; simpl; [eauto|].
  rewrite !SW_TO_SHORT_in by (done || lia). simpl.
  destruct (IH (i + 1) (p + 4)) as [l ->]; [lia..|]. simpl. eauto.
Qed.

Lemma read_compressions_in n block p :
  0 ≤ p → p + 1 + Z.of_nat n ≤ len block → ∃ l, read_compressions n block p = Ret l.
Proof.
  revert p. induction n as [|n IH]; intros p Hp Hl; simpl; [eauto|].
  rewrite rd_byte_at by lia. simpl. destruct (IH (p + 1)) as [l ->]; [lia..|]. simpl. eauto.
Qed.

Definition has_formats (s : uvc_streaming_interface) : Prop := si_format_descs s ≠ [].

Lemma snoc_has_formats s f : has_formats (set_format_descs s (si_format_descs s ++ [f])).
Proof. unfold has_formats. simpl. by destruct (si_format_descs s). Qed.

Lemma store_has_formats s f : has_formats (store_last_format s f).
Proof. unfold has_formats. simpl. by destruct (take _ _). Qed.

Lemma still_in s block :
  bytes_ok block → has_formats s → 6 + 4 * byte_at block 4 ≤ len block →
  6 + 4 * byte_at block 4 + byte_at block (5 + 4 * byte_at block 4) ≤ len block →
  ∃ f, uvc_parse_vs_still_image_frame s block = Ret (UVC_SUCCESS, store_last_format s f).
Proof.
  intros Hb Hs H1 H2. unfold uvc_parse_vs_still_image_frame, last_format.
  destruct (last_nonempty _ Hs) as [format ->]. simpl.
  pose proof (byte_at_fits block 4 Hb) as [H4 _].
  pose proof (byte_at_fits block (5 + 4 * byte_at block 4) Hb) as [H5 _].
  rewrite (rd_byte_at block 2), (rd_byte_at block 3), (rd_byte_at block 4) by lia. simpl.
  destruct (read_size_patterns_in (Z.to_nat (byte_at block 4)) 1 block 5) as [res ->]; [done|lia..|].
  simpl. rewrite rd_byte_at by lia. simpl.
  destruct (read_compressions_in (Z.to_nat (byte_at block (5 + 4 * byte_at block 4))) block
    (5 + 4 * byte_at block 4)) as [comp ->]; [lia..|]. simpl. eauto.
Qed.

Lemma format_uncompressed_in s block :
  27 ≤ len block →
  ∃ f, uvc_parse_vs_format_uncompressed s block
       = Ret (UVC_SUCCESS, set_format_descs s (si_format_descs s ++ [f])).
Proof.
  intros Hl. unfold uvc_parse_vs_format_uncompressed.
  rewrite !rd_byte_at, rd_bytes_in by lia. simpl. eauto.
Qed.

Lemma format_mjpeg_in s block :
  11 ≤ len block →
  ∃ f, uvc_parse_vs_format_mjpeg s block
       = Ret (UVC_SUCCESS, set_format_descs s (si_format_descs s ++ [f])).
Proof.
  intros Hl. unfold uvc_parse_vs_format_mjpeg. rewrite !rd_byte_at by lia. simpl. eauto.
Qed.

Lemma frame_format_in s block block_size :
  block_size ≤ len block →
  uvc_parse_vs_frame_format s block block_size = Ret (UVC_ERROR_INVALID_DEVICE, s)
  ∨ ∃ f, uvc_parse_vs_frame_format s block block_size
         = Ret (UVC_SUCCESS, set_format_descs s (si_format_descs s ++ [f])).
Proof.
  intros Hl. unfold uvc_parse_vs_frame_format. destruct (block_size <? 28) eqn:E; [by left|].
  right. rewrite !rd_byte_at, rd_bytes_in by lia. simpl. eauto.
Qed.

(** What one compliant block does: it is parsed, and formats are never lost. *)
Lemma parse_vs_compliant h s block block_size :
  bytes_ok block → 3 ≤ block_size ≤ len block → vs_block_compliant h block block_size →
  (h = true → has_formats s) →
  returns (uvc_parse_vs s block block_size) (λ r,
    r.1 = UVC_SUCCESS → h || vs_is_format block = true → has_formats r.2).
Proof.
  intros Hb Hl Hc Hh. unfold uvc_parse_vs. rewrite (rd_byte_at block 2) by lia. simpl.
  unfold vs_block_compliant, vs_is_format in *. set (st := byte_at block 2) in *.
  destruct (st =? UVC_VS_INPUT_HEADER) eqn:E1.
  { apply Z.eqb_eq in E1 as ->. unfold uvc_parse_vs_input_header.
    rewrite !rd_byte_at by lia. simpl. rewrite orb_false_r. by intros _ ?%Hh. }
  destruct (st =? UVC_VS_STILL_IMAGE_FRAME) eqn:E2.
  { destruct Hc as (Hf & H1 & H2). destruct (still_in s block) as [f ->]; [by auto||lia..|].
    intros _ _. apply store_has_formats. }
  destruct (st =? UVC_VS_FORMAT_UNCOMPRESSED) eqn:E3.
  { destruct (format_uncompressed_in s block) as [f ->]; [lia|]. intros _ _. apply snoc_has_formats. }
  destruct (st =? UVC_VS_FORMAT_MJPEG) eqn:E4.
  { destruct (format_mjpeg_in s block) as [f ->]; [lia|]. intros _ _. apply snoc_has_formats. }
  destruct (_ || _) eqn:E5.
  { destruct Hc as (Hf & H1 & H2). destruct (last_nonempty _ (Hh Hf)) as [format Hlast].
    destruct (frame_uncompressed_in s block format) as (frame & _ & _ & ->); [done|done|lia..|].
    intros _ _. apply store_has_formats. }
  destruct (st =? UVC_VS_FORMAT_FRAME_BASED) eqn:E6.
  { destruct (frame_format_in s block block_size) as [->|[f ->]]; [lia|done|].
    intros _ _. apply snoc_has_formats. }
  destruct (st =? UVC_VS_FRAME_FRAME_BASED) eqn:E7.
  { destruct (decide (frame_based_valid s block block_size)) as [Hv|Hv].
    - destruct (frame_based_in s block block_size) as (format & frame & _ & _ & _ & ->); [done|lia|done|].
      intros _ _. apply store_has_formats.
    - rewrite frame_based_rejected by (done || lia). done. }
  simpl. rewrite orb_false_r. by intros _ ?%Hh.
Qed.

Lemma scan_compliant h fuel s buffer :
  vs_chain h buffer → (length buffer ≤ fuel)%nat → bytes_ok buffer → (h = true → has_formats s) →
  returns (scan_blocks fuel uvc_parse_vs s buffer) (λ _, True).
Proof.
  intros Hc. revert fuel s. induction Hc as [h|h buffer Hsz Hb _ IH]; intros fuel s Hfuel Hok Hh.
  { by destruct fuel. }
  destruct buffer as [|sz rest]; [unfold len in Hsz; simpl in Hsz; lia|].
  destruct fuel as [|fuel]; [simpl in Hfuel; lia|].
  change (byte_at (sz :: rest) 0) with sz in *. cbn [scan_blocks].
  rewrite (proj2 (orb_false_iff _ _)) by lia. apply returns_bind.
  eapply returns_mono; [by eapply parse_vs_compliant|].
  intros [ret s'] Hs'. simpl in Hs'. destruct (ret =? UVC_SUCCESS) eqn:Er; [|done].
  apply Z.eqb_eq in Er as ->. apply IH; [|by apply bytes_ok_drop|auto].
  rewrite length_drop. simpl in *. lia.
Qed.

(** C30: the guard against a hostile interface number (CVE-2026-1991) and the
    safety it gives: for every interface number [uvc_scan_streaming] is free of
    undefined behaviour as soon as the named interface, if there is one, has
    compliant descriptors; a number with no interface or no altsetting is refused
    before anything is dereferenced. *)
Theorem scan_streaming_safe info idx :
  config_ok (di_config info) →
  (∀ interface if_desc rest, di_config info !! Z.to_nat idx = Some interface →
     interface = if_desc :: rest → vs_chain false (as_extra if_desc)) →
  returns (uvc_scan_streaming info idx) (λ '(ret, info'),
    (0 ≤ idx < len (di_config info) ∧ di_config info !! Z.to_nat idx ≠ Some []
      ∧ ∃ s, info' = set_stream_ifs info (di_stream_ifs info ++ [s]))
    ∨ (ret = UVC_ERROR_INVALID_DEVICE ∧ info' = info)).
Proof.
  intros Hok Hch. unfold uvc_scan_streaming. destruct (_ || _) eqn:E; [by right|].
  apply returns_bind, returns_rd; [lia|]. intros interface Hi.
  destruct interface as [|if_desc rest]; [by right|].
  rewrite (proj2 (Z.ltb_ge _ _)) by (rewrite len_cons; pose proof (len_nonneg rest); lia).
  simpl. apply returns_bind. eapply returns_mono.
  - apply (scan_compliant false); [by eapply Hch|done| |done].
    eapply Forall_lookup_1 in Hok; [|done]. by inversion Hok.
  - intros [ret s] _. left. split; [lia|]. rewrite Hi. split; [done|]. eauto.
Qed.

Lemma sample_vs_chain : vs_chain false sample_vs_extra.
Proof.
  do 3 (apply vs_chain_block;
    [vm_compute; split; congruence | vm_compute; first [exact I|congruence] |]).
  constructor.
Qed.

Lemma scan_streaming_safe_witness :
  returns (uvc_scan_streaming (info_zero sample_config) 1) (λ _, True).
Proof.
  eapply returns_mono; [apply scan_streaming_safe|done].
  - exact sample_config_ok.
  - intros interface if_desc rest [= <-] [= <- <-]. exact sample_vs_chain.
Defined.

(** Unlike [uvc_scan_streaming], the search for the VideoControl interface
    has no guard: a configuration in which an interface without altsettings comes
    before the VideoControl interface makes [uvc_get_device_info] dereference a
    null [altsetting]. *)
Theorem scan_control_null_altsetting ids pre rest :
  Forall (λ alts, ∃ a, head alts = Some a ∧ as_bInterfaceSubClass a ≠ 1) pre →
  uvc_get_device_info ids (Some (pre ++ [] :: rest)) = Undef NullDeref.
Proof.
  intros Hpre. unfold uvc_get_device_info, uvc_scan_control.
  assert (∀ tis idx, find_control_if tis (pre ++ [] :: rest) idx = Undef NullDeref) as H.
  { intros tis. induction Hpre as [|alts pre (a & Ha & Hs) _ IH]; intros idx; simpl; [done|].
    rewrite Ha. simpl. rewrite (proj2 (Z.eqb_neq _ 1) Hs), !andb_false_r. apply IH. }
  cbn. by rewrite H.
Qed.

Lemma scan_control_null_altsetting_witness :
  uvc_get_device_info None (Some ([] ++ [] :: sample_config)) = Undef NullDeref.
Proof. apply scan_control_null_altsetting. constructor. Defined.

(** ** Control bitmaps *)

(** The little-endian value of a byte string. *)
Definition le_value (l : bytes) : Z := foldr (λ b acc, b + 2 ^ 8 * acc) 0 l.

Lemma le_value_snoc l b : le_value (l ++ [b]) = le_value l + 2 ^ (8 * len l) * b.
Proof.
  unfold le_value. induction l as [|x l IH]; [unfold len; simpl; lia|].
  simpl foldr. rewrite IH, len_cons.
  replace (8 * (1 + len l)) with (8 + 8 * len l) by lia.
  rewrite Z.pow_add_r by (pose proof (len_nonneg l); lia). lia.
Qed.

Lemma read_bmControls_in n block first acc :
  0 ≤ first → first + Z.of_nat n ≤ len block →
  read_bmControls n block first acc =
    Ret (match n with
         | O => acc
         | _ => u64 (le_value (take n (drop (Z.to_nat first) block)) + 2 ^ (8 * Z.of_nat n) * acc)
         end).
Proof.
  revert acc. induction n as [|n IH]; intros acc Hf Hl; [done|]. cbn [read_bmControls].
  rewrite rd_byte_at by lia. cbn [mbind outcome_bind]. rewrite IH by lia.
  assert (take (S n) (drop (Z.to_nat first) block)
          = take n (drop (Z.to_nat first) block) ++ [byte_at block (first + Z.of_nat n)]) as Ht.
  { apply take_S_r. rewrite lookup_drop. unfold byte_at.
    replace (Z.to_nat first + n)%nat with (Z.to_nat (first + Z.of_nat n)) by lia.
    destruct (lookup_lt_is_Some_2 block (Z.to_nat (first + Z.of_nat n))) as [x ->]; [|done].
    unfold len in Hl. lia. }
  rewrite Ht, le_value_snoc. f_equal.
  assert (len (take n (drop (Z.to_nat first) block)) = Z.of_nat n) as ->.
  { unfold len in *. rewrite length_take, length_drop. lia. }
  set (b := byte_at _ _). set (v := le_value _).
  rewrite Nat2Z.inj_succ. replace (8 * Z.succ (Z.of_nat n)) with (8 * Z.of_nat n + 8) by lia.
  rewrite Z.pow_add_r by lia. rewrite Z.shiftl_mul_pow2 by lia.
  unfold wrapu. destruct n as [|n'].
  - simpl. rewrite Zplus_mod_idemp_r. f_equal. unfold v. simpl. lia.
  - rewrite Zplus_mod_idemp_r, <- (Zplus_mod_idemp_r (_ * (_ mod _))), Zmult_mod_idemp_r,
      Zplus_mod_idemp_r. f_equal. lia.
Qed.

Lemma read_bmControls_zero n block first :
  0 ≤ first → first + Z.of_nat n ≤ len block →
  read_bmControls n block first 0 = Ret (u64 (le_value (take n (drop (Z.to_nat first) block)))).
Proof.
  intros. rewrite read_bmControls_in by done. destruct n; [done|]. by rewrite Z.mul_0_r, Z.add_0_r.
Qed.

(** When the block holds its control bitmap, the processing-unit and the
    camera-terminal parser append a unit whose [bmControls] is the little-endian
    value of the bitmap's bytes, the bytes past the eighth lost to the 64 bits. *)
Theorem unit_bmControls info block :
  bytes_ok block →
  (8 ≤ len block → 8 + byte_at block 7 ≤ len block →
   ∃ info', uvc_parse_vc_processing_unit info block = Ret (UVC_SUCCESS, info')
     ∧ ci_processing_unit_descs (di_ctrl_if info') = ci_processing_unit_descs (di_ctrl_if info) ++ [
         {| pu_bUnitID := byte_at block 3; pu_bSourceID := byte_at block 4;
            pu_bmControls := u64 (le_value (take (Z.to_nat (byte_at block 7)) (drop 8 block))) |}])
  ∧ (15 ≤ len block → 15 + byte_at block 14 ≤ len block → le16_at block 4 = UVC_ITT_CAMERA →
   ∃ info', uvc_parse_vc_input_terminal info block = Ret (UVC_SUCCESS, info')
     ∧ ci_input_term_descs (di_ctrl_if info') = ci_input_term_descs (di_ctrl_if info) ++ [
         {| it_bTerminalID := byte_at block 3; it_wTerminalType := UVC_ITT_CAMERA;
            it_wObjectiveFocalLengthMin := le16_at block 8;
            it_wObjectiveFocalLengthMax := le16_at block 10;
            it_wOcularFocalLength := le16_at block 12;
            it_bmControls := u64 (le_value (take (Z.to_nat (byte_at block 14)) (drop 15 block))) |}]).
Proof.
  intros Hb. split.
  - intros H8 Hl. pose proof (byte_at_fits block 7 Hb) as [H7 _].
    unfold uvc_parse_vc_processing_unit. rewrite !rd_byte_at by lia. simpl.
    rewrite read_bmControls_zero by lia. simpl. eauto.
  - intros H15 Hl Ht. pose proof (byte_at_fits block 14 Hb) as [H14 _].
    unfold uvc_parse_vc_input_terminal. rewrite (SW_TO_SHORT_in block 4) by (done || lia).
    simpl. rewrite Ht. simpl. rewrite !rd_byte_at, !SW_TO_SHORT_in by (done || lia). simpl.
    rewrite read_bmControls_zero by lia. simpl.
    rewrite !wrapu_id by (by apply le16_at_fits). eauto.
Qed.

Lemma unit_bmControls_witness :
  ∃ info', uvc_parse_vc_input_terminal (info_zero []) sample_camera_terminal = Ret (UVC_SUCCESS, info')
    ∧ map it_bmControls (ci_input_term_descs (di_ctrl_if info')) = [0x02002a].
Proof.
  destruct (unit_bmControls (info_zero []) sample_camera_terminal) as [_ H].
  - repeat constructor; by apply (bool_decide_unpack _).
  - destruct H as (info' & H1 & H2); [vm_compute; congruence..|reflexivity|].
    exists info'. split; [exact H1|]. rewrite H2. reflexivity.
Defined.

(** ** Round trip of a frame-based frame block *)

Fixpoint le32s (l : list Z) : bytes :=
  match l with
  | [] => []
  | z :: l => le32 z ++ le32s l
  end.

(** The 26 bytes every frame block starts with: [size] is its [bLength]. *)
Definition frame_based_fixed (size : Z) (f : uvc_frame_desc) : bytes :=
  [u8 size; 36; fr_bDescriptorSubtype f; fr_bFrameIndex f; fr_bmCapabilities f]
  ++ le16 (fr_wWidth f) ++ le16 (fr_wHeight f)
  ++ le32 (fr_dwMinBitRate f) ++ le32 (fr_dwMaxBitRate f) ++ le32 (fr_dwDefaultFrameInterval f)
  ++ [fr_bFrameIntervalType f] ++ le32 (fr_dwBytesPerLine f).

(** The interval range, or the discrete intervals without their terminator. *)
Definition frame_based_table (f : uvc_frame_desc) : bytes :=
  match fr_intervals f with
  | None => le32s [fr_dwMinFrameInterval f; fr_dwMaxFrameInterval f; fr_dwFrameIntervalStep f]
  | Some a => le32s (take (length a - 1) a)
  end.

(** The block a device sends for a frame. *)
Definition frame_based_bytes (f : uvc_frame_desc) : bytes :=
  frame_based_fixed (26 + len (frame_based_table f)) f ++ frame_based_table f.

(** What the block can carry: every field at its width, the range fields only
    for a continuous range, no buffer size. *)
Record frame_encodable (f : uvc_frame_desc) : Prop := {
  enc_wf : frame_wf f;
  enc_subtype : fits 8 (fr_bDescriptorSubtype f);
  enc_caps : fits 8 (fr_bmCapabilities f);
  enc_minrate : fits 32 (fr_dwMinBitRate f);
  enc_bpl : fits 32 (fr_dwBytesPerLine f);
  enc_type : fits 8 (fr_bFrameIntervalType f);
  enc_bufsize : fr_dwMaxVideoFrameBufferSize f = 0;
  enc_range : fr_intervals f ≠ None →
    fr_dwMinFrameInterval f = 0 ∧ fr_dwMaxFrameInterval f = 0 ∧ fr_dwFrameIntervalStep f = 0;
}.

Lemma byte_at_app pre l o i : 0 ≤ i → o = len pre + i → byte_at (pre ++ l) o = byte_at l i.
Proof.
  intros Hi ->. unfold byte_at. f_equal. unfold len. rewrite lookup_app_r by lia. f_equal. lia.
Qed.

Lemma le16_at_app pre z rest o :
  fits 16 z → o = len pre → le16_at (pre ++ le16 z ++ rest) o = z.
Proof.
  intros Hz ->. rewrite <- (le16_roundtrip z rest) at 2 by done. unfold le16_at.
  by rewrite (byte_at_app pre _ _ 0), (byte_at_app pre _ _ (0 + 1)) by lia.
Qed.

Lemma le32_at_app pre z rest o :
  fits 32 z → o = len pre → le32_at (pre ++ le32 z ++ rest) o = z.
Proof.
  intros Hz ->. rewrite <- (le32_roundtrip z rest) at 2 by done. unfold le32_at.
  by rewrite (byte_at_app pre _ _ 0), (byte_at_app pre _ _ (0 + 1)), (byte_at_app pre _ _ (0 + 2)),
    (byte_at_app pre _ _ (0 + 3)) by lia.
Qed.

Lemma intervals_at_app pre ivs rest p :
  Forall (λ z, fits 32 z ∧ z ≠ 0) ivs → p = len pre →
  intervals_at (length ivs) (pre ++ le32s ivs ++ rest) p = ivs.
Proof.
  intros Hf. revert pre p. induction Hf as [|z ivs [Hz Hnz] _ IH]; intros pre p Hp; [done|].
  cbn [length intervals_at le32s]. rewrite <- (app_assoc (le32 z)), le32_at_app by done.
  rewrite (proj2 (nz_true z)) by done. f_equal.
  rewrite (app_assoc pre). apply IH. rewrite len_app. subst p. done.
Qed.

Lemma len_le32s l : len (le32s l) = 4 * len l.
Proof.
  induction l as [|z l IH]; [done|]. cbn [le32s]. rewrite len_app, IH, len_cons.
  change (len (le32 z)) with 4. lia.
Qed.

Lemma le32s_ok l : bytes_ok (le32s l).
Proof.
  induction l; cbn [le32s]; [constructor|]. apply Forall_app. split; [apply le32_ok|done].
Qed.

Lemma len_frame_based_fixed size f : len (frame_based_fixed size f) = 26.
Proof. done. Qed.

Lemma frame_based_fixed_ok size f : frame_encodable f → bytes_ok (frame_based_fixed size f).
Proof.
  intros [[] ]. unfold frame_based_fixed, bytes_ok.
  repeat (apply Forall_app; split); try apply le16_ok; try apply le32_ok.
  all: repeat apply Forall_cons_2; try apply Forall_nil_2; try done; by apply wrapu_fits.
Qed.

Lemma frame_based_table_len f :
  frame_wf f → len (frame_based_table f) = interval_bytes (fr_bFrameIntervalType f).
Proof.
  intros Hf. pose proof (wf_intervals f Hf) as Hi. unfold frame_based_table, interval_bytes.
  destruct (fr_intervals f) as [a|].
  - destruct Hi as (l & -> & Hl & Hpos & _). rewrite length_app, Nat.add_sub, take_app_length.
    rewrite len_le32s, <- Hl. case_match; lia.
  - by rewrite Hi.
Qed.

(** The intervals are read back. *)
Lemma frame_intervals_at_bytes size f rest :
  frame_encodable f →
  frame_intervals_at (fr_bFrameIntervalType f)
    (frame_based_fixed size f ++ frame_based_table f ++ rest)
  = (fr_dwMinFrameInterval f, fr_dwMaxFrameInterval f, fr_dwFrameIntervalStep f, fr_intervals f).
Proof.
  intros [Hwf _ _ _ _ _ _ Hr]. pose proof (wf_intervals f Hwf) as Hi.
  unfold frame_intervals_at, frame_based_table. set (fixed := frame_based_fixed size f).
  assert (len fixed = 26) as H26 by done.
  destruct (fr_intervals f) as [a|].
  - destruct Hr as (-> & -> & ->); [done|]. destruct Hi as (l & -> & Hl & Hpos & Hall).
    rewrite (proj2 (Z.eqb_neq _ 0)) by lia.
    rewrite length_app, Nat.add_sub, take_app_length.
    replace (Z.to_nat (fr_bFrameIntervalType f)) with (length l) by (unfold len in Hl; lia).
    by rewrite intervals_at_app.
  - rewrite Hi. cbn [Z.eqb le32s]. rewrite !app_nil_r, <- !app_assoc.
    rewrite (le32_at_app fixed) by (done || apply Hwf).
    rewrite (app_assoc fixed), (le32_at_app (fixed ++ _)) by (done || apply Hwf).
    rewrite (app_assoc (fixed ++ _)), le32_at_app by (done || apply Hwf). done.
Qed.

Lemma frame_based_fields_bytes size f rest :
  frame_encodable f →
  frame_based_fields (frame_based_fixed size f ++ frame_based_table f ++ rest) = f.
Proof.
  intros Henc. unfold frame_based_fields.
  replace (byte_at _ 21) with (fr_bFrameIntervalType f) by done.
  rewrite frame_intervals_at_bytes by done.
  destruct Henc as [Hwf _ _ ? ? _ Hb _]. generalize (frame_based_table f ++ rest) as tl. intros tl.
  set (b := frame_based_fixed size f ++ tl).
  assert (le16_at b 5 = fr_wWidth f) as -> by (apply (le16_at_app (take 5 b)); [apply Hwf|done]).
  assert (le16_at b 7 = fr_wHeight f) as -> by (apply (le16_at_app (take 7 b)); [apply Hwf|done]).
  assert (le32_at b 9 = fr_dwMinBitRate f) as -> by (by apply (le32_at_app (take 9 b))).
  assert (le32_at b 13 = fr_dwMaxBitRate f) as -> by (apply (le32_at_app (take 13 b)); [apply Hwf|done]).
  assert (le32_at b 17 = fr_dwDefaultFrameInterval f) as ->
    by (apply (le32_at_app (take 17 b)); [apply Hwf|done]).
  assert (le32_at b 22 = fr_dwBytesPerLine f) as -> by (by apply (le32_at_app (take 22 b))).
  rewrite <- Hb. by destruct f.
Qed.

(** A frame block encoded from a frame descriptor parses back: after any
    earlier formats, and whatever bytes follow the block, the parser appends
    exactly that descriptor, repaired, to the last format. *)
Theorem frame_based_roundtrip s format f rest :
  frame_encodable f → bytes_ok rest → last (si_format_descs s) = Some format →
  ∃ f', uvc_repair_frame_desc (fm_bBitsPerPixel format) f = Ret f'
    ∧ uvc_parse_vs_frame_frame s (frame_based_bytes f ++ rest) (len (frame_based_bytes f))
      = Ret (UVC_SUCCESS, append_frame s format f').
Proof.
  intros Henc Hrest Hlast. pose proof (frame_based_table_len f (enc_wf f Henc)) as Htl.
  unfold frame_based_bytes. rewrite <- app_assoc.
  set (size := 26 + len (frame_based_table f)).
  pose proof (frame_based_fields_bytes size f rest Henc) as Hfields.
  destruct (frame_based_in s (frame_based_fixed size f ++ frame_based_table f ++ rest)
    (len (frame_based_fixed size f ++ frame_based_table f))) as (format' & f' & Hl' & Hr & _ & Hp).
  - apply Forall_app. split; [by apply frame_based_fixed_ok|]. apply Forall_app. split; [|done].
    unfold frame_based_table. case_match; apply le32s_ok.
  - rewrite !len_app. pose proof (len_nonneg rest). lia.
  - rewrite len_app, len_frame_based_fixed. unfold frame_based_valid.
    replace (byte_at _ 21) with (fr_bFrameIntervalType f) by done.
    pose proof (len_nonneg (frame_based_table f)). split_and!; [lia| |lia].
    intros E. by rewrite E in Hlast.
  - rewrite Hfields in Hr. rewrite Hlast in Hl'. injection Hl' as <-. eauto.
Qed.

Definition h264_format : uvc_format_desc :=
  {| fm_bDescriptorSubtype := 0x10; fm_bFormatIndex := 1; fm_bNumFrameDescriptors := 1;
     fm_guidFormat := [0x48; 0x32; 0x36; 0x34; 0x00; 0x00; 0x10; 0x00; 0x80; 0x00; 0x00; 0xaa; 0x00; 0x38; 0x9b; 0x71];
     fm_bBitsPerPixel := 0;
     fm_bDefaultFrameIndex := 1; fm_bAspectRatioX := 0; fm_bAspectRatioY := 0;
     fm_bmInterlaceFlags := 0; fm_bCopyProtect := 0; fm_bVariableSize := 1;
     fm_frame_descs := []; fm_still_frame_desc := [] |}.

Lemma frame_based_roundtrip_witness :
  ∃ f', uvc_parse_vs_frame_frame (set_format_descs (stream_if_new 1) [h264_format])
    (frame_based_bytes degenerate_frame ++ [1; 2; 3]) 34
    = Ret (UVC_SUCCESS, append_frame (set_format_descs (stream_if_new 1) [h264_format]) h264_format f')
    ∧ fr_intervals f' = Some [166666; 333333; 0].
Proof.
  destruct (frame_based_roundtrip (set_format_descs (stream_if_new 1) [h264_format]) h264_format
    degenerate_frame [1; 2; 3]) as (f' & Hr & Hp).
  - constructor; try (simpl; unfold fits; lia); [apply degenerate_frame_wf|done..].
  - repeat constructor; by apply (bool_decide_unpack _).
  - done.
  - exists f'. split; [exact Hp|]. by injection Hr as <-.
Defined.
