(* ===== verification/ReattachGuard.v ===== *)
(** * ReattachGuard: the out-of-process driver reattach of src/reattach_guard.c

    The record the library shares with its helper process, the operations that
    arm and disarm an interface in it, the creation and destruction of the
    guard, and the helper itself, which hands every interface still armed back
    to the kernel.  System calls are requests to the [Environment]; a fork that
    answers 0 continues as the child. *)

From stdpp Require Import prelude.
From S2P Require Import Prelude Environment.

Definition UVC_REATTACH_MAGIC : Z := 0x55564347.
Definition UVC_REATTACH_RETRY_MS : Z := 25.
Definition UVC_REATTACH_MAX_ATTEMPTS : Z := 80.
Definition UVC_REATTACH_FD_SCAN_CAP : Z := 65536.
Definition UVC_REATTACH_MAX_INTERFACES : Z := 32.
Definition EINTR : Z := 4.
Definition EBUSY : Z := 16.

Record uvc_reattach_record := {
  rr_magic : Z;
  rr_armed : Z;
  rr_busnum : Z;
  rr_devnum : Z;
  rr_id_vendor : Z;
  rr_id_product : Z;
  rr_bcd_device : Z;
}.

Record uvc_reattach_guard := {
  rg_record : uvc_reattach_record;
  rg_notify_fd : Z;
}.

Definition set_armed (r : uvc_reattach_record) (armed : Z) : uvc_reattach_record :=
  {| rr_magic := rr_magic r; rr_armed := armed; rr_busnum := rr_busnum r;
     rr_devnum := rr_devnum r; rr_id_vendor := rr_id_vendor r;
     rr_id_product := rr_id_product r; rr_bcd_device := rr_bcd_device r |}.

(** ** The armed set

    The mask is in memory the helper reads once this process is gone, at
    whatever point that happens, so a store to it is an event of its own.  A null
    guard is [None]; arming through it does nothing. *)

Section armed_set.
Context `{Environment}.

Definition store_armed (g : uvc_reattach_guard) (armed : Z) : io (option uvc_reattach_guard) :=
  _ ← call (StoreArmed armed);
  mret (Some {| rg_record := set_armed (rg_record g) armed; rg_notify_fd := rg_notify_fd g |}).

Definition uvc_reattach_guard_arm (guard : option uvc_reattach_guard) (interface_number : Z)
    : io (option uvc_reattach_guard) :=
  match guard with
  | None => mret None
  | Some g =>
      if (interface_number <? 0) || (UVC_REATTACH_MAX_INTERFACES <=? interface_number)
      then mret (Some g)
      else store_armed g (Z.lor (rr_armed (rg_record g)) (u32 (Z.shiftl 1 interface_number)))
  end.

Definition uvc_reattach_guard_disarm (guard : option uvc_reattach_guard) (interface_number : Z)
    : io (option uvc_reattach_guard) :=
  match guard with
  | None => mret None
  | Some g =>
      if (interface_number <? 0) || (UVC_REATTACH_MAX_INTERFACES <=? interface_number)
      then mret (Some g)
      else store_armed g
             (Z.land (rr_armed (rg_record g)) (not32 (u32 (Z.shiftl 1 interface_number))))
  end.
End armed_set.

Definition uvc_reattach_guard_armed_mask (guard : option uvc_reattach_guard) : Z :=
  match guard with
  | None => 0
  | Some g => rr_armed (rg_record g)
  end.

(** ** The usbfs backend *)

Definition read_le16 (p : bytes) (o : Z) : outcome Z :=
  b0 ← rd p o;
  b1 ← rd p (o + 1);
  Ret (u16 (Z.lor b0 (Z.shiftl b1 8))).

Definition write_three_digits (out : bytes) (o value : Z) : outcome bytes :=
  out ← wr out o (48 + (value / 100) mod 10);
  out ← wr out (o + 1) (48 + (value / 10) mod 10);
  wr out (o + 2) (48 + value mod 10).

(** ["/dev/bus/usb/000/000"] with its terminator. *)
Definition usbfs_path : bytes :=
  [47; 100; 101; 118; 47; 98; 117; 115; 47; 117; 115; 98; 47; 48; 48; 48; 47; 48; 48; 48; 0].

Record uvc_reattach_backend := {
  be_open_device : uvc_reattach_record → io Z;
  be_rebind : Z → Z → io Z;
  be_close_device : Z → io unit;
}.

(** The [||] chain of the identity check: it stops at the first difference. *)
Definition descriptor_differs (r : uvc_reattach_record) (got : Z) (descriptor : bytes) : outcome bool :=
  if negb (got =? 18) then Ret true else
  vendor ← read_le16 descriptor 8;
  if negb (vendor =? rr_id_vendor r) then Ret true else
  product ← read_le16 descriptor 10;
  if negb (product =? rr_id_product r) then Ret true else
  bcd ← read_le16 descriptor 12;
  Ret (negb (bcd =? rr_bcd_device r)).

Section guard.
Context `{Environment}.

Definition default_open_device (r : uvc_reattach_record) : io Z :=
  path ← lift (write_three_digits usbfs_path 13 (rr_busnum r));
  path ← lift (write_three_digits path 17 (rr_devnum r));
  fd ← call (Open path);
  if fd <? 0 then mret (-1) else
  got ← ask (Read fd 18);
  differs ← lift (descriptor_differs r (rs_code got) (store_into (replicate 18 0) (rs_data got)));
  if (differs : bool) then
    _ ← call (Close fd);
    mret (-1)
  else mret fd.

Definition default_rebind (fd interface_number : Z) : io Z :=
  r ← ask (IoctlConnect fd interface_number);
  if rs_code r <? 0 then mret (- rs_errno r) else mret 0.

Definition default_close_device (fd : Z) : io unit :=
  _ ← call (Close fd);
  mret tt.

Definition default_backend : uvc_reattach_backend := {|
  be_open_device := default_open_device;
  be_rebind := default_rebind;
  be_close_device := default_close_device |}.

(** ** The helper *)

Section helper.
Context (active_backend : uvc_reattach_backend).

(** [for (attempt = 0; attempt < UVC_REATTACH_MAX_ATTEMPTS; attempt++)]: [n]
    attempts are left. *)
Fixpoint rebind_attempts (n : nat) (fd interface_number : Z) : io unit :=
  match n with
  | O => mret tt
  | S n =>
      r ← be_rebind active_backend fd (u8 interface_number);
      if negb (r =? - EBUSY) then mret tt else
      _ ← call (Poll UVC_REATTACH_RETRY_MS);
      rebind_attempts n fd interface_number
  end.

(** The loop over the interfaces from [interface_number], [n] are left. *)
Fixpoint rebind_armed (n : nat) (fd armed interface_number : Z) : io unit :=
  match n with
  | O => mret tt
  | S n =>
      _ ← (if Z.land armed (u32 (Z.shiftl 1 interface_number)) =? 0 then mret tt
           else rebind_attempts (Z.to_nat UVC_REATTACH_MAX_ATTEMPTS) fd interface_number);
      rebind_armed n fd armed (interface_number + 1)
  end.

Definition reattach_armed_interfaces (r : uvc_reattach_record) : io unit :=
  if negb (rr_magic r =? UVC_REATTACH_MAGIC) then mret tt else
  let armed := rr_armed r in
  if armed =? 0 then mret tt else
  fd ← be_open_device active_backend r;
  if fd <? 0 then mret tt else
  _ ← rebind_armed (Z.to_nat UVC_REATTACH_MAX_INTERFACES) fd armed 0;
  be_close_device active_backend fd.

Definition fd_scan_limit : io Z :=
  limit ← call Sysconf;
  mret (if limit <? 3 then 3
        else if UVC_REATTACH_FD_SCAN_CAP <? limit then UVC_REATTACH_FD_SCAN_CAP
        else limit).

(** [for (fd = 0; fd < scan_limit; fd++)] from [fd], [n] descriptors are left. *)
Fixpoint close_inherited_fds (n : nat) (keep_fd fd : Z) : io unit :=
  match n with
  | O => mret tt
  | S n =>
      _ ← (if fd =? keep_fd then mret 0 else call (Close fd));
      close_inherited_fds n keep_fd (fd + 1)
  end.

(** A request repeated while [again] holds of its answer. *)
Fixpoint ask_while (fuel : nat) (q : request) (again : response → bool) : io response :=
  match fuel with
  | O => λ _, Undef Diverged
  | S fuel =>
      r ← ask q;
      if again r then ask_while fuel q again else mret r
  end.

(** Whether the loop of [helper_main] goes on reading. *)
Definition helper_read_again (r : response) : bool :=
  let got := rs_code r in
  if got =? 0 then false
  else if (got <? 0) && (rs_errno r =? EINTR) then true
  else if got <? 0 then false
  else true.

Definition helper_main (fuel : nat) (notify_fd scan_limit : Z) (r : uvc_reattach_record) : io unit :=
  _ ← call Setsid;
  _ ← close_inherited_fds (Z.to_nat scan_limit) notify_fd 0;
  _ ← ask_while fuel (Read notify_fd 64) helper_read_again;
  reattach_armed_interfaces r.

Definition waitpid_again (r : response) : bool :=
  (rs_code r <? 0) && (rs_errno r =? EINTR).

Definition fd_of (r : response) (k : nat) : Z := default (-1) (rs_data r !! k).

(** In the calling process the result is a guard or null; the two processes it
    forks exit. *)
Definition uvc_reattach_guard_create (fuel : nat)
    (busnum devnum id_vendor id_product bcd_device : Z) : io (option uvc_reattach_guard) :=
  guard ← call (Calloc BGuard);
  if guard =? 0 then mret None else
  map ← call Mmap;
  if map =? -1 then
    _ ← call Free;
    mret None
  else
  let record := {| rr_magic := UVC_REATTACH_MAGIC; rr_armed := 0; rr_busnum := busnum;
                   rr_devnum := devnum; rr_id_vendor := id_vendor;
                   rr_id_product := id_product; rr_bcd_device := bcd_device |} in
  _ ← call (StoreArmed (rr_armed record));
  notify ← ask Pipe2;
  if negb (rs_code notify =? 0) then
    _ ← call Munmap;
    _ ← call Free;
    mret None
  else
  scan_limit ← fd_scan_limit;
  intermediate ← call RawFork;
  if intermediate =? 0 then
    helper ← call RawFork;
    if helper =? 0 then
      _ ← helper_main fuel (fd_of notify 0) scan_limit record;
      lift (Undef Exited)
    else lift (Undef Exited)
  else
  _ ← call (Close (fd_of notify 0));
  if intermediate <? 0 then
    _ ← call (Close (fd_of notify 1));
    _ ← call Munmap;
    _ ← call Free;
    mret None
  else
  _ ← ask_while fuel Waitpid waitpid_again;
  mret (Some {| rg_record := record; rg_notify_fd := fd_of notify 1 |}).

Definition uvc_reattach_guard_destroy (guard : option uvc_reattach_guard) : io unit :=
  match guard with
  | None => mret tt
  | Some g =>
      _ ← call (Close (rg_notify_fd g));
      _ ← call Munmap;
      _ ← call Free;
      mret tt
  end.
End helper.
End guard.
