(* ===== verification/ReattachGuardFacts.v ===== *)
(** * ReattachGuardFacts: correctness of the reattach guard

    The armed set as a set of bits, the identity check of the usbfs backend, the
    retry discipline of the helper, its termination, and the resources the
    creation of a guard acquires and gives back on every path. *)

From stdpp Require Import prelude.
From S2P Require Import Prelude Environment ReattachGuard.

(** ** The usbfs backend *)

(** The number three decimal digits at [o] spell. *)
Definition three_digits (p : bytes) (o : Z) : Z :=
  100 * (byte_at p o - 48) + 10 * (byte_at p (o + 1) - 48) + (byte_at p (o + 2) - 48).

Definition is_digit (c : Z) : Prop := 48 ≤ c ≤ 57.

(** A path below /dev/bus/usb: the fixed characters, six digits, the terminator. *)
Definition usbfs_path_for (busnum devnum : Z) (p : bytes) : Prop :=
  three_digits p 13 = busnum ∧ three_digits p 17 = devnum ∧ len p = 21
  ∧ take 13 p = take 13 usbfs_path ∧ byte_at p 16 = 47 ∧ byte_at p 20 = 0
  ∧ Forall is_digit (take 3 (drop 13 p)) ∧ Forall is_digit (take 3 (drop 17 p)).

Definition path_of (b d : Z) : bytes :=
  take 13 usbfs_path
  ++ [48 + (b / 100) mod 10; 48 + (b / 10) mod 10; 48 + b mod 10; 47;
      48 + (d / 100) mod 10; 48 + (d / 10) mod 10; 48 + d mod 10; 0].

Lemma write_path b d :
  (p ← write_three_digits usbfs_path 13 b; write_three_digits p 17 d) = Ret (path_of b d).
Proof. done. Qed.

Lemma digits_value b :
  fits 8 b →
  100 * (48 + (b / 100) mod 10 - 48) + 10 * (48 + (b / 10) mod 10 - 48) + (48 + b mod 10 - 48) = b.
Proof.
  intros [??]. change (2 ^ 8) with 256 in *. Z.to_euclidean_division_equations. lia.
Qed.

Lemma digits_ok b :
  Forall is_digit [48 + (b / 100) mod 10; 48 + (b / 10) mod 10; 48 + b mod 10].
Proof.
  repeat apply Forall_cons_2; try apply Forall_nil_2; unfold is_digit;
    Z.to_euclidean_division_equations; lia.
Qed.

Lemma path_of_ok b d : fits 8 b → fits 8 d → usbfs_path_for b d (path_of b d).
Proof.
  intros Hb Hd. unfold usbfs_path_for. split_and!; try done.
  - exact (digits_value b Hb).
  - exact (digits_value d Hd).
  - exact (digits_ok b).
  - exact (digits_ok d).
Qed.

Lemma read_le16_in p o :
  bytes_ok p → 0 ≤ o → o + 2 ≤ len p → read_le16 p o = Ret (le16_at p o).
Proof.
  intros Hp Ho Hl. pose proof (SW_TO_SHORT_in p o Hp Ho Hl) as Hs. unfold SW_TO_SHORT, read_le16 in *.
  rewrite !rd_byte_at in * by lia. simpl in *. injection Hs as ->.
  by rewrite wrapu_id by (by apply le16_at_fits).
Qed.

(** The descriptor names the recorded device. *)
Definition same_device (r : uvc_reattach_record) (got : Z) (d : bytes) : Prop :=
  got = 18 ∧ le16_at d 8 = rr_id_vendor r ∧ le16_at d 10 = rr_id_product r
  ∧ le16_at d 12 = rr_bcd_device r.

#[export] Instance same_device_dec r got d : Decision (same_device r got d).
Proof. unfold same_device. apply _. Defined.

Lemma descriptor_differs_spec r got d :
  bytes_ok d → len d = 18 → descriptor_differs r got d = Ret (bool_decide (¬ same_device r got d)).
Proof.
  intros Hd Hl. unfold descriptor_differs, same_device.
  rewrite !read_le16_in by (done || lia). simpl.
  destruct (Z.eqb_spec got 18); simpl; [|by rewrite bool_decide_true by naive_solver].
  destruct (Z.eqb_spec (le16_at d 8) (rr_id_vendor r)); simpl;
    [|by rewrite bool_decide_true by naive_solver].
  destruct (Z.eqb_spec (le16_at d 10) (rr_id_product r)); simpl;
    [|by rewrite bool_decide_true by naive_solver].
  destruct (Z.eqb_spec (le16_at d 12) (rr_bcd_device r)); simpl.
  - by rewrite bool_decide_false by naive_solver.
  - by rewrite bool_decide_true by naive_solver.
Qed.

Section env.
Context `{Environment}.

(** The descriptor a read answered, in the helper's 18-byte buffer. *)
Definition descriptor_read (r : response) : bytes := store_into (replicate 18 0) (rs_data r).

Lemma descriptor_read_ok r : bytes_ok (descriptor_read r) ∧ len (descriptor_read r) = 18.
Proof.
  split; [|by unfold descriptor_read; rewrite store_into_len].
  apply store_into_ok. by apply Forall_replicate.
Qed.

Lemma open_device_run r t :
  let path := path_of (rr_busnum r) (rr_devnum r) in
  let o := answer t (Open path) in
  let fd := rs_code o in
  let t1 := t ++ [(Open path, o)] in
  let got := answer t1 (Read fd 18) in
  let t2 := t1 ++ [(Read fd 18, got)] in
  default_open_device r t =
    if fd <? 0 then Ret (-1, t1)
    else if decide (same_device r (rs_code got) (descriptor_read got)) then Ret (fd, t2)
    else Ret (-1, t2 ++ [(Close fd, answer t2 (Close fd))]).
Proof.
  intros path o fd t1 got t2. unfold default_open_device.
  destruct (write_three_digits usbfs_path 13 (rr_busnum r)) as [p1|] eqn:E1; [|done].
  pose proof (write_path (rr_busnum r) (rr_devnum r)) as Hp. rewrite E1 in Hp. simpl in Hp.
  rewrite (run_lift _ _ _ p1), (run_lift _ _ _ _ Hp), run_call by done.
  fold path o fd t1. case_match; [done|]. rewrite run_ask.
  fold got t2. fold (descriptor_read got).
  destruct (descriptor_read_ok got) as [Hok Hlen].
  rewrite (run_lift _ _ _ _ (descriptor_differs_spec r _ _ Hok Hlen)).
  case_decide as E; case_bool_decide; done.
Qed.

(** The usbfs backend opens the node whose path spells the recorded bus and
    device numbers, and returns its descriptor only when the 18-byte device
    descriptor read from it carries the recorded vendor, product and release;
    otherwise it returns -1 and leaves no descriptor open. *)
Theorem open_device_identity r t :
  fits 8 (rr_busnum r) → fits 8 (rr_devnum r) →
  wp (default_open_device r) (λ fd t', ∃ path o rest,
    usbfs_path_for (rr_busnum r) (rr_devnum r) path
    ∧ t' = t ++ (Open path, o) :: rest
    ∧ (0 ≤ fd → fd = rs_code o ∧ ∃ got, rest = [(Read fd 18, got)]
         ∧ same_device r (rs_code got) (descriptor_read got))
    ∧ (fd < 0 → fd = -1 ∧
         (rs_code o < 0 ∧ rest = []
          ∨ ∃ got c, rest = [(Read (rs_code o) 18, got); (Close (rs_code o), c)]
              ∧ ¬ same_device r (rs_code got) (descriptor_read got)))) t.
Proof.
  intros Hb Hd. unfold wp. rewrite open_device_run. cbv zeta.
  pose proof (path_of_ok _ _ Hb Hd) as Hp. revert Hp.
  generalize (path_of (rr_busnum r) (rr_devnum r)) as path. intros path Hp.
  destruct (Z.ltb_spec (rs_code (answer t (Open path))) 0) as [Hneg|Hpos]; simpl.
  - exists path, (answer t (Open path)), []. split_and!; [done..|lia|]. auto.
  - case_decide as Hs; simpl; exists path, (answer t (Open path)); rewrite <- !app_assoc; simpl.
    + eexists. split_and!; [done..|eauto|lia].
    + eexists. split_and!; [done..|lia|]. intros _. split; [done|]. right. eauto.
Qed.

(** ** The retries *)

(** The answers to the rebind requests for one interface. *)
Definition attempts (fd i : Z) (evs : trace) : list response :=
  omap (λ e : event, if decide (e.1 = IoctlConnect fd i) then Some e.2 else None) evs.

Definition busy (r : response) : Prop := rs_code r < 0 ∧ rs_errno r = EBUSY.

(** At most [n] attempts, each but the last answered EBUSY, and a last EBUSY
    only when all [n] are spent. *)
Inductive tried : nat → list response → Prop :=
  | tried_out : tried 0 []
  | tried_done n r : ¬ busy r → tried (S n) [r]
  | tried_again n r l : busy r → tried n l → tried (S n) (r :: l).

(** The events of the rebind loop: only rebinds on [fd] and pauses. *)
Definition rebinding (fd : Z) (e : event) : Prop :=
  (∃ i, e.1 = IoctlConnect fd i) ∨ e.1 = Poll UVC_REATTACH_RETRY_MS.

Lemma attempts_app fd i l k : attempts fd i (l ++ k) = attempts fd i l ++ attempts fd i k.
Proof. apply omap_app. Qed.

Lemma rebind_run fd i t :
  let r := answer t (IoctlConnect fd i) in
  default_rebind fd i t
  = Ret (if rs_code r <? 0 then - rs_errno r else 0, t ++ [(IoctlConnect fd i, r)]).
Proof. unfold default_rebind. cbv zeta. rewrite run_ask. by case_match. Qed.

Lemma busy_test r :
  ((if rs_code r <? 0 then - rs_errno r else 0) =? - EBUSY) = true ↔ busy r.
Proof. unfold busy, EBUSY. case_match; lia. Qed.

Lemma rebind_attempts_spec n fd i t :
  0 ≤ i < 32 →
  wp (rebind_attempts default_backend n fd i) (λ _ t', ∃ evs, t' = t ++ evs
    ∧ Forall (rebinding fd) evs ∧ tried n (attempts fd i evs)
    ∧ ∀ j, j ≠ i → attempts fd j evs = []) t.
Proof.
  intros Hi. revert t. induction n as [|n IH]; intros t; simpl.
  { exists []. rewrite app_nil_r. split_and!; [done|constructor|constructor|done]. }
  rewrite wp_bind. rewrite (wrapu_id 8 i) by (unfold fits; lia).
  rewrite (wp_Ret _ _ _ _ _ (rebind_run fd i t)). set (r := answer t (IoctlConnect fd i)).
  assert (∀ j, attempts fd j [(IoctlConnect fd i, r)] = if decide (j = i) then [r] else []) as Hone.
  { intros j. unfold attempts. simpl. do 2 case_decide; simplify_eq; done. }
  destruct ((if rs_code r <? 0 then - rs_errno r else 0) =? - EBUSY) eqn:E; simpl.
  - apply busy_test in E. wp_run. eapply wp_mono; [apply IH|].
    intros _ t' (evs & -> & Hall & Htr & Hno). rewrite <- !app_assoc. eexists. split; [done|].
    split_and!.
    + repeat (apply Forall_cons_2; [unfold rebinding; simpl; eauto|]). done.
    + rewrite !attempts_app, Hone, decide_True by done. simpl. by apply tried_again.
    + intros j Hj. rewrite !attempts_app, Hone, decide_False by done. simpl. auto.
  - eexists. split; [done|]. split_and!.
    + apply Forall_singleton. left. eauto.
    + rewrite Hone, decide_True by done. apply tried_done. rewrite <- busy_test. by rewrite E.
    + intros j Hj. by rewrite Hone, decide_False.
Qed.

(** Interface [j] is tried when it is armed, and left alone otherwise. *)
Definition rebound (fd armed : Z) (evs : trace) (j : Z) : Prop :=
  if Z.testbit armed j then tried (Z.to_nat UVC_REATTACH_MAX_ATTEMPTS) (attempts fd j evs)
  else attempts fd j evs = [].

Lemma rebind_armed_spec n fd armed i t :
  0 ≤ i → i + Z.of_nat n ≤ 32 →
  wp (rebind_armed default_backend n fd armed i) (λ _ t', ∃ evs, t' = t ++ evs
    ∧ Forall (rebinding fd) evs
    ∧ (∀ j, i ≤ j < i + Z.of_nat n → rebound fd armed evs j)
    ∧ ∀ j, j < i ∨ i + Z.of_nat n ≤ j → attempts fd j evs = []) t.
Proof.
  revert i t. induction n as [|n IH]; intros i t Hi Hn; cbn [rebind_armed].
  { exists []. rewrite app_nil_r. split_and!; [done|constructor|lia|done]. }
  rewrite wp_bind.
  assert (wp (if Z.land armed (u32 (1 ≪ i)) =? 0 then mret tt
              else rebind_attempts default_backend (Z.to_nat UVC_REATTACH_MAX_ATTEMPTS) fd i)
    (λ _ t', ∃ evs, t' = t ++ evs ∧ Forall (rebinding fd) evs ∧ rebound fd armed evs i
       ∧ ∀ j, j ≠ i → attempts fd j evs = []) t) as Hone.
  { rewrite land_bit by lia. unfold rebound. destruct (Z.testbit armed i); simpl negb; cbv iota.
    - by apply rebind_attempts_spec; lia.
    - apply wp_ret. exists []. rewrite app_nil_r. split_and!; [done|constructor|done|done]. }
  eapply wp_mono; [exact Hone|]. intros _ t1 (evs & -> & Hall & Hreb & Hno).
  eapply wp_mono; [apply (IH (i + 1)); lia|]. intros _ t2 (evs' & -> & Hall' & Hreb' & Hno').
  exists (evs ++ evs'). split_and!; [by rewrite app_assoc|by apply Forall_app| |].
  - intros j Hj. destruct (decide (j = i)) as [->|Hne].
    + unfold rebound in *. rewrite attempts_app, (Hno' i), app_nil_r by lia. done.
    + specialize (Hreb' j). unfold rebound in *. rewrite attempts_app, (Hno j) by lia. apply Hreb'. lia.
  - intros j Hj. rewrite attempts_app, Hno, Hno' by lia. done.
Qed.
End env.

Lemma tried_length n l : tried n l → (length l ≤ n)%nat ∧ (0 < n → l ≠ [])%nat.
Proof. induction 1; simpl; naive_solver lia. Qed.

(** ** The helper process *)

Section helper_env.
Context `{Environment}.

(** What the helper does with the record it finds: nothing for a record that is
    not its own or has nothing armed; otherwise it opens the device and, if that
    is the recorded one, tries every armed interface and no other, and closes
    it. *)
Definition repaired (r : uvc_reattach_record) (t t' : trace) : Prop :=
  if decide (rr_magic r ≠ UVC_REATTACH_MAGIC ∨ rr_armed r = 0) then t' = t
  else ∃ fd t1, default_open_device r t = Ret (fd, t1) ∧
    if fd <? 0 then t' = t1
    else ∃ evs c, t' = t1 ++ evs ++ [(Close fd, c)]
      ∧ Forall (rebinding fd) evs
      ∧ ∀ j, 0 ≤ j → rebound fd (rr_armed r) evs j.

Lemma reattach_repairs r t :
  fits 32 (rr_armed r) →
  wp (reattach_armed_interfaces default_backend r) (λ _ t', repaired r t t') t.
Proof.
  intros Hf. unfold reattach_armed_interfaces, repaired.
  destruct (Z.eqb_spec (rr_magic r) UVC_REATTACH_MAGIC) as [Hm|]; cbn [negb];
    [|rewrite wp_ret; by rewrite decide_True by auto].
  destruct (Z.eqb_spec (rr_armed r) 0); [rewrite wp_ret; by rewrite decide_True by auto|].
  assert (¬ (rr_magic r ≠ UVC_REATTACH_MAGIC ∨ rr_armed r = 0)) as Hd by (intros [Hx|Hx]; auto).
  destruct (decide (rr_magic r ≠ UVC_REATTACH_MAGIC ∨ rr_armed r = 0)) as [Hx|_]; [by destruct Hd|].
  assert (wp (default_open_device r) (λ _ _, True) t) as Ho.
  { unfold wp. rewrite open_device_run. cbv zeta. repeat case_match; done. }
  apply wp_iff in Ho as (fd & t1 & Ho & _).
  change (be_open_device default_backend r) with (default_open_device r).
  rewrite wp_bind, (wp_Ret _ _ _ _ _ Ho). destruct (fd <? 0) eqn:E.
  { exists fd, t1. by rewrite E. }
  rewrite wp_bind. eapply wp_mono; [apply rebind_armed_spec; [lia|done]|].
  intros _ t2 (evs & -> & Hall & Hreb & Hno).
  change (be_close_device default_backend fd) with (default_close_device fd).
  unfold default_close_device. wp_run.
  exists fd, t1. rewrite E. split; [done|]. do 2 eexists. rewrite <- app_assoc.
  split_and!; [reflexivity|done|]. intros j Hj. destruct (decide (j < 32)); [apply Hreb; unfold UVC_REATTACH_MAX_INTERFACES; lia|].
  unfold rebound. rewrite (fits_testbit 32) by (done || lia).
  apply Hno. unfold UVC_REATTACH_MAX_INTERFACES. lia.
Qed.

Lemma close_inherited_spec n keep fd t :
  wp (close_inherited_fds n keep fd) (λ _ t', ∃ evs, t' = t ++ evs
    ∧ evs.*1 = Close <$> filter (λ k, k ≠ keep) (seqZ fd (Z.of_nat n))) t.
Proof.
  revert fd t. induction n as [|n IH]; intros fd t; cbn [close_inherited_fds].
  { exists []. by rewrite app_nil_r. }
  rewrite seqZ_cons by lia.
  replace (Z.pred (Z.of_nat (S n))) with (Z.of_nat n) by lia. rewrite filter_cons.
  destruct (Z.eqb_spec fd keep) as [->|Hne]; wp_run.
  - rewrite decide_False by naive_solver. apply IH.
  - rewrite decide_True by done. eapply wp_mono; [apply IH|].
    intros _ t' (evs & -> & He). rewrite <- app_assoc. eexists. split; [done|].
    rewrite fmap_app, He. done.
Qed.

(** The answers so far that made a request be repeated. *)
Definition repeats (q : request) (again : response → bool) (t : trace) : nat :=
  length (filter (λ e : event, e.1 = q ∧ again e.2 = true) t).

(** [q] is repeated [n] times at most, over the whole life of the process. *)
Definition settles (q : request) (again : response → bool) (n : nat) : Prop :=
  ∀ t, (n ≤ repeats q again t)%nat → again (answer t q) = false.

Lemma ask_while_settles fuel q again n t :
  settles q again n → (n - repeats q again t < fuel)%nat →
  wp (ask_while fuel q again) (λ r t', ∃ evs, t' = t ++ evs ++ [(q, r)] ∧ again r = false
    ∧ Forall (λ e : event, e.1 = q ∧ again e.2 = true) evs) t.
Proof.
  intros Hs. revert t. induction fuel as [|fuel IH]; intros t Hn; cbn [ask_while].
  { lia. }
  wp_run. destruct (again (answer t q)) eqn:E.
  - eapply wp_mono; [apply IH|].
    + specialize (Hs t). unfold repeats in *. rewrite filter_app, length_app, filter_cons_True by done. simpl.
      destruct (decide (n ≤ length (filter (λ e : event, e.1 = q ∧ again e.2 = true) t))%nat);
        [naive_solver congruence|lia].
    + intros r t' (evs & -> & Hr & Hall). rewrite <- app_assoc. eexists (_ :: _).
      split_and!; [done..|]. by apply Forall_cons_2.
  - wp_run. exists []. split_and!; [done..|constructor].
Qed.

Lemma helper_main_run fuel n notify_fd scan_limit r t :
  settles (Read notify_fd 64) helper_read_again n → (n < fuel)%nat → 0 ≤ scan_limit →
  fits 32 (rr_armed r) →
  wp (helper_main default_backend fuel notify_fd scan_limit r) (λ _ t', ∃ closes reads eof,
    closes.*1 = Close <$> filter (λ k, k ≠ notify_fd) (seqZ 0 scan_limit)
    ∧ Forall (λ e : event, e.1 = Read notify_fd 64 ∧ helper_read_again e.2 = true) reads
    ∧ helper_read_again eof = false
    ∧ repaired r (t ++ (Setsid, answer t Setsid) :: closes ++ reads ++ [(Read notify_fd 64, eof)]) t') t.
Proof.
  intros Hs Hn Hl Hf. unfold helper_main. wp_run.
  eapply wp_mono; [apply close_inherited_spec|]. rewrite Z2Nat.id by done.
  intros _ t1 (closes & -> & Hc). wp_run.
  eapply wp_mono; [apply (ask_while_settles _ _ _ n); [done|lia]|].
  intros eof t2 (reads & -> & He & Hr).
  eapply wp_mono; [by apply reattach_repairs|]. intros u t' Hrep.
  exists closes, reads, eof. rewrite <- !app_assoc in Hrep. done.
Qed.

(** The descriptors that are looked through, when [limit] may be open. *)
Definition descriptors_scanned (limit : Z) : list Z := seqZ 0 (Z.max 3 (Z.min limit 65536)).

Lemma fd_scan_limit_run t :
  let r := answer t Sysconf in
  fd_scan_limit t = Ret (Z.max 3 (Z.min (rs_code r) 65536), t ++ [(Sysconf, r)]).
Proof.
  intros r. unfold fd_scan_limit. rewrite run_call. fold r. unfold mret, io_ret, UVC_REATTACH_FD_SCAN_CAP.
  do 2 f_equal. f_equal. destruct (rs_code r <? 3) eqn:E1, (65536 <? rs_code r) eqn:E2; lia.
Qed.

(** C14: the limit on descriptors is looked up and the helper runs with it.  Once the
    pipe's write end is gone (whatever noise and interruptions came before, [n] at
    most), the helper finishes.  In one pass it has closed the descriptors 0, 1, ...
    up to the limit of the process, but for its own: at least three, and at most
    65536, so that descriptors from 65536 on stay open in a process that may have more.
    Then it repairs exactly the interfaces still armed, each with at most 80 attempts
    and a retry only after EBUSY. *)
Theorem helper_main_repairs fuel n notify_fd r t :
  settles (Read notify_fd 64) helper_read_again n → (n < fuel)%nat → fits 32 (rr_armed r) →
  wp (scan_limit ← fd_scan_limit; helper_main default_backend fuel notify_fd scan_limit r) (λ _ t',
    let limit := answer t Sysconf in
    let t0 := t ++ [(Sysconf, limit)] in
    ∃ closes reads eof,
      closes.*1 = Close <$> filter (λ k, k ≠ notify_fd) (descriptors_scanned (rs_code limit))
      ∧ Forall (λ e : event, e.1 = Read notify_fd 64 ∧ helper_read_again e.2 = true) reads
      ∧ helper_read_again eof = false
      ∧ repaired r (t0 ++ (Setsid, answer t0 Setsid) :: closes ++ reads ++ [(Read notify_fd 64, eof)]) t') t.
Proof.
  intros Hs Hn Hf. rewrite wp_bind, (wp_Ret _ _ _ _ _ (fd_scan_limit_run t)). cbv zeta.
  apply (helper_main_run _ n); [done|done|lia|done].
Qed.
End helper_env.

(** ** Resources of the calling process *)

Inductive resource :=
  | HeapBlock
  | Mapping
  | Descriptor (fd : Z).

#[export] Instance resource_eq_dec : EqDecision resource.
Proof. solve_decision. Defined.

Fixpoint remove_first (x : resource) (l : list resource) : list resource :=
  match l with
  | [] => []
  | y :: l => if decide (y = x) then l else y :: remove_first x l
  end.

Definition hold (l : list resource) (e : event) : list resource :=
  match e.1 with
  | Calloc _ => if rs_code e.2 =? 0 then l else HeapBlock :: l
  | Free => remove_first HeapBlock l
  | Mmap => if rs_code e.2 =? -1 then l else Mapping :: l
  | Munmap => remove_first Mapping l
  | Pipe2 => if rs_code e.2 =? 0 then Descriptor (fd_of e.2 0) :: Descriptor (fd_of e.2 1) :: l else l
  | Close fd => remove_first (Descriptor fd) l
  | _ => l
  end.

(** What the process holds after a history. *)
Definition held (t : trace) : list resource := foldl hold [] t.

Lemma held_snoc t e : held (t ++ [e]) = hold (held t) e.
Proof. unfold held. by rewrite foldl_app. Qed.

Lemma held_neutral t evs : Forall (λ e : event, e.1 = Waitpid) evs → held (t ++ evs) = held t.
Proof.
  intros Hall. revert t. induction Hall as [|[q r] evs Hq _ IH]; intros t; [by rewrite app_nil_r|].
  rewrite cons_middle, app_assoc, IH, held_snoc. simpl in *. by subst q.
Qed.

Section create.
Context `{Environment}.

(** In the calling process, creating a guard either fails and leaves it
    holding exactly what it held, on every failure path, or yields a guard with
    nothing armed for the given device and leaves it holding one heap block, the
    shared mapping and the write end of the pipe more, all of which
    [uvc_reattach_guard_destroy] gives back. *)
Theorem guard_create_resources fuel n busnum devnum vid pid bcd t :
  settles Waitpid waitpid_again n → (n < fuel)%nat →
  (∀ t, rs_code (answer t RawFork) ≠ 0) →
  wp (uvc_reattach_guard_create default_backend fuel busnum devnum vid pid bcd) (λ res t',
    match res with
    | None => held t' = held t
    | Some g =>
        held t' = Descriptor (rg_notify_fd g) :: Mapping :: HeapBlock :: held t
        ∧ rg_record g = {| rr_magic := UVC_REATTACH_MAGIC; rr_armed := 0; rr_busnum := busnum;
             rr_devnum := devnum; rr_id_vendor := vid; rr_id_product := pid; rr_bcd_device := bcd |}
        ∧ wp (uvc_reattach_guard_destroy (Some g)) (λ _ t'', held t'' = held t) t'
    end) t.
Proof.
  intros Hs Hn Hfork. unfold uvc_reattach_guard_create. wp_run. case_match eqn:E1; wp_run.
  { rewrite held_snoc. cbn [hold fst snd]. by rewrite E1. }
  case_match eqn:E2; wp_run.
  { rewrite !held_snoc. cbn [hold fst snd]. by rewrite E1, E2. }
  case_match eqn:E3; wp_run.
  { rewrite !held_snoc. cbn [hold fst snd]. apply negb_true_iff in E3. by rewrite E1, E2, E3. }
  apply negb_false_iff in E3. unfold fd_scan_limit. wp_run.
  rewrite (proj2 (Z.eqb_neq _ 0)) by apply Hfork. wp_run. case_match eqn:E4; wp_run.
  { rewrite !held_snoc. cbn [hold fst snd]. rewrite E1, E2, E3. simpl.
    by repeat (rewrite decide_True by done; simpl). }
  eapply wp_mono; [apply (ask_while_settles _ _ _ n); [done|lia]|].
  intros r t' (evs & -> & Hr & Hall). wp_run.
  assert (Forall (λ e : event, e.1 = Waitpid) (evs ++ [(Waitpid, r)])) as Hw.
  { apply Forall_app. split; [|by apply Forall_singleton]. eapply Forall_impl; [done|]. naive_solver. }
  set (t0 := _ ++ [(Close _, _)]).
  match goal with
  | |- context [rg_notify_fd {| rg_record := _; rg_notify_fd := fd_of ?r 1 |}] =>
      assert (held t0 = Descriptor (fd_of r 1) :: Mapping :: HeapBlock :: held t) as Ht0
  end.
  { unfold t0. rewrite !held_snoc. cbn [hold fst snd]. rewrite E1, E2, E3.
    simpl. by rewrite decide_True. }
  split_and!; [by rewrite held_neutral|done|].
  unfold uvc_reattach_guard_destroy. wp_run. rewrite !held_snoc, held_neutral, Ht0 by done.
  cbn [hold fst snd remove_first]. by repeat (rewrite decide_True by done; cbn [remove_first]).
Qed.
End create.

(** A device that answers with the recorded identity, whose interface 0 is busy
    once and whose helper sees EOF at once. *)
Definition sample_descriptor : bytes :=
  [18; 1; 0; 2; 239; 2; 1; 64; 0x4c; 0x2c; 0x23; 0x01; 0x10; 0x02; 1; 2; 3; 1].

Definition sample_env : Environment := λ t q,
  match q with
  | Open _ => {| rs_code := 7; rs_errno := 0; rs_data := [] |}
  | Read 7 18 => {| rs_code := 18; rs_errno := 0; rs_data := sample_descriptor |}
  | Read _ _ => {| rs_code := 0; rs_errno := 0; rs_data := [] |}
  | IoctlConnect _ 0 =>
      if decide (attempts 7 0 t = []) then {| rs_code := -1; rs_errno := EBUSY; rs_data := [] |}
      else {| rs_code := 0; rs_errno := 0; rs_data := [] |}
  | Calloc _ => {| rs_code := 4096; rs_errno := 0; rs_data := [] |}
  | Pipe2 => {| rs_code := 0; rs_errno := 0; rs_data := [5; 6] |}
  | RawFork => {| rs_code := 42; rs_errno := 0; rs_data := [] |}
  | Sysconf => {| rs_code := 16; rs_errno := 0; rs_data := [] |}
  | _ => {| rs_code := 0; rs_errno := 0; rs_data := [] |}
  end.

Definition sample_record : uvc_reattach_record :=
  {| rr_magic := UVC_REATTACH_MAGIC; rr_armed := 1; rr_busnum := 2; rr_devnum := 13;
     rr_id_vendor := 0x2c4c; rr_id_product := 0x0123; rr_bcd_device := 0x0210 |}.

#[local] Existing Instance sample_env.

Lemma open_device_identity_witness :
  wp (default_open_device sample_record)
    (λ fd t', ∃ path o rest, usbfs_path_for 2 13 path ∧ t' = (Open path, o) :: rest) [].
Proof.
  eapply wp_mono; [apply (open_device_identity sample_record); by apply (bool_decide_unpack _)|].
  intros fd t' (path & o & rest & Hp & Ht & _). exists path, o, rest. auto.
Defined.

Lemma helper_main_repairs_witness :
  ∃ t1 t', (scan_limit ← fd_scan_limit; helper_main default_backend 1 5 scan_limit sample_record) [] = Ret (tt, t')
    ∧ repaired sample_record t1 t' ∧ length (attempts 7 0 t') = 2%nat.
Proof.
  assert (settles (Read 5 64) helper_read_again 0) as Hs by (intros t _; reflexivity).
  assert (fits 32 (rr_armed sample_record)) as Hf by (by apply (bool_decide_unpack _)).
  pose proof (helper_main_repairs 1 0 5 sample_record [] Hs ltac:(lia) Hf) as Hw.
  destruct (proj1 (wp_iff _ _ _) Hw) as (u & t' & Hrun & closes & reads & eof & _ & _ & _ & Hrep).
  clear Hw Hs.
  eexists _, t'. destruct u. split; [exact Hrun|]. split; [exact Hrep|].
  vm_compute in Hrun. injection Hrun as <-. reflexivity.
Defined.

Lemma guard_create_resources_witness :
  wp (uvc_reattach_guard_create default_backend 1 2 13 0x2c4c 0x0123 0x0210) (λ res t',
    match res with
    | None => held t' = []
    | Some g => held t' = [Descriptor (rg_notify_fd g); Mapping; HeapBlock]
    end) [].
Proof.
  eapply wp_mono; [apply (guard_create_resources 1 0 2 13 0x2c4c 0x0123 0x0210 [])|].
  - intros t _. reflexivity.
  - lia.
  - intros t. discriminate.
  - intros [g|] t' Hres; [apply Hres|exact Hres].
Defined.
