(* ===== verification/Handles.v ===== *)
(** * Handles: struct uvc_device_handle and struct uvc_stream_handle

    The handles of libuvc_internal.h without what only the host's threading
    library reads (mutexes, conditions, thread ids).  A stream handle's fields
    are grouped by who may touch them: the working side, filled by the transfer
    callbacks, and the held side, which listeners read. *)

From stdpp Require Import prelude.
From S2P Require Import Prelude Types ReattachGuard.

Definition LIBUVC_XFER_META_BUF_SIZE : Z := 4096.
Definition LIBUVC_NUM_TRANSFER_BUFS : Z := 100.

(** [struct uvc_frame]; [uf_data] and [uf_metadata] point to blocks ([None] is the
    null pointer), of which [uf_data_bytes] and [uf_metadata_bytes] are in use.
    [uf_source] is an address, 0 when null. *)
Record uvc_frame := {
  uf_data : option bytes;
  uf_data_bytes : Z;
  uf_width : Z;
  uf_height : Z;
  uf_frame_format : Z;
  uf_step : Z;
  uf_sequence : Z;
  uf_capture_time : Z;
  uf_capture_time_finished : Z;
  uf_source : Z;
  uf_library_owns_data : Z;
  uf_metadata : option bytes;
  uf_metadata_bytes : Z;
}.

(** The memory behind a pointer. *)
Definition block (p : option bytes) : bytes := default [] p.

(** [realloc(p, n)] when it succeeds: the front of the old block, then junk. *)
Definition realloc (junk : Z) (p : option bytes) (n : Z) : bytes := resize (Z.to_nat n) junk (block p).

(** The frame being assembled. *)
Record stream_working := {
  wk_fid : Z;
  wk_seq : Z;
  wk_pts : Z;
  wk_last_scr : Z;
  wk_got_bytes : Z;
  wk_outbuf : bytes;
  wk_meta_got_bytes : Z;
  wk_meta_outbuf : bytes;
  wk_frame_had_errors : bool;
}.

(** The last frame published. *)
Record stream_hold := {
  hd_seq : Z;
  hd_pts : Z;
  hd_last_scr : Z;
  hd_bytes : Z;
  hd_buf : bytes;
  hd_meta_bytes : Z;
  hd_meta_buf : bytes;
  hd_capture_time_finished : Z;
}.

Record uvc_stream_handle := {
  sh_stream_if : uvc_streaming_interface;
  sh_running : bool;
  sh_cur_ctrl : uvc_stream_ctrl;
  sh_working : stream_working;
  sh_hold : stream_hold;
  sh_last_polled_seq : Z;
  sh_user_cb : bool;                 (* a callback is installed *)
  sh_frame : uvc_frame;
  sh_frame_format : Z;
}.

Record uvc_device_handle := {
  dh_usb_dev : bool;                 (* [devh->dev] and [devh->dev->usb_dev] are not null *)
  dh_info : option uvc_device_info;
  dh_streams : list uvc_stream_handle;
  dh_is_isight : bool;
  dh_claimed : Z;
  dh_transfer_buffer_count : Z;
  dh_has_quarantined_stream : bool;
  dh_reattach_guard : option uvc_reattach_guard;
}.

Definition set_claimed (d : uvc_device_handle) (claimed : Z) : uvc_device_handle :=
  {| dh_usb_dev := dh_usb_dev d; dh_info := dh_info d; dh_streams := dh_streams d;
     dh_is_isight := dh_is_isight d; dh_claimed := claimed;
     dh_transfer_buffer_count := dh_transfer_buffer_count d;
     dh_has_quarantined_stream := dh_has_quarantined_stream d;
     dh_reattach_guard := dh_reattach_guard d |}.

Definition set_guard (d : uvc_device_handle) (g : option uvc_reattach_guard) : uvc_device_handle :=
  {| dh_usb_dev := dh_usb_dev d; dh_info := dh_info d; dh_streams := dh_streams d;
     dh_is_isight := dh_is_isight d; dh_claimed := dh_claimed d;
     dh_transfer_buffer_count := dh_transfer_buffer_count d;
     dh_has_quarantined_stream := dh_has_quarantined_stream d;
     dh_reattach_guard := g |}.

(** A handle with no open stream. *)
Definition handle_with (info : option uvc_device_info) (claimed : Z)
    (guard : option uvc_reattach_guard) : uvc_device_handle :=
  {| dh_usb_dev := true; dh_info := info; dh_streams := []; dh_is_isight := false;
     dh_claimed := claimed; dh_transfer_buffer_count := 0; dh_has_quarantined_stream := false;
     dh_reattach_guard := guard |}.
