(* ===== verification/Claims.v ===== *)
(** * Claims: interface claims of src/device.c

    Claiming and releasing an interface, with the kernel driver detached and
    handed back and the reattach guard armed around it, and the release of
    everything a handle still claims. *)

From stdpp Require Import prelude.
From S2P Require Import Prelude Types Environment ReattachGuard Handles.

(** The answers of the two attach calls that mean the kernel has the interface. *)
Definition driver_back (ret : Z) : bool :=
  (ret =? UVC_SUCCESS) || (ret =? LIBUSB_ERROR_NOT_FOUND) || (ret =? LIBUSB_ERROR_NOT_SUPPORTED).

Section claims.
Context `{Environment} (active_backend : uvc_reattach_backend) (fuel : nat).

(** The device descriptor's [idVendor], [idProduct] and [bcdDevice]. *)
Definition desc_field (r : response) (k : nat) : Z := u16 (default 0 (rs_data r !! k)).

Definition uvc_arm_reattach_guard (devh : uvc_device_handle) (idx : Z) : io uvc_device_handle :=
  match dh_reattach_guard devh with
  | Some g =>
      guard ← uvc_reattach_guard_arm (Some g) idx;
      mret (set_guard devh guard)
  | None =>
      if negb (dh_usb_dev devh) then mret devh else
      desc ← ask GetDeviceDescriptor;
      if negb (rs_code desc =? LIBUSB_SUCCESS) then mret devh else
      bus ← call GetBusNumber;
      address ← call GetDeviceAddress;
      guard ← uvc_reattach_guard_create active_backend fuel (u8 bus) (u8 address)
        (desc_field desc 0) (desc_field desc 1) (desc_field desc 2);
      match guard with
      | None => mret (set_guard devh None)
      | Some g =>
          guard ← uvc_reattach_guard_arm (Some g) idx;
          mret (set_guard devh guard)
      end
  end.

Definition disarm (devh : uvc_device_handle) (idx : Z) : io uvc_device_handle :=
  guard ← uvc_reattach_guard_disarm (dh_reattach_guard devh) idx;
  mret (set_guard devh guard).

(** The rest of [uvc_claim_if] once the interface is armed. *)
Definition detach_and_claim (devh : uvc_device_handle) (idx bit : Z) : io (Z * uvc_device_handle) :=
  ret ← call (DetachKernelDriver idx);
  if negb (ret =? UVC_SUCCESS) && negb (ret =? LIBUSB_ERROR_NOT_FOUND)
     && negb (ret =? LIBUSB_ERROR_NOT_SUPPORTED) then
    devh ← disarm devh idx;
    mret (ret, devh)
  else
  ret ← call (ClaimInterface idx);
  if ret =? UVC_SUCCESS then
    mret (ret, set_claimed devh (Z.lor (dh_claimed devh) bit))
  else
  reattach ← call (AttachKernelDriver idx);
  devh ← (if driver_back reattach then disarm devh idx else mret devh);
  mret (ret, devh).

Definition uvc_claim_if (devh : uvc_device_handle) (idx : Z) : io (Z * uvc_device_handle) :=
  bit ← lift (shl1 idx);
  if nz (Z.land (dh_claimed devh) bit) then mret (UVC_SUCCESS, devh) else
  devh ← uvc_arm_reattach_guard devh idx;
  detach_and_claim devh idx bit.

Definition uvc_release_if (devh : uvc_device_handle) (idx : Z) : io (Z * uvc_device_handle) :=
  bit ← lift (shl1 idx);
  if Z.land (dh_claimed devh) bit =? 0 then mret (UVC_SUCCESS, devh) else
  _ ← call (SetInterfaceAltSetting idx 0);
  ret ← call (ReleaseInterface idx);
  if negb (ret =? UVC_SUCCESS) then mret (ret, devh) else
  let devh := set_claimed devh (Z.land (dh_claimed devh) (not32 bit)) in
  ret ← call (AttachKernelDriver idx);
  let ret := if ret =? UVC_SUCCESS then ret
             else if (ret =? LIBUSB_ERROR_NOT_FOUND) || (ret =? LIBUSB_ERROR_NOT_SUPPORTED)
             then UVC_SUCCESS else ret in
  devh ← (if ret =? UVC_SUCCESS then disarm devh idx else mret devh);
  mret (ret, devh).

(** [for (idx = 0; idx < max_idx; idx++)] from [idx], [n] are left. *)
Fixpoint release_others (n : nat) (ctrl_idx idx : Z) (devh : uvc_device_handle) : io uvc_device_handle :=
  match n with
  | O => mret devh
  | S n =>
      devh ←
        (if negb (idx =? ctrl_idx) then
           bit ← lift (shl1u idx);
           if nz (Z.land (dh_claimed devh) bit) then
             res ← uvc_release_if devh idx;
             mret res.2
           else mret devh
         else mret devh);
      release_others n ctrl_idx (idx + 1) devh
  end.

Definition uvc_release_claimed_ifs (devh : uvc_device_handle) : io uvc_device_handle :=
  let ctrl_idx := match dh_info devh with
                  | Some info => ci_bInterfaceNumber (di_ctrl_if info)
                  | None => -1
                  end in
  devh ← release_others 32 ctrl_idx 0 devh;
  if 0 <=? ctrl_idx then
    res ← uvc_release_if devh ctrl_idx;
    mret res.2
  else mret devh.
End claims.
