(* ===== verification/ClaimsFacts.v ===== *)
(** * ClaimsFacts: the kernel driver always comes back

    From the history alone: which interfaces this process owes the kernel (it
    detached their driver and has not handed it back) and what the shared record
    says at that moment.  The invariant is that every debt that was not given up is
    armed at every point of the history, so the helper repairs it whenever the process
    dies. *)

From stdpp Require Import prelude.
From S2P Require Import Prelude Types Environment ReattachGuard ReattachGuardFacts Handles Claims.

(** ** Debts and the shared mask *)

Definition owe (i : Z) (o : bool) (e : event) : bool :=
  match e.1 with
  | DetachKernelDriver j => if bool_decide (j = i) && (rs_code e.2 =? UVC_SUCCESS) then true else o
  | AttachKernelDriver j => if bool_decide (j = i) && driver_back (rs_code e.2) then false else o
  | _ => o
  end.

(** This process detached the driver of [i] and has not handed it back. *)
Definition owed (t : trace) (i : Z) : bool := foldl (owe i) false t.

Definition mask_after (m : Z) (e : event) : Z :=
  match e.1 with
  | StoreArmed m' => m'
  | _ => m
  end.

(** The mask the helper would find. *)
Definition shared_armed (t : trace) : Z := foldl mask_after 0 t.

Definition last_detach (i : Z) (g : bool) (e : event) : bool :=
  match e.1 with
  | DetachKernelDriver j => if bool_decide (j = i) then negb (driver_back (rs_code e.2)) else g
  | _ => g
  end.

(** The last attempt to detach the driver of [i] failed hard.  The code then takes the
    interface for untouched; when it is owed from an earlier hand-back that failed, it
    is given up. *)
Definition given_up (t : trace) (i : Z) : bool := foldl (last_detach i) false t.

Definition backed (t : trace) : Prop :=
  fits 32 (shared_armed t)
  ∧ ∀ i, owed t i = true → given_up t i = false → Z.testbit (shared_armed t) i = true.

(** [P] holds at every point of the history from [t] to [t']. *)
Inductive always (P : trace → Prop) : trace → trace → Prop :=
  | always_here t : P t → always P t t
  | always_next t e t' : P t → always P (t ++ [e]) t' → always P t t'.

Lemma always_trans P t1 t2 t3 : always P t1 t2 → always P t2 t3 → always P t1 t3.
Proof. induction 1; [done|]. intros. eapply always_next; eauto. Qed.

Lemma always_last P t t' : always P t t' → P t'.
Proof. by induction 1. Qed.

Lemma always_snoc P t1 t2 e : always P t1 t2 → P (t2 ++ [e]) → always P t1 (t2 ++ [e]).
Proof.
  intros Ha Hp. eapply always_trans; [done|].
  eapply always_next; [by eapply always_last|by apply always_here].
Qed.

Lemma always_mono (P Q : trace → Prop) t t' : (∀ t, P t → Q t) → always P t t' → always Q t t'.
Proof. intros HPQ. induction 1; econstructor; eauto. Qed.

Lemma owed_snoc t e i : owed (t ++ [e]) i = owe i (owed t i) e.
Proof. unfold owed. by rewrite foldl_app. Qed.

Lemma given_up_snoc t e i : given_up (t ++ [e]) i = last_detach i (given_up t i) e.
Proof. unfold given_up. by rewrite foldl_app. Qed.

Lemma shared_snoc t e : shared_armed (t ++ [e]) = mask_after (shared_armed t) e.
Proof. unfold shared_armed. by rewrite foldl_app. Qed.

(** Requests that neither touch a driver nor the shared mask. *)
Definition neutral (q : request) : Prop :=
  match q with
  | DetachKernelDriver _ | AttachKernelDriver _ | StoreArmed _ => False
  | _ => True
  end.

Lemma neutral_snoc t q r :
  neutral q → shared_armed (t ++ [(q, r)]) = shared_armed t
  ∧ ∀ i, owed (t ++ [(q, r)]) i = owed t i ∧ given_up (t ++ [(q, r)]) i = given_up t i.
Proof.
  intros Hq. split; [rewrite shared_snoc|intros i; rewrite owed_snoc, given_up_snoc]; by destruct q.
Qed.

Lemma backed_neutral t q r : neutral q → backed t → backed (t ++ [(q, r)]).
Proof.
  intros Hq [Hf Hb]. destruct (neutral_snoc t q r Hq) as [Hs Ho].
  split; rewrite Hs; [done|]. intros i. destruct (Ho i) as [-> ->]. apply Hb.
Qed.

Lemma backed_store t m r :
  fits 32 m → (∀ i, owed t i = true → given_up t i = false → Z.testbit m i = true) →
  backed (t ++ [(StoreArmed m, r)]).
Proof.
  intros Hm Ho. split; rewrite shared_snoc; [done|]. intros i. rewrite owed_snoc, given_up_snoc. apply Ho.
Qed.

Lemma owed_store t m r i : owed (t ++ [(StoreArmed m, r)]) i = owed t i.
Proof. by rewrite owed_snoc. Qed.

(** ** The handle agrees with the shared mask *)

Definition synced (g : uvc_reattach_guard) (t : trace) : Prop :=
  rr_armed (rg_record g) = shared_armed t ∧ rr_magic (rg_record g) = UVC_REATTACH_MAGIC.

Lemma synced_neutral g t q r : neutral q → synced g t → synced g (t ++ [(q, r)]).
Proof. intros Hq [Ha Hm]. split; [|done]. by rewrite (proj1 (neutral_snoc t q r Hq)). Qed.

#[export] Hint Resolve always_here always_snoc always_trans backed_neutral synced_neutral : cmodel.
#[export] Hint Extern 1 (neutral _) => exact I : cmodel.

Section env.
Context `{Environment}.

Lemma arm_spec g i t :
  0 ≤ i < 31 → synced g t → backed t →
  wp (uvc_reattach_guard_arm (Some g) i) (λ g' t', ∃ g1, g' = Some g1 ∧ synced g1 t'
    ∧ always backed t t' ∧ Z.testbit (shared_armed t') i = true
    ∧ ∀ j, owed t' j = owed t j) t.
Proof.
  intros Hi [Ha Hm] Hb. unfold uvc_reattach_guard_arm, store_armed, UVC_REATTACH_MAX_INTERFACES.
  replace ((i <? 0) || (32 <=? i)) with false by lia. wp_run. rewrite Ha.
  set (m := Z.lor _ _). destruct Hb as [Hf Hb].
  assert (fits 32 m) as Hfm by (apply set_bit_fits; [lia|done]).
  eexists. split; [done|]. split_and!.
  - split; [|done]. by rewrite shared_snoc.
  - eapply always_next; [done|]. apply always_here, backed_store; [done|].
    intros j Hj Hg. unfold m. rewrite Z.lor_spec, Hb by done. done.
  - rewrite shared_snoc. cbn [mask_after fst]. unfold m. rewrite testbit_set_bit by lia.
    rewrite bool_decide_true by done. by rewrite orb_true_r.
  - intros j. apply owed_store.
Qed.

Lemma disarm_spec g i t :
  0 ≤ i < 31 → synced g t → backed t → owed t i = false ∨ given_up t i = true →
  wp (uvc_reattach_guard_disarm (Some g) i) (λ g' t', ∃ g1, g' = Some g1 ∧ synced g1 t'
    ∧ always backed t t') t.
Proof.
  intros Hi [Ha Hm] Hb Hoi. unfold uvc_reattach_guard_disarm, store_armed, UVC_REATTACH_MAX_INTERFACES.
  replace ((i <? 0) || (32 <=? i)) with false by lia. wp_run. rewrite Ha.
  destruct Hb as [Hf Hb]. eexists. split; [done|]. split_and!.
  - split; [|done]. by rewrite shared_snoc.
  - eapply always_next; [done|]. apply always_here, backed_store; [by apply clear_bit_fits|].
    intros j Hj Hgj. assert (Z.testbit (shared_armed t) j = true) as Hbit by auto.
    assert (0 ≤ j) by (destruct (decide (0 ≤ j)); [done|by rewrite Z.testbit_neg_r in Hbit by lia]).
    rewrite testbit_clear_bit, Hbit by (done || lia). apply bool_decide_eq_true.
    intros ->. destruct Hoi; congruence.
Qed.

Definition protected (devh : uvc_device_handle) (t : trace) : Prop :=
  ∃ g, dh_reattach_guard devh = Some g ∧ synced g t.

Lemma synced_call g t q r : synced g t → ¬ (∃ m, q = StoreArmed m) → synced g (t ++ [(q, r)]).
Proof.
  intros [Ha Hm] Hq. split; [|done]. rewrite shared_snoc, Ha.
  destruct q; try done. naive_solver.
Qed.

Lemma backed_detach t i r :
  backed t → Z.testbit (shared_armed t) i = true → backed (t ++ [(DetachKernelDriver i, r)]).
Proof.
  intros [Hf Hb] Hi. split; rewrite shared_snoc; [done|].
  intros j. rewrite owed_snoc, given_up_snoc. cbn [owe last_detach fst snd mask_after].
  destruct (decide (i = j)) as [->|Hne]; [done|]. rewrite bool_decide_false by done. apply Hb.
Qed.

Lemma backed_attach t i r : backed t → backed (t ++ [(AttachKernelDriver i, r)]).
Proof.
  intros [Hf Hb]. split; rewrite shared_snoc; [done|].
  intros j. rewrite owed_snoc, given_up_snoc. cbn [owe last_detach fst snd mask_after]. case_match; [done|apply Hb].
Qed.

Lemma owed_attached t i r :
  driver_back (rs_code r) = true → owed (t ++ [(AttachKernelDriver i, r)]) i = false.
Proof.
  intros Hr. rewrite owed_snoc. cbn [owe fst snd]. rewrite bool_decide_true by done. by rewrite Hr.
Qed.

Lemma disarm_handle_spec devh i t :
  0 ≤ i < 31 → protected devh t → backed t → owed t i = false ∨ given_up t i = true →
  wp (disarm devh i) (λ devh' t', always backed t t' ∧ protected devh' t'
    ∧ dh_claimed devh' = dh_claimed devh) t.
Proof.
  intros Hi (g & Hg & Hs) Hb Ho. unfold disarm. rewrite wp_bind, Hg.
  eapply wp_mono; [by apply disarm_spec|]. intros g' t' (g1 & -> & Hs1 & Hal). wp_run.
  split_and!; [done| |done]. by exists g1.
Qed.

Lemma shl1_in i : 0 ≤ i < 31 → shl1 i = Ret (u32 (Z.shiftl 1 i)).
Proof.
  intros Hi. unfold shl1. rewrite decide_True by done. rewrite bit_pow by lia.
  by rewrite Z.shiftl_1_l.
Qed.

Lemma detach_tolerated_test r :
  (negb (r =? UVC_SUCCESS) && negb (r =? LIBUSB_ERROR_NOT_FOUND)
   && negb (r =? LIBUSB_ERROR_NOT_SUPPORTED)) = negb (driver_back r).
Proof. unfold driver_back. by rewrite !negb_orb. Qed.

Section claim.
Context (b : uvc_reattach_backend) (fuel : nat).

Lemma detach_and_claim_protected devh g1 i bit t1 :
  0 ≤ i < 31 → dh_reattach_guard devh = Some g1 → synced g1 t1 → backed t1 →
  Z.testbit (shared_armed t1) i = true →
  wp (detach_and_claim devh i bit) (λ res t', always backed t1 t' ∧ protected res.2 t') t1.
Proof.
  intros Hi Hg Hs1 Hb1 Harm. unfold detach_and_claim. wp_run.
  set (r := answer t1 _). rewrite detach_tolerated_test.
  pose proof (backed_detach t1 i r Hb1 Harm) as Hb2.
  assert (synced g1 (t1 ++ [(DetachKernelDriver i, r)])) as Hs2 by (apply synced_call; naive_solver).
  destruct (driver_back (rs_code r)) eqn:Er; cbn [negb].
  2:{ wp_run. eapply wp_mono.
      - apply disarm_handle_spec; [done|by exists g1|done|].
        right. rewrite given_up_snoc. cbn [last_detach fst snd]. by rewrite bool_decide_true, Er.
      - intros devh' t' (Hal & Hp & _). wp_run. eauto 8 with cmodel. }
  wp_run. set (r2 := answer _ (ClaimInterface i)).
  assert (backed ((t1 ++ [(DetachKernelDriver i, r)]) ++ [(ClaimInterface i, r2)])) as Hb3
    by (by apply backed_neutral).
  assert (synced g1 ((t1 ++ [(DetachKernelDriver i, r)]) ++ [(ClaimInterface i, r2)])) as Hs3
    by (by apply synced_neutral).
  assert (always backed t1 ((t1 ++ [(DetachKernelDriver i, r)]) ++ [(ClaimInterface i, r2)])) as Hal3
    by (auto with cmodel).
  case_match; wp_run.
  { split; [done|]. by exists g1. }
  set (r3 := answer _ (AttachKernelDriver i)). set (t3 := _ ++ [(AttachKernelDriver i, r3)]).
  assert (backed t3) as Hb4 by (by apply backed_attach).
  assert (synced g1 t3) as Hs4 by (apply synced_call; naive_solver).
  assert (always backed t1 t3) as Hal4 by (by apply always_snoc).
  destruct (driver_back (rs_code r3)) eqn:E3; wp_run; [|split; [done|by exists g1]].
  eapply wp_mono; [apply disarm_handle_spec; [done|by exists g1|done|left; by apply owed_attached]|].
  intros devh' t' (Hal & Hp & _). wp_run. eauto with cmodel.
Qed.

Lemma claim_protected devh i t :
  0 ≤ i < 31 → protected devh t → backed t →
  wp (uvc_claim_if b fuel devh i) (λ res t', always backed t t' ∧ protected res.2 t') t.
Proof.
  intros Hi (g & Hg & Hs) Hb. unfold uvc_claim_if. rewrite wp_bind, wp_lift, shl1_in by done.
  cbn [returns]. case_match; wp_run.
  { split; [by apply always_here|]. by exists g. }
  unfold uvc_arm_reattach_guard. rewrite Hg, wp_bind.
  eapply wp_mono; [by apply arm_spec|]. intros ? t1 (g1 & -> & Hs1 & Hal1 & Harm & Howed). wp_run.
  eapply wp_mono; [apply (detach_and_claim_protected _ g1); [done..|by eapply always_last|done]|].
  intros res t' [Hal Hp]. eauto with cmodel.
Qed.

Lemma release_ret_test r :
  ((if r =? UVC_SUCCESS then r
    else if (r =? LIBUSB_ERROR_NOT_FOUND) || (r =? LIBUSB_ERROR_NOT_SUPPORTED)
         then UVC_SUCCESS else r) =? UVC_SUCCESS) = driver_back r.
Proof.
  unfold driver_back. destruct (r =? UVC_SUCCESS) eqn:E; [done|]. rewrite orb_false_l.
  by destruct ((r =? LIBUSB_ERROR_NOT_FOUND) || (r =? LIBUSB_ERROR_NOT_SUPPORTED)).
Qed.

Lemma release_protected devh i t :
  0 ≤ i < 31 → protected devh t → backed t →
  wp (uvc_release_if devh i) (λ res t', always backed t t' ∧ protected res.2 t') t.
Proof.
  intros Hi (g & Hg & Hs) Hb. unfold uvc_release_if. rewrite wp_bind, wp_lift, shl1_in by done.
  cbn [returns]. case_match; wp_run.
  { split; [by apply always_here|]. by exists g. }
  set (r1 := answer t _). set (r2 := answer _ (ReleaseInterface i)). set (t2 := _ ++ [(ReleaseInterface i, r2)]).
  assert (backed t2) as Hb2 by (unfold t2; auto with cmodel).
  assert (synced g t2) as Hs2 by (unfold t2; auto with cmodel).
  assert (always backed t t2) as Hal2 by (unfold t2; auto 8 with cmodel).
  case_match; wp_run.
  { split; [done|]. by exists g. }
  set (r3 := answer _ (AttachKernelDriver i)). rewrite release_ret_test.
  set (t3 := _ ++ [(AttachKernelDriver i, r3)]).
  assert (backed t3) as Hb3 by (by apply backed_attach).
  assert (synced g t3) as Hs3 by (apply synced_call; naive_solver).
  assert (always backed t t3) as Hal3 by (by apply always_snoc).
  destruct (driver_back (rs_code r3)) eqn:E3; wp_run; [|split; [done|by exists g]].
  eapply wp_mono; [apply disarm_handle_spec; [done|by exists g|done|left; by apply owed_attached]|].
  intros devh' t' (Hal & Hp & _). wp_run. eauto with cmodel.
Qed.
End claim.
End env.

(** ** Death at any point *)

Inductive claim_op :=
  | OpClaim (i : Z)
  | OpRelease (i : Z).

Definition op_if (o : claim_op) : Z :=
  match o with
  | OpClaim i => i
  | OpRelease i => i
  end.

Section death.
Context `{Environment} (b : uvc_reattach_backend) (fuel : nat).

(** A history of claims and releases, results ignored. *)
Fixpoint run_ops (ops : list claim_op) (devh : uvc_device_handle) : io uvc_device_handle :=
  match ops with
  | [] => mret devh
  | OpClaim i :: ops => res ← uvc_claim_if b fuel devh i; run_ops ops res.2
  | OpRelease i :: ops => res ← uvc_release_if devh i; run_ops ops res.2
  end.

(** If the process is gone at history [t], leaving [record] with the shared mask
    of that moment, the helper goes for every interface the process owes and has not
    given up: unless
    the device cannot be reopened, it asks for the rebind until the kernel does
    not answer EBUSY or the attempts are spent. *)
Definition death_repaired (record : uvc_reattach_record) (t : trace) : Prop :=
  ∀ i t1, owed t i = true → given_up t i = false →
  wp (reattach_armed_interfaces default_backend (set_armed record (shared_armed t))) (λ _ t2,
    ∃ fd t', default_open_device record t1 = Ret (fd, t') ∧
      (0 ≤ fd → ∃ evs c, t2 = t' ++ evs ++ [(Close fd, c)]
         ∧ tried (Z.to_nat UVC_REATTACH_MAX_ATTEMPTS) (attempts fd i evs))) t1.

Lemma backed_repaired record t :
  rr_magic record = UVC_REATTACH_MAGIC → backed t → death_repaired record t.
Proof.
  intros Hm [Hf Hb] i t1 Ho Hg. specialize (Hb i Ho Hg).
  eapply wp_mono; [by apply reattach_repairs|]. intros u t2 Hr. unfold repaired in Hr.
  assert (¬ (rr_magic record ≠ UVC_REATTACH_MAGIC ∨ shared_armed t = 0)) as Hno.
  { intros [E|E]; [done|]. by rewrite E, Z.bits_0 in Hb. }
  rewrite decide_False in Hr by exact Hno.
  destruct Hr as (fd & t' & Hopen & Hr). exists fd, t'. split; [exact Hopen|]. intros Hfd.
  rewrite (proj2 (Z.ltb_ge fd 0) Hfd) in Hr. destruct Hr as (evs & c & -> & _ & Hreb).
  exists evs, c. split; [done|]. assert (0 ≤ i) as Hi.
  { destruct (decide (0 ≤ i)); [done|]. by rewrite Z.testbit_neg_r in Hb by lia. }
  specialize (Hreb i Hi). unfold rebound in Hreb. simpl in Hreb. by rewrite Hb in Hreb.
Qed.

Lemma run_ops_protected ops devh t :
  Forall (λ o, 0 ≤ op_if o < 31) ops → protected devh t → backed t →
  wp (run_ops ops devh) (λ devh' t', always backed t t' ∧ protected devh' t') t.
Proof.
  intros Hops. revert devh t. induction Hops as [|o ops Ho _ IH]; intros devh t Hp Hb; cbn [run_ops].
  { wp_run. auto with cmodel. }
  destruct o as [i|i]; simpl in Ho; rewrite wp_bind.
  - eapply wp_mono; [by apply claim_protected|]. intros res t1 [Ha1 Hp1].
    eapply wp_mono; [apply IH; [done|by eapply always_last]|].
    intros devh' t' [Ha2 Hp2]. eauto with cmodel.
  - eapply wp_mono; [by apply release_protected|]. intros res t1 [Ha1 Hp1].
    eapply wp_mono; [apply IH; [done|by eapply always_last]|].
    intros devh' t' [Ha2 Hp2]. eauto with cmodel.
Qed.


(** ** The first claim creates the guard *)

(** From [t] to [t'] nothing is owed, and [m] is the mask at the end. *)
Definition debt_free (t t' : trace) (m : Z) : Prop :=
  always backed t t' ∧ (∀ i, owed t' i = false) ∧ shared_armed t' = m.

Lemma debt_free_neutral t t' m q r :
  neutral q → debt_free t t' m → debt_free t (t' ++ [(q, r)]) m.
Proof.
  intros Hq (Hal & Ho & Hm). destruct (neutral_snoc t' q r Hq) as [Hs Hn]. split_and!.
  - apply always_snoc; [done|]. apply backed_neutral; [done|]. by eapply always_last.
  - intros i. by rewrite (proj1 (Hn i)).
  - by rewrite Hs.
Qed.

Lemma debt_free_store t t' m r : debt_free t t' m → debt_free t (t' ++ [(StoreArmed 0, r)]) 0.
Proof.
  intros (Hal & Ho & Hm). split_and!.
  - apply always_snoc; [done|]. apply backed_store; [done|]. intros i Hi. by rewrite Ho in Hi.
  - intros i. by rewrite owed_store.
  - by rewrite shared_snoc.
Qed.

Lemma debt_free_list t t' m evs :
  Forall (λ e : event, neutral e.1) evs → debt_free t t' m → debt_free t (t' ++ evs) m.
Proof.
  intros Hall. revert t'. induction Hall as [|[q r] evs Hq _ IH]; intros t' Hd; [by rewrite app_nil_r|].
  rewrite cons_middle, app_assoc. by apply IH, debt_free_neutral.
Qed.

#[local] Hint Resolve debt_free_neutral debt_free_store : cmodel.

(** What the calling process is promised by the operating system: it is the
    parent of its forks, and signals interrupt [waitpid] finitely often. *)
Record host_process (n : nat) : Prop := {
  host_parent : ∀ t, rs_code (answer t RawFork) ≠ 0;
  host_waitpid : settles Waitpid waitpid_again n;
}.

Lemma create_spec n bus dev vid pid bcd t0 t m :
  host_process n → (n < fuel)%nat → debt_free t0 t m →
  wp (uvc_reattach_guard_create b fuel bus dev vid pid bcd) (λ g t',
    match g with
    | Some g => debt_free t0 t' 0 ∧ synced g t'
    | None => ∃ m, debt_free t0 t' m
    end) t.
Proof.
  intros [Hfork Hs] Hn Hd. unfold uvc_reattach_guard_create. wp_run.
  case_match; wp_run; [eauto with cmodel|].
  case_match; wp_run; [eauto 8 with cmodel|].
  case_match; wp_run; [eauto 10 with cmodel|]. unfold fd_scan_limit. wp_run.
  rewrite (proj2 (Z.eqb_neq _ 0)) by apply Hfork. wp_run.
  case_match; wp_run; [eauto 20 with cmodel|].
  eapply wp_mono; [apply (ask_while_settles _ _ _ n); [done|lia]|].
  intros r t' (evs & -> & Hr & Hall). wp_run.
  assert (Forall (λ e : event, neutral e.1) (evs ++ [(Waitpid, r)])) as Hw.
  { apply Forall_app. split; [|by apply Forall_singleton].
    eapply Forall_impl; [done|]. intros e [-> _]. exact I. }
  match goal with |- debt_free t0 ?t' 0 ∧ _ => assert (debt_free t0 t' 0) as Hd' end.
  { apply debt_free_list; [done|]. eauto 20 with cmodel. }
  split; [exact Hd'|]. split; [|done]. symmetry. apply Hd'.
Qed.

Lemma detach_and_claim_unguarded devh i bit t (Q : Z * uvc_device_handle → trace → Prop) :
  dh_reattach_guard devh = None →
  wp (detach_and_claim devh i bit) (λ res t', dh_reattach_guard res.2 = None ∨ Q res t') t.
Proof.
  intros Hg. unfold detach_and_claim, disarm. wp_run. rewrite Hg. repeat (case_match; wp_run); by left.
Qed.

(** C34: the first claim of an interface below 31 on a handle without a guard, when
    nothing is owed, either leaves it without one (no backstop could be started) or
    creates it in time: at every call of that claim, each interface owed is armed,
    unless its detach failed hard, which took nothing away.  The process is taken to be
    the parent of its forks, and waiting for its child to be interrupted at most [n]
    times. *)
Theorem first_claim_is_backed n devh i t :
  host_process n → (n < fuel)%nat → 0 ≤ i < 31 →
  dh_reattach_guard devh = None → (∀ j, owed t j = false) → fits 32 (shared_armed t) →
  wp (uvc_claim_if b fuel devh i) (λ res t',
    dh_reattach_guard res.2 = None ∨ always backed t t' ∧ protected res.2 t') t.
Proof.
  intros Hh Hn Hi Hg Ho Hf.
  assert (debt_free t t (shared_armed t)) as Hdf.
  { split_and!; [|done..]. apply always_here. split; [done|]. intros j Hj. by rewrite Ho in Hj. }
  unfold uvc_claim_if. rewrite wp_bind, wp_lift, shl1_in by done. cbn [returns].
  case_match; wp_run; [by left|]. unfold uvc_arm_reattach_guard. rewrite Hg.
  case_match; wp_run; [by apply detach_and_claim_unguarded|].
  case_match; wp_run; [by apply detach_and_claim_unguarded|].
  eapply wp_mono; [eapply (create_spec n _ _ _ _ _ t); [done..|eauto 8 with cmodel]|].
  intros [g|] t1 Hg1; wp_run; [|by apply detach_and_claim_unguarded].
  destruct Hg1 as [(Hal & Ho1 & _) Hs1].
  eapply wp_mono; [apply arm_spec; [done..|by eapply always_last]|].
  intros ? t2 (g1 & -> & Hs2 & Hal2 & Harm & _). wp_run.
  eapply wp_mono; [apply (detach_and_claim_protected _ g1); [done..|by eapply always_last|done]|].
  intros res t' [Hal3 Hp]. right. eauto with cmodel.
Qed.
End death.

(** ** What a claim and a release return and keep *)

(** The interfaces handed to [libusb_release_interface], in order. *)
Definition releases (evs : trace) : list Z :=
  omap (λ e : event, match e.1 with ReleaseInterface i => Some i | _ => None end) evs.

(** A release of [i] was tried and refused. *)
Definition release_refused (evs : trace) (i : Z) : bool :=
  existsb (λ e : event, bool_decide (e.1 = ReleaseInterface i) && negb (rs_code e.2 =? UVC_SUCCESS)) evs.

Lemma releases_app l k : releases (l ++ k) = releases l ++ releases k.
Proof. apply omap_app. Qed.

Lemma release_refused_app l k i : release_refused (l ++ k) i = release_refused l i || release_refused k i.
Proof. apply existsb_app. Qed.

Section results.
Context `{Environment} (b : uvc_reattach_backend) (fuel : nat).

(** Disarming stores the mask and releases nothing. *)
Lemma disarm_quiet devh i t :
  wp (disarm devh i) (λ devh' t', ∃ evs, t' = t ++ evs ∧ releases evs = []
    ∧ (∀ j, release_refused evs j = false)
    ∧ dh_claimed devh' = dh_claimed devh ∧ dh_info devh' = dh_info devh) t.
Proof.
  unfold disarm, uvc_reattach_guard_disarm, store_armed. wp_run.
  case_match; wp_run; [case_match; wp_run|].
  - exists []. by rewrite app_nil_r.
  - eexists. by split_and!.
  - exists []. by rewrite app_nil_r.
Qed.

Lemma release_claimed_spec devh i t :
  0 ≤ i < 31 → fits 32 (dh_claimed devh) → Z.testbit (dh_claimed devh) i = true →
  wp (uvc_release_if devh i) (λ res t', ∃ evs, t' = t ++ evs ∧ releases evs = [i]
    ∧ (∀ j, j ≠ i → release_refused evs j = false)
    ∧ fits 32 (dh_claimed res.2) ∧ dh_info res.2 = dh_info devh
    ∧ ∀ j, 0 ≤ j → Z.testbit (dh_claimed res.2) j
        = Z.testbit (dh_claimed devh) j && (bool_decide (j ≠ i) || release_refused evs i)) t.
Proof.
  intros Hi Hf Hbit. unfold uvc_release_if. rewrite wp_bind, wp_lift, shl1_in by done. cbn [returns].
  rewrite land_bit, Hbit by lia. cbn [negb]. wp_run. set (r := answer _ (ReleaseInterface i)).
  destruct (rs_code r =? UVC_SUCCESS) eqn:Er; cbn [negb]; wp_run.
  - set (r3 := answer _ (AttachKernelDriver i)). rewrite release_ret_test.
    set (devh1 := set_claimed _ _).
    set (t3 := _ ++ [(AttachKernelDriver i, r3)]).
    assert (wp (if driver_back (rs_code r3) then disarm devh1 i else mret devh1)
      (λ devh' t', ∃ evs, t' = t3 ++ evs ∧ releases evs = [] ∧ (∀ j, release_refused evs j = false)
         ∧ dh_claimed devh' = dh_claimed devh1 ∧ dh_info devh' = dh_info devh1) t3) as Hq.
    { case_match; [apply disarm_quiet|]. wp_run. exists []. by rewrite app_nil_r. }
    eapply wp_mono; [exact Hq|]. intros devh' t' (evs & -> & Hrel & Href & Hc & Hin). wp_run.
    unfold t3. rewrite <- !app_assoc. cbn [snd]. eexists. split; [done|].
    rewrite !releases_app, Hrel. split_and!; [done| | |done|].
    + intros j Hj. rewrite !release_refused_app, Href. simpl.
      rewrite bool_decide_false by naive_solver. done.
    + rewrite Hc. by apply clear_bit_fits.
    + intros j Hj. rewrite !release_refused_app, Href. simpl. rewrite Er, Hc, andb_false_r. simpl.
      rewrite orb_false_r. rewrite testbit_clear_bit by (done || lia). f_equal.
      do 2 case_bool_decide; naive_solver.
  - rewrite <- app_assoc. eexists. split; [done|]. split_and!; [done| |done|done|].
    + intros j Hj. simpl. rewrite bool_decide_false by naive_solver. done.
    + intros j Hj. simpl. rewrite Er, (bool_decide_true (ReleaseInterface i = ReleaseInterface i)) by done.
      simpl. by rewrite orb_true_r, andb_true_r.
Qed.

Lemma release_unclaimed devh i t :
  0 ≤ i < 31 → Z.testbit (dh_claimed devh) i = false →
  uvc_release_if devh i t = Ret ((UVC_SUCCESS, devh), t).
Proof.
  intros Hi Hbit. unfold uvc_release_if. erewrite run_lift by (by apply shl1_in).
  by rewrite land_bit, Hbit by lia.
Qed.

(** The claimed interfaces from [i], [n] of them, other than [ctrl]. *)
Definition others (claimed ctrl i : Z) (n : nat) : list Z :=
  filter (λ j, j ≠ ctrl ∧ Z.testbit claimed j = true) (seqZ i (Z.of_nat n)).

(** After the events [evs], [claimed'] is what is left of [claimed] when the
    interfaces released are dropped, unless refused. *)
Definition left_claimed (claimed claimed' : Z) (evs : trace) : Prop :=
  fits 32 claimed' ∧ ∀ j, 0 ≤ j → Z.testbit claimed' j
    = Z.testbit claimed j && (bool_decide (j ∉ releases evs) || release_refused evs j).

Lemma left_claimed_nil claimed : fits 32 claimed → left_claimed claimed claimed [].
Proof. intros Hf. split; [done|]. intros j _. simpl. by rewrite andb_true_r. Qed.

(** An interface that was not released was not refused either. *)
Lemma not_released_not_refused evs j : j ∉ releases evs → release_refused evs j = false.
Proof.
  induction evs as [|[q r] evs IH]; [done|]. unfold releases. simpl.
  destruct q; simpl; try exact IH. intros Hj. apply not_elem_of_cons in Hj as [Hne Hj].
  rewrite bool_decide_false by naive_solver. by apply IH.
Qed.

Lemma left_claimed_app c1 c2 c3 l k :
  (∀ j, j ∈ releases l → j ∉ releases k) →
  left_claimed c1 c2 l → left_claimed c2 c3 k → left_claimed c1 c3 (l ++ k).
Proof.
  intros Hdisj [_ H1] [Hf H2]. split; [done|]. intros j Hj.
  rewrite H2, H1 by done. rewrite releases_app, release_refused_app, <- andb_assoc. f_equal.
  destruct (decide (j ∈ releases l)) as [Hl|Hl].
  - pose proof (Hdisj j Hl) as Hk. rewrite (not_released_not_refused k j Hk).
    rewrite (bool_decide_true (j ∉ releases k)), (bool_decide_false (j ∉ releases l)) by naive_solver.
    rewrite (bool_decide_false (j ∉ _ ++ _)) by set_solver. simpl. by rewrite andb_true_r, orb_false_r.
  - rewrite (not_released_not_refused l j Hl), (bool_decide_true (j ∉ releases l)) by done. simpl.
    f_equal. apply bool_decide_ext. set_solver.
Qed.

Lemma release_left devh i t :
  0 ≤ i < 31 → fits 32 (dh_claimed devh) → Z.testbit (dh_claimed devh) i = true →
  wp (uvc_release_if devh i) (λ res t', ∃ evs, t' = t ++ evs ∧ releases evs = [i]
    ∧ dh_info res.2 = dh_info devh ∧ left_claimed (dh_claimed devh) (dh_claimed res.2) evs) t.
Proof.
  intros Hi Hf Hb. eapply wp_mono; [by apply release_claimed_spec|].
  intros res t' (evs & -> & Hr & Href & Hf' & Hin & Hbits). exists evs. split_and!; [done..|].
  split; [done|]. intros j Hj. rewrite Hbits, Hr by done. f_equal.
  destruct (decide (j = i)) as [->|Hne].
  - rewrite !bool_decide_false by set_solver. done.
  - rewrite !bool_decide_true by set_solver. done.
Qed.

Lemma others_ext c1 c2 ctrl i n :
  (∀ j, i ≤ j → Z.testbit c1 j = Z.testbit c2 j) → others c1 ctrl i n = others c2 ctrl i n.
Proof.
  unfold others. revert i. induction n as [|n IH]; intros i Hext; [done|].
  rewrite seqZ_cons by lia. replace (Z.pred (Z.of_nat (S n))) with (Z.of_nat n) by lia.
  rewrite !filter_cons, Hext by lia. rewrite (IH (Z.succ i)) by (intros; apply Hext; lia). done.
Qed.

Lemma others_range c ctrl i n j : j ∈ others c ctrl i n → i ≤ j < i + Z.of_nat n.
Proof. unfold others. rewrite list_elem_of_filter, elem_of_seqZ. lia. Qed.

Lemma release_others_spec n ctrl i devh t :
  0 ≤ i → i + Z.of_nat n ≤ 32 → fits 31 (dh_claimed devh) →
  wp (release_others n ctrl i devh) (λ devh' t', ∃ evs, t' = t ++ evs
    ∧ releases evs = others (dh_claimed devh) ctrl i n
    ∧ dh_info devh' = dh_info devh
    ∧ left_claimed (dh_claimed devh) (dh_claimed devh') evs) t.
Proof.
  revert i devh t. induction n as [|n IH]; intros i devh t Hi Hn Hf; cbn [release_others].
  { wp_run. exists []. rewrite app_nil_r. split_and!; [done..|].
    apply left_claimed_nil. eapply fits_mono; [|done]. lia. }
  assert (fits 32 (dh_claimed devh)) as Hf32 by (eapply fits_mono; [|done]; lia).
  unfold others. rewrite seqZ_cons by lia.
  replace (Z.pred (Z.of_nat (S n))) with (Z.of_nat n) by lia. rewrite filter_cons.
  rewrite wp_bind. unfold shl1u. rewrite decide_True by lia.
  destruct (Z.eqb_spec i ctrl) as [->|Hne]; cbn [negb].
  { wp_run. rewrite decide_False by naive_solver. apply IH; [lia..|done]. }
  wp_run. cbn [returns]. unfold nz. rewrite land_bit, negb_involutive by lia.
  destruct (Z.testbit (dh_claimed devh) i) eqn:Hbit; wp_run.
  2:{ rewrite decide_False by naive_solver. apply IH; [lia..|done]. }
  rewrite decide_True by done.
  assert (i < 31) as Hi31.
  { destruct (decide (i < 31)); [done|]. rewrite (fits_testbit 31) in Hbit by (done || lia). done. }
  eapply wp_mono; [by apply release_left|].
  intros [ret devh1] t1 (evs & -> & Hrel & Hinfo & Hleft). wp_run. cbn [snd] in *.
  assert (∀ j, 0 ≤ j → j ≠ i → Z.testbit (dh_claimed devh1) j = Z.testbit (dh_claimed devh) j) as Hsame.
  { intros j Hj Hji. rewrite (proj2 Hleft), Hrel by done.
    rewrite bool_decide_true by set_solver. simpl. by rewrite andb_true_r. }
  eapply wp_mono; [apply IH; [lia..|]|].
  - apply fits_bits; [lia|apply Hleft|]. intros j Hj. rewrite (proj2 Hleft) by lia.
    by rewrite (fits_testbit 31) by (done || lia).
  - intros devh2 t2 (evs2 & -> & Hrel2 & Hinfo2 & Hleft2). exists (evs ++ evs2).
    rewrite app_assoc, releases_app, Hrel, Hrel2. split_and!; [done| |congruence|].
    + simpl. f_equal. apply others_ext. intros j Hj. apply Hsame; lia.
    + eapply left_claimed_app; [|done..]. rewrite Hrel, Hrel2.
      intros j ->%list_elem_of_singleton. intros Hin%others_range. lia.
Qed.

Lemma release_claimed_ifs_run devh info t :
  dh_info devh = Some info → fits 31 (dh_claimed devh) →
  let ctrl := ci_bInterfaceNumber (di_ctrl_if info) in
  0 ≤ ctrl < 31 →
  wp (uvc_release_claimed_ifs devh) (λ devh' t', ∃ evs, t' = t ++ evs
    ∧ releases evs = others (dh_claimed devh) ctrl 0 32
        ++ (if Z.testbit (dh_claimed devh) ctrl then [ctrl] else [])
    ∧ ∀ j, 0 ≤ j → Z.testbit (dh_claimed devh') j
        = Z.testbit (dh_claimed devh) j && release_refused evs j) t.
Proof.
  intros Hinfo Hf ctrl Hc. unfold uvc_release_claimed_ifs. rewrite Hinfo. fold ctrl. rewrite wp_bind.
  eapply wp_mono; [by apply release_others_spec|]. intros devh1 t1 (evs & -> & Hrel & Hin & Hleft).
  rewrite (proj2 (Z.leb_le 0 ctrl)) by lia.
  assert (∀ j, 0 ≤ j → Z.testbit (dh_claimed devh) j = true → j ≠ ctrl → j ∈ releases evs) as Hcover.
  { intros j Hj Hb Hne. rewrite Hrel. apply list_elem_of_filter. split; [done|]. apply elem_of_seqZ.
    destruct (decide (j < 31)); [lia|]. by rewrite (fits_testbit 31) in Hb by (done || lia). }
  assert (ctrl ∉ releases evs) as Hctrl.
  { rewrite Hrel. intros [[??] _]%list_elem_of_filter. done. }
  assert (Z.testbit (dh_claimed devh1) ctrl = Z.testbit (dh_claimed devh) ctrl) as Hsame.
  { rewrite (proj2 Hleft) by lia. rewrite bool_decide_true by done. simpl. by rewrite andb_true_r. }
  rewrite wp_bind. destruct (Z.testbit (dh_claimed devh) ctrl) eqn:Hb.
  - eapply wp_mono; [apply release_left; [done|apply Hleft|done]|].
    intros res t2 (evs2 & -> & Hrel2 & _ & Hleft2). wp_run. exists (evs ++ evs2).
    rewrite app_assoc, releases_app, Hrel, Hrel2. split_and!; [done..|].
    assert (left_claimed (dh_claimed devh) (dh_claimed res.2) (evs ++ evs2)) as Hall.
    { eapply left_claimed_app; [|done..]. rewrite Hrel2. by intros j Hj ->%list_elem_of_singleton. }
    intros j Hj. rewrite (proj2 Hall) by done.
    rewrite releases_app, Hrel2. destruct (Z.testbit (dh_claimed devh) j) eqn:Hbj; [|done]. simpl.
    rewrite bool_decide_false; [done|]. destruct (decide (j = ctrl)); set_solver.
  - rewrite (wp_Ret _ _ _ _ _ (release_unclaimed devh1 ctrl _ Hc Hsame)). wp_run. exists evs.
    rewrite Hrel, app_nil_r. split_and!; [done..|]. cbn [snd].
    intros j Hj. rewrite (proj2 Hleft) by done. destruct (Z.testbit (dh_claimed devh) j) eqn:Hbj; [|done]. simpl.
    rewrite bool_decide_false; [done|]. intros Hno. apply Hno, Hcover; [done..|]. intros ->. congruence.
Qed.
(** Closing a handle releases every interface it still claims, once each,
    and VideoControl last; afterwards exactly the interfaces whose release
    libusb refused are still claimed. *)
Theorem release_claimed_ifs_order devh info t :
  dh_info devh = Some info → fits 31 (dh_claimed devh) →
  let ctrl := ci_bInterfaceNumber (di_ctrl_if info) in
  0 ≤ ctrl < 31 →
  wp (uvc_release_claimed_ifs devh) (λ devh' t', ∃ evs, t' = t ++ evs
    ∧ releases evs = others (dh_claimed devh) ctrl 0 32
        ++ (if Z.testbit (dh_claimed devh) ctrl then [ctrl] else [])
    ∧ ∀ j, 0 ≤ j → Z.testbit (dh_claimed devh') j
        = Z.testbit (dh_claimed devh) j && release_refused evs j) t.
Proof. apply release_claimed_ifs_run. Qed.
End results.

(** ** A concrete host

    Every interface has a driver until it is detached; interface 1 refuses to be
    claimed; everything else works. *)

Definition answer_code (c : Z) : response := {| rs_code := c; rs_errno := 0; rs_data := [] |}.

Definition usb_env : Environment := λ t q,
  match q with
  | DetachKernelDriver i => answer_code (if owed t i then UVC_ERROR_NOT_FOUND else UVC_SUCCESS)
  | ClaimInterface 1 => answer_code UVC_ERROR_BUSY
  | Calloc _ | Malloc _ => answer_code 4096
  | Mmap => answer_code 8192
  | Pipe2 => {| rs_code := 0; rs_errno := 0; rs_data := [5; 6] |}
  | RawFork => answer_code 42
  | Open _ => answer_code (-1)
  | _ => answer_code 0
  end.

Definition sample_guard : uvc_reattach_guard :=
  {| rg_record := set_armed sample_record 0; rg_notify_fd := 6 |}.

Section usb_witness.
#[local] Existing Instance usb_env.


Lemma first_claim_is_backed_witness :
  ∃ ret devh t', uvc_claim_if default_backend 1 (handle_with None 0 None) 0 [] = Ret ((ret, devh), t')
    ∧ (dh_reattach_guard devh = None ∨ always backed [] t' ∧ protected devh t')
    ∧ owed t' 0 = true ∧ shared_armed t' = 1.
Proof.
  pose proof (first_claim_is_backed default_backend 1 0 (handle_with None 0 None) 0 []) as Hw.
  assert (host_process 0) as Hh by (split; [intros t; discriminate|intros t _; reflexivity]).
  specialize (Hw Hh ltac:(lia) ltac:(lia) eq_refl (λ _, eq_refl)
    ltac:(by apply (bool_decide_unpack _))).
  destruct (proj1 (wp_iff _ _ _) Hw) as ([ret devh] & t' & Hrun & Hpost). clear Hw Hh.
  exists ret, devh, t'. split; [exact Hrun|]. split; [exact Hpost|].
  vm_compute in Hrun. injection Hrun as _ _ <-. split; reflexivity.
Defined.

Lemma release_claimed_ifs_order_witness :
  wp (uvc_release_claimed_ifs (handle_with (Some (info_zero [])) 7 (Some sample_guard)))
    (λ _ t', releases t' = [1; 2; 0]) [].
Proof.
  eapply wp_mono; [apply (release_claimed_ifs_order _ (info_zero []) [])|].
  - reflexivity.
  - by apply (bool_decide_unpack _).
  - simpl. lia.
  - intros devh' t' (evs & -> & Hr & _). exact Hr.
Defined.
End usb_witness.

(** ** Where the backstop has gaps *)

(** Handing interface 0 back fails and so does the next detach of it. *)
Definition stubborn_env : Environment := λ t q,
  match q with
  | AttachKernelDriver 0 => answer_code UVC_ERROR_IO
  | DetachKernelDriver 0 => answer_code (if owed t 0 then UVC_ERROR_IO else UVC_SUCCESS)
  | _ => answer_code 0
  end.

(** The first shared mapping cannot be made, the next ones can. *)
Definition late_env : Environment := λ t q,
  match q with
  | Mmap => answer_code (if decide (Mmap ∈ t.*1) then 8192 else -1)
  | Calloc _ | Malloc _ => answer_code 4096
  | Pipe2 => {| rs_code := 0; rs_errno := 0; rs_data := [5; 6] |}
  | RawFork => answer_code 42
  | _ => answer_code 0
  end.

(** Two ways a debt can go unarmed.  A claim whose detach fails hard disarms
    the interface even when an earlier, failed hand-back had left it armed; and a
    guard that could only be created at a later claim does not arm the interfaces
    claimed before. *)
Theorem backstop_gaps :
  (∃ devh t, run_ops (H := stubborn_env) (default_backend (H := stubborn_env)) 1
       [OpClaim 0; OpRelease 0; OpClaim 0] (handle_with None 0 (Some sample_guard)) [] = Ret (devh, t)
     ∧ owed t 0 = true ∧ Z.testbit (shared_armed t) 0 = false)
  ∧ (∃ devh t, run_ops (H := late_env) (default_backend (H := late_env)) 1
       [OpClaim 0; OpClaim 1] (handle_with None 0 None) [] = Ret (devh, t)
     ∧ is_Some (dh_reattach_guard devh) ∧ owed t 0 = true ∧ Z.testbit (shared_armed t) 0 = false).
Proof.
  split; do 2 eexists; (split; [vm_compute; reflexivity|]); split_and!; try done.
Qed.
