(* ===== verification/Negotiation.v ===== *)
(** * Negotiation: the probe/commit exchange of src/stream.c

    The control block on the wire, the queries, the search of the descriptor
    tree for a frame and an interval, and the negotiation built from them.  A
    query mutates the caller's control block, so every operation returns the
    block it leaves, also when it fails. *)

From stdpp Require Import prelude.
From S2P Require Import Prelude Types Environment Formats ReattachGuard Handles Claims.

(** ** The control block on the wire *)

(** The 34-byte buffer prepared for a SET; [n] is the transfer length. *)
Definition encode_stream_ctrl (ctrl : uvc_stream_ctrl) (n : Z) : outcome bytes :=
  let buf := replicate 34 0 in
  buf ← SHORT_TO_SW (sc_bmHint ctrl) buf 0;
  buf ← wr buf 2 (sc_bFormatIndex ctrl);
  buf ← wr buf 3 (sc_bFrameIndex ctrl);
  buf ← INT_TO_DW (sc_dwFrameInterval ctrl) buf 4;
  buf ← SHORT_TO_SW (sc_wKeyFrameRate ctrl) buf 8;
  buf ← SHORT_TO_SW (sc_wPFrameRate ctrl) buf 10;
  buf ← SHORT_TO_SW (sc_wCompQuality ctrl) buf 12;
  buf ← SHORT_TO_SW (sc_wCompWindowSize ctrl) buf 14;
  buf ← SHORT_TO_SW (sc_wDelay ctrl) buf 16;
  buf ← INT_TO_DW (sc_dwMaxVideoFrameSize ctrl) buf 18;
  buf ← INT_TO_DW (sc_dwMaxPayloadTransferSize ctrl) buf 22;
  if n =? 34 then
    buf ← INT_TO_DW (sc_dwClockFrequency ctrl) buf 26;
    buf ← wr buf 30 (sc_bmFramingInfo ctrl);
    buf ← wr buf 31 (sc_bPreferredVersion ctrl);
    buf ← wr buf 32 (sc_bMinVersion ctrl);
    wr buf 33 (sc_bMaxVersion ctrl)
  else Ret buf.

(** The block after a GET, before the fix-ups.  [dwClockFrequency] is not taken
    from the buffer but from the VideoControl header. *)
Definition decode_stream_ctrl (ctrl : uvc_stream_ctrl) (buf : bytes) (n clock : Z) : outcome uvc_stream_ctrl :=
  hint ← SW_TO_SHORT buf 0;
  fmt ← rd buf 2;
  frm ← rd buf 3;
  interval ← DW_TO_INT buf 4;
  key ← SW_TO_SHORT buf 8;
  p ← SW_TO_SHORT buf 10;
  quality ← SW_TO_SHORT buf 12;
  window ← SW_TO_SHORT buf 14;
  delay ← SW_TO_SHORT buf 16;
  maxframe ← DW_TO_INT buf 18;
  maxpayload ← DW_TO_INT buf 22;
  '(framing, preferred, minv, maxv) ←
    (if n =? 34 then
       b30 ← rd buf 30;
       b31 ← rd buf 31;
       b32 ← rd buf 32;
       b33 ← rd buf 33;
       Ret (b30, b31, b32, b33)
     else Ret (sc_bmFramingInfo ctrl, sc_bPreferredVersion ctrl, sc_bMinVersion ctrl, sc_bMaxVersion ctrl));
  Ret {| sc_bmHint := u16 hint; sc_bFormatIndex := fmt; sc_bFrameIndex := frm;
         sc_dwFrameInterval := u32 interval; sc_wKeyFrameRate := u16 key; sc_wPFrameRate := u16 p;
         sc_wCompQuality := u16 quality; sc_wCompWindowSize := u16 window; sc_wDelay := u16 delay;
         sc_dwMaxVideoFrameSize := u32 maxframe; sc_dwMaxPayloadTransferSize := u32 maxpayload;
         sc_dwClockFrequency := clock; sc_bmFramingInfo := framing;
         sc_bPreferredVersion := preferred; sc_bMinVersion := minv; sc_bMaxVersion := maxv;
         sc_bInterfaceNumber := sc_bInterfaceNumber ctrl |}.

Definition set_sizes (c : uvc_stream_ctrl) (maxframe maxpayload : Z) : uvc_stream_ctrl :=
  {| sc_bmHint := sc_bmHint c; sc_bFormatIndex := sc_bFormatIndex c;
     sc_bFrameIndex := sc_bFrameIndex c; sc_dwFrameInterval := sc_dwFrameInterval c;
     sc_wKeyFrameRate := sc_wKeyFrameRate c; sc_wPFrameRate := sc_wPFrameRate c;
     sc_wCompQuality := sc_wCompQuality c; sc_wCompWindowSize := sc_wCompWindowSize c;
     sc_wDelay := sc_wDelay c; sc_dwMaxVideoFrameSize := maxframe;
     sc_dwMaxPayloadTransferSize := maxpayload; sc_dwClockFrequency := sc_dwClockFrequency c;
     sc_bmFramingInfo := sc_bmFramingInfo c; sc_bPreferredVersion := sc_bPreferredVersion c;
     sc_bMinVersion := sc_bMinVersion c; sc_bMaxVersion := sc_bMaxVersion c;
     sc_bInterfaceNumber := sc_bInterfaceNumber c |}.

Definition set_ctrl_interface (c : uvc_stream_ctrl) (i : Z) : uvc_stream_ctrl :=
  {| sc_bmHint := sc_bmHint c; sc_bFormatIndex := sc_bFormatIndex c;
     sc_bFrameIndex := sc_bFrameIndex c; sc_dwFrameInterval := sc_dwFrameInterval c;
     sc_wKeyFrameRate := sc_wKeyFrameRate c; sc_wPFrameRate := sc_wPFrameRate c;
     sc_wCompQuality := sc_wCompQuality c; sc_wCompWindowSize := sc_wCompWindowSize c;
     sc_wDelay := sc_wDelay c; sc_dwMaxVideoFrameSize := sc_dwMaxVideoFrameSize c;
     sc_dwMaxPayloadTransferSize := sc_dwMaxPayloadTransferSize c;
     sc_dwClockFrequency := sc_dwClockFrequency c;
     sc_bmFramingInfo := sc_bmFramingInfo c; sc_bPreferredVersion := sc_bPreferredVersion c;
     sc_bMinVersion := sc_bMinVersion c; sc_bMaxVersion := sc_bMaxVersion c;
     sc_bInterfaceNumber := i |}.

Definition set_wanted (c : uvc_stream_ctrl) (fmt frm interval : Z) : uvc_stream_ctrl :=
  {| sc_bmHint := 1; sc_bFormatIndex := fmt;
     sc_bFrameIndex := frm; sc_dwFrameInterval := interval;
     sc_wKeyFrameRate := sc_wKeyFrameRate c; sc_wPFrameRate := sc_wPFrameRate c;
     sc_wCompQuality := sc_wCompQuality c; sc_wCompWindowSize := sc_wCompWindowSize c;
     sc_wDelay := sc_wDelay c; sc_dwMaxVideoFrameSize := sc_dwMaxVideoFrameSize c;
     sc_dwMaxPayloadTransferSize := sc_dwMaxPayloadTransferSize c;
     sc_dwClockFrequency := sc_dwClockFrequency c;
     sc_bmFramingInfo := sc_bmFramingInfo c; sc_bPreferredVersion := sc_bPreferredVersion c;
     sc_bMinVersion := sc_bMinVersion c; sc_bMaxVersion := sc_bMaxVersion c;
     sc_bInterfaceNumber := sc_bInterfaceNumber c |}.

(** ** Searching the descriptor tree

    A frame comes with the format that is its [parent]. *)

Fixpoint find_frame_in_formats (formats : list uvc_format_desc) (format_id frame_id : Z)
    : option (uvc_format_desc * uvc_frame_desc) :=
  match formats with
  | [] => None
  | format :: rest =>
      if fm_bFormatIndex format =? format_id then
        match list_find (λ f, fr_bFrameIndex f = frame_id) (fm_frame_descs format) with
        | Some (_, frame) => Some (format, frame)
        | None => find_frame_in_formats rest format_id frame_id
        end
      else find_frame_in_formats rest format_id frame_id
  end.

Definition _uvc_find_frame_desc_stream_if (s : uvc_streaming_interface) (format_id frame_id : Z)
    : option (uvc_format_desc * uvc_frame_desc) :=
  find_frame_in_formats (si_format_descs s) format_id frame_id.

Definition uvc_find_frame_desc_stream (strmh : uvc_stream_handle) (format_id frame_id : Z)
    : option (uvc_format_desc * uvc_frame_desc) :=
  _uvc_find_frame_desc_stream_if (sh_stream_if strmh) format_id frame_id.

Fixpoint find_frame_in_ifs (ifs : list uvc_streaming_interface) (format_id frame_id : Z)
    : option (uvc_format_desc * uvc_frame_desc) :=
  match ifs with
  | [] => None
  | s :: rest =>
      match _uvc_find_frame_desc_stream_if s format_id frame_id with
      | Some frame => Some frame
      | None => find_frame_in_ifs rest format_id frame_id
      end
  end.

Definition uvc_find_frame_desc (info : uvc_device_info) (format_id frame_id : Z)
    : option (uvc_format_desc * uvc_frame_desc) :=
  find_frame_in_ifs (di_stream_ifs info) format_id frame_id.

Definition _uvc_get_stream_by_interface (devh : uvc_device_handle) (interface_idx : Z)
    : option uvc_stream_handle :=
  snd <$> list_find (λ s, si_bInterfaceNumber (sh_stream_if s) = interface_idx) (dh_streams devh).

Definition _uvc_get_stream_if (info : uvc_device_info) (interface_idx : Z)
    : option uvc_streaming_interface :=
  snd <$> list_find (λ s, si_bInterfaceNumber s = interface_idx) (di_stream_ifs info).

(** "Fix up block for cameras that fail to set dwMax*". *)
Definition fix_up_sizes (info : uvc_device_info) (c : uvc_stream_ctrl) : uvc_stream_ctrl :=
  let frame := uvc_find_frame_desc info (sc_bFormatIndex c) (sc_bFrameIndex c) in
  let c := if sc_dwMaxVideoFrameSize c =? 0 then
             match frame with
             | Some (_, f) => set_sizes c (fr_dwMaxVideoFrameBufferSize f) (sc_dwMaxPayloadTransferSize c)
             | None => c
             end
           else c in
  if sc_dwMaxPayloadTransferSize c =? 0 then
    match frame with
    | Some (_, f) => set_sizes c (sc_dwMaxVideoFrameSize c) (fr_dwMaxBitRate f)
    | None => c
    end
  else c.

(** The length of the block for the device's version. *)
Definition stream_ctrl_len (info : uvc_device_info) : Z :=
  if 0x0110 <=? ci_bcdUVC (di_ctrl_if info) then 34 else 26.

(** The shared result of a query: [err], or success. *)
Section queries.
Context `{Environment}.

Definition uvc_query_stream_ctrl (devh : uvc_device_handle) (ctrl : uvc_stream_ctrl)
    (probe : bool) (req : Z) : io (Z * uvc_stream_ctrl) :=
  info ← lift (deref (dh_info devh));
  let n := stream_ctrl_len info in
  buf ← lift (if req =? UVC_SET_CUR then encode_stream_ctrl ctrl n else Ret (replicate 34 0));
  res ← control_transfer (if req =? UVC_SET_CUR then 0x21 else 0xA1) req
    (if probe then Z.shiftl UVC_VS_PROBE_CONTROL 8 else Z.shiftl UVC_VS_COMMIT_CONTROL 8)
    (sc_bInterfaceNumber ctrl) buf n 0;
  let '(err, buf) := res in
  if err <=? 0 then mret (err, ctrl) else
  if negb (req =? UVC_SET_CUR) then
    ctrl ← lift (decode_stream_ctrl ctrl buf n (ci_dwClockFrequency (di_ctrl_if info)));
    mret (UVC_SUCCESS, fix_up_sizes info ctrl)
  else mret (UVC_SUCCESS, ctrl).

Definition encode_still_ctrl (c : uvc_still_ctrl) : outcome bytes :=
  let buf := replicate 11 0 in
  buf ← wr buf 0 (st_bFormatIndex c);
  buf ← wr buf 1 (st_bFrameIndex c);
  buf ← wr buf 2 (st_bCompressionIndex c);
  buf ← INT_TO_DW (st_dwMaxVideoFrameSize c) buf 3;
  INT_TO_DW (st_dwMaxPayloadTransferSize c) buf 7.

Definition decode_still_ctrl (c : uvc_still_ctrl) (buf : bytes) : outcome uvc_still_ctrl :=
  b0 ← rd buf 0;
  b1 ← rd buf 1;
  b2 ← rd buf 2;
  maxframe ← DW_TO_INT buf 3;
  maxpayload ← DW_TO_INT buf 7;
  Ret {| st_bFormatIndex := b0; st_bFrameIndex := b1; st_bCompressionIndex := b2;
         st_dwMaxVideoFrameSize := u32 maxframe; st_dwMaxPayloadTransferSize := u32 maxpayload;
         st_bInterfaceNumber := st_bInterfaceNumber c |}.

Definition uvc_query_still_ctrl (c : uvc_still_ctrl) (probe : bool) (req : Z)
    : io (Z * uvc_still_ctrl) :=
  buf ← lift (if req =? UVC_SET_CUR then encode_still_ctrl c else Ret (replicate 11 0));
  res ← control_transfer (if req =? UVC_SET_CUR then 0x21 else 0xA1) req
    (if probe then Z.shiftl UVC_VS_STILL_PROBE_CONTROL 8 else Z.shiftl UVC_VS_STILL_COMMIT_CONTROL 8)
    (st_bInterfaceNumber c) buf 11 0;
  let '(err, buf) := res in
  if err <=? 0 then mret (err, c) else
  if negb (req =? UVC_SET_CUR) then
    c ← lift (decode_still_ctrl c buf);
    mret (UVC_SUCCESS, c)
  else mret (UVC_SUCCESS, c).

Definition uvc_trigger_still (devh : uvc_device_handle) (c : uvc_still_ctrl) : io Z :=
  let stream := _uvc_get_stream_by_interface devh (st_bInterfaceNumber c) in
  if negb (match stream with Some s => sh_running s | None => false end)
  then mret UVC_ERROR_NOT_SUPPORTED else
  info ← lift (deref (dh_info devh));
  let stream_if := _uvc_get_stream_if info (st_bInterfaceNumber c) in
  if negb (match stream_if with Some s => si_bStillCaptureMethod s =? 2 | None => false end)
  then mret UVC_ERROR_NOT_SUPPORTED else
  res ← control_transfer 0x21 UVC_SET_CUR (Z.shiftl UVC_VS_STILL_IMAGE_TRIGGER_CONTROL 8)
    (st_bInterfaceNumber c) [1] 1 0;
  if res.1 <=? 0 then mret res.1 else mret UVC_SUCCESS.

Definition set_cur_ctrl (s : uvc_stream_handle) (c : uvc_stream_ctrl) : uvc_stream_handle :=
  {| sh_stream_if := sh_stream_if s; sh_running := sh_running s; sh_cur_ctrl := c;
     sh_working := sh_working s; sh_hold := sh_hold s; sh_last_polled_seq := sh_last_polled_seq s;
     sh_user_cb := sh_user_cb s; sh_frame := sh_frame s; sh_frame_format := sh_frame_format s |}.

Definition uvc_stream_ctrl_op (devh : uvc_device_handle) (strmh : uvc_stream_handle)
    (ctrl : uvc_stream_ctrl) : io (Z * uvc_stream_handle) :=
  if negb (si_bInterfaceNumber (sh_stream_if strmh) =? sc_bInterfaceNumber ctrl)
  then mret (UVC_ERROR_INVALID_PARAM, strmh) else
  if sh_running strmh then mret (UVC_ERROR_BUSY, strmh) else
  res ← uvc_query_stream_ctrl devh ctrl false UVC_SET_CUR;
  if negb (res.1 =? UVC_SUCCESS) then mret (res.1, strmh) else
  mret (UVC_SUCCESS, set_cur_ctrl strmh res.2).

(** ** Probing *)

Definition _uvc_stream_params_negotiated (required actual : uvc_stream_ctrl) : bool :=
  (sc_bFormatIndex required =? sc_bFormatIndex actual)
  && (sc_bFrameIndex required =? sc_bFrameIndex actual)
  && (sc_dwMaxPayloadTransferSize actual <=? sc_dwMaxPayloadTransferSize required).

Definition uvc_probe_stream_ctrl (devh : uvc_device_handle) (ctrl : uvc_stream_ctrl)
    : io (Z * uvc_stream_ctrl) :=
  let required_ctrl := ctrl in
  res ← uvc_query_stream_ctrl devh ctrl true UVC_SET_CUR;
  let '(result, ctrl) := res in
  if negb (result =? UVC_SUCCESS) then mret (result, ctrl) else
  res ← uvc_query_stream_ctrl devh ctrl true UVC_GET_CUR;
  let '(result, ctrl) := res in
  if negb (result =? UVC_SUCCESS) then mret (result, ctrl) else
  if negb (_uvc_stream_params_negotiated required_ctrl ctrl) then mret (UVC_ERROR_INVALID_MODE, ctrl)
  else mret (UVC_SUCCESS, ctrl).

Definition uvc_probe_still_ctrl (c : uvc_still_ctrl) : io (Z * uvc_still_ctrl) :=
  res ← uvc_query_still_ctrl c true UVC_SET_CUR;
  let '(err, c) := res in
  if negb (err =? UVC_SUCCESS) then mret (err, c) else
  res ← uvc_query_still_ctrl c true UVC_GET_CUR;
  let '(err, c) := res in
  if negb (err =? UVC_SUCCESS) then mret (err, c) else
  uvc_query_still_ctrl c false UVC_SET_CUR.

(** ** Choosing a frame and an interval *)

(** [for (interval = frame->intervals; *interval; ++interval)] *)
Fixpoint find_interval (a : list Z) (fps : Z) : outcome (option Z) :=
  match a with
  | [] => Undef OutOfBounds
  | interval :: a =>
      if interval =? 0 then Ret None else
      q ← cdiv 10000000 interval;
      if (q =? u32 fps) || (fps =? 0) then Ret (Some interval) else find_interval a fps
  end.

(** The interval chosen from a continuous range, if it is in the range and on a step. *)
Definition interval_in_range (frame : uvc_frame_desc) (fps : Z) : outcome (option Z) :=
  interval_100ns ← (if decide (fps = 0) then Undef DivByZero else Ret (u32 (Z.quot 10000000 fps)));
  let interval_offset := u32 (interval_100ns - fr_dwMinFrameInterval frame) in
  if (fr_dwMinFrameInterval frame <=? interval_100ns)
     && (interval_100ns <=? fr_dwMaxFrameInterval frame) then
    off_step ← (if nz interval_offset then
                  r ← cmod interval_offset (fr_dwFrameIntervalStep frame);
                  Ret (nz r)
                else Ret false);
    Ret (if (off_step : bool) then None else Some interval_100ns)
  else Ret None.

Definition choose_interval (frame : uvc_frame_desc) (fps : Z) : outcome (option Z) :=
  match fr_intervals frame with
  | Some a => find_interval a fps
  | None => interval_in_range frame fps
  end.
End queries.

Section format_size.
Context `{Environment} (active_backend : uvc_reattach_backend) (fuel : nat).
Context (cf width height fps : Z).

(** One matching frame: claim the interface, get the maxima, choose an interval. *)
Definition try_frame (s : uvc_streaming_interface) (format : uvc_format_desc) (frame : uvc_frame_desc)
    (devh : uvc_device_handle) (ctrl : uvc_stream_ctrl) : io (bool * uvc_device_handle * uvc_stream_ctrl) :=
  let ctrl := set_ctrl_interface ctrl (si_bInterfaceNumber s) in
  claimed ← uvc_claim_if active_backend fuel devh (sc_bInterfaceNumber ctrl);
  let devh := claimed.2 in
  res ← uvc_query_stream_ctrl devh ctrl true UVC_GET_MAX;
  let ctrl := res.2 in
  interval ← lift (choose_interval frame fps);
  match interval with
  | Some i => mret (true, devh, set_wanted ctrl (fm_bFormatIndex format) (fr_bFrameIndex frame) i)
  | None => mret (false, devh, ctrl)
  end.

Fixpoint try_frames (s : uvc_streaming_interface) (format : uvc_format_desc) (frames : list uvc_frame_desc)
    (devh : uvc_device_handle) (ctrl : uvc_stream_ctrl) : io (bool * uvc_device_handle * uvc_stream_ctrl) :=
  match frames with
  | [] => mret (false, devh, ctrl)
  | frame :: rest =>
      if negb (fr_wWidth frame =? width) || negb (fr_wHeight frame =? height)
      then try_frames s format rest devh ctrl
      else
        res ← try_frame s format frame devh ctrl;
        let '(found, devh, ctrl) := res in
        if (found : bool) then mret (true, devh, ctrl) else try_frames s format rest devh ctrl
  end.

Fixpoint try_formats (s : uvc_streaming_interface) (formats : list uvc_format_desc)
    (devh : uvc_device_handle) (ctrl : uvc_stream_ctrl) : io (bool * uvc_device_handle * uvc_stream_ctrl) :=
  match formats with
  | [] => mret (false, devh, ctrl)
  | format :: rest =>
      matches ← lift (_uvc_frame_format_matches_guid cf (fm_guidFormat format));
      if negb matches then try_formats s rest devh ctrl else
      res ← try_frames s format (fm_frame_descs format) devh ctrl;
      let '(found, devh, ctrl) := res in
      if (found : bool) then mret (true, devh, ctrl) else try_formats s rest devh ctrl
  end.

Fixpoint try_interfaces (ifs : list uvc_streaming_interface)
    (devh : uvc_device_handle) (ctrl : uvc_stream_ctrl) : io (bool * uvc_device_handle * uvc_stream_ctrl) :=
  match ifs with
  | [] => mret (false, devh, ctrl)
  | s :: rest =>
      res ← try_formats s (si_format_descs s) devh ctrl;
      let '(found, devh, ctrl) := res in
      if (found : bool) then mret (true, devh, ctrl) else try_interfaces rest devh ctrl
  end.

Definition uvc_get_stream_ctrl_format_size (devh : uvc_device_handle) (ctrl : uvc_stream_ctrl)
    : io (Z * uvc_device_handle * uvc_stream_ctrl) :=
  info ← lift (deref (dh_info devh));
  res ← try_interfaces (di_stream_ifs info) devh ctrl;
  let '(found, devh, ctrl) := res in
  if (found : bool) then
    res ← uvc_probe_stream_ctrl devh ctrl;
    mret (res.1, devh, res.2)
  else mret (UVC_ERROR_INVALID_MODE, devh, ctrl).

(** The size pattern of a still frame that has the wanted size. *)
Definition find_pattern (still : uvc_still_frame_desc) : option uvc_still_frame_res :=
  snd <$> list_find (λ p, sr_wWidth p = width ∧ sr_wHeight p = height) (sf_imageSizePatterns still).

Fixpoint find_still (stills : list uvc_still_frame_desc) : option uvc_still_frame_res :=
  match stills with
  | [] => None
  | still :: rest =>
      match find_pattern still with
      | Some p => Some p
      | None => find_still rest
      end
  end.

Fixpoint try_still_formats (ctrl : uvc_stream_ctrl) (formats : list uvc_format_desc) (c : uvc_still_ctrl)
    : io (bool * uvc_still_ctrl) :=
  match formats with
  | [] => mret (false, c)
  | format :: rest =>
      if negb (sc_bFormatIndex ctrl =? fm_bFormatIndex format) then try_still_formats ctrl rest c else
      res ← uvc_query_still_ctrl c true UVC_GET_MAX;
      let c := res.2 in
      match find_still (fm_still_frame_desc format) with
      | Some p =>
          mret (true,
            {| st_bFormatIndex := fm_bFormatIndex format; st_bFrameIndex := sr_bResolutionIndex p;
               st_bCompressionIndex := 0; st_dwMaxVideoFrameSize := st_dwMaxVideoFrameSize c;
               st_dwMaxPayloadTransferSize := st_dwMaxPayloadTransferSize c;
               st_bInterfaceNumber := sc_bInterfaceNumber ctrl |})
      | None => try_still_formats ctrl rest c
      end
  end.

Definition uvc_get_still_ctrl_format_size (devh : uvc_device_handle) (ctrl : uvc_stream_ctrl)
    (c : uvc_still_ctrl) : io (Z * uvc_still_ctrl) :=
  info ← lift (deref (dh_info devh));
  match _uvc_get_stream_if info (sc_bInterfaceNumber ctrl) with
  | None => mret (UVC_ERROR_NOT_SUPPORTED, c)
  | Some s =>
      if negb (si_bStillCaptureMethod s =? 2) then mret (UVC_ERROR_NOT_SUPPORTED, c) else
      res ← try_still_formats ctrl (si_format_descs s) c;
      let '(found, c) := res in
      if (found : bool) then uvc_probe_still_ctrl c else mret (UVC_ERROR_INVALID_MODE, c)
  end.
End format_size.
