(* ===== verification/NegotiationFacts.v ===== *)
(** * NegotiationFacts: correctness of the negotiation

    The control block survives the wire; every query returns whatever the device
    answers; a successful probe means the device agreed; the search through the
    descriptor tree is sound and complete; where the interval arithmetic can
    trap. *)

From stdpp Require Import prelude.
From S2P Require Import Prelude Types Environment Formats Descriptors DescriptorsFacts ReattachGuard ReattachGuardFacts Handles Claims ClaimsFacts Negotiation.

(** ** The control block on the wire *)

Record ctrl_wf (c : uvc_stream_ctrl) : Prop := {
  cw_hint : fits 16 (sc_bmHint c);
  cw_format : fits 8 (sc_bFormatIndex c);
  cw_frame : fits 8 (sc_bFrameIndex c);
  cw_interval : fits 32 (sc_dwFrameInterval c);
  cw_key : fits 16 (sc_wKeyFrameRate c);
  cw_p : fits 16 (sc_wPFrameRate c);
  cw_quality : fits 16 (sc_wCompQuality c);
  cw_window : fits 16 (sc_wCompWindowSize c);
  cw_delay : fits 16 (sc_wDelay c);
  cw_maxframe : fits 32 (sc_dwMaxVideoFrameSize c);
  cw_maxpayload : fits 32 (sc_dwMaxPayloadTransferSize c);
  cw_clock : fits 32 (sc_dwClockFrequency c);
  cw_framing : fits 8 (sc_bmFramingInfo c);
  cw_preferred : fits 8 (sc_bPreferredVersion c);
  cw_min : fits 8 (sc_bMinVersion c);
  cw_max : fits 8 (sc_bMaxVersion c);
}.

(** The first 26 bytes (UVC 1.0) and the 8 that UVC 1.1 added. *)
Definition ctrl_head (c : uvc_stream_ctrl) : bytes :=
  le16 (sc_bmHint c) ++ [sc_bFormatIndex c; sc_bFrameIndex c] ++ le32 (sc_dwFrameInterval c)
  ++ le16 (sc_wKeyFrameRate c) ++ le16 (sc_wPFrameRate c) ++ le16 (sc_wCompQuality c)
  ++ le16 (sc_wCompWindowSize c) ++ le16 (sc_wDelay c) ++ le32 (sc_dwMaxVideoFrameSize c)
  ++ le32 (sc_dwMaxPayloadTransferSize c).

Definition ctrl_tail (c : uvc_stream_ctrl) : bytes :=
  le32 (sc_dwClockFrequency c)
  ++ [sc_bmFramingInfo c; sc_bPreferredVersion c; sc_bMinVersion c; sc_bMaxVersion c].

Lemma encode_34 c : encode_stream_ctrl c 34 = Ret (ctrl_head c ++ ctrl_tail c).
Proof. done. Qed.

Lemma encode_26 c : encode_stream_ctrl c 26 = Ret (ctrl_head c ++ replicate 8 0).
Proof. done. Qed.

Lemma ctrl_head_ok c : ctrl_wf c → bytes_ok (ctrl_head c).
Proof.
  intros []. unfold ctrl_head, bytes_ok.
  repeat (apply Forall_app; split); try apply le16_ok; try apply le32_ok.
  repeat apply Forall_cons_2; try apply Forall_nil_2; done.
Qed.

Lemma ctrl_tail_ok c : ctrl_wf c → bytes_ok (ctrl_tail c).
Proof.
  intros []. unfold ctrl_tail, bytes_ok. apply Forall_app. split; [apply le32_ok|].
  repeat apply Forall_cons_2; try apply Forall_nil_2; done.
Qed.

(** The block a well-formed buffer describes, with total reads. *)
Definition ctrl_at (ctrl : uvc_stream_ctrl) (buf : bytes) (n clock : Z) : uvc_stream_ctrl :=
  {| sc_bmHint := le16_at buf 0; sc_bFormatIndex := byte_at buf 2; sc_bFrameIndex := byte_at buf 3;
     sc_dwFrameInterval := le32_at buf 4; sc_wKeyFrameRate := le16_at buf 8;
     sc_wPFrameRate := le16_at buf 10; sc_wCompQuality := le16_at buf 12;
     sc_wCompWindowSize := le16_at buf 14; sc_wDelay := le16_at buf 16;
     sc_dwMaxVideoFrameSize := le32_at buf 18; sc_dwMaxPayloadTransferSize := le32_at buf 22;
     sc_dwClockFrequency := clock;
     sc_bmFramingInfo := if n =? 34 then byte_at buf 30 else sc_bmFramingInfo ctrl;
     sc_bPreferredVersion := if n =? 34 then byte_at buf 31 else sc_bPreferredVersion ctrl;
     sc_bMinVersion := if n =? 34 then byte_at buf 32 else sc_bMinVersion ctrl;
     sc_bMaxVersion := if n =? 34 then byte_at buf 33 else sc_bMaxVersion ctrl;
     sc_bInterfaceNumber := sc_bInterfaceNumber ctrl |}.

Lemma decode_in ctrl buf n clock :
  bytes_ok buf → len buf = 34 → decode_stream_ctrl ctrl buf n clock = Ret (ctrl_at ctrl buf n clock).
Proof.
  intros Hb Hl. unfold decode_stream_ctrl, ctrl_at.
  rewrite !SW_TO_SHORT_in, !DW_TO_INT_in, !rd_byte_at by (done || lia). simpl.
  rewrite !(wrapu_id 16) by (by apply le16_at_fits). rewrite !u32_i32 by (by apply le32_at_fits).
  by destruct (n =? 34).
Qed.

(** Replaces the read at offset [o] of a block by the value [v] stored there. *)
Ltac read16 b o v := assert (le16_at b o = v) as -> by (by apply (le16_at_app (take (Z.to_nat o) b))).
Ltac read32 b o v := assert (le32_at b o = v) as -> by (by apply (le32_at_app (take (Z.to_nat o) b))).

Lemma ctrl_at_head ctrl c n clock tl :
  ctrl_wf c →
  ctrl_at ctrl (ctrl_head c ++ tl) n clock =
  {| sc_bmHint := sc_bmHint c; sc_bFormatIndex := sc_bFormatIndex c; sc_bFrameIndex := sc_bFrameIndex c;
     sc_dwFrameInterval := sc_dwFrameInterval c; sc_wKeyFrameRate := sc_wKeyFrameRate c;
     sc_wPFrameRate := sc_wPFrameRate c; sc_wCompQuality := sc_wCompQuality c;
     sc_wCompWindowSize := sc_wCompWindowSize c; sc_wDelay := sc_wDelay c;
     sc_dwMaxVideoFrameSize := sc_dwMaxVideoFrameSize c;
     sc_dwMaxPayloadTransferSize := sc_dwMaxPayloadTransferSize c; sc_dwClockFrequency := clock;
     sc_bmFramingInfo := if n =? 34 then byte_at tl 4 else sc_bmFramingInfo ctrl;
     sc_bPreferredVersion := if n =? 34 then byte_at tl 5 else sc_bPreferredVersion ctrl;
     sc_bMinVersion := if n =? 34 then byte_at tl 6 else sc_bMinVersion ctrl;
     sc_bMaxVersion := if n =? 34 then byte_at tl 7 else sc_bMaxVersion ctrl;
     sc_bInterfaceNumber := sc_bInterfaceNumber ctrl |}.
Proof.
  intros []. set (b := ctrl_head c ++ tl). unfold ctrl_at.
  read16 b 0 (sc_bmHint c).
  read32 b 4 (sc_dwFrameInterval c).
  read16 b 8 (sc_wKeyFrameRate c).
  read16 b 10 (sc_wPFrameRate c).
  read16 b 12 (sc_wCompQuality c).
  read16 b 14 (sc_wCompWindowSize c).
  read16 b 16 (sc_wDelay c).
  read32 b 18 (sc_dwMaxVideoFrameSize c).
  read32 b 22 (sc_dwMaxPayloadTransferSize c).
  done.
Qed.

(** What a receiver that had [ctrl] holds after decoding the block of [c]. *)
Definition received (ctrl c : uvc_stream_ctrl) (n clock : Z) : uvc_stream_ctrl :=
  let from := if n =? 34 then c else ctrl in
  {| sc_bmHint := sc_bmHint c; sc_bFormatIndex := sc_bFormatIndex c; sc_bFrameIndex := sc_bFrameIndex c;
     sc_dwFrameInterval := sc_dwFrameInterval c; sc_wKeyFrameRate := sc_wKeyFrameRate c;
     sc_wPFrameRate := sc_wPFrameRate c; sc_wCompQuality := sc_wCompQuality c;
     sc_wCompWindowSize := sc_wCompWindowSize c; sc_wDelay := sc_wDelay c;
     sc_dwMaxVideoFrameSize := sc_dwMaxVideoFrameSize c;
     sc_dwMaxPayloadTransferSize := sc_dwMaxPayloadTransferSize c; sc_dwClockFrequency := clock;
     sc_bmFramingInfo := sc_bmFramingInfo from; sc_bPreferredVersion := sc_bPreferredVersion from;
     sc_bMinVersion := sc_bMinVersion from; sc_bMaxVersion := sc_bMaxVersion from;
     sc_bInterfaceNumber := sc_bInterfaceNumber ctrl |}.

(** C32: the control block survives the wire.  Whatever block [ctrl] the receiver
    had, decoding the bytes encoded from [c] gives it every field of [c] the
    protocol version carries, except that the clock frequency is the one of the
    VideoControl header and the interface number is the receiver's own. *)
Theorem stream_ctrl_roundtrip n c ctrl clock :
  n = 26 ∨ n = 34 → ctrl_wf c →
  ∃ buf, encode_stream_ctrl c n = Ret buf ∧ len buf = 34
    ∧ decode_stream_ctrl ctrl buf n clock = Ret (received ctrl c n clock).
Proof.
  intros Hn Hc. pose proof (ctrl_head_ok c Hc). pose proof (ctrl_tail_ok c Hc).
  destruct Hn as [->| ->];
    [exists (ctrl_head c ++ replicate 8 0)|exists (ctrl_head c ++ ctrl_tail c)];
    (split; [done|]); (split; [done|]).
  - rewrite decode_in; [|apply Forall_app; split; [done|by apply Forall_replicate]|done].
    by rewrite ctrl_at_head.
  - rewrite decode_in; [|by apply Forall_app|done]. by rewrite ctrl_at_head.
Qed.

Definition sample_ctrl : uvc_stream_ctrl :=
  {| sc_bmHint := 1; sc_bFormatIndex := 2; sc_bFrameIndex := 3; sc_dwFrameInterval := 333333;
     sc_wKeyFrameRate := 30; sc_wPFrameRate := 0; sc_wCompQuality := 5000; sc_wCompWindowSize := 0;
     sc_wDelay := 32; sc_dwMaxVideoFrameSize := 4147200; sc_dwMaxPayloadTransferSize := 3072;
     sc_dwClockFrequency := 48000000; sc_bmFramingInfo := 0; sc_bPreferredVersion := 1;
     sc_bMinVersion := 1; sc_bMaxVersion := 1; sc_bInterfaceNumber := 1 |}.

Lemma sample_ctrl_wf : ctrl_wf sample_ctrl.
Proof. constructor; by apply (bool_decide_unpack _). Qed.

Lemma stream_ctrl_roundtrip_witness :
  ∃ buf, encode_stream_ctrl sample_ctrl 34 = Ret buf
    ∧ decode_stream_ctrl sample_ctrl buf 34 48000000 = Ret sample_ctrl.
Proof.
  destruct (stream_ctrl_roundtrip 34 sample_ctrl sample_ctrl 48000000) as (buf & H1 & _ & H2).
  - auto.
  - apply sample_ctrl_wf.
  - exists buf. split; [exact H1|exact H2].
Defined.

(** ** The queries *)

Section queries.
Context `{Environment}.

Definition selector (probe : bool) : Z :=
  if probe then Z.shiftl UVC_VS_PROBE_CONTROL 8 else Z.shiftl UVC_VS_COMMIT_CONTROL 8.

(** The transfers a query makes. *)
Definition set_request (info : uvc_device_info) (c : uvc_stream_ctrl) (probe : bool) : request :=
  ControlTransfer 0x21 UVC_SET_CUR (selector probe) (sc_bInterfaceNumber c)
    (if stream_ctrl_len info =? 34 then ctrl_head c ++ ctrl_tail c else ctrl_head c)
    (stream_ctrl_len info) 0.

Definition get_request (info : uvc_device_info) (c : uvc_stream_ctrl) (probe : bool) (req : Z) : request :=
  ControlTransfer 0xA1 req (selector probe) (sc_bInterfaceNumber c)
    (replicate (Z.to_nat (stream_ctrl_len info)) 0) (stream_ctrl_len info) 0.

(** The query's buffer after a GET. *)
Definition get_buffer (info : uvc_device_info) (r : response) : bytes :=
  store_into (replicate (Z.to_nat (stream_ctrl_len info)) 0) (rs_data r)
  ++ replicate (34 - Z.to_nat (stream_ctrl_len info)) 0.

Lemma stream_ctrl_len_cases info : stream_ctrl_len info = 34 ∨ stream_ctrl_len info = 26.
Proof. unfold stream_ctrl_len. case_match; auto. Qed.

Lemma get_buffer_ok info r : bytes_ok (get_buffer info r) ∧ len (get_buffer info r) = 34.
Proof.
  unfold get_buffer. split.
  - apply Forall_app. split; [apply store_into_ok|]; by apply Forall_replicate.
  - rewrite len_app, store_into_len. unfold len. rewrite !length_replicate.
    destruct (stream_ctrl_len_cases info) as [->| ->]; done.
Qed.

Lemma query_set_run devh info c probe t :
  dh_info devh = Some info →
  let r := answer t (set_request info c probe) in
  uvc_query_stream_ctrl devh c probe UVC_SET_CUR t
  = Ret ((if rs_code r <=? 0 then rs_code r else UVC_SUCCESS, c),
         t ++ [(set_request info c probe, r)]).
Proof.
  intros Hi r. unfold uvc_query_stream_ctrl. rewrite Hi. rewrite (run_lift _ _ _ info) by done.
  rewrite Z.eqb_refl. cbn [negb].
  set (tl := if stream_ctrl_len info =? 34 then ctrl_tail c else replicate 8 0).
  assert (encode_stream_ctrl c (stream_ctrl_len info) = Ret (ctrl_head c ++ tl)) as He.
  { unfold tl. destruct (stream_ctrl_len_cases info) as [E|E]; rewrite E;
      [exact (encode_34 c)|exact (encode_26 c)]. }
  rewrite (run_lift _ _ _ _ He).
  assert (control_transfer 0x21 UVC_SET_CUR (selector probe) (sc_bInterfaceNumber c)
    (ctrl_head c ++ tl) (stream_ctrl_len info) 0 t
    = Ret ((rs_code r, ctrl_head c ++ tl), t ++ [(set_request info c probe, r)])) as Hct.
  { unfold r, set_request, tl. by destruct (stream_ctrl_len_cases info) as [->| ->]. }
  rewrite (run_bind _ _ _ _ _ Hct). cbn beta iota. by case_match.
Qed.

Lemma query_get_run devh info c probe req t :
  dh_info devh = Some info → req ≠ UVC_SET_CUR →
  let r := answer t (get_request info c probe req) in
  uvc_query_stream_ctrl devh c probe req t
  = Ret ((if rs_code r <=? 0 then (rs_code r, c)
          else (UVC_SUCCESS, fix_up_sizes info (ctrl_at c (get_buffer info r) (stream_ctrl_len info)
                  (ci_dwClockFrequency (di_ctrl_if info))))),
         t ++ [(get_request info c probe req, r)]).
Proof.
  intros Hi Hreq r. unfold uvc_query_stream_ctrl. rewrite Hi.
  rewrite (proj2 (Z.eqb_neq req UVC_SET_CUR) Hreq). rewrite (run_lift _ _ _ info) by done.
  rewrite (run_lift _ _ _ (replicate 34 0)) by done.
  assert (control_transfer 0xA1 req (selector probe) (sc_bInterfaceNumber c) (replicate 34 0)
    (stream_ctrl_len info) 0 t
    = Ret ((rs_code r, get_buffer info r), t ++ [(get_request info c probe req, r)])) as Hct.
  { unfold r, get_request, get_buffer. by destruct (stream_ctrl_len_cases info) as [->| ->]. }
  rewrite (run_bind _ _ _ _ _ Hct). simpl. case_match; [done|].
  destruct (get_buffer_ok info r) as [Hok Hlen].
  by rewrite (run_lift _ _ _ _ (decode_in _ _ _ _ Hok Hlen)).
Qed.
End queries.

(** ** Probing *)

Section probe.
Context `{Environment}.

(** The two blocks agree as the probe requires. *)
Definition agrees (required actual : uvc_stream_ctrl) : Prop :=
  sc_bFormatIndex actual = sc_bFormatIndex required
  ∧ sc_bFrameIndex actual = sc_bFrameIndex required
  ∧ sc_dwMaxPayloadTransferSize actual ≤ sc_dwMaxPayloadTransferSize required.

Lemma negotiated_agrees required actual :
  _uvc_stream_params_negotiated required actual = true ↔ agrees required actual.
Proof. unfold _uvc_stream_params_negotiated, agrees. rewrite !andb_true_iff. lia. Qed.

(** The block a positive answer to GET_CUR leaves. *)
Definition probed (info : uvc_device_info) (c : uvc_stream_ctrl) (r : response) : uvc_stream_ctrl :=
  fix_up_sizes info (ctrl_at c (get_buffer info r) (stream_ctrl_len info)
    (ci_dwClockFrequency (di_ctrl_if info))).

Lemma fix_up_interface info c : sc_bInterfaceNumber (fix_up_sizes info c) = sc_bInterfaceNumber c.
Proof. unfold fix_up_sizes. by repeat case_match. Qed.

Lemma probe_run devh info c t :
  dh_info devh = Some info →
  let q1 := set_request info c true in
  let r1 := answer t q1 in
  let q2 := get_request info c true UVC_GET_CUR in
  let r2 := answer (t ++ [(q1, r1)]) q2 in
  uvc_probe_stream_ctrl devh c t =
    if decide (rs_code r1 < 0) then Ret ((rs_code r1, c), t ++ [(q1, r1)])
    else Ret (
      (if decide (rs_code r2 ≤ 0) then (rs_code r2, c)
       else if decide (agrees c (probed info c r2)) then (UVC_SUCCESS, probed info c r2)
       else (UVC_ERROR_INVALID_MODE, probed info c r2)),
      (t ++ [(q1, r1)]) ++ [(q2, r2)]).
Proof.
  intros Hi q1 r1 q2 r2. unfold uvc_probe_stream_ctrl.
  rewrite (run_bind _ _ _ _ _ (query_set_run devh info c true t Hi)). fold q1 r1. cbn beta iota.
  case_decide as E1.
  { rewrite (proj2 (Z.leb_le (rs_code r1) 0)) by lia.
    by rewrite (proj2 (Z.eqb_neq (rs_code r1) UVC_SUCCESS)) by (unfold UVC_SUCCESS; lia). }
  replace ((if rs_code r1 <=? 0 then rs_code r1 else UVC_SUCCESS) =? UVC_SUCCESS) with true
    by (symmetry; apply Z.eqb_eq; unfold UVC_SUCCESS; case_match; lia).
  cbn [negb]. rewrite (run_bind _ _ _ _ _ (query_get_run devh info c true UVC_GET_CUR _ Hi ltac:(done))).
  fold q1 r1 q2 r2. case_decide as E2.
  - rewrite (proj2 (Z.leb_le (rs_code r2) 0)) by lia. cbn beta iota.
    destruct (Z.eqb_spec (rs_code r2) UVC_SUCCESS) as [E|E]; cbn [negb]; [|done].
    rewrite E. rewrite (proj2 (negotiated_agrees c c)); [done|]. unfold agrees. lia.
  - rewrite (proj2 (Z.leb_gt (rs_code r2) 0)) by lia. cbn beta iota. rewrite Z.eqb_refl. cbn [negb].
    fold (probed info c r2). case_decide as E3.
    + by rewrite (proj2 (negotiated_agrees _ _) E3).
    + assert (_uvc_stream_params_negotiated c (probed info c r2) = false) as ->; [|done].
      apply not_true_iff_false. by rewrite negotiated_agrees.
Qed.

(** C31: a probe always returns, whatever the device answers.  When it reports
    success, the block holds the format and frame that were asked for, a payload
    no larger than asked for, and the same interface.  A transfer that fails is
    reported with its own code and leaves the block as it was, and the device is
    asked nothing after a failed SET. *)
Theorem probe_agrees devh info c t :
  dh_info devh = Some info →
  wp (uvc_probe_stream_ctrl devh c) (λ res t',
    (res.1 = UVC_SUCCESS →
       agrees c res.2 ∧ sc_bInterfaceNumber res.2 = sc_bInterfaceNumber c)
    ∧ ∃ r1,
        (rs_code r1 < 0 ∧ res = (rs_code r1, c) ∧ t' = t ++ [(set_request info c true, r1)])
        ∨ ∃ r2, 0 ≤ rs_code r1
            ∧ t' = t ++ [(set_request info c true, r1); (get_request info c true UVC_GET_CUR, r2)]
            ∧ (rs_code r2 < 0 → res = (rs_code r2, c))
            ∧ (0 < rs_code r2 → res.2 = probed info c r2
                 ∧ (res.1 = UVC_SUCCESS ∨ res.1 = UVC_ERROR_INVALID_MODE))) t.
Proof.
  intros Hi. unfold wp. rewrite (probe_run devh info c t Hi). cbv zeta.
  case_decide as E1; cbn [returns].
  { split; [unfold UVC_SUCCESS; simpl; lia|]. eexists. by left. }
  split.
  - repeat case_decide; cbn [fst snd]; intros Hr; [by unfold agrees|split; [done|]|done].
    unfold probed. by rewrite fix_up_interface.
  - eexists. right. eexists. rewrite <- app_assoc. split_and!; [|done|..]; [lia|..];
      repeat case_decide; cbn [fst snd]; intros; try lia; auto.
Qed.

(** A device that answers the read-back of a probe with no bytes at all passes
    the negotiation: the probe reports success although nothing was decoded or
    compared, and the block is the one that was asked for. *)
Theorem empty_reply_accepted devh info c t :
  dh_info devh = Some info →
  0 ≤ rs_code (answer t (set_request info c true)) →
  rs_code (answer (t ++ [(set_request info c true, answer t (set_request info c true))])
             (get_request info c true UVC_GET_CUR)) = 0 →
  wp (uvc_probe_stream_ctrl devh c) (λ res _, res = (UVC_SUCCESS, c)) t.
Proof.
  intros Hi H1 H2. unfold wp. rewrite (probe_run devh info c t Hi). cbv zeta.
  rewrite decide_False by lia. rewrite H2. done.
Qed.
End probe.

(** A device that accepts what it is asked for and echoes the sample block. *)
Definition echo_env : Environment := λ t q,
  match q with
  | ControlTransfer 0x21 _ _ _ _ n _ => {| rs_code := n; rs_errno := 0; rs_data := [] |}
  | ControlTransfer _ _ _ _ _ n _ =>
      {| rs_code := n; rs_errno := 0; rs_data := ctrl_head sample_ctrl ++ ctrl_tail sample_ctrl |}
  | DetachKernelDriver i => answer_code (if owed t i then UVC_ERROR_NOT_FOUND else UVC_SUCCESS)
  | Calloc _ | Malloc _ => answer_code 4096
  | Mmap => answer_code 8192
  | Pipe2 => {| rs_code := 0; rs_errno := 0; rs_data := [5; 6] |}
  | RawFork => answer_code 42
  | _ => answer_code 0
  end.

Definition silent_env : Environment := λ t q, answer_code 0.

Lemma probe_agrees_witness :
  ∃ c' t', uvc_probe_stream_ctrl (H := echo_env) (handle_with (Some sample_info) 0 None) sample_ctrl []
    = Ret ((UVC_SUCCESS, c'), t') ∧ agrees sample_ctrl c'.
Proof.
  pose proof (probe_agrees (H := echo_env) (handle_with (Some sample_info) 0 None) sample_info
    sample_ctrl [] eq_refl) as Hw.
  destruct (proj1 (wp_iff _ _ _) Hw) as ([ret c'] & t' & Hrun & Hok & _). clear Hw.
  assert (ret = UVC_SUCCESS) as -> by (vm_compute in Hrun; injection Hrun as <- _ _; reflexivity).
  exists c', t'. split; [exact Hrun|]. by apply Hok.
Defined.

Lemma empty_reply_accepted_witness :
  wp (uvc_probe_stream_ctrl (H := silent_env) (handle_with (Some sample_info) 0 None) sample_ctrl)
    (λ res _, res = (UVC_SUCCESS, sample_ctrl)) [].
Proof.
  apply (empty_reply_accepted (H := silent_env) (handle_with (Some sample_info) 0 None) sample_info).
  - reflexivity.
  - simpl. lia.
  - reflexivity.
Defined.

(** ** Intervals *)

(** [i] is an interval of the frame that gives the wanted rate. *)
Definition interval_ok (f : uvc_frame_desc) (fps i : Z) : Prop :=
  match fr_intervals f with
  | Some a => i ∈ a ∧ i ≠ 0 ∧ (10000000 / i = u32 fps ∨ fps = 0)
  | None =>
      i = u32 (Z.quot 10000000 fps) ∧ fr_dwMinFrameInterval f ≤ i ≤ fr_dwMaxFrameInterval f
      ∧ (fr_dwFrameIntervalStep f | i - fr_dwMinFrameInterval f)
  end.

(** The arithmetic does not divide by zero: a discrete table, or a rate, and a
    step unless the rate's interval is out of the range or its lower end. *)
Definition interval_safe (f : uvc_frame_desc) (fps : Z) : Prop :=
  fr_intervals f ≠ None
  ∨ fps ≠ 0 ∧ (fr_dwFrameIntervalStep f ≠ 0
               ∨ ¬ (fr_dwMinFrameInterval f < u32 (Z.quot 10000000 fps) ≤ fr_dwMaxFrameInterval f)).

#[export] Instance interval_safe_dec f fps : Decision (interval_safe f fps).
Proof. unfold interval_safe. apply _. Defined.

Definition chosen_ok (f : uvc_frame_desc) (fps : Z) (o : option Z) : Prop :=
  match o with
  | Some i => interval_ok f fps i
  | None => ∀ i, ¬ interval_ok f fps i
  end.

Lemma find_interval_spec l fps :
  Forall (λ z, fits 32 z ∧ z ≠ 0) l →
  returns (find_interval (l ++ [0]) fps) (λ o,
    match o with
    | Some i => i ∈ l ∧ (10000000 / i = u32 fps ∨ fps = 0)
    | None => ∀ i, i ∈ l → ¬ (10000000 / i = u32 fps ∨ fps = 0)
    end).
Proof.
  induction 1 as [|z l [_ Hz] _ IH]; cbn [find_interval app].
  { simpl. intros i []%not_elem_of_nil. }
  rewrite (proj2 (Z.eqb_neq z 0) Hz). unfold cdiv. rewrite decide_False by done. cbn [mbind outcome_bind].
  destruct ((10000000 / z =? u32 fps) || (fps =? 0)) eqn:E.
  - simpl. split; [by left|]. apply orb_true_iff in E. lia.
  - apply orb_false_iff in E as [E1 E2]. eapply returns_mono; [exact IH|].
    intros [i|]; [intros [??]; split; [by right|done]|].
    intros Hno i [->|Hi]%elem_of_cons; [lia|by apply Hno].
Qed.

Lemma offset_exact lo i : fits 32 lo → fits 32 i → lo ≤ i → u32 (i - lo) = i - lo.
Proof. intros. apply wrapu_id. unfold fits in *. lia. Qed.

Lemma interval_in_range_safe f fps :
  frame_wf f → fr_intervals f = None → interval_safe f fps →
  returns (interval_in_range f fps) (chosen_ok f fps).
Proof.
  intros Hf Hn [Hs|[Hfps Hs]]; [done|]. unfold interval_in_range, chosen_ok, interval_ok. rewrite Hn.
  rewrite decide_False by done. cbn [mbind outcome_bind].
  set (i := u32 (10000000 `quot` fps)) in *. set (lo := fr_dwMinFrameInterval f) in *.
  set (hi := fr_dwMaxFrameInterval f) in *. set (step := fr_dwFrameIntervalStep f) in *.
  assert (fits 32 i) as Hi by (by apply wrapu_fits). pose proof (wf_min f Hf : fits 32 lo) as Hlo.
  destruct ((lo <=? i) && (i <=? hi)) eqn:E.
  2:{ simpl. intros ? (-> & ? & _). lia. }
  rewrite offset_exact by (done || lia). unfold nz. destruct (Z.eqb_spec (i - lo) 0) as [E0|E0]; cbn [negb].
  { simpl. split_and!; [done|lia..|]. rewrite E0. apply Z.divide_0_r. }
  assert (step ≠ 0) as Hstep by lia. unfold cmod. rewrite decide_False by done. cbn [mbind outcome_bind].
  destruct (Z.eqb_spec ((i - lo) mod step) 0) as [Em|Em]; cbn [negb returns].
  - split_and!; [done|lia..|]. by apply Z.mod_divide.
  - intros ? (-> & _ & Hd). apply Z.mod_divide in Hd; done.
Qed.

Lemma choose_interval_safe f fps :
  frame_wf f → interval_safe f fps → returns (choose_interval f fps) (chosen_ok f fps).
Proof.
  intros Hf Hs. unfold choose_interval. destruct (fr_intervals f) as [a|] eqn:Ea.
  - pose proof (wf_intervals f Hf) as Hi. rewrite Ea in Hi. destruct Hi as (l & -> & _ & _ & Hall).
    eapply returns_mono; [by apply find_interval_spec|]. unfold chosen_ok, interval_ok. rewrite Ea.
    rewrite Forall_forall in Hall. intros [i|].
    + intros [Hi Hr]. split_and!; [set_solver|by apply Hall|done].
    + intros Hno i (Hi & Hz & Hr). apply (Hno i); [|done]. set_solver.
  - by apply interval_in_range_safe.
Qed.

(** C9: choosing an interval of a frame whose description is well formed, for any
    rate.  Either the arithmetic divides by zero, exactly when the frame advertises a
    continuous range and the rate is 0, or the step is 0 and the rate's interval lies
    inside the range above its lower end; or an interval of the frame is returned that
    gives the rate (one of the list, or one in the range and a whole number of steps
    above its lower end), and none only when the frame has no such interval. *)
Theorem choose_interval_exact f fps :
  frame_wf f →
  if decide (interval_safe f fps) then returns (choose_interval f fps) (chosen_ok f fps)
  else choose_interval f fps = Undef DivByZero.
Proof.
  intros Hf. case_decide as Hs; [by apply choose_interval_safe|].
  unfold interval_safe in Hs. unfold choose_interval.
  destruct (fr_intervals f) as [a|] eqn:Ea; [exfalso; naive_solver|].
  unfold interval_in_range. case_decide as Hfps; [done|]. cbn [mbind outcome_bind].
  set (i := u32 (10000000 `quot` fps)) in *.
  assert (fits 32 i) by (by apply wrapu_fits). pose proof (wf_min f Hf).
  assert (fr_dwFrameIntervalStep f = 0 ∧ fr_dwMinFrameInterval f < i ≤ fr_dwMaxFrameInterval f) as [Hz Hr]
    by (destruct (decide (fr_dwFrameIntervalStep f = 0)),
          (decide (fr_dwMinFrameInterval f < i ≤ fr_dwMaxFrameInterval f)); naive_solver).
  replace ((fr_dwMinFrameInterval f <=? i) && (i <=? fr_dwMaxFrameInterval f)) with true by lia.
  rewrite offset_exact by (done || lia).
  rewrite (proj2 (nz_true _)) by lia. unfold cmod. by rewrite Hz.
Qed.

(** A frame with a range of intervals and no step. *)
Definition range_frame : uvc_frame_desc :=
  {| fr_bDescriptorSubtype := 0x11; fr_bFrameIndex := 1; fr_bmCapabilities := 0;
     fr_wWidth := 1920; fr_wHeight := 1080; fr_dwMinBitRate := 0; fr_dwMaxBitRate := 0;
     fr_dwMaxVideoFrameBufferSize := 0; fr_dwDefaultFrameInterval := 333333;
     fr_dwMinFrameInterval := 166666; fr_dwMaxFrameInterval := 666666; fr_dwFrameIntervalStep := 0;
     fr_bFrameIntervalType := 0; fr_dwBytesPerLine := 0; fr_intervals := None |}.

Lemma range_frame_wf : frame_wf range_frame.
Proof. constructor; simpl; try (unfold fits; lia). Qed.

Lemma choose_interval_exact_witness :
  choose_interval range_frame 30 = Undef DivByZero ∧ choose_interval degenerate_frame 30 = Ret (Some 333333)
  ∧ interval_ok degenerate_frame 30 333333.
Proof.
  split; [exact (choose_interval_exact range_frame 30 range_frame_wf)|].
  pose proof (choose_interval_exact degenerate_frame 30 degenerate_frame_wf) as H.
  rewrite decide_True in H by (left; discriminate).
  assert (choose_interval degenerate_frame 30 = Ret (Some 333333)) as E by (vm_compute; reflexivity).
  split; [exact E|]. rewrite E in H. exact H.
Defined.

(** ** The search *)

Section search.
Context `{Environment} (b : uvc_reattach_backend) (fuel n : nat).
Context (Hhost : host_process n) (Hfuel : (n < fuel)%nat).
Context (cf width height fps : Z).

Lemma create_returns bus dev vid pid bcd t :
  wp (uvc_reattach_guard_create b fuel bus dev vid pid bcd) (λ _ _, True) t.
Proof.
  destruct Hhost as [Hfork Hwait]. unfold uvc_reattach_guard_create. wp_run.
  case_match; wp_run; [done|]. case_match; wp_run; [done|]. case_match; wp_run; [done|].
  unfold fd_scan_limit. wp_run. rewrite (proj2 (Z.eqb_neq _ 0)) by apply Hfork. wp_run.
  case_match; wp_run; [done|].
  eapply wp_mono; [apply (ask_while_settles _ _ _ n); [done|lia]|]. intros. by wp_run.
Qed.

Lemma arm_handle_returns devh i t :
  wp (uvc_arm_reattach_guard b fuel devh i) (λ devh' _, dh_info devh' = dh_info devh
    ∧ dh_streams devh' = dh_streams devh) t.
Proof.
  unfold uvc_arm_reattach_guard, uvc_reattach_guard_arm, store_armed.
  case_match; [case_match; by wp_run|]. case_match; wp_run; [done|]. case_match; wp_run; [done|].
  eapply wp_mono; [apply create_returns|]. intros [g|] t' _; [case_match|]; by wp_run.
Qed.

Lemma claim_returns devh i t :
  0 ≤ i < 31 → wp (uvc_claim_if b fuel devh i) (λ res _, dh_info res.2 = dh_info devh
    ∧ dh_streams res.2 = dh_streams devh) t.
Proof.
  intros Hi. unfold uvc_claim_if. rewrite wp_bind, wp_lift, shl1_in by done. cbn [returns].
  case_match; wp_run; [done|]. eapply wp_mono; [apply arm_handle_returns|].
  intros devh1 t1 Hinfo. unfold detach_and_claim, disarm, uvc_reattach_guard_disarm, store_armed. wp_run.
  repeat (case_match; wp_run); done.
Qed.

(** What the caller asked for. *)
Definition candidate (format : uvc_format_desc) (frame : uvc_frame_desc) (i : Z) : Prop :=
  _uvc_frame_format_matches_guid cf (fm_guidFormat format) = Ret true
  ∧ fr_wWidth frame = width ∧ fr_wHeight frame = height ∧ interval_ok frame fps i.

(** What a search over the frames in [P] found. *)
Definition search_result (info : uvc_device_info)
    (P : uvc_streaming_interface → uvc_format_desc → uvc_frame_desc → Prop)
    (res : bool * uvc_device_handle * uvc_stream_ctrl) : Prop :=
  let '(found, devh, ctrl) := res in
  dh_info devh = Some info ∧
  if found : bool then
    ∃ s format frame i, P s format frame ∧ candidate format frame i
      ∧ sc_bInterfaceNumber ctrl = si_bInterfaceNumber s
      ∧ sc_bFormatIndex ctrl = fm_bFormatIndex format ∧ sc_bFrameIndex ctrl = fr_bFrameIndex frame
      ∧ sc_dwFrameInterval ctrl = i ∧ sc_bmHint ctrl = 1
  else ∀ s format frame i, P s format frame → ¬ candidate format frame i.

Definition frame_ready (f : uvc_frame_desc) : Prop := frame_wf f ∧ interval_safe f fps.

Definition format_ready (format : uvc_format_desc) : Prop := Forall frame_ready (fm_frame_descs format).

Definition if_ready (s : uvc_streaming_interface) : Prop :=
  0 ≤ si_bInterfaceNumber s < 31 ∧ Forall format_ready (si_format_descs s).

Lemma query_get_interface devh info c probe req t :
  dh_info devh = Some info → req ≠ UVC_SET_CUR →
  wp (uvc_query_stream_ctrl devh c probe req)
    (λ res _, sc_bInterfaceNumber res.2 = sc_bInterfaceNumber c) t.
Proof.
  intros Hi Hr. unfold wp. rewrite (query_get_run devh info) by done. cbv zeta. case_match; [done|].
  simpl. by rewrite fix_up_interface.
Qed.

Lemma try_frame_spec info s format frame devh ctrl t :
  dh_info devh = Some info → 0 ≤ si_bInterfaceNumber s < 31 → frame_ready frame →
  wp (try_frame b fuel fps s format frame devh ctrl) (λ '(found, devh', ctrl') _,
    dh_info devh' = Some info ∧
    if found : bool then
      ∃ i, interval_ok frame fps i ∧ sc_bInterfaceNumber ctrl' = si_bInterfaceNumber s
        ∧ sc_bFormatIndex ctrl' = fm_bFormatIndex format ∧ sc_bFrameIndex ctrl' = fr_bFrameIndex frame
        ∧ sc_dwFrameInterval ctrl' = i ∧ sc_bmHint ctrl' = 1
    else ∀ i, ¬ interval_ok frame fps i) t.
Proof.
  intros Hinfo Hs [Hwf Hsafe]. unfold try_frame. rewrite wp_bind.
  eapply wp_mono; [by apply claim_returns|]. intros res t1 [Hi1 _]. rewrite Hinfo in Hi1. rewrite wp_bind.
  eapply wp_mono; [by apply (query_get_interface _ info)|]. intros res2 t2 Hif. rewrite wp_bind, wp_lift.
  eapply returns_mono; [by apply choose_interval_safe|]. intros [i|] Ho; wp_run; split; try done.
  exists i. split_and!; try done.
Qed.

Lemma matches_guid_total guid : returns (_uvc_frame_format_matches_guid cf guid) (λ _, True).
Proof.
  eapply returns_mono; [apply matches_guid_rec_spec|done]. unfold Formats.height. repeat case_match; lia.
Qed.

(** A search of part of the frames answers for all of them if every candidate is
    in that part. *)
Lemma search_result_ext info
    (P Q : uvc_streaming_interface → uvc_format_desc → uvc_frame_desc → Prop) res :
  (∀ s format frame, Q s format frame → P s format frame) →
  (∀ s format frame i, P s format frame → candidate format frame i → Q s format frame) →
  search_result info Q res → search_result info P res.
Proof.
  intros Hsub Hcand. destruct res as [[found devh] ctrl]. intros [Hi Hres]. split; [done|].
  destruct found; [|naive_solver].
  destruct Hres as (s & format & frame & i & HQ & Hres). exists s, format, frame, i. split; [auto|done].
Qed.

Definition in_frames (s : uvc_streaming_interface) (format : uvc_format_desc) (frames : list uvc_frame_desc)
    (s' : uvc_streaming_interface) (format' : uvc_format_desc) (frame' : uvc_frame_desc) : Prop :=
  s' = s ∧ format' = format ∧ frame' ∈ frames.

Definition in_formats (s : uvc_streaming_interface) (formats : list uvc_format_desc)
    (s' : uvc_streaming_interface) (format' : uvc_format_desc) (frame' : uvc_frame_desc) : Prop :=
  s' = s ∧ format' ∈ formats ∧ frame' ∈ fm_frame_descs format'.

Definition in_ifs (ifs : list uvc_streaming_interface)
    (s' : uvc_streaming_interface) (format' : uvc_format_desc) (frame' : uvc_frame_desc) : Prop :=
  s' ∈ ifs ∧ format' ∈ si_format_descs s' ∧ frame' ∈ fm_frame_descs format'.

Lemma try_frames_spec info s format frames devh ctrl t :
  dh_info devh = Some info → 0 ≤ si_bInterfaceNumber s < 31 → Forall frame_ready frames →
  _uvc_frame_format_matches_guid cf (fm_guidFormat format) = Ret true →
  wp (try_frames b fuel width height fps s format frames devh ctrl)
    (λ res _, search_result info (in_frames s format frames) res) t.
Proof.
  intros Hinfo Hs Hall Hm. revert devh ctrl t Hinfo.
  induction Hall as [|frame frames Hready _ IH]; intros devh ctrl t Hinfo; cbn [try_frames].
  { wp_run. split; [done|]. intros ???? (_ & _ & []%not_elem_of_nil). }
  destruct (negb (fr_wWidth frame =? width) || negb (fr_wHeight frame =? height)) eqn:Ewh.
  { eapply wp_mono; [by apply IH|]. intros res t2. apply search_result_ext; unfold in_frames.
    - set_solver.
    - intros s' f' fr i (-> & -> & [->|Hin]%elem_of_cons) (_ & ? & ? & _); [lia|done]. }
  rewrite wp_bind. eapply wp_mono; [by apply (try_frame_spec info)|].
  intros [[found devh1] ctrl1] t1 [Hi1 Hres]. destruct found.
  - wp_run. split; [done|]. destruct Hres as (i & Hok & Hres). exists s, format, frame, i.
    split_and!; [by split_and!; [..|left]|split_and!; [done|lia..|done]|apply Hres..].
  - eapply wp_mono; [by apply IH|]. intros res t2. apply search_result_ext; unfold in_frames.
    + set_solver.
    + intros s' f' fr i (-> & -> & [->|Hin]%elem_of_cons) (_ & _ & _ & Hok); [by destruct (Hres i)|done].
Qed.

Lemma try_formats_spec info s formats devh ctrl t :
  dh_info devh = Some info → 0 ≤ si_bInterfaceNumber s < 31 → Forall format_ready formats →
  wp (try_formats b fuel cf width height fps s formats devh ctrl)
    (λ res _, search_result info (in_formats s formats) res) t.
Proof.
  intros Hinfo Hs Hall. revert devh ctrl t Hinfo.
  induction Hall as [|format formats Hready _ IH]; intros devh ctrl t Hinfo; cbn [try_formats].
  { wp_run. split; [done|]. intros ???? (_ & []%not_elem_of_nil & _). }
  rewrite wp_bind, wp_lift.
  pose proof (matches_guid_total (fm_guidFormat format)) as (m & Hm & _)%returns_iff. rewrite Hm. cbn [returns].
  destruct m; cbn [negb].
  2:{ eapply wp_mono; [by apply IH|]. intros res t2. apply search_result_ext; unfold in_formats.
      - set_solver.
      - intros s' f' fr i (-> & [->|Hin]%elem_of_cons & Hfr) (Hc & _); [congruence|done]. }
  rewrite wp_bind. eapply wp_mono; [by apply (try_frames_spec info)|].
  intros [[found devh1] ctrl1] t1 [Hi1 Hres]. destruct found.
  - wp_run. split; [done|]. destruct Hres as (s' & f' & fr & i & (-> & -> & Hfr) & Hres).
    exists s, format, fr, i. split; [by split_and!; [|left|]|done].
  - eapply wp_mono; [by apply IH|]. intros res t2. apply search_result_ext; unfold in_formats.
    + set_solver.
    + intros s' f' fr i (-> & [->|Hin]%elem_of_cons & Hfr) Hc; [|done].
      destruct (Hres s format fr i); [done|exact Hc].
Qed.

Lemma try_interfaces_spec info ifs devh ctrl t :
  dh_info devh = Some info → Forall if_ready ifs →
  wp (try_interfaces b fuel cf width height fps ifs devh ctrl)
    (λ res _, search_result info (in_ifs ifs) res) t.
Proof.
  intros Hinfo Hall. revert devh ctrl t Hinfo.
  induction Hall as [|s ifs [Hn Hready] _ IH]; intros devh ctrl t Hinfo; cbn [try_interfaces].
  { wp_run. split; [done|]. intros ???? ([]%not_elem_of_nil & _). }
  rewrite wp_bind. eapply wp_mono; [by apply (try_formats_spec info)|].
  intros [[found devh1] ctrl1] t1 [Hi1 Hres]. destruct found.
  - wp_run. split; [done|]. destruct Hres as (s' & f' & fr & i & (-> & Hf & Hfr) & Hres).
    exists s, f', fr, i. split; [by split_and!; [left|..]|done].
  - eapply wp_mono; [by apply IH|]. intros res t2. apply search_result_ext; unfold in_ifs.
    + set_solver.
    + intros s' f' fr i ([->|Hin]%elem_of_cons & Hf & Hfr) Hc; [|done].
      destruct (Hres s f' fr i); [done|exact Hc].
Qed.

(** The history ends with a probe of [c] that was accepted: the device took the
    block, and its answer to the read-back agrees with it, or is empty. *)
Definition accepted (info : uvc_device_info) (c c' : uvc_stream_ctrl) (t : trace) : Prop :=
  ∃ t0 r1 r2, t = t0 ++ [(set_request info c true, r1); (get_request info c true UVC_GET_CUR, r2)]
    ∧ 0 ≤ rs_code r1
    ∧ (rs_code r2 = 0 ∧ c' = c ∨ 0 < rs_code r2 ∧ agrees c (probed info c r2) ∧ c' = probed info c r2).

End search.

(** ** A device with one H.264 frame that agrees to what it is asked *)

Definition small_format : uvc_format_desc := set_frame_descs h264_format [degenerate_frame].

Definition small_info : uvc_device_info :=
  set_stream_ifs (info_zero []) [set_format_descs (stream_if_new 1) [small_format]].

Definition agree_env : Environment := λ t q,
  match q with
  | ControlTransfer 0x21 _ _ _ _ n _ => answer_code n
  | ControlTransfer _ _ _ _ _ n _ =>
      {| rs_code := n; rs_errno := 0; rs_data := ctrl_head (set_wanted sample_ctrl 1 1 333333) |}
  | RawFork => answer_code 42
  | Calloc _ | Malloc _ => answer_code 4096
  | _ => answer_code 0
  end.

