(* ===== verification/Stream.v ===== *)
(** * Stream: frame assembly and delivery of src/stream.c

    The payload processor that the transfer callbacks call, the swap of the
    working and the held buffer, the frame handed to user code, the polling
    call, and the opening of a stream.  [clock] gives the time at which the frame
    with a sequence number is published; [junk] is what uninitialised memory
    holds. *)

From stdpp Require Import prelude.
From S2P Require Import Prelude Types Environment ReattachGuard Handles Claims Negotiation.

Definition set_working (h : uvc_stream_handle) (w : stream_working) : uvc_stream_handle :=
  {| sh_stream_if := sh_stream_if h; sh_running := sh_running h; sh_cur_ctrl := sh_cur_ctrl h;
     sh_working := w; sh_hold := sh_hold h; sh_last_polled_seq := sh_last_polled_seq h;
     sh_user_cb := sh_user_cb h; sh_frame := sh_frame h; sh_frame_format := sh_frame_format h |}.

Definition set_buffers (h : uvc_stream_handle) (w : stream_working) (hd : stream_hold) : uvc_stream_handle :=
  {| sh_stream_if := sh_stream_if h; sh_running := sh_running h; sh_cur_ctrl := sh_cur_ctrl h;
     sh_working := w; sh_hold := hd; sh_last_polled_seq := sh_last_polled_seq h;
     sh_user_cb := sh_user_cb h; sh_frame := sh_frame h; sh_frame_format := sh_frame_format h |}.

Definition set_frame (h : uvc_stream_handle) (f : uvc_frame) : uvc_stream_handle :=
  {| sh_stream_if := sh_stream_if h; sh_running := sh_running h; sh_cur_ctrl := sh_cur_ctrl h;
     sh_working := sh_working h; sh_hold := sh_hold h; sh_last_polled_seq := sh_last_polled_seq h;
     sh_user_cb := sh_user_cb h; sh_frame := f; sh_frame_format := sh_frame_format h |}.

Definition set_running (h : uvc_stream_handle) (running : bool) : uvc_stream_handle :=
  {| sh_stream_if := sh_stream_if h; sh_running := running; sh_cur_ctrl := sh_cur_ctrl h;
     sh_working := sh_working h; sh_hold := sh_hold h; sh_last_polled_seq := sh_last_polled_seq h;
     sh_user_cb := sh_user_cb h; sh_frame := sh_frame h; sh_frame_format := sh_frame_format h |}.

Definition set_polled (h : uvc_stream_handle) (seq : Z) : uvc_stream_handle :=
  {| sh_stream_if := sh_stream_if h; sh_running := sh_running h; sh_cur_ctrl := sh_cur_ctrl h;
     sh_working := sh_working h; sh_hold := sh_hold h; sh_last_polled_seq := seq;
     sh_user_cb := sh_user_cb h; sh_frame := sh_frame h; sh_frame_format := sh_frame_format h |}.

Definition set_had_errors (w : stream_working) (e : bool) : stream_working :=
  {| wk_fid := wk_fid w; wk_seq := wk_seq w; wk_pts := wk_pts w; wk_last_scr := wk_last_scr w;
     wk_got_bytes := wk_got_bytes w; wk_outbuf := wk_outbuf w;
     wk_meta_got_bytes := wk_meta_got_bytes w; wk_meta_outbuf := wk_meta_outbuf w;
     wk_frame_had_errors := e |}.

Definition set_stamps (w : stream_working) (fid pts scr : Z) : stream_working :=
  {| wk_fid := fid; wk_seq := wk_seq w; wk_pts := pts; wk_last_scr := scr;
     wk_got_bytes := wk_got_bytes w; wk_outbuf := wk_outbuf w;
     wk_meta_got_bytes := wk_meta_got_bytes w; wk_meta_outbuf := wk_meta_outbuf w;
     wk_frame_had_errors := wk_frame_had_errors w |}.

Definition set_meta (w : stream_working) (meta_got : Z) (meta : bytes) : stream_working :=
  {| wk_fid := wk_fid w; wk_seq := wk_seq w; wk_pts := wk_pts w; wk_last_scr := wk_last_scr w;
     wk_got_bytes := wk_got_bytes w; wk_outbuf := wk_outbuf w;
     wk_meta_got_bytes := meta_got; wk_meta_outbuf := meta;
     wk_frame_had_errors := wk_frame_had_errors w |}.

Definition set_data (w : stream_working) (got : Z) (out : bytes) : stream_working :=
  {| wk_fid := wk_fid w; wk_seq := wk_seq w; wk_pts := wk_pts w; wk_last_scr := wk_last_scr w;
     wk_got_bytes := got; wk_outbuf := out;
     wk_meta_got_bytes := wk_meta_got_bytes w; wk_meta_outbuf := wk_meta_outbuf w;
     wk_frame_had_errors := wk_frame_had_errors w |}.

(** A publication: whether the listeners were woken, and what they find. *)
Abbreviation publication := (bool * stream_hold)%type.

Section payload.
Context (clock : Z → Z).

(** Swaps the buffers; the frame that was being assembled is published. *)
Definition _uvc_swap_buffers (h : uvc_stream_handle) : uvc_stream_handle * publication :=
  let w := sh_working h in
  let hd := sh_hold h in
  let hold :=
    {| hd_seq := wk_seq w; hd_pts := wk_pts w; hd_last_scr := wk_last_scr w;
       hd_bytes := wk_got_bytes w; hd_buf := wk_outbuf w;
       hd_meta_bytes := wk_meta_got_bytes w; hd_meta_buf := wk_meta_outbuf w;
       hd_capture_time_finished := clock (wk_seq w) |} in
  let work :=
    {| wk_fid := wk_fid w; wk_seq := u32 (wk_seq w + 1); wk_pts := 0; wk_last_scr := 0;
       wk_got_bytes := 0; wk_outbuf := hd_buf hd;
       wk_meta_got_bytes := 0; wk_meta_outbuf := hd_meta_buf hd;
       wk_frame_had_errors := false |} in
  (set_buffers h work hold, (negb (wk_frame_had_errors w), hold)).

Definition isight_tag : bytes :=
  [0x11; 0x22; 0x33; 0x44; 0xde; 0xad; 0xbe; 0xef; 0xde; 0xad; 0xfa; 0xce].

(** [payload_len < n || memcmp(isight_tag, payload + o, sizeof(isight_tag))] *)
Definition no_tag (payload : bytes) (payload_len n o : Z) : outcome bool :=
  if payload_len <? n then Ret true else
  m ← rd_bytes payload o 12;
  Ret (negb (bool_decide (m = isight_tag))).

Definition no_isight_magic (payload : bytes) (payload_len : Z) : outcome bool :=
  a ← no_tag payload payload_len 14 2;
  if (a : bool) then no_tag payload payload_len 15 3 else Ret false.

(** A 4-byte field of the header at [o], 0 when the header is too short for it. *)
Definition header_field (payload : bytes) (header_len o : Z) : outcome Z :=
  if o + 4 <=? header_len then
    v ← DW_TO_INT payload o;
    Ret (u32 v)
  else Ret 0.

(** The part of the header after its two fixed bytes: PTS, SCR, metadata. *)
Definition read_header (w : stream_working) (payload : bytes) (header_len header_info : Z)
    : outcome stream_working :=
  let fid := Z.land header_info 1 in
  '(pts, variable_offset) ←
    (if nz (Z.land header_info 4) then
       v ← header_field payload header_len 2;
       Ret (v, 6)
     else Ret (wk_pts w, 2));
  '(scr, variable_offset) ←
    (if nz (Z.land header_info 8) then
       v ← header_field payload header_len variable_offset;
       Ret (v, variable_offset + 6)
     else Ret (wk_last_scr w, variable_offset));
  let w := set_stamps w fid pts scr in
  if variable_offset <? header_len then
    let meta_len := header_len - variable_offset in
    let meta_len := if LIBUVC_XFER_META_BUF_SIZE <? u64 (wk_meta_got_bytes w + meta_len)
                    then u64 (LIBUVC_XFER_META_BUF_SIZE - wk_meta_got_bytes w) else meta_len in
    meta ← memcpy (wk_meta_outbuf w) (wk_meta_got_bytes w) payload variable_offset meta_len;
    Ret (set_meta w (u64 (wk_meta_got_bytes w + meta_len)) meta)
  else Ret w.

(** The image data of the payload, and the publication it may complete. *)
Definition append_data (h : uvc_stream_handle) (payload : bytes) (header_len header_info data_len : Z)
    : outcome (uvc_stream_handle * list publication) :=
  if 0 <? data_len then
    let w := sh_working h in
    let max := sc_dwMaxVideoFrameSize (sh_cur_ctrl h) in
    let data_len := if max <? u64 (wk_got_bytes w + data_len) then u64 (max - wk_got_bytes w) else data_len in
    out ← memcpy (wk_outbuf w) (wk_got_bytes w) payload header_len data_len;
    let got := u64 (wk_got_bytes w + data_len) in
    let h := set_working h (set_data w got out) in
    if nz (Z.land header_info 2) || (got =? max) then
      let '(h, p) := _uvc_swap_buffers h in
      Ret (h, [p])
    else Ret (h, [])
  else Ret (h, []).

Definition _uvc_process_payload (is_isight : bool) (h : uvc_stream_handle) (payload : bytes)
    (payload_len : Z) : outcome (uvc_stream_handle * list publication) :=
  if payload_len =? 0 then Ret (h, []) else
  image_only ← (if is_isight then no_isight_magic payload payload_len else Ret false);
  if (image_only : bool) then append_data h payload 0 0 payload_len else
  header_len ← rd payload 0;
  if payload_len <? header_len then Ret (h, []) else
  let data_len := if is_isight then 0 else payload_len - header_len in
  if header_len <? 2 then append_data h payload header_len 0 data_len else
  header_info ← rd payload 1;
  if nz (Z.land header_info 0x40) then Ret (set_working h (set_had_errors (sh_working h) true), []) else
  let '(h, pubs) :=
    if negb (wk_fid (sh_working h) =? Z.land header_info 1) && nz (wk_got_bytes (sh_working h)) then
      let '(h, p) := _uvc_swap_buffers h in (h, [p])
    else (h, []) in
  w ← read_header (sh_working h) payload header_len header_info;
  '(h, pubs2) ← append_data (set_working h w) payload header_len header_info data_len;
  Ret (h, pubs ++ pubs2).

(** A sequence of payload transfers. *)
Fixpoint process_payloads (is_isight : bool) (h : uvc_stream_handle) (payloads : list bytes)
    : outcome (uvc_stream_handle * list publication) :=
  match payloads with
  | [] => Ret (h, [])
  | p :: rest =>
      '(h, pubs) ← _uvc_process_payload is_isight h p (len p);
      '(h, pubs2) ← process_payloads is_isight h rest;
      Ret (h, pubs ++ pubs2)
  end.
End payload.

(** ** The frame handed to user code *)

(** Every [realloc] succeeds. *)
Definition enough_memory : bool * bool := (true, true).

Definition step_of (format width : Z) : Z :=
  if format =? UVC_FRAME_FORMAT_BGR then u32 (width * 3)
  else if format =? UVC_FRAME_FORMAT_YUYV then u32 (width * 2)
  else if format =? UVC_FRAME_FORMAT_NV12 then width
  else if format =? UVC_FRAME_FORMAT_P010 then u32 (width * 2)
  else 0.

(** [realloc_ok] says whether the [realloc] of the image data and the one of the
    metadata succeed; a failed one leaves a null pointer. *)
Definition _uvc_populate_frame (junk : Z) (realloc_ok : bool * bool) (info : uvc_device_info)
    (h : uvc_stream_handle) : outcome uvc_stream_handle :=
  let frame := sh_frame h in
  let hd := sh_hold h in
  '(_, desc) ← deref (uvc_find_frame_desc info (sc_bFormatIndex (sh_cur_ctrl h))
                        (sc_bFrameIndex (sh_cur_ctrl h)));
  let width := fr_wWidth desc in
  let height := fr_wHeight desc in
  let step := step_of (sh_frame_format h) width in
  let image := height * step in
  let with_data data data_bytes meta meta_bytes :=
    {| uf_data := data; uf_data_bytes := data_bytes; uf_width := width; uf_height := height;
       uf_frame_format := sh_frame_format h; uf_step := step; uf_sequence := hd_seq hd;
       uf_capture_time := uf_capture_time frame;
       uf_capture_time_finished := hd_capture_time_finished hd;
       uf_source := uf_source frame;
       uf_library_owns_data := uf_library_owns_data frame;
       uf_metadata := meta; uf_metadata_bytes := meta_bytes |} in
  let grow := (uf_data_bytes frame <? hd_bytes hd) || (uf_data_bytes frame <? image) in
  if grow && negb realloc_ok.1 then
    Ret (set_frame h (with_data None (uf_data_bytes frame) (uf_metadata frame) (uf_metadata_bytes frame)))
  else
  '(data, data_bytes) ←
    (if grow then
       if image <=? hd_bytes hd then
         Ret (realloc junk (uf_data frame) (hd_bytes hd), hd_bytes hd)
       else
         let data := realloc junk (uf_data frame) image in
         data ← memcpy data (hd_bytes hd) (replicate (Z.to_nat (image - hd_bytes hd)) 0) 0 (image - hd_bytes hd);
         Ret (data, image)
     else Ret (block (uf_data frame), hd_bytes hd));
  data ← memcpy data 0 (hd_buf hd) 0 (hd_bytes hd);
  '(meta, meta_bytes) ←
    (if 0 <? hd_meta_bytes hd then
       meta ← (if uf_metadata_bytes frame <? hd_meta_bytes hd
               then if realloc_ok.2 then Ret (realloc junk (uf_metadata frame) (hd_meta_bytes hd))
                    else Undef NullDeref
               else Ret (block (uf_metadata frame)));
       meta ← memcpy meta 0 (hd_meta_buf hd) 0 (hd_meta_bytes hd);
       Ret (Some meta, hd_meta_bytes hd)
     else Ret (uf_metadata frame, uf_metadata_bytes frame));
  Ret (set_frame h (with_data (Some data) data_bytes meta meta_bytes)).

(** ** Polling *)

Definition ETIMEDOUT : Z := 110.

(** The absolute deadline: the time now plus a number of microseconds. *)
Definition poll_deadline (now_sec now_nsec timeout_us : Z) : Z * Z :=
  let sec := now_sec + Z.quot timeout_us 1000000 in
  let nsec := now_nsec + Z.rem timeout_us 1000000 * 1000 in
  (sec + Z.quot nsec 1000000000, Z.rem nsec 1000000000).

Section polling.
Context (junk : Z) (realloc_ok : bool * bool) (info : uvc_device_info).
(** What happens while the caller waits with the mutex released: the error of
    the (timed) wait and the handle as the other threads leave it. *)
Context (cond_wait : uvc_stream_handle → uvc_stream_handle).
Context (cond_timedwait : Z * Z → uvc_stream_handle → Z * uvc_stream_handle).
Context (now_sec now_nsec : Z).

Definition take_frame (h : uvc_stream_handle) : outcome (Z * option uvc_frame * uvc_stream_handle) :=
  h ← _uvc_populate_frame junk realloc_ok info h;
  Ret (UVC_SUCCESS, Some (sh_frame h), set_polled h (hd_seq (sh_hold h))).

(** The second look, after the wait. *)
Definition look_again (h : uvc_stream_handle) : outcome (Z * option uvc_frame * uvc_stream_handle) :=
  if sh_last_polled_seq h <? hd_seq (sh_hold h) then take_frame h
  else Ret (UVC_SUCCESS, None, h).

(** The result, the frame pointer stored (when one is) and the handle. *)
Definition uvc_stream_get_frame (h : uvc_stream_handle) (timeout_us : Z)
    : outcome (Z * option uvc_frame * uvc_stream_handle) :=
  if negb (sh_running h) then Ret (UVC_ERROR_INVALID_PARAM, None, h) else
  if sh_user_cb h then Ret (UVC_ERROR_CALLBACK_EXISTS, None, h) else
  if sh_last_polled_seq h <? hd_seq (sh_hold h) then take_frame h
  else if negb (timeout_us =? -1) then
    if timeout_us =? 0 then look_again (cond_wait h)
    else
      let '(err, h) := cond_timedwait (poll_deadline now_sec now_nsec timeout_us) h in
      if nz err then Ret (if err =? ETIMEDOUT then UVC_ERROR_TIMEOUT else UVC_ERROR_OTHER, None, h)
      else look_again h
  else Ret (UVC_SUCCESS, None, h).
End polling.

(** ** Opening and configuring *)

Definition set_streams (d : uvc_device_handle) (l : list uvc_stream_handle) : uvc_device_handle :=
  {| dh_usb_dev := dh_usb_dev d; dh_info := dh_info d; dh_streams := l;
     dh_is_isight := dh_is_isight d; dh_claimed := dh_claimed d;
     dh_transfer_buffer_count := dh_transfer_buffer_count d;
     dh_has_quarantined_stream := dh_has_quarantined_stream d;
     dh_reattach_guard := dh_reattach_guard d |}.

Definition set_transfer_buffer_count (d : uvc_device_handle) (n : Z) : uvc_device_handle :=
  {| dh_usb_dev := dh_usb_dev d; dh_info := dh_info d; dh_streams := dh_streams d;
     dh_is_isight := dh_is_isight d; dh_claimed := dh_claimed d;
     dh_transfer_buffer_count := n;
     dh_has_quarantined_stream := dh_has_quarantined_stream d;
     dh_reattach_guard := dh_reattach_guard d |}.

Definition ctrl_zero : uvc_stream_ctrl :=
  {| sc_bmHint := 0; sc_bFormatIndex := 0; sc_bFrameIndex := 0; sc_dwFrameInterval := 0;
     sc_wKeyFrameRate := 0; sc_wPFrameRate := 0; sc_wCompQuality := 0; sc_wCompWindowSize := 0;
     sc_wDelay := 0; sc_dwMaxVideoFrameSize := 0; sc_dwMaxPayloadTransferSize := 0;
     sc_dwClockFrequency := 0; sc_bmFramingInfo := 0; sc_bPreferredVersion := 0;
     sc_bMinVersion := 0; sc_bMaxVersion := 0; sc_bInterfaceNumber := 0 |}.

(** The handle as [calloc] and the assignments after it leave it. *)
Definition stream_zero (stream_if : uvc_streaming_interface) : uvc_stream_handle :=
  {| sh_stream_if := stream_if; sh_running := false; sh_cur_ctrl := ctrl_zero;
     sh_working := {| wk_fid := 0; wk_seq := 0; wk_pts := 0; wk_last_scr := 0; wk_got_bytes := 0;
                      wk_outbuf := []; wk_meta_got_bytes := 0; wk_meta_outbuf := [];
                      wk_frame_had_errors := false |};
     sh_hold := {| hd_seq := 0; hd_pts := 0; hd_last_scr := 0; hd_bytes := 0; hd_buf := [];
                   hd_meta_bytes := 0; hd_meta_buf := []; hd_capture_time_finished := 0 |};
     sh_last_polled_seq := 0; sh_user_cb := false;
     sh_frame := {| uf_data := None; uf_data_bytes := 0; uf_width := 0; uf_height := 0;
                    uf_frame_format := 0; uf_step := 0; uf_sequence := 0;
                    uf_capture_time := 0; uf_capture_time_finished := 0; uf_source := 0; uf_library_owns_data := 1;
                    uf_metadata := None; uf_metadata_bytes := 0 |};
     sh_frame_format := 0 |}.

(** What [malloc(n)] returned: nothing, or uninitialised memory. *)
Definition malloc_block (junk n p : Z) : bytes := if p =? 0 then [] else replicate (Z.to_nat n) junk.

Section opening.
Context `{Environment} (active_backend : uvc_reattach_backend) (fuel : nat) (junk : Z).

(** The four buffers; none of the results is checked. *)
Definition alloc_buffers (max : Z) (h : uvc_stream_handle) : io uvc_stream_handle :=
  outbuf ← call (Malloc BOutbuf);
  holdbuf ← call (Malloc BHoldbuf);
  meta_outbuf ← call (Malloc BMetaOutbuf);
  meta_holdbuf ← call (Malloc BMetaHoldbuf);
  let w := sh_working h in
  let hd := sh_hold h in
  mret (set_buffers h
    {| wk_fid := wk_fid w; wk_seq := wk_seq w; wk_pts := wk_pts w; wk_last_scr := wk_last_scr w;
       wk_got_bytes := wk_got_bytes w; wk_outbuf := malloc_block junk max outbuf;
       wk_meta_got_bytes := wk_meta_got_bytes w;
       wk_meta_outbuf := malloc_block junk LIBUVC_XFER_META_BUF_SIZE meta_outbuf;
       wk_frame_had_errors := wk_frame_had_errors w |}
    {| hd_seq := hd_seq hd; hd_pts := hd_pts hd; hd_last_scr := hd_last_scr hd;
       hd_bytes := hd_bytes hd; hd_buf := malloc_block junk max holdbuf;
       hd_meta_bytes := hd_meta_bytes hd;
       hd_meta_buf := malloc_block junk LIBUVC_XFER_META_BUF_SIZE meta_holdbuf;
       hd_capture_time_finished := hd_capture_time_finished hd |}).

(** The result, the new handle when there is one, and the device handle, to
    whose list of streams the new one is appended. *)
Definition uvc_stream_open_ctrl (devh : uvc_device_handle) (ctrl : uvc_stream_ctrl)
    : io (Z * option uvc_stream_handle * uvc_device_handle) :=
  match _uvc_get_stream_by_interface devh (sc_bInterfaceNumber ctrl) with
  | Some _ => mret (UVC_ERROR_BUSY, None, devh)
  | None =>
      info ← lift (deref (dh_info devh));
      match _uvc_get_stream_if info (sc_bInterfaceNumber ctrl) with
      | None => mret (UVC_ERROR_INVALID_PARAM, None, devh)
      | Some stream_if =>
          p ← call (Calloc BStream);
          if p =? 0 then mret (UVC_ERROR_NO_MEM, None, devh) else
          let strmh := stream_zero stream_if in
          res ← uvc_claim_if active_backend fuel devh (si_bInterfaceNumber stream_if);
          let '(ret, devh) := res in
          if negb (ret =? UVC_SUCCESS) then
            _ ← call Free;
            mret (ret, None, devh)
          else
          res ← uvc_stream_ctrl_op devh strmh ctrl;
          let '(ret, strmh) := res in
          if negb (ret =? UVC_SUCCESS) then
            _ ← call Free;
            mret (ret, None, devh)
          else
          strmh ← alloc_buffers (sc_dwMaxVideoFrameSize ctrl) strmh;
          mret (UVC_SUCCESS, Some strmh, set_streams devh (dh_streams devh ++ [strmh]))
      end
  end.
End opening.

Definition uvc_set_transfer_buffers (devh : option uvc_device_handle) (count : Z)
    : Z * option uvc_device_handle :=
  match devh with
  | None => (UVC_ERROR_INVALID_PARAM, None)
  | Some devh =>
      if existsb sh_running (dh_streams devh) then (UVC_ERROR_BUSY, Some devh) else
      let count := if nz count then if count <? 2 then 2 else if 100 <? count then 100 else count
                   else count in
      (UVC_SUCCESS, Some (set_transfer_buffer_count devh count))
  end.
