(* ===== verification/StreamFacts.v ===== *)
(** * StreamFacts: correctness of frame assembly and delivery

    Memory safety of the payload processor against any device, exact reassembly
    of a frame from its payloads, suppression of frames with errors, the frame
    handed to user code, and the polling call. *)

From stdpp Require Import prelude.
From S2P Require Import Prelude Types Environment Descriptors DescriptorsFacts ReattachGuard ReattachGuardFacts Handles Claims ClaimsFacts Negotiation NegotiationFacts Stream.

(** ** The invariant of a stream's buffers *)

Definition hold_ok (max : Z) (hd : stream_hold) : Prop :=
  len (hd_buf hd) = max ∧ 0 ≤ hd_bytes hd ≤ max
  ∧ len (hd_meta_buf hd) = LIBUVC_XFER_META_BUF_SIZE
  ∧ 0 ≤ hd_meta_bytes hd ≤ LIBUVC_XFER_META_BUF_SIZE.

Definition working_ok (max : Z) (w : stream_working) : Prop :=
  len (wk_outbuf w) = max ∧ 0 ≤ wk_got_bytes w ∧ (wk_got_bytes w < max ∨ wk_got_bytes w = 0)
  ∧ len (wk_meta_outbuf w) = LIBUVC_XFER_META_BUF_SIZE
  ∧ 0 ≤ wk_meta_got_bytes w ≤ LIBUVC_XFER_META_BUF_SIZE.

(** Both buffers have the negotiated size, and the frame being assembled leaves
    room for at least one byte more. *)
Definition stream_inv (h : uvc_stream_handle) : Prop :=
  let max := sc_dwMaxVideoFrameSize (sh_cur_ctrl h) in
  fits 32 max ∧ working_ok max (sh_working h) ∧ hold_ok max (sh_hold h).

Section payload.
Context (clock : Z → Z).

Lemma u64_small z : 0 ≤ z < 2 ^ 34 → u64 z = z.
Proof. intros. apply wrapu_id. unfold fits. lia. Qed.

Lemma header_field_safe payload header_len o :
  0 ≤ o → header_len ≤ len payload → returns (header_field payload header_len o) (λ _, True).
Proof.
  intros Ho Hl. unfold header_field. case_match; [|done].
  unfold DW_TO_INT. rewrite !rd_byte_at by lia. done.
Qed.

Lemma read_header_safe max w payload header_len info :
  working_ok max w → 0 ≤ header_len < 256 → header_len ≤ len payload →
  returns (read_header w payload header_len info) (λ w',
    working_ok max w' ∧ wk_got_bytes w' = wk_got_bytes w ∧ wk_outbuf w' = wk_outbuf w
    ∧ wk_frame_had_errors w' = wk_frame_had_errors w ∧ wk_seq w' = wk_seq w
    ∧ wk_fid w' = Z.land info 1).
Proof.
  intros Hw Hl Hp. unfold read_header. rewrite returns_bind.
  eapply (returns_mono _ (λ '(_, o), 2 ≤ o ≤ 6)).
  { case_match; [|simpl; lia]. rewrite returns_bind.
    eapply returns_mono; [by apply header_field_safe|]. intros v _. simpl. lia. }
  intros [pts o1] Ho1. rewrite returns_bind. eapply (returns_mono _ (λ '(_, o), 2 ≤ o ≤ 12)).
  { case_match; [|simpl; lia]. rewrite returns_bind.
    eapply returns_mono; [apply header_field_safe; lia|]. intros v _. simpl. lia. }
  intros [scr o2] Ho2. unfold working_ok in Hw. destruct Hw as (Ho & Hg0 & Hg & Hml & Hmg).
  unfold LIBUVC_XFER_META_BUF_SIZE in *. case_match eqn:E; cbn [returns].
  2:{ unfold working_ok, LIBUVC_XFER_META_BUF_SIZE. simpl. split_and!; done || lia. }
  set (m := if 4096 <? _ then _ else _).
  assert (0 ≤ m ∧ wk_meta_got_bytes w + m ≤ 4096 ∧ o2 + m ≤ header_len) as (Hm0 & Hm1 & Hm2).
  { unfold m. cbn [wk_meta_got_bytes set_stamps]. rewrite !u64_small by lia. case_match; lia. }
  cbn [wk_meta_outbuf wk_meta_got_bytes set_stamps].
  destruct (memcpy_in (wk_meta_outbuf w) (wk_meta_got_bytes w) payload o2 m) as (meta & -> & Hlen & _);
    [lia..|]. simpl. rewrite u64_small by lia. unfold working_ok, LIBUVC_XFER_META_BUF_SIZE. simpl.
  split_and!; try done; lia.
Qed.

Lemma swap_inv h h' p :
  stream_inv h → _uvc_swap_buffers clock h = (h', p) →
  stream_inv h' ∧ sh_cur_ctrl h' = sh_cur_ctrl h
  ∧ hold_ok (sc_dwMaxVideoFrameSize (sh_cur_ctrl h)) p.2.
Proof.
  intros (Hf & (? & ? & ? & ? & ?) & (? & ? & ? & ?)) [= <- <-].
  unfold stream_inv, working_ok, hold_ok, LIBUVC_XFER_META_BUF_SIZE in *. simpl.
  split_and!; try done; try lia.
Qed.

Lemma append_data_safe h payload hl info dl :
  stream_inv h → 0 ≤ hl → 0 ≤ dl < 2 ^ 32 → hl + dl ≤ len payload →
  returns (append_data clock h payload hl info dl) (λ '(h', pubs),
    stream_inv h' ∧ sh_cur_ctrl h' = sh_cur_ctrl h ∧ (length pubs ≤ 1)%nat
    ∧ Forall (λ p, hold_ok (sc_dwMaxVideoFrameSize (sh_cur_ctrl h)) p.2) pubs).
Proof.
  intros Hinv Hhl Hdl Hp. unfold append_data. case_match eqn:E.
  2:{ split_and!; [done..|simpl; lia|constructor]. }
  destruct Hinv as (Hf & Hw & Hh). pose proof Hw as (Ho & Hg0 & Hg & Hml & Hmg).
  set (w := sh_working h) in *. set (max := sc_dwMaxVideoFrameSize (sh_cur_ctrl h)) in *.
  pose proof Hf as [??]. set (d := if max <? _ then _ else _).
  assert (0 ≤ d ∧ wk_got_bytes w + d ≤ max ∧ hl + d ≤ len payload) as (Hd0 & Hd1 & Hd2).
  { unfold d. rewrite !u64_small by lia. case_match; lia. }
  destruct (memcpy_in (wk_outbuf w) (wk_got_bytes w) payload hl d) as (out & -> & Hlen & _); [lia..|].
  cbn [mbind outcome_bind]. rewrite u64_small by lia.
  set (h1 := set_working h _).
  destruct (_ || _) eqn:Epub; cbn [returns].
  - assert (stream_inv (set_working h (set_data w 0 out))) as Hinv0.
    { unfold stream_inv, working_ok. simpl. fold max. fold w. split_and!; try done; lia. }
    unfold stream_inv, working_ok, hold_ok, LIBUVC_XFER_META_BUF_SIZE in *. simpl. fold max w.
    destruct Hh as (? & ? & ? & ?).
    split_and!; try done; try lia. repeat constructor; simpl; fold w; try lia.
  - apply orb_false_iff in Epub as [_ Epub]. unfold stream_inv, working_ok. simpl. fold max w.
    split_and!; try done; lia.
Qed.

Lemma no_tag_safe payload plen n o :
  0 ≤ o → o + 12 ≤ n → plen ≤ len payload → returns (no_tag payload plen n o) (λ _, True).
Proof. intros. unfold no_tag. case_match; [done|]. rewrite rd_bytes_in by lia. done. Qed.

Lemma no_magic_safe payload plen :
  plen ≤ len payload → returns (no_isight_magic payload plen) (λ _, True).
Proof.
  intros. unfold no_isight_magic. rewrite returns_bind.
  eapply returns_mono; [by apply no_tag_safe|]. intros a _. case_match; [by apply no_tag_safe|done].
Qed.

Lemma payload_inv is_isight h payload payload_len :
  stream_inv h → bytes_ok payload → 0 ≤ payload_len ≤ len payload → payload_len < 2 ^ 32 →
  returns (_uvc_process_payload clock is_isight h payload payload_len) (λ '(h', pubs),
    stream_inv h' ∧ sh_cur_ctrl h' = sh_cur_ctrl h ∧ (length pubs ≤ 2)%nat
    ∧ Forall (λ p, hold_ok (sc_dwMaxVideoFrameSize (sh_cur_ctrl h)) p.2) pubs).
Proof.
  intros Hinv Hb Hlen Hsmall. unfold _uvc_process_payload. case_match eqn:E0.
  { split_and!; [done..|simpl; lia|constructor]. }
  apply Z.eqb_neq in E0. rewrite returns_bind.
  eapply (returns_mono _ (λ _, True)); [case_match; [apply no_magic_safe; lia|done]|].
  intros [] _.
  { eapply returns_mono; [apply append_data_safe; [done|lia..]|].
    intros [h' pubs] (? & ? & ? & ?). split_and!; [done..|lia|done]. }
  rewrite (rd_byte_at payload 0) by lia. cbn [mbind outcome_bind].
  pose proof (byte_at_fits payload 0 Hb) as [Hh0 Hh1]. set (hl := byte_at payload 0) in *.
  change (2 ^ 8) with 256 in Hh1.
  case_match eqn:E1.
  { split_and!; [done..|simpl; lia|constructor]. }
  apply Z.ltb_ge in E1.
  case_match eqn:E2.
  { eapply returns_mono; [apply append_data_safe; [done|lia|case_match; lia|case_match; lia]|].
    intros [h' pubs] (? & ? & ? & ?). split_and!; [done..|lia|done]. }
  rewrite (rd_byte_at payload 1) by lia. cbn [mbind outcome_bind]. case_match eqn:E3.
  { simpl. split_and!; [|done|simpl; lia|constructor]. by destruct Hinv as (? & (? & ? & ? & ? & ?) & ?). }
  assert (∃ h1 pubs1, (if negb (wk_fid (sh_working h) =? Z.land (byte_at payload 1) 1)
      && nz (wk_got_bytes (sh_working h))
    then let '(h, p) := _uvc_swap_buffers clock h in (h, [p]) else (h, [])) = (h1, pubs1)
    ∧ stream_inv h1 ∧ sh_cur_ctrl h1 = sh_cur_ctrl h ∧ (length pubs1 ≤ 1)%nat
    ∧ Forall (λ p, hold_ok (sc_dwMaxVideoFrameSize (sh_cur_ctrl h)) p.2) pubs1)
    as (h1 & pubs1 & -> & Hinv1 & Hc1 & Hl1 & Hall1).
  { case_match; [|exists h, []; split_and!; [done..|simpl; lia|constructor]].
    destruct (_uvc_swap_buffers clock h) as [h1 p] eqn:Es.
    destruct (swap_inv h h1 p Hinv Es) as (? & ? & ?).
    do 2 eexists. split_and!; [done..|simpl; lia|by constructor]. }
  rewrite returns_bind. destruct Hinv1 as (Hf1 & Hw1 & Hh1').
  eapply returns_mono; [apply (read_header_safe (sc_dwMaxVideoFrameSize (sh_cur_ctrl h1))); [done|lia..]|].
  intros w (Hw & _). rewrite returns_bind.
  eapply returns_mono; [apply append_data_safe; [by split_and!|lia|case_match; lia|case_match; lia]|].
  intros [h2 pubs2] (Hinv2 & Hc2 & Hl2 & Hall2). simpl in *. split_and!; [done|congruence|rewrite length_app; lia|].
  apply Forall_app. split; [done|]. by rewrite Hc1 in Hall2.
Qed.

(** The processor leaves alone what the other threads read. *)
Definition untouched (h h' : uvc_stream_handle) : Prop :=
  sh_running h' = sh_running h ∧ sh_user_cb h' = sh_user_cb h ∧ sh_frame h' = sh_frame h
  ∧ sh_cur_ctrl h' = sh_cur_ctrl h ∧ sh_last_polled_seq h' = sh_last_polled_seq h
  ∧ sh_frame_format h' = sh_frame_format h.

#[export] Instance untouched_preorder : PreOrder untouched.
Proof.
  split; [by intros h|]. intros h1 h2 h3 (? & ? & ? & ? & ? & ?) (? & ? & ? & ? & ? & ?).
  unfold untouched. split_and!; congruence.
Qed.

Lemma append_data_keeps h payload hl info dl :
  if_returns (append_data clock h payload hl info dl) (λ '(h', _), untouched h h').
Proof.
  unfold append_data. destruct (0 <? dl); [|done]. rewrite if_returns_bind.
  apply if_returns_iff. intros out _. by destruct (_ || _).
Qed.

Lemma payload_keeps is_isight h payload payload_len :
  if_returns (_uvc_process_payload clock is_isight h payload payload_len) (λ '(h', _), untouched h h').
Proof.
  unfold _uvc_process_payload. destruct (payload_len =? 0); [done|]. rewrite if_returns_bind.
  apply if_returns_iff. intros [] _; [apply append_data_keeps|]. rewrite if_returns_bind.
  apply if_returns_iff. intros hl _. destruct (payload_len <? hl); [done|].
  destruct (hl <? 2); [apply append_data_keeps|]. rewrite if_returns_bind.
  apply if_returns_iff. intros info _. destruct (nz (Z.land info 64)); [done|].
  set (swap := negb _ && _). destruct swap; cbn [_uvc_swap_buffers].
  all: rewrite if_returns_bind; apply if_returns_iff; intros w _; rewrite if_returns_bind.
  all: eapply if_returns_mono; [apply append_data_keeps|]; by intros [h' p].
Qed.

(** C4: whatever bytes a device sends, in payloads of any length, the payload
    processor stays inside the stream's buffers: it returns, publishes at most
    two frames, each within the buffer it is in, and keeps the buffer
    invariant. *)
Theorem process_payload_safe is_isight h payload payload_len :
  stream_inv h → bytes_ok payload → 0 ≤ payload_len ≤ len payload → payload_len < 2 ^ 32 →
  returns (_uvc_process_payload clock is_isight h payload payload_len) (λ '(h', pubs),
    stream_inv h' ∧ sh_cur_ctrl h' = sh_cur_ctrl h ∧ (length pubs ≤ 2)%nat
    ∧ Forall (λ p, hold_ok (sc_dwMaxVideoFrameSize (sh_cur_ctrl h)) p.2) pubs).
Proof. apply payload_inv. Qed.
End payload.

(** ** Reassembly *)

(** A payload header: its length first, then the flags; no error bit. *)
Record good_header (hd : bytes) (fid : Z) (eof : bool) : Prop := {
  gh_ok : bytes_ok hd;
  gh_len : 2 ≤ len hd;
  gh_first : byte_at hd 0 = len hd;
  gh_noerr : Z.land (byte_at hd 1) 0x40 = 0;
  gh_fid : Z.land (byte_at hd 1) 1 = fid;
  gh_eof : nz (Z.land (byte_at hd 1) 2) = eof;
}.

Lemma byte_at_app_l (l k : bytes) i : 0 ≤ i < len l → byte_at (l ++ k) i = byte_at l i.
Proof. intros Hi. unfold byte_at, len in *. by rewrite lookup_app_l by lia. Qed.

Section reassembly.
Context (clock : Z → Z).

(** Data that fits is appended as it is. *)
Lemma append_data_exact h hd c info :
  stream_inv h → 0 < len c < 2 ^ 32 →
  let w := sh_working h in
  let max := sc_dwMaxVideoFrameSize (sh_cur_ctrl h) in
  wk_got_bytes w + len c ≤ max →
  ∃ out, len out = max
    ∧ take (Z.to_nat (wk_got_bytes w + len c)) out = take (Z.to_nat (wk_got_bytes w)) (wk_outbuf w) ++ c
    ∧ append_data clock h (hd ++ c) (len hd) info (len c)
      = let h1 := set_working h (set_data w (wk_got_bytes w + len c) out) in
        if nz (Z.land info 2) || (wk_got_bytes w + len c =? max)
        then Ret ((_uvc_swap_buffers clock h1).1, [(_uvc_swap_buffers clock h1).2])
        else Ret (h1, []).
Proof.
  intros (Hf & (Ho & Hg0 & _) & _) Hc w max Hle. pose proof Hf as [_ Hmax].
  fold max in Hmax, Ho. fold w in Ho, Hg0.
  unfold append_data. rewrite (proj2 (Z.ltb_lt 0 (len c))) by lia. fold w max.
  rewrite (u64_small (wk_got_bytes w + len c)) by lia.
  rewrite (proj2 (Z.ltb_ge max (wk_got_bytes w + len c))) by lia.
  pose proof (len_nonneg hd).
  destruct (memcpy_in (wk_outbuf w) (wk_got_bytes w) (hd ++ c) (len hd) (len c)) as (out & -> & Hlen & Hcont & _);
    [done|lia|lia|lia|rewrite len_app; lia|].
  exists out. split; [lia|]. split.
  - rewrite Hcont. f_equal. unfold len. rewrite !Nat2Z.id, drop_app_length. apply firstn_all.
  - cbn [mbind outcome_bind]. rewrite u64_small by lia. by case_match.
Qed.

(** A payload with a good header, on a stream that is between frames or in the
    frame the header belongs to, goes through the header and to the data. *)
Lemma process_good h hd c fid eof :
  stream_inv h → good_header hd fid eof → 0 ≤ len c →
  (wk_got_bytes (sh_working h) = 0 ∨ wk_fid (sh_working h) = fid) →
  ∃ w, working_ok (sc_dwMaxVideoFrameSize (sh_cur_ctrl h)) w
    ∧ wk_got_bytes w = wk_got_bytes (sh_working h) ∧ wk_outbuf w = wk_outbuf (sh_working h)
    ∧ wk_frame_had_errors w = wk_frame_had_errors (sh_working h)
    ∧ wk_seq w = wk_seq (sh_working h) ∧ wk_fid w = fid
    ∧ _uvc_process_payload clock false h (hd ++ c) (len (hd ++ c))
      = append_data clock (set_working h w) (hd ++ c) (len hd) (byte_at hd 1) (len c).
Proof.
  intros (Hf & Hw & Hh) [Hok Hl Hfirst Hnoerr Hfid Heof] Hc Hsame.
  pose proof (byte_at_fits hd 0 Hok) as [_ H255]. rewrite Hfirst in H255. change (2 ^ 8) with 256 in H255.
  unfold _uvc_process_payload. rewrite len_app.
  rewrite (proj2 (Z.eqb_neq (len hd + len c) 0)) by lia. cbn [mbind outcome_bind].
  rewrite (rd_byte_at (hd ++ c) 0) by (rewrite len_app; lia). rewrite byte_at_app_l by lia.
  cbn [mbind outcome_bind]. rewrite Hfirst.
  rewrite (proj2 (Z.ltb_ge (len hd + len c) (len hd))) by lia.
  rewrite (proj2 (Z.ltb_ge (len hd) 2)) by lia.
  rewrite (rd_byte_at (hd ++ c) 1) by (rewrite len_app; lia). rewrite byte_at_app_l by lia.
  cbn [mbind outcome_bind]. rewrite Hnoerr, Hfid. cbn [nz negb Z.eqb].
  replace (negb (wk_fid (sh_working h) =? fid) && nz (wk_got_bytes (sh_working h))) with false.
  2:{ symmetry. destruct Hsame as [->| ->]; [by rewrite andb_false_r|by rewrite Z.eqb_refl]. }
  pose proof (read_header_safe (sc_dwMaxVideoFrameSize (sh_cur_ctrl h)) (sh_working h) (hd ++ c)
    (len hd) (byte_at hd 1) Hw ltac:(lia) ltac:(rewrite len_app; lia)) as Hr.
  apply returns_iff in Hr as (w & -> & Hwok & Hg & Ho & He & Hs & Hf'). rewrite Hfid in Hf'.
  exists w. split_and!; [done..|]. cbn [mbind outcome_bind].
  replace (len hd + len c - len hd) with (len c) by lia.
  by destruct (append_data _ _ _ _ _ _) as [[h2 pubs]|].
Qed.

(** The payloads of one frame: header and image data each, the last with EOF. *)
Record sent_frame := {
  sn_fid : Z;
  sn_first : list (bytes * bytes);
  sn_last : bytes * bytes;
}.

Definition sn_payloads (f : sent_frame) : list bytes :=
  ((λ p, p.1 ++ p.2) <$> sn_first f) ++ [(sn_last f).1 ++ (sn_last f).2].

Definition sn_image (f : sent_frame) : bytes := concat (sn_first f).*2 ++ (sn_last f).2.

Definition sn_ok (max : Z) (f : sent_frame) : Prop :=
  Forall (λ p, good_header p.1 (sn_fid f) false) (sn_first f)
  ∧ good_header (sn_last f).1 (sn_fid f) true ∧ 0 < len (sn_last f).2
  ∧ len (sn_image f) ≤ max.

Lemma process_app h l k :
  process_payloads clock false h (l ++ k) =
    ('(h, p1) ← process_payloads clock false h l;
     '(h, p2) ← process_payloads clock false h k;
     Ret (h, p1 ++ p2)).
Proof.
  revert h. induction l as [|p l IH]; intros h; cbn [process_payloads app].
  { cbn [mbind outcome_bind]. by destruct (process_payloads clock false h k) as [[]|]. }
  destruct (_uvc_process_payload clock false h p (len p)) as [[h1 p1]|]; [|done].
  cbn [mbind outcome_bind]. rewrite IH. destruct (process_payloads clock false h1 l) as [[h2 p2]|]; [|done].
  cbn [mbind outcome_bind]. destruct (process_payloads clock false h2 k) as [[h3 p3]|]; [|done].
  cbn [mbind outcome_bind]. by rewrite app_assoc.
Qed.

(** The stream in the middle of a frame whose image so far is [img]. *)
Definition assembling (h h0 : uvc_stream_handle) (fid : Z) (img : bytes) : Prop :=
  stream_inv h ∧ sh_cur_ctrl h = sh_cur_ctrl h0
  ∧ wk_got_bytes (sh_working h) = len img
  ∧ take (Z.to_nat (len img)) (wk_outbuf (sh_working h)) = img
  ∧ wk_frame_had_errors (sh_working h) = wk_frame_had_errors (sh_working h0)
  ∧ wk_seq (sh_working h) = wk_seq (sh_working h0)
  ∧ (img = [] ∨ wk_fid (sh_working h) = fid).

Lemma assembling_start h fid :
  stream_inv h → wk_got_bytes (sh_working h) = 0 → assembling h h fid [].
Proof. intros Hi Hg. split_and!; try done. by left. Qed.

(** What one good payload that fits does to the assembly. *)
Lemma assembling_step h h0 fid img hd c eof :
  assembling h h0 fid img → good_header hd fid eof → 0 < len c →
  let max := sc_dwMaxVideoFrameSize (sh_cur_ctrl h0) in
  len img + len c ≤ max →
  ∃ h1, sh_hold h1 = sh_hold h ∧ sh_cur_ctrl h1 = sh_cur_ctrl h0
    ∧ working_ok max (set_data (sh_working h1) 0 (wk_outbuf (sh_working h1)))
    ∧ wk_got_bytes (sh_working h1) = len (img ++ c)
    ∧ take (Z.to_nat (len (img ++ c))) (wk_outbuf (sh_working h1)) = img ++ c
    ∧ wk_frame_had_errors (sh_working h1) = wk_frame_had_errors (sh_working h0)
    ∧ wk_seq (sh_working h1) = wk_seq (sh_working h0) ∧ wk_fid (sh_working h1) = fid
    ∧ _uvc_process_payload clock false h (hd ++ c) (len (hd ++ c))
      = if eof || (len (img ++ c) =? max)
        then Ret ((_uvc_swap_buffers clock h1).1, [(_uvc_swap_buffers clock h1).2])
        else Ret (h1, []).
Proof.
  intros (Hinv & Hctrl & Hgot & Himg & Herr & Hseq & Hfid) Hgh Hc max Hle.
  destruct (process_good h hd c fid eof Hinv Hgh) as (w & Hwok & Hg & Ho & He & Hs & Hf & Hproc); [lia| |].
  { destruct Hfid as [->|]; [left; by rewrite Hgot|by right]. }
  destruct Hinv as (Hmax & Hw & Hh). rewrite Hctrl in *. fold max in Hmax, Hwok, Hh.
  destruct (append_data_exact (set_working h w) hd c (byte_at hd 1)) as (out & Hlen & Htake & Happ).
  - unfold stream_inv. simpl. rewrite Hctrl. by fold max.
  - destruct Hmax as [_ Hmax]. pose proof (len_nonneg img). lia.
  - simpl. rewrite Hg, Hgot, Hctrl. done.
  - cbv zeta in Happ. cbn [sh_working set_working sh_cur_ctrl] in Hlen, Htake, Happ.
    rewrite Hctrl in Hlen, Happ. fold max in Hlen, Happ.
    rewrite Hg, Hgot, <- len_app in Htake, Happ. rewrite Ho, Himg in Htake. rewrite Hproc, Happ.
    exists (set_working (set_working h w) (set_data w (len (img ++ c)) out)).
    split_and!; [| | | | | | | |by rewrite (gh_eof _ _ _ Hgh)]; simpl; try done.
    + destruct Hwok as (? & ? & ? & ? & ?). unfold working_ok. simpl. split_and!; done || lia.
    + by rewrite He.
    + by rewrite Hs.
Qed.

(** A payload that is a header alone changes nothing of the image. *)
Lemma assembling_empty h h0 fid img hd eof :
  assembling h h0 fid img → good_header hd fid eof →
  ∃ h1, _uvc_process_payload clock false h (hd ++ []) (len (hd ++ [])) = Ret (h1, []) ∧ assembling h1 h0 fid img.
Proof.
  intros (Hinv & Hctrl & Hgot & Himg & Herr & Hseq & Hfid) Hgh.
  destruct (process_good h hd [] fid eof Hinv Hgh) as (w & Hwok & Hg & Ho & He & Hs & Hf & ->); [done| |].
  { destruct Hfid as [->|]; [left; by rewrite Hgot|by right]. }
  destruct Hinv as (Hmax & Hw & Hh). exists (set_working h w). split; [done|].
  unfold assembling, stream_inv. cbn [set_working sh_working sh_cur_ctrl sh_hold].
  rewrite Hg, Ho, He, Hs. split_and!; try done. by right.
Qed.

Lemma assemble_first ps h h0 fid img :
  let max := sc_dwMaxVideoFrameSize (sh_cur_ctrl h0) in
  assembling h h0 fid img →
  Forall (λ p : bytes * bytes, good_header p.1 fid false) ps →
  len (img ++ concat ps.*2) < max →
  ∃ h', process_payloads clock false h ((λ p, p.1 ++ p.2) <$> ps) = Ret (h', [])
    ∧ assembling h' h0 fid (img ++ concat ps.*2).
Proof.
  intros max Has Hall. revert h img Has. induction Hall as [|[hd c] ps Hgh _ IH]; intros h img Has Hlt.
  { exists h. simpl. rewrite app_nil_r. done. }
  cbn [fmap list_fmap concat fst snd] in *. pose proof (len_nonneg c).
  destruct (decide (len c = 0)) as [->%len_nil_inv|Hne].
  { destruct (assembling_empty h h0 fid img hd false Has Hgh) as (h1 & Hrun & Has1).
    destruct (IH h1 img Has1 Hlt) as (h' & Hrun' & Has'). exists h'. cbn [process_payloads].
    rewrite Hrun. cbn [mbind outcome_bind]. by rewrite Hrun'. }
  assert (0 < len c) as Hc by lia. rewrite app_assoc, len_app in Hlt.
  pose proof (len_nonneg (concat ps.*2)). pose proof Has as (Hinv & Hctrl & _).
  destruct (assembling_step h h0 fid img hd c false Has Hgh Hc) as
    (h1 & Hhold & Hctrl1 & Hwok & Hgot & Htake & Herr & Hseq & Hfid & Hrun).
  { fold max. rewrite len_app in Hlt. lia. }
  fold max in Hwok, Hrun. rewrite (proj2 (Z.eqb_neq (len (img ++ c)) max)) in Hrun by lia.
  destruct (IH h1 (img ++ c)) as (h' & Hrun' & Has').
  - split_and!; try done; [|by right]. destruct Hinv as (Hmax & Hw & Hh). rewrite Hctrl in *.
    unfold stream_inv. rewrite Hctrl1, Hhold. split_and!; [done| |done].
    destruct Hwok as (? & _ & _ & ? & ?). simpl in *. fold max. pose proof (len_nonneg (img ++ c)).
    unfold working_ok. rewrite Hgot. split_and!; try done; lia.
  - by rewrite len_app.
  - exists h'. cbn [process_payloads]. rewrite Hrun. cbn [orb mbind outcome_bind]. rewrite Hrun'.
    cbn [mbind outcome_bind]. rewrite app_assoc. done.
Qed.

(** [hold] presents frame [f] under sequence number [seq]. *)
Definition presents (hold : stream_hold) (f : sent_frame) (seq : Z) : Prop :=
  hd_seq hold = seq ∧ hd_bytes hold = len (sn_image f)
  ∧ take (Z.to_nat (hd_bytes hold)) (hd_buf hold) = sn_image f.

Lemma frame_delivered h f :
  stream_inv h → wk_got_bytes (sh_working h) = 0 →
  sn_ok (sc_dwMaxVideoFrameSize (sh_cur_ctrl h)) f →
  ∃ h' hold, process_payloads clock false h (sn_payloads f)
      = Ret (h', [(negb (wk_frame_had_errors (sh_working h)), hold)])
    ∧ presents hold f (wk_seq (sh_working h))
    ∧ stream_inv h' ∧ wk_got_bytes (sh_working h') = 0 ∧ sh_cur_ctrl h' = sh_cur_ctrl h
    ∧ wk_frame_had_errors (sh_working h') = false
    ∧ wk_seq (sh_working h') = u32 (wk_seq (sh_working h) + 1).
Proof.
  intros Hinv Hgot (Hfirst & Hlast & Hc & Hle). unfold sn_image in Hle. rewrite len_app in Hle.
  destruct (assemble_first (sn_first f) h h (sn_fid f) []) as (h1 & Hrun1 & Has1);
    [by apply assembling_start|done|simpl; lia|]. simpl in Has1.
  pose proof Has1 as ((Hmax & Hw1 & Hh1) & Hctrl1 & _).
  destruct (assembling_step h1 h (sn_fid f) (concat (sn_first f).*2) (sn_last f).1 (sn_last f).2 true)
    as (h2 & Hhold & Hctrl2 & Hwok & Hgot2 & Htake & Herr & Hseq & _ & Hrun2); [done..|].
  fold (sn_image f) in Hgot2, Htake, Hrun2. cbn [orb] in Hrun2.
  unfold sn_payloads. rewrite process_app, Hrun1. cbn [mbind outcome_bind process_payloads].
  rewrite Hrun2. cbn [mbind outcome_bind app].
  exists (_uvc_swap_buffers clock h2).1, (_uvc_swap_buffers clock h2).2.2.
  unfold presents. cbn -[len take wrapu]. rewrite Herr, Hseq, Hgot2, Hctrl2.
  split_and!; try done. destruct Hwok as (? & _ & _ & ? & ?). rewrite Hctrl1 in *.
  destruct Hh1 as (? & ? & ? & ?). unfold stream_inv, working_ok, hold_ok. cbn -[len].
  rewrite ?Hhold, ?Hctrl2, ?Hgot2. simpl in *. pose proof (len_nonneg (sn_image f)).
  unfold sn_image in *. rewrite len_app in *. split_and!; try done; lia.
Qed.

(** The frames arrive in order, woken, under consecutive sequence numbers. *)
Inductive delivered : Z → list sent_frame → list publication → Prop :=
  | delivered_nil seq : delivered seq [] []
  | delivered_cons seq f fs hold pubs :
      presents hold f seq → delivered (u32 (seq + 1)) fs pubs →
      delivered seq (f :: fs) ((true, hold) :: pubs).

(** C5: on a stream that is between frames, with no error noted, and not that of an iSight camera, the
    payloads of any sequence of frames publish exactly those frames: each image byte
    for byte, in order, woken, and numbered consecutively.  A frame is cut into any
    number of payloads with any legal headers, some of them headers alone, and is no
    larger than the negotiated size; its last payload carries EOF and at least one byte
    of the image, since a header alone does not end a frame in this code
    ([header_only_eof_ignored]).  Frame ids are arbitrary. *)
Theorem frames_reassembled fs h :
  stream_inv h → wk_got_bytes (sh_working h) = 0 → wk_frame_had_errors (sh_working h) = false →
  Forall (sn_ok (sc_dwMaxVideoFrameSize (sh_cur_ctrl h))) fs →
  returns (process_payloads clock false h (concat (sn_payloads <$> fs))) (λ '(h', pubs),
    delivered (wk_seq (sh_working h)) fs pubs
    ∧ stream_inv h' ∧ wk_got_bytes (sh_working h') = 0).
Proof.
  intros Hinv Hgot Herr Hall. revert h Hinv Hgot Herr Hall.
  induction fs as [|f fs IH]; intros h Hinv Hgot Herr Hall; cbn [concat fmap list_fmap].
  { simpl. split_and!; [constructor|done..]. }
  apply Forall_cons in Hall as [Hf Hall].
  destruct (frame_delivered h f Hinv Hgot Hf) as (h1 & hold & Hrun & Hp & Hinv1 & Hgot1 & Hc1 & Herr1 & Hseq1).
  rewrite process_app, Hrun, Herr. cbn [mbind outcome_bind negb]. rewrite returns_bind.
  eapply returns_mono; [apply IH; [done..|by rewrite Hc1]|]. intros [h' pubs] (Hd & Hinv' & Hgot').
  cbn [returns app]. split_and!; [|done..]. constructor; [done|]. by rewrite <- Hseq1.
Qed.

(** A payload that carries EOF and no image data does not end the frame: nothing is
    published, and the image stays in the working buffer until a later payload. *)
Theorem header_only_eof_ignored h fid img hd :
  assembling h h fid img → good_header hd fid true →
  ∃ h', _uvc_process_payload clock false h hd (len hd) = Ret (h', []) ∧ assembling h' h fid img.
Proof. intros Has Hgh. pose proof (assembling_empty h h fid img hd true Has Hgh) as He. by rewrite app_nil_r in He. Qed.
End reassembly.

(** ** Frames with errors *)

Section errors.
Context (clock : Z → Z).

(** A payload whose header has the error bit. *)
Definition error_payload (p : bytes) : bool :=
  (2 <=? byte_at p 0) && (byte_at p 0 <=? len p) && nz (Z.land (byte_at p 1) 0x40).

Lemma append_data_errors h payload hl info dl h' pubs :
  append_data clock h payload hl info dl = Ret (h', pubs) →
  match pubs with
  | [] => wk_frame_had_errors (sh_working h') = wk_frame_had_errors (sh_working h)
  | (woken, _) :: rest =>
      woken = negb (wk_frame_had_errors (sh_working h)) ∧ rest = []
      ∧ wk_frame_had_errors (sh_working h') = false
  end.
Proof.
  unfold append_data. case_match; [|by intros [= <- <-]]. intros Hr. inv_ret Hr.
  case_match; simpl in Hr; by injection Hr as <- <-.
Qed.

Lemma read_header_errors w payload hl info w' :
  read_header w payload hl info = Ret w' → wk_frame_had_errors w' = wk_frame_had_errors w.
Proof.
  unfold read_header. intros Hr. inv_ret Hr. case_match; [inv_ret Hr|]; by injection Hr as <-.
Qed.

(** The flag after a payload, and what a publication says of it. *)
Lemma payload_errors h p h' pubs :
  _uvc_process_payload clock false h p (len p) = Ret (h', pubs) →
  match pubs with
  | [] => wk_frame_had_errors (sh_working h')
          = wk_frame_had_errors (sh_working h) || error_payload p
  | (woken, _) :: _ => woken = negb (wk_frame_had_errors (sh_working h)) ∧ error_payload p = false
  end.
Proof.
  unfold _uvc_process_payload. intros Hr. destruct (Z.eqb_spec (len p) 0) as [E0|E0].
  { injection Hr as <- <-. apply len_nil_inv in E0 as ->. by rewrite orb_false_r. }
  pose proof (len_nonneg p). cbn [mbind outcome_bind] in Hr.
  rewrite (rd_byte_at p 0) in Hr by lia. cbn [mbind outcome_bind] in Hr.
  unfold error_payload. destruct (len p <? byte_at p 0) eqn:E1.
  { injection Hr as <- <-. replace (byte_at p 0 <=? len p) with false by lia.
    by rewrite andb_false_r, orb_false_r. }
  replace (byte_at p 0 <=? len p) with true by lia.
  destruct (byte_at p 0 <? 2) eqn:E2.
  { replace (2 <=? byte_at p 0) with false by lia. simpl. apply append_data_errors in Hr.
    destruct pubs as [|[woken hold] rest]; [by rewrite orb_false_r|naive_solver]. }
  replace (2 <=? byte_at p 0) with true by lia. cbn [andb].
  destruct (rd p 1) as [b1|] eqn:Eb; [|done]. cbn [mbind outcome_bind] in Hr.
  pose proof (rd_in_range _ _ _ Eb). rewrite rd_byte_at in Eb by lia. injection Eb as <-.
  destruct (nz (Z.land (byte_at p 1) 64)) eqn:E3.
  { injection Hr as <- <-. by rewrite orb_true_r. }
  destruct (_ && _) eqn:E4.
  - unfold _uvc_swap_buffers at 1 in Hr. cbv zeta in Hr. cbn iota beta in Hr.
    inv_ret Hr. injection Hr as <- <-. simpl. done.
  - cbn iota beta in Hr. inv_ret Hr. injection Hr as <- <-. apply read_header_errors in Ha. apply append_data_errors in Ha0.
    simpl in Ha0. rewrite Ha in Ha0. destruct y as [|[woken hold] rest]; simpl.
    + by rewrite orb_false_r.
    + by destruct Ha0.
Qed.

Lemma payloads_errors ps h h' :
  process_payloads clock false h ps = Ret (h', []) →
  wk_frame_had_errors (sh_working h')
  = wk_frame_had_errors (sh_working h) || existsb error_payload ps.
Proof.
  revert h. induction ps as [|p ps IH]; intros h Hr; cbn [process_payloads existsb] in *.
  { injection Hr as <-. by rewrite orb_false_r. }
  inv_ret Hr. injection Hr as <- Hnil. apply app_nil in Hnil as [-> ->].
  apply payload_errors in Ha. apply IH in Ha0. rewrite Ha0, Ha. by rewrite orb_assoc.
Qed.

(** Listeners are woken for a frame exactly when none of its payloads carried
    the error bit: after any payloads [ps] that published nothing, the next
    publication wakes them iff the frame was clean before and no payload of [ps]
    had the bit. *)
Theorem errors_suppress_wakeup ps p h h1 h2 woken hold rest :
  process_payloads clock false h ps = Ret (h1, []) →
  _uvc_process_payload clock false h1 p (len p) = Ret (h2, (woken, hold) :: rest) →
  woken = negb (wk_frame_had_errors (sh_working h) || existsb error_payload ps).
Proof.
  intros H1%payloads_errors [H2 _]%payload_errors. by rewrite <- H1.
Qed.
End errors.

(** ** A small stream *)

Definition sample_frame_zero : uvc_frame :=
  {| uf_data := None; uf_data_bytes := 0; uf_width := 0; uf_height := 0; uf_frame_format := 0;
     uf_step := 0; uf_sequence := 0; uf_capture_time := 0;
     uf_capture_time_finished := 0; uf_source := 0; uf_library_owns_data := 1;
     uf_metadata := None; uf_metadata_bytes := 0 |}.

Definition ctrl_with_size (max : Z) : uvc_stream_ctrl :=
  {| sc_bmHint := 1; sc_bFormatIndex := 1; sc_bFrameIndex := 1; sc_dwFrameInterval := 333333;
     sc_wKeyFrameRate := 0; sc_wPFrameRate := 0; sc_wCompQuality := 0; sc_wCompWindowSize := 0;
     sc_wDelay := 0; sc_dwMaxVideoFrameSize := max; sc_dwMaxPayloadTransferSize := 3072;
     sc_dwClockFrequency := 0; sc_bmFramingInfo := 0; sc_bPreferredVersion := 0;
     sc_bMinVersion := 0; sc_bMaxVersion := 0; sc_bInterfaceNumber := 1 |}.

(** Buffers of [bufsize] bytes and metadata buffers of [meta], under a control
    block that allows [max]. *)
Definition stream_with (bufsize max meta : Z) : uvc_stream_handle :=
  {| sh_stream_if := {| si_bInterfaceNumber := 1; si_format_descs := []; si_bEndpointAddress := 0x81;
                        si_bTerminalLink := 0; si_bStillCaptureMethod := 0 |};
     sh_running := true; sh_cur_ctrl := ctrl_with_size max;
     sh_working := {| wk_fid := 0; wk_seq := 1; wk_pts := 0; wk_last_scr := 0; wk_got_bytes := 0;
                      wk_outbuf := replicate (Z.to_nat bufsize) 0; wk_meta_got_bytes := 0;
                      wk_meta_outbuf := replicate (Z.to_nat meta) 0; wk_frame_had_errors := false |};
     sh_hold := {| hd_seq := 0; hd_pts := 0; hd_last_scr := 0; hd_bytes := 0;
                   hd_buf := replicate (Z.to_nat bufsize) 0; hd_meta_bytes := 0;
                   hd_meta_buf := replicate (Z.to_nat meta) 0; hd_capture_time_finished := 0 |};
     sh_last_polled_seq := 0; sh_user_cb := false; sh_frame := sample_frame_zero;
     sh_frame_format := UVC_FRAME_FORMAT_MJPEG |}.

Definition sample_stream (bufsize max : Z) : uvc_stream_handle := stream_with bufsize max 4096.

Lemma sample_stream_inv max : fits 32 max → stream_inv (sample_stream max max).
Proof.
  intros [H0 H1]. unfold stream_inv, working_ok, hold_ok, LIBUVC_XFER_META_BUF_SIZE. simpl.
  unfold len. rewrite !length_replicate. split_and!; try done; lia.
Qed.

Lemma process_payload_safe_witness :
  ∃ h' pubs, _uvc_process_payload (λ _, 0) false (sample_stream 8 8) [2; 0; 1; 2; 3] 5 = Ret (h', pubs)
    ∧ stream_inv h' ∧ wk_got_bytes (sh_working h') = 3.
Proof.
  assert (stream_inv (sample_stream 8 8)) as Hi by (apply sample_stream_inv; unfold fits; lia).
  assert (bytes_ok [2; 0; 1; 2; 3]) as Hb by (repeat constructor; by apply (bool_decide_unpack _)).
  assert (0 ≤ 5 ≤ len [2; 0; 1; 2; 3]) as Hl by (unfold len; simpl; lia).
  pose proof (process_payload_safe (λ _, 0) false (sample_stream 8 8) [2; 0; 1; 2; 3] 5 Hi Hb Hl ltac:(lia)) as Hs.
  destruct (proj1 (returns_iff _ _) Hs) as ([h' pubs] & Hrun & Hinv & _). exists h', pubs.
  split; [exact Hrun|]. split; [exact Hinv|]. clear Hs Hi Hinv. vm_compute in Hrun.
  injection Hrun as <- _. reflexivity.
Defined.

(** Two frames: one of two payloads, one of a single payload with a PTS header. *)
Definition sample_frames : list sent_frame :=
  [ {| sn_fid := 0; sn_first := [([2; 0], [10; 11; 12]); ([2; 0], [])]; sn_last := ([2; 2], [13]) |};
    {| sn_fid := 1; sn_first := []; sn_last := ([6; 7; 1; 2; 3; 4], [20; 21]) |} ].

Lemma frames_reassembled_witness :
  ∃ h' p1 p2, process_payloads (λ _, 0) false (sample_stream 8 8) (concat (sn_payloads <$> sample_frames))
      = Ret (h', [p1; p2])
    ∧ delivered 1 sample_frames [p1; p2] ∧ take 4 (hd_buf p1.2) = [10; 11; 12; 13].
Proof.
  assert (stream_inv (sample_stream 8 8)) as Hi by (apply sample_stream_inv; unfold fits; lia).
  assert (Forall (sn_ok 8) sample_frames) as Hall.
  { unfold sample_frames. apply Forall_cons_2; [|apply Forall_cons_2; [|apply Forall_nil_2]].
    - split_and!; simpl; try (unfold len; simpl; lia).
      + repeat apply Forall_cons_2; [..|apply Forall_nil_2]; constructor; try done; repeat constructor; by apply (bool_decide_unpack _).
      + constructor; try done; repeat constructor; by apply (bool_decide_unpack _).
    - split_and!; simpl; try (unfold len; simpl; lia); [apply Forall_nil_2|].
      constructor; try done; repeat constructor; by apply (bool_decide_unpack _). }
  pose proof (frames_reassembled (λ _, 0) sample_frames (sample_stream 8 8) Hi eq_refl eq_refl Hall) as Hs.
  destruct (proj1 (returns_iff _ _) Hs) as ([h' pubs] & Hrun & Hd & _). clear Hs Hi Hall.
  exists h'. pose proof Hrun as Hrun'. vm_compute in Hrun'. injection Hrun' as _ <-.
  do 2 eexists. split; [exact Hrun|]. split; [exact Hd|]. reflexivity.
Defined.

(** The small stream after a clean and an erroneous payload. *)
Definition errored_stream : uvc_stream_handle := Eval vm_compute in
  match process_payloads (λ _, 0) false (stream_with 8 8 0) [[2; 0; 1]; [2; 64; 2]] with
  | Ret (h, _) => h
  | Undef _ => stream_with 8 8 0
  end.

Lemma errors_suppress_wakeup_witness :
  ∃ h2 woken hold rest,
    _uvc_process_payload (λ _, 0) false errored_stream [2; 2; 3] 3 = Ret (h2, (woken, hold) :: rest)
    ∧ woken = false.
Proof.
  assert (process_payloads (λ _, 0) false (stream_with 8 8 0) [[2; 0; 1]; [2; 64; 2]] = Ret (errored_stream, []))
    as H1 by (vm_compute; reflexivity).
  destruct (_uvc_process_payload (λ _, 0) false errored_stream [2; 2; 3] 3) as [[h2 pubs]|] eqn:H2;
    [|discriminate H2].
  destruct pubs as [|[woken hold] rest]; [discriminate H2|]. exists h2, woken, hold, rest. split; [reflexivity|].
  exact (errors_suppress_wakeup (λ _, 0) [[2; 0; 1]; [2; 64; 2]] [2; 2; 3] (stream_with 8 8 0)
    errored_stream h2 woken hold rest H1 H2).
Defined.

(** ** Reconfiguring an open stream *)

Lemma stream_ctrl_op_success `{Environment} devh h ctrl t h' t' :
  uvc_stream_ctrl_op devh h ctrl t = Ret ((UVC_SUCCESS, h'), t') →
  h' = set_cur_ctrl h ctrl ∧ sh_running h = false
  ∧ si_bInterfaceNumber (sh_stream_if h) = sc_bInterfaceNumber ctrl.
Proof.
  unfold uvc_stream_ctrl_op. destruct (Z.eqb_spec (si_bInterfaceNumber (sh_stream_if h)) (sc_bInterfaceNumber ctrl));
    cbn [negb]; [|discriminate].
  destruct (sh_running h); [discriminate|]. intros Hr. apply run_bind_inv in Hr as ([ret c] & t1 & Hq & Hr).
  cbn [fst snd] in Hr. destruct (dh_info devh) as [info|] eqn:Hi.
  - rewrite (query_set_run devh info ctrl false t Hi) in Hq. injection Hq as <- <- <-.
    case_match; [|by injection Hr as <- _]. injection Hr as Hc _ _.
    match goal with Hn : negb _ = true |- _ => rewrite Hc in Hn end. discriminate.
  - unfold uvc_query_stream_ctrl in Hq. rewrite Hi in Hq. discriminate.
Qed.

(** An open stream that is reconfigured to a larger frame size keeps its old
    buffers: the first payload with more image data than they hold, but no more
    than the new size allows, is written past their end. *)
Theorem reconfigured_stream_overflows `{Environment} clock devh h ctrl c t h' t' :
  stream_inv h → wk_got_bytes (sh_working h) = 0 →
  uvc_stream_ctrl_op devh h ctrl t = Ret ((UVC_SUCCESS, h'), t') →
  sc_dwMaxVideoFrameSize (sh_cur_ctrl h) < len c ≤ sc_dwMaxVideoFrameSize ctrl → len c < 2 ^ 32 →
  _uvc_process_payload clock false h' ([2; 0] ++ c) (len ([2; 0] ++ c)) = Undef OutOfBounds.
Proof.
  intros (Hmax & (Ho & _) & _) Hgot (-> & _ & _)%stream_ctrl_op_success Hc Hsmall.
  unfold _uvc_process_payload. rewrite len_app. change (len [2; 0]) with 2.
  destruct Hmax as [Hmax0 _]. rewrite (proj2 (Z.eqb_neq (2 + len c) 0)) by lia.
  cbn [mbind outcome_bind]. change (rd ([2; 0] ++ c) 0) with (Ret (A:=Z) 2).
  change (rd ([2; 0] ++ c) 1) with (Ret (A:=Z) 0). cbn [mbind outcome_bind].
  rewrite (proj2 (Z.ltb_ge (2 + len c) 2)) by lia. cbn [Z.ltb Z.compare Pos.compare Pos.compare_cont].
  change (nz (Z.land 0 64)) with false. cbv iota. cbn [sh_working set_cur_ctrl]. rewrite Hgot.
  change (nz 0) with false. rewrite andb_false_r.
  assert (read_header (sh_working (set_cur_ctrl h ctrl)) ([2; 0] ++ c) 2 0
    = Ret (set_stamps (sh_working h) 0 (wk_pts (sh_working h)) (wk_last_scr (sh_working h)))) as -> by done.
  cbn [mbind outcome_bind]. unfold append_data. rewrite (proj2 (Z.ltb_lt 0 (2 + len c - 2))) by lia.
  cbn [sh_working set_working sh_cur_ctrl set_cur_ctrl wk_got_bytes set_stamps wk_outbuf]. rewrite Hgot.
  rewrite (u64_small (0 + (2 + len c - 2))) by lia.
  rewrite (proj2 (Z.ltb_ge (sc_dwMaxVideoFrameSize ctrl) (0 + (2 + len c - 2)))) by lia.
  rewrite memcpy_oob by lia. done.
Qed.

Lemma reconfigured_stream_overflows_witness :
  ∃ h' t', uvc_stream_ctrl_op (H := agree_env) (handle_with (Some small_info) 0 None)
      (set_running (sample_stream 4 4) false) (ctrl_with_size 16) [] = Ret ((UVC_SUCCESS, h'), t')
    ∧ _uvc_process_payload (λ _, 0) false h' [2; 0; 1; 2; 3; 4; 5] 7 = Undef OutOfBounds.
Proof.
  do 2 eexists. split; [reflexivity|].
  apply (reconfigured_stream_overflows (H := agree_env) (λ _, 0) (handle_with (Some small_info) 0 None)
    (set_running (sample_stream 4 4) false) (ctrl_with_size 16) [1; 2; 3; 4; 5] [] _
    [(set_request small_info (ctrl_with_size 16) false, answer_code 26)]).
  - apply (sample_stream_inv 4). unfold fits. lia.
  - reflexivity.
  - reflexivity.
  - unfold len. simpl. lia.
  - unfold len. simpl. lia.
Defined.
