(* ===== verification/DeliveryFacts.v ===== *)
(** * DeliveryFacts: the frame user code gets

    What [_uvc_populate_frame] puts into the frame, when a poll returns one and
    until when it waits, and what opening a stream establishes. *)

From stdpp Require Import prelude.
From S2P Require Import Prelude Types Environment Descriptors DescriptorsFacts ReattachGuard ReattachGuardFacts Handles Claims ClaimsFacts Negotiation NegotiationFacts Stream StreamFacts.

(** ** The frame *)

(** What is in use lies within the heap blocks. *)
Definition frame_ok (f : uvc_frame) : Prop :=
  0 ≤ uf_data_bytes f ≤ len (block (uf_data f)) ∧ 0 ≤ uf_metadata_bytes f ≤ len (block (uf_metadata f)).

Lemma len_resize n x (l : bytes) : 0 ≤ n → len (resize (Z.to_nat n) x l) = n.
Proof. intros. unfold len. rewrite length_resize. lia. Qed.

(** A copy of the front of [src] over a block that is long enough. *)
Lemma copy_front dst src n :
  0 ≤ n → n ≤ len dst → n ≤ len src →
  ∃ dst', memcpy dst 0 src 0 n = Ret dst' ∧ len dst' = len dst
    ∧ take (Z.to_nat n) dst' = take (Z.to_nat n) src
    ∧ drop (Z.to_nat n) dst' = drop (Z.to_nat n) dst.
Proof.
  intros. destruct (memcpy_in dst 0 src 0 n) as (dst' & Hm & Hl & Ht & Hd); [lia..|].
  exists dst'. rewrite Z.add_0_l in Ht, Hd. by rewrite Hm, Hl, Ht, Hd.
Qed.

(** The bytes of the image part of the frame: those received, then zeros. *)
Definition image_data (hd : stream_hold) (n : Z) : bytes :=
  take (Z.to_nat (hd_bytes hd)) (hd_buf hd) ++ replicate (Z.to_nat (n - hd_bytes hd)) 0.

(** The block after the growing step: long enough, and zero behind the data. *)
Lemma grow_data junk (old : bytes) bytes_used hold image :
  0 ≤ bytes_used ≤ len old → 0 ≤ hold → 0 ≤ image →
  returns (if (bytes_used <? hold) || (bytes_used <? image) then
      if image <=? hold then Ret (resize (Z.to_nat hold) junk old, hold)
      else
        data ← memcpy (resize (Z.to_nat image) junk old) hold
                 (replicate (Z.to_nat (image - hold)) 0) 0 (image - hold);
        Ret (data, image)
    else Ret (old, hold)) (λ '(data, n),
    hold ≤ n ≤ len data ∧ n = (if (bytes_used <? hold) || (bytes_used <? image) then Z.max hold image else hold)
    ∧ take (Z.to_nat (n - hold)) (drop (Z.to_nat hold) data) = replicate (Z.to_nat (n - hold)) 0).
Proof.
  intros Hu Hh Hi. destruct ((bytes_used <? hold) || (bytes_used <? image)) eqn:E.
  2:{ simpl. rewrite Z.sub_diag. split_and!; try done; lia. }
  destruct (image <=? hold) eqn:E2.
  - cbn [returns]. rewrite len_resize by lia.
    replace (hold - hold) with 0 by lia. split_and!; try done; lia.
  - assert (len (resize (Z.to_nat image) junk old) = image) as Hr by (by apply len_resize).
    assert (len (replicate (Z.to_nat (image - hold)) 0) = image - hold) as Hz
      by (unfold len; rewrite length_replicate; lia).
    destruct (memcpy_in (resize (Z.to_nat image) junk old) hold
      (replicate (Z.to_nat (image - hold)) 0) 0 (image - hold)) as (data & -> & Hl & Ht & _); [lia..|].
    cbn [mbind outcome_bind returns]. rewrite Hl, len_resize by lia. split_and!; try lia.
    replace (hold + (image - hold)) with image in Ht by lia.
    apply (f_equal (drop (Z.to_nat hold))) in Ht.
    rewrite skipn_firstn_comm in Ht. replace (Z.to_nat image - Z.to_nat hold)%nat with (Z.to_nat (image - hold)) in Ht by lia.
    rewrite Ht, drop_app_length'.
    + change (Z.to_nat 0) with 0%nat. rewrite drop_0, take_replicate. by rewrite Nat.min_id.
    + rewrite length_take, length_resize. lia.
Qed.

(** Whether the block for the image data, or the one for the metadata, has to grow. *)
Definition data_grows (h : uvc_stream_handle) (desc : uvc_frame_desc) : bool :=
  let f := sh_frame h in
  (uf_data_bytes f <? hd_bytes (sh_hold h))
  || (uf_data_bytes f <? fr_wHeight desc * step_of (sh_frame_format h) (fr_wWidth desc)).

Definition meta_grows (h : uvc_stream_handle) : bool :=
  (0 <? hd_meta_bytes (sh_hold h)) && (uf_metadata_bytes (sh_frame h) <? hd_meta_bytes (sh_hold h)).

(** The copy of the metadata. *)
Lemma copy_meta junk (ok : bool) f hd :
  0 ≤ uf_metadata_bytes f ≤ len (block (uf_metadata f)) → hd_meta_bytes hd ≤ len (hd_meta_buf hd) →
  let copy :=
    if 0 <? hd_meta_bytes hd then
      meta ← (if uf_metadata_bytes f <? hd_meta_bytes hd
              then if ok then Ret (resize (Z.to_nat (hd_meta_bytes hd)) junk (block (uf_metadata f)))
                   else Undef NullDeref
              else Ret (block (uf_metadata f)));
      meta ← memcpy meta 0 (hd_meta_buf hd) 0 (hd_meta_bytes hd);
      Ret (Some meta, hd_meta_bytes hd)
    else Ret (uf_metadata f, uf_metadata_bytes f) in
  if (0 <? hd_meta_bytes hd) && (uf_metadata_bytes f <? hd_meta_bytes hd) && negb ok then copy = Undef NullDeref
  else returns copy (λ '(meta, n), 0 ≤ n ≤ len (block meta)
    ∧ if 0 <? hd_meta_bytes hd
      then n = hd_meta_bytes hd ∧ take (Z.to_nat n) (block meta) = take (Z.to_nat n) (hd_meta_buf hd)
      else n = uf_metadata_bytes f ∧ meta = uf_metadata f).
Proof.
  intros Hf Hb copy. unfold copy. destruct (0 <? hd_meta_bytes hd) eqn:Em; cbn [andb]; [|done].
  assert (∀ m, hd_meta_bytes hd ≤ len m →
    returns (meta ← memcpy m 0 (hd_meta_buf hd) 0 (hd_meta_bytes hd); Ret (Some meta, hd_meta_bytes hd))
      (λ '(meta, n), 0 ≤ n ≤ len (block meta) ∧ n = hd_meta_bytes hd
        ∧ take (Z.to_nat n) (block meta) = take (Z.to_nat n) (hd_meta_buf hd))) as Hcopy.
  { intros m Hm. destruct (copy_front m (hd_meta_buf hd) (hd_meta_bytes hd)) as (meta & -> & Hlm & Htm & _); [lia..|].
    cbn [mbind outcome_bind returns block default]. unfold id. split_and!; try done; lia. }
  destruct (uf_metadata_bytes f <? hd_meta_bytes hd) eqn:Eg, ok; cbn [andb negb mbind outcome_bind]; try done.
  all: apply Hcopy; rewrite ?len_resize; lia.
Qed.

(** What [populate] sets whether or not there is memory. *)
Definition stamped (h : uvc_stream_handle) (desc : uvc_frame_desc) (f : uvc_frame) : Prop :=
  uf_width f = fr_wWidth desc ∧ uf_height f = fr_wHeight desc
  ∧ uf_step f = step_of (sh_frame_format h) (fr_wWidth desc)
  ∧ uf_sequence f = hd_seq (sh_hold h) ∧ uf_frame_format f = sh_frame_format h
  ∧ uf_capture_time_finished f = hd_capture_time_finished (sh_hold h).

(** What it leaves in a frame for which there was memory. *)
Definition populated (h : uvc_stream_handle) (desc : uvc_frame_desc) (h' : uvc_stream_handle) : Prop :=
  let f := sh_frame h' in
  let hd := sh_hold h in
  h' = set_frame h f ∧ frame_ok f ∧ stamped h desc f
  ∧ take (Z.to_nat (uf_data_bytes f)) (block (uf_data f)) = image_data hd (uf_data_bytes f)
  ∧ (uf_data_bytes f = hd_bytes hd ∨ uf_data_bytes f = Z.max (hd_bytes hd) (uf_height f * uf_step f))
  ∧ if 0 <? hd_meta_bytes hd then
      uf_metadata_bytes f = hd_meta_bytes hd
      ∧ take (Z.to_nat (uf_metadata_bytes f)) (block (uf_metadata f))
        = take (Z.to_nat (uf_metadata_bytes f)) (hd_meta_buf hd)
    else uf_metadata_bytes f = uf_metadata_bytes (sh_frame h) ∧ uf_metadata f = uf_metadata (sh_frame h).

Lemma populate_frame_exact junk ok info h max format desc :
  hold_ok max (sh_hold h) → frame_ok (sh_frame h) →
  uvc_find_frame_desc info (sc_bFormatIndex (sh_cur_ctrl h)) (sc_bFrameIndex (sh_cur_ctrl h))
    = Some (format, desc) →
  frame_wf desc →
  if data_grows h desc && negb ok.1 then
    returns (_uvc_populate_frame junk ok info h) (λ h', h' = set_frame h (sh_frame h')
      ∧ stamped h desc (sh_frame h') ∧ uf_data (sh_frame h') = None
      ∧ uf_data_bytes (sh_frame h') = uf_data_bytes (sh_frame h))
  else if meta_grows h && negb ok.2 then _uvc_populate_frame junk ok info h = Undef NullDeref
  else returns (_uvc_populate_frame junk ok info h) (populated h desc).
Proof.
  intros (Hbuf & Hb & Hmbuf & Hmb) [Hfd Hfm] Hdesc Hwf.
  unfold _uvc_populate_frame, data_grows, meta_grows. rewrite Hdesc. cbn [deref mbind outcome_bind].
  set (hd := sh_hold h) in *. set (f := sh_frame h) in *.
  set (step := step_of (sh_frame_format h) (fr_wWidth desc)).
  assert (0 ≤ fr_wHeight desc * step) as Himg.
  { apply Z.mul_nonneg_nonneg; [apply Hwf|]. unfold step, step_of.
    repeat case_match; try lia; try apply wrapu_fits; try lia. apply Hwf. }
  destruct (_ && negb ok.1); [done|].
  pose proof (grow_data junk (block (uf_data f)) (uf_data_bytes f) (hd_bytes hd) (fr_wHeight desc * step)
    Hfd ltac:(lia) Himg) as Hg.
  apply returns_iff in Hg as ([data n] & Hgrow & Hn & Hnval & Hzero). unfold realloc. rewrite Hgrow. cbn [mbind outcome_bind].
  destruct (copy_front data (hd_buf hd) (hd_bytes hd)) as (data' & -> & Hl & Ht & Hd); [lia..|]. cbn [mbind outcome_bind].
  pose proof (copy_meta junk ok.2 f hd Hfm ltac:(lia)) as Hmeta. cbv zeta in Hmeta.
  match goal with |- context [if 0 <? hd_meta_bytes hd then ?c else ?d] => set (copy := if 0 <? hd_meta_bytes hd then c else d) in * end.
  destruct (_ && negb ok.2); [by rewrite Hmeta|].
  apply returns_iff in Hmeta as ([meta mb] & -> & Hmb1 & Hmb2). cbn [mbind outcome_bind returns].
  unfold populated. cbn [sh_frame set_frame uf_data uf_data_bytes uf_metadata uf_metadata_bytes uf_height uf_step].
  split_and!; try done; [unfold frame_ok; simpl; lia| |rewrite Hnval; destruct (_ || _); auto].
  cbn [block default]. unfold id, image_data. fold hd. rewrite <- Ht.
  rewrite <- (take_drop (Z.to_nat (hd_bytes hd)) data') at 1.
  rewrite take_app, length_take. rewrite firstn_all2 by (rewrite length_take; lia). f_equal.
  rewrite Hd, <- Hzero. f_equal. unfold len in *. lia.
Qed.

Lemma populate_frame_run junk info h max format desc :
  hold_ok max (sh_hold h) → frame_ok (sh_frame h) →
  uvc_find_frame_desc info (sc_bFormatIndex (sh_cur_ctrl h)) (sc_bFrameIndex (sh_cur_ctrl h))
    = Some (format, desc) →
  frame_wf desc →
  returns (_uvc_populate_frame junk enough_memory info h) (populated h desc).
Proof.
  intros Hh Hf Hd Hwf. pose proof (populate_frame_exact junk enough_memory info h max format desc Hh Hf Hd Hwf) as He.
  cbn [enough_memory fst snd negb] in He. by rewrite !andb_false_r in He.
Qed.


(** ** Polling *)

(** The deadline of a timed poll is a valid timespec exactly [timeout_us]
    microseconds after the current time. *)
Theorem poll_deadline_correct now_sec now_nsec timeout_us sec nsec :
  0 ≤ now_nsec < 1000000000 → 0 ≤ timeout_us →
  poll_deadline now_sec now_nsec timeout_us = (sec, nsec) →
  0 ≤ nsec < 1000000000
  ∧ sec * 1000000000 + nsec = now_sec * 1000000000 + now_nsec + timeout_us * 1000.
Proof.
  intros Hn Ht [= <- <-].
  rewrite Z.quot_div_nonneg, (Z.rem_mod_nonneg timeout_us) by lia.
  assert (0 ≤ timeout_us mod 1000000 < 1000000) by (apply Z.mod_pos_bound; lia).
  rewrite Z.quot_div_nonneg, Z.rem_mod_nonneg by lia.
  Z.to_euclidean_division_equations. lia.
Qed.

Lemma poll_deadline_correct_witness :
  poll_deadline 5 999999999 1500000 = (7, 499999999) ∧ 0 ≤ 499999999 < 1000000000.
Proof.
  split; [reflexivity|].
  apply (poll_deadline_correct 5 999999999 1500000 7 499999999); [lia|lia|reflexivity].
Defined.

Section polling.
Context (junk : Z) (info : uvc_device_info).
Context (wait : uvc_stream_handle → uvc_stream_handle).
Context (timedwait : Z * Z → uvc_stream_handle → Z * uvc_stream_handle) (now_sec now_nsec : Z).

Abbreviation poll := (uvc_stream_get_frame junk enough_memory info wait timedwait now_sec now_nsec).

Lemma populate_keeps h h' :
  _uvc_populate_frame junk enough_memory info h = Ret h' → h' = set_frame h (sh_frame h').
Proof.
  unfold _uvc_populate_frame. intros Hr. inv_ret Hr. rewrite andb_false_r in Hr. inv_ret Hr.
  by injection Hr as <-.
Qed.

(** A publication is polled at most once, and a poll that returns a frame
    returns the latest one: its sequence number is that of the held frame, and
    polling again without waiting yields nothing until another frame is
    published. *)
Theorem poll_once h f h' :
  poll h (-1) = Ret (UVC_SUCCESS, Some f, h') →
  sh_last_polled_seq h < hd_seq (sh_hold h)
  ∧ sh_last_polled_seq h' = hd_seq (sh_hold h) ∧ sh_hold h' = sh_hold h
  ∧ poll h' (-1) = Ret (UVC_SUCCESS, None, h').
Proof.
  unfold uvc_stream_get_frame. destruct (sh_running h) eqn:Er; cbn [negb]; [|discriminate].
  destruct (sh_user_cb h) eqn:Eu; [discriminate|].
  destruct (sh_last_polled_seq h <? hd_seq (sh_hold h)) eqn:El; [|discriminate].
  unfold take_frame at 1. intros Hr. inv_ret Hr. injection Hr as <- <-.
  apply populate_keeps in Ha. rewrite Ha. simpl. rewrite Er, Eu, Z.ltb_irrefl. simpl. split_and!; done || lia.
Qed.

(** A frame that had errors wakes no listener, but it is not withheld: it
    takes over the held buffer and its sequence number, so the next poll returns
    it as an ordinary frame. *)
Theorem flagged_frame_is_polled clock h max format desc :
  stream_inv h → max = sc_dwMaxVideoFrameSize (sh_cur_ctrl h) →
  frame_ok (sh_frame h) → sh_running h = true → sh_user_cb h = false →
  sh_last_polled_seq h < wk_seq (sh_working h) → wk_frame_had_errors (sh_working h) = true →
  wk_got_bytes (sh_working h) ≤ max →
  uvc_find_frame_desc info (sc_bFormatIndex (sh_cur_ctrl h)) (sc_bFrameIndex (sh_cur_ctrl h))
    = Some (format, desc) → frame_wf desc →
  let '(h1, (woken, _)) := _uvc_swap_buffers clock h in
  woken = false
  ∧ returns (poll h1 (-1)) (λ '(ret, f, _), ret = UVC_SUCCESS
      ∧ ∃ f', f = Some f' ∧ uf_sequence f' = wk_seq (sh_working h)
          ∧ take (Z.to_nat (wk_got_bytes (sh_working h))) (block (uf_data f'))
            = take (Z.to_nat (wk_got_bytes (sh_working h))) (wk_outbuf (sh_working h))).
Proof.
  intros Hinv Hmax Hf Hrun Hcb Hseq Herr Hgot Hdesc Hwf. destruct (_uvc_swap_buffers clock h) as [h1 [woken hold]] eqn:Es.
  destruct (swap_inv clock h h1 (woken, hold) Hinv Es) as ((_ & _ & Hh1) & Hc1 & _). injection Es as <- <- <-.
  split; [by rewrite Herr|]. unfold uvc_stream_get_frame. simpl. rewrite Hrun, Hcb. simpl.
  rewrite (proj2 (Z.ltb_lt _ _) Hseq). unfold take_frame. rewrite returns_bind.
  eapply returns_mono.
  - eapply (populate_frame_run junk info _ max format desc); [|done|done|done]. by rewrite Hmax.
  - intros h2 (Hh2 & [Hd _] & (_ & _ & _ & Hs & _) & Himg & Hn & _). simpl in *. split; [done|].
    eexists. split; [done|]. split; [done|]. destruct Hinv as (_ & (Ho & Hg0 & _) & _).
    assert (wk_got_bytes (sh_working h) ≤ uf_data_bytes (sh_frame h2)) as Hle by lia.
    apply (f_equal (take (Z.to_nat (wk_got_bytes (sh_working h))))) in Himg.
    rewrite take_take, Nat.min_l in Himg by lia. rewrite Himg. unfold image_data. simpl.
    rewrite take_app, take_take, Nat.min_id, length_take.
    replace (Z.to_nat (wk_got_bytes (sh_working h)) - _)%nat with 0%nat by (unfold len in Ho; lia).
    simpl. by rewrite app_nil_r.
Qed.
End polling.

(** ** The small stream on the small device *)

Lemma small_info_frame :
  uvc_find_frame_desc small_info 1 1 = Some (small_format, degenerate_frame).
Proof. reflexivity. Qed.

Lemma sample_frame_ok : frame_ok (sh_frame (sample_stream 8 8)).
Proof. split; unfold len; simpl; lia. Qed.


(** The stream with an erroneous frame of three bytes in its working buffer. *)
Definition flagged_stream (bufs meta : Z) : uvc_stream_handle :=
  set_working (stream_with bufs bufs meta)
    {| wk_fid := 0; wk_seq := 1; wk_pts := 0; wk_last_scr := 0; wk_got_bytes := 3;
       wk_outbuf := [1; 2; 3] ++ replicate (Z.to_nat (bufs - 3)) 0; wk_meta_got_bytes := 0;
       wk_meta_outbuf := replicate (Z.to_nat meta) 0; wk_frame_had_errors := true |}.

Lemma flagged_stream_inv : stream_inv (flagged_stream 8 4096).
Proof.
  unfold stream_inv, working_ok, hold_ok, LIBUVC_XFER_META_BUF_SIZE, fits.
  cbn [flagged_stream stream_with set_working sh_cur_ctrl sh_working sh_hold ctrl_with_size
    sc_dwMaxVideoFrameSize wk_outbuf wk_got_bytes wk_meta_outbuf wk_meta_got_bytes
    hd_buf hd_bytes hd_meta_buf hd_meta_bytes].
  unfold len. rewrite length_app, !length_replicate. cbn [length]. split_and!; lia.
Qed.

Lemma flagged_frame_is_polled_witness :
  let '(h1, (woken, _)) := _uvc_swap_buffers (λ _, 0) (flagged_stream 8 4096) in
  woken = false
  ∧ returns (uvc_stream_get_frame 0 enough_memory small_info (λ h, h) (λ _ h, (ETIMEDOUT, h)) 0 0 h1 (-1))
      (λ '(ret, f, _), ret = UVC_SUCCESS ∧ f ≠ None).
Proof.
  pose proof (flagged_frame_is_polled 0 small_info (λ h, h) (λ _ h, (ETIMEDOUT, h)) 0 0 (λ _, 0)
    (flagged_stream 8 4096) 8 small_format degenerate_frame) as Hw.
  destruct Hw as [Hwoken Hret].
  - exact flagged_stream_inv.
  - reflexivity.
  - split; unfold len; simpl; lia.
  - reflexivity.
  - reflexivity.
  - simpl. lia.
  - reflexivity.
  - simpl. lia.
  - exact small_info_frame.
  - exact degenerate_frame_wf.
  - split; [exact Hwoken|]. eapply returns_mono; [exact Hret|].
    intros [[ret f] h'] (Hr & f' & Hf & _). split; [exact Hr|]. rewrite Hf. discriminate.
Defined.

(** The same stream after the flagged frame was published. *)
Definition published_stream : uvc_stream_handle := Eval vm_compute in
  (_uvc_swap_buffers (λ _, 0) (flagged_stream 8 0)).1.

Lemma poll_once_witness :
  ∃ f h', uvc_stream_get_frame 0 enough_memory small_info (λ h, h) (λ _ h, (ETIMEDOUT, h)) 0 0 published_stream (-1)
      = Ret (UVC_SUCCESS, Some f, h')
    ∧ uvc_stream_get_frame 0 enough_memory small_info (λ h, h) (λ _ h, (ETIMEDOUT, h)) 0 0 h' (-1)
      = Ret (UVC_SUCCESS, None, h').
Proof.
  destruct (uvc_stream_get_frame 0 enough_memory small_info (λ h, h) (λ _ h, (ETIMEDOUT, h)) 0 0 published_stream (-1))
    as [[[ret f] h']|] eqn:E; [|discriminate E].
  assert (ret = UVC_SUCCESS ∧ is_Some f) as [-> [f' ->]].
  { vm_compute in E. injection E as <- <- _. split; [reflexivity|]. eexists. reflexivity. }
  exists f', h'. split; [reflexivity|].
  apply (poll_once 0 small_info (λ h, h) (λ _ h, (ETIMEDOUT, h)) 0 0 published_stream f' h' E).
Defined.

(** ** Opening a stream *)

(** The stream as it is after opening, with all its buffers. *)
Definition fresh_stream (junk : Z) (s : uvc_streaming_interface) (ctrl : uvc_stream_ctrl) : uvc_stream_handle :=
  let h := set_cur_ctrl (stream_zero s) ctrl in
  let block n := replicate (Z.to_nat n) junk in
  let w := sh_working h in
  set_buffers h
    (set_meta (set_data w 0 (block (sc_dwMaxVideoFrameSize ctrl))) 0 (block LIBUVC_XFER_META_BUF_SIZE))
    {| hd_seq := 0; hd_pts := 0; hd_last_scr := 0; hd_bytes := 0; hd_buf := block (sc_dwMaxVideoFrameSize ctrl);
       hd_meta_bytes := 0; hd_meta_buf := block LIBUVC_XFER_META_BUF_SIZE; hd_capture_time_finished := 0 |}.

Lemma fresh_stream_inv junk s ctrl : fits 32 (sc_dwMaxVideoFrameSize ctrl) → stream_inv (fresh_stream junk s ctrl).
Proof.
  intros [H0 H1]. unfold stream_inv, working_ok, hold_ok, LIBUVC_XFER_META_BUF_SIZE. simpl. unfold len.
  rewrite !length_replicate. split_and!; try done; lia.
Qed.

(** The buffers of a stream can always be allocated. *)
Definition buffers_allocated `{Environment} : Prop := ∀ t b, rs_code (answer t (Malloc b)) ≠ 0.

Lemma alloc_buffers_run `{Environment} junk s ctrl t :
  wp (alloc_buffers junk (sc_dwMaxVideoFrameSize ctrl) (set_cur_ctrl (stream_zero s) ctrl)) (λ h _,
    sh_stream_if h = s ∧ sh_running h = false ∧ sh_cur_ctrl h = ctrl ∧ wk_got_bytes (sh_working h) = 0
    ∧ (buffers_allocated → h = fresh_stream junk s ctrl)) t.
Proof.
  unfold alloc_buffers. wp_run. split_and!; try done. intros Ha. unfold malloc_block.
  by rewrite !(proj2 (Z.eqb_neq _ 0)) by apply Ha.
Qed.

Section open.
Context `{Environment} (b : uvc_reattach_backend) (fuel n : nat) (junk : Z).
Context (Hhost : host_process n) (Hfuel : (n < fuel)%nat).

Lemma list_find_interface {A} (num : A → Z) (l : list A) i x :
  snd <$> list_find (λ a, num a = i) l = Some x → x ∈ l ∧ num x = i.
Proof.
  destruct (list_find _ l) as [[k y]|] eqn:E; [|done]. intros [= <-].
  apply list_find_Some in E as (Hl & Hn & _). split; [|done]. by eapply list_elem_of_lookup_2.
Qed.

Lemma list_find_no_interface {A} (num : A → Z) (l : list A) i :
  snd <$> list_find (λ a, num a = i) l = None → i ∉ num <$> l.
Proof.
  destruct (list_find _ l) as [[k y]|] eqn:E; [done|]. intros _.
  apply list_find_None in E. rewrite Forall_forall in E.
  intros (x & -> & Hx)%list_elem_of_fmap. by apply (E x).
Qed.

(** The interface numbers of the open streams. *)
Definition open_interfaces (devh : uvc_device_handle) : list Z :=
  (λ s, si_bInterfaceNumber (sh_stream_if s)) <$> dh_streams devh.

Lemma stream_open_run devh info ctrl t :
  dh_info devh = Some info → fits 32 (sc_dwMaxVideoFrameSize ctrl) →
  Forall (λ s, 0 ≤ si_bInterfaceNumber s < 31) (di_stream_ifs info) →
  NoDup (open_interfaces devh) →
  wp (uvc_stream_open_ctrl b fuel junk devh ctrl) (λ '(ret, strmh, devh') _,
    dh_info devh' = dh_info devh ∧ NoDup (open_interfaces devh') ∧
    match strmh with
    | Some s =>
        ret = UVC_SUCCESS ∧ dh_streams devh' = dh_streams devh ++ [s]
        ∧ wk_got_bytes (sh_working s) = 0 ∧ sh_running s = false
        ∧ sh_cur_ctrl s = ctrl ∧ sh_stream_if s ∈ di_stream_ifs info
        ∧ si_bInterfaceNumber (sh_stream_if s) = sc_bInterfaceNumber ctrl
        ∧ (buffers_allocated → s = fresh_stream junk (sh_stream_if s) ctrl)
    | None => ret ≠ UVC_SUCCESS ∧ dh_streams devh' = dh_streams devh
    end) t.
Proof.
  intros Hinfo Hmax Hifs Hnd. unfold uvc_stream_open_ctrl.
  destruct (_uvc_get_stream_by_interface devh (sc_bInterfaceNumber ctrl)) as [s0|] eqn:Es; wp_run; [done|].
  apply list_find_no_interface in Es. rewrite Hinfo. cbn [deref returns].
  destruct (_uvc_get_stream_if info (sc_bInterfaceNumber ctrl)) as [s|] eqn:Ei; wp_run; [|done].
  apply list_find_interface in Ei as [Hin Hnum]. rewrite Forall_forall in Hifs.
  case_match; wp_run; [done|]. eapply wp_mono; [apply (claim_returns b fuel n); [done..|by apply Hifs]|].
  intros [ret devh1] t1 [Hi1 Hs1]. cbn [snd] in Hi1, Hs1.
  assert (open_interfaces devh1 = open_interfaces devh) as Ho1 by (unfold open_interfaces; by rewrite Hs1).
  destruct (Z.eqb_spec ret UVC_SUCCESS) as [->|Hne]; cbn [negb]; wp_run; [|by rewrite Hi1, Ho1].
  assert (wp (uvc_stream_ctrl_op devh1 (stream_zero s) ctrl) (λ res _, (res.1 = UVC_SUCCESS →
    res.2 = set_cur_ctrl (stream_zero s) ctrl)) t1) as Hop.
  { unfold uvc_stream_ctrl_op. simpl. case_match; wp_run; [done|].
    rewrite (wp_Ret _ _ _ _ _ (query_set_run devh1 info ctrl false _ (eq_trans Hi1 Hinfo))).
    case_match eqn:E; wp_run; [|done]. cbn [fst snd] in *. intros Hr. rewrite Hr in E. discriminate. }
  eapply wp_mono; [exact Hop|]. intros [ret strmh] t2 Hres. cbn [fst snd] in Hres.
  destruct (Z.eqb_spec ret UVC_SUCCESS) as [->|Hne]; cbn [negb]; wp_run; [|by rewrite Hi1, Ho1].
  rewrite Hres by done. eapply wp_mono; [apply alloc_buffers_run|]. intros h' t3 (Hif & Hr & Hcc & Hgot & Hfresh). wp_run.
  cbn [dh_info dh_streams set_streams open_interfaces]. split; [by rewrite Hi1|]. split.
  - unfold open_interfaces. simpl. rewrite fmap_app. apply NoDup_app. fold (open_interfaces devh1).
    rewrite Ho1. split_and!; [done| |apply NoDup_singleton].
    intros x Hx ->%list_elem_of_singleton. rewrite Hif, Hnum in Hx. by apply Es.
  - rewrite Hif. split_and!; try done. by rewrite Hs1.
Qed.

(** Opening a stream returns whatever happens, if the four buffers can be allocated.  On success the new stream,
    and only it, is added to the device's list, for the interface of the control
    block, with fresh buffers of the negotiated size that satisfy the invariant
    of the payload processor; no interface ever has two streams.  On any failure
    the list of streams is unchanged. *)
Theorem stream_open_correct devh info ctrl t :
  buffers_allocated → dh_info devh = Some info → fits 32 (sc_dwMaxVideoFrameSize ctrl) →
  Forall (λ s, 0 ≤ si_bInterfaceNumber s < 31) (di_stream_ifs info) →
  NoDup (open_interfaces devh) →
  wp (uvc_stream_open_ctrl b fuel junk devh ctrl) (λ '(ret, strmh, devh') _,
    NoDup (open_interfaces devh') ∧
    match strmh with
    | Some s =>
        ret = UVC_SUCCESS ∧ dh_streams devh' = dh_streams devh ++ [s]
        ∧ stream_inv s ∧ wk_got_bytes (sh_working s) = 0 ∧ sh_running s = false
        ∧ sh_cur_ctrl s = ctrl ∧ sh_stream_if s ∈ di_stream_ifs info
        ∧ si_bInterfaceNumber (sh_stream_if s) = sc_bInterfaceNumber ctrl
    | None => ret ≠ UVC_SUCCESS ∧ dh_streams devh' = dh_streams devh
    end) t.
Proof.
  intros Hall Hinfo Hmax Hifs Hnd. eapply wp_mono; [by apply (stream_open_run devh info)|].
  intros [[ret [s|]] devh'] t' (_ & Hn & Hres); [|done]. split; [done|].
  destruct Hres as (? & ? & ? & ? & ? & ? & ? & Hf). split_and!; try done. rewrite (Hf Hall). by apply fresh_stream_inv.
Qed.
End open.

Lemma stream_open_correct_witness :
  wp (uvc_stream_open_ctrl (H := agree_env) (default_backend (H := agree_env)) 1 0xAA
        (handle_with (Some small_info) 0 None) (ctrl_with_size 64)) (λ '(ret, strmh, devh') _,
    match strmh with
    | Some s => ret = UVC_SUCCESS ∧ stream_inv s
    | None => ret ≠ UVC_SUCCESS
    end) [].
Proof.
  assert (host_process (H := agree_env) 0) as Hh
    by (split; [intros t; discriminate|intros t _; reflexivity]).
  eapply wp_mono.
  - apply (stream_open_correct (H := agree_env) (default_backend (H := agree_env)) 1 0 0xAA Hh ltac:(lia)
      (handle_with (Some small_info) 0 None) small_info (ctrl_with_size 64) []).
    + intros t b. discriminate.
    + reflexivity.
    + simpl. unfold fits. lia.
    + repeat constructor; simpl; lia.
    + apply NoDup_nil_2.
  - intros [[ret strmh] devh'] t' [_ Hres]. destruct strmh; naive_solver.
Defined.
