(* ===== verification/Controls.v ===== *)
(** * Controls: camera and processing controls of src/ctrl.c and src/ctrl-gen.c

    The generated accessors share one shape: a control transfer of a few bytes to
    a terminal or unit, laid out as fields at fixed offsets.  The shape is
    [get_control] and [set_control]; each accessor is one definition with its
    unit, selector, size and fields.  A getter returns the code and, when it
    stored them, the values; [junk] is what the uninitialised buffer holds. *)

From stdpp Require Import prelude.
From S2P Require Import Prelude Types Environment Descriptors Handles.

(** ** Control selectors *)

Definition UVC_CT_SCANNING_MODE_CONTROL : Z := 0x01.
Definition UVC_CT_AE_MODE_CONTROL : Z := 0x02.
Definition UVC_CT_AE_PRIORITY_CONTROL : Z := 0x03.
Definition UVC_CT_EXPOSURE_TIME_ABSOLUTE_CONTROL : Z := 0x04.
Definition UVC_CT_EXPOSURE_TIME_RELATIVE_CONTROL : Z := 0x05.
Definition UVC_CT_FOCUS_ABSOLUTE_CONTROL : Z := 0x06.
Definition UVC_CT_FOCUS_RELATIVE_CONTROL : Z := 0x07.
Definition UVC_CT_FOCUS_AUTO_CONTROL : Z := 0x08.
Definition UVC_CT_IRIS_ABSOLUTE_CONTROL : Z := 0x09.
Definition UVC_CT_IRIS_RELATIVE_CONTROL : Z := 0x0a.
Definition UVC_CT_ZOOM_ABSOLUTE_CONTROL : Z := 0x0b.
Definition UVC_CT_ZOOM_RELATIVE_CONTROL : Z := 0x0c.
Definition UVC_CT_PANTILT_ABSOLUTE_CONTROL : Z := 0x0d.
Definition UVC_CT_PANTILT_RELATIVE_CONTROL : Z := 0x0e.
Definition UVC_CT_ROLL_ABSOLUTE_CONTROL : Z := 0x0f.
Definition UVC_CT_ROLL_RELATIVE_CONTROL : Z := 0x10.
Definition UVC_CT_PRIVACY_CONTROL : Z := 0x11.
Definition UVC_CT_FOCUS_SIMPLE_CONTROL : Z := 0x12.
Definition UVC_CT_DIGITAL_WINDOW_CONTROL : Z := 0x13.
Definition UVC_CT_REGION_OF_INTEREST_CONTROL : Z := 0x14.
Definition UVC_PU_BACKLIGHT_COMPENSATION_CONTROL : Z := 0x01.
Definition UVC_PU_BRIGHTNESS_CONTROL : Z := 0x02.
Definition UVC_PU_CONTRAST_CONTROL : Z := 0x03.
Definition UVC_PU_GAIN_CONTROL : Z := 0x04.
Definition UVC_PU_POWER_LINE_FREQUENCY_CONTROL : Z := 0x05.
Definition UVC_PU_HUE_CONTROL : Z := 0x06.
Definition UVC_PU_SATURATION_CONTROL : Z := 0x07.
Definition UVC_PU_SHARPNESS_CONTROL : Z := 0x08.
Definition UVC_PU_GAMMA_CONTROL : Z := 0x09.
Definition UVC_PU_WHITE_BALANCE_TEMPERATURE_CONTROL : Z := 0x0a.
Definition UVC_PU_WHITE_BALANCE_TEMPERATURE_AUTO_CONTROL : Z := 0x0b.
Definition UVC_PU_WHITE_BALANCE_COMPONENT_CONTROL : Z := 0x0c.
Definition UVC_PU_WHITE_BALANCE_COMPONENT_AUTO_CONTROL : Z := 0x0d.
Definition UVC_PU_DIGITAL_MULTIPLIER_CONTROL : Z := 0x0e.
Definition UVC_PU_DIGITAL_MULTIPLIER_LIMIT_CONTROL : Z := 0x0f.
Definition UVC_PU_HUE_AUTO_CONTROL : Z := 0x10.
Definition UVC_PU_ANALOG_VIDEO_STANDARD_CONTROL : Z := 0x11.
Definition UVC_PU_ANALOG_LOCK_STATUS_CONTROL : Z := 0x12.
Definition UVC_PU_CONTRAST_AUTO_CONTROL : Z := 0x13.
Definition UVC_SU_INPUT_SELECT_CONTROL : Z := 0x01.
Definition UVC_VC_VIDEO_POWER_MODE_CONTROL : Z := 0x01.

Definition REQ_TYPE_SET : Z := 0x21.
Definition REQ_TYPE_GET : Z := 0xa1.

(** ** Units *)

(** [uvc_get_input_terminals], [uvc_get_selector_units], [uvc_get_processing_units]
    and [uvc_get_extension_units]: the head of a list stands for the list. *)
Definition uvc_get_input_terminals (devh : uvc_device_handle) : outcome (list uvc_input_terminal) :=
  info ← deref (dh_info devh);
  Ret (ci_input_term_descs (di_ctrl_if info)).

Definition uvc_get_camera_terminal (devh : uvc_device_handle) : outcome (option uvc_input_terminal) :=
  terms ← uvc_get_input_terminals devh;
  Ret (snd <$> list_find (λ term, it_wTerminalType term = UVC_ITT_CAMERA) terms).

Definition uvc_get_selector_units (devh : uvc_device_handle) : outcome (list uvc_selector_unit) :=
  info ← deref (dh_info devh);
  Ret (ci_selector_unit_descs (di_ctrl_if info)).

Definition uvc_get_processing_units (devh : uvc_device_handle) : outcome (list uvc_processing_unit) :=
  info ← deref (dh_info devh);
  Ret (ci_processing_unit_descs (di_ctrl_if info)).

Definition uvc_get_extension_units (devh : uvc_device_handle) : outcome (list uvc_extension_unit) :=
  info ← deref (dh_info devh);
  Ret (ci_extension_unit_descs (di_ctrl_if info)).

(** Always null. *)
Definition uvc_get_output_terminals (devh : uvc_device_handle) : option Z := None.

(** The formats of the first streaming interface, which has to be there. *)
Definition uvc_get_format_descs (devh : uvc_device_handle) : outcome (list uvc_format_desc) :=
  info ← deref (dh_info devh);
  stream_if ← deref (head (di_stream_ifs info));
  Ret (si_format_descs stream_if).

Inductive ctrl_unit :=
  | CameraTerminal
  | ProcessingUnit
  | SelectorUnit.

(** [uvc_get_camera_terminal(devh)->bTerminalID] and its siblings: a null
    dereference when the device has no such unit. *)
Definition unit_id (devh : uvc_device_handle) (u : ctrl_unit) : outcome Z :=
  match u with
  | CameraTerminal =>
      term ← uvc_get_camera_terminal devh;
      term ← deref term;
      Ret (it_bTerminalID term)
  | ProcessingUnit =>
      units ← uvc_get_processing_units devh;
      unit ← deref (head units);
      Ret (pu_bUnitID unit)
  | SelectorUnit =>
      units ← uvc_get_selector_units devh;
      unit ← deref (head units);
      Ret (su_bUnitID unit)
  end.

Definition ctrl_interface (devh : uvc_device_handle) : outcome Z :=
  info ← deref (dh_info devh);
  Ret (ci_bInterfaceNumber (di_ctrl_if info)).

(** ** Fields *)

Inductive ctype :=
  | U8
  | I8
  | U16
  | I16
  | U32
  | I32.

(** A value of the C type stored at an offset with the macro of its width. *)
Definition put_field (ty : ctype) (v : Z) (data : bytes) (o : Z) : outcome bytes :=
  match ty with
  | U8 | I8 => wr data o (u8 v)
  | U16 | I16 => SHORT_TO_SW v data o
  | U32 | I32 => INT_TO_DW v data o
  end.

(** The value read back, converted to the type of the output parameter. *)
Definition get_field (ty : ctype) (data : bytes) (o : Z) : outcome Z :=
  match ty with
  | U8 => rd data o
  | I8 => b ← rd data o; Ret (wraps 8 b)
  | U16 => v ← SW_TO_SHORT data o; Ret (u16 v)
  | I16 => v ← SW_TO_SHORT data o; Ret (wraps 16 v)
  | U32 => v ← DW_TO_INT data o; Ret (u32 v)
  | I32 => DW_TO_INT data o
  end.

Fixpoint put_fields (fields : list (ctype * Z * Z)) (data : bytes) : outcome bytes :=
  match fields with
  | [] => Ret data
  | (ty, o, v) :: rest => data ← put_field ty v data o; put_fields rest data
  end.

Fixpoint get_fields (fields : list (ctype * Z)) (data : bytes) : outcome (list Z) :=
  match fields with
  | [] => Ret []
  | (ty, o) :: rest =>
      v ← get_field ty data o;
      vs ← get_fields rest data;
      Ret (v :: vs)
  end.

(** ** Accessors *)

Section controls.
Context `{Environment} (junk : Z).

(** Device handle and request code to the code and the values stored. *)
Definition get_op : Type := uvc_device_handle → Z → io (Z * option (list Z)).

Definition get_control (u : ctrl_unit) (selector size : Z) (fields : list (ctype * Z)) : get_op :=
  λ devh req_code,
  id ← lift (unit_id devh u);
  ifnum ← lift (ctrl_interface devh);
  res ← control_transfer REQ_TYPE_GET req_code (Z.shiftl selector 8) (Z.lor (Z.shiftl id 8) ifnum)
    (replicate (Z.to_nat size) junk) size 0;
  let '(ret, data) := res in
  if ret =? size then
    vs ← lift (get_fields fields data);
    mret (UVC_SUCCESS, Some vs)
  else mret (ret, None).

Definition set_control (u : ctrl_unit) (selector size : Z) (fields : list (ctype * Z * Z))
    (devh : uvc_device_handle) : io Z :=
  data ← lift (put_fields fields (replicate (Z.to_nat size) junk));
  id ← lift (unit_id devh u);
  ifnum ← lift (ctrl_interface devh);
  res ← control_transfer REQ_TYPE_SET UVC_SET_CUR (Z.shiftl selector 8) (Z.lor (Z.shiftl id 8) ifnum)
    data size 0;
  if res.1 =? size then mret UVC_SUCCESS else mret res.1.

(** ** ctrl.c *)

Definition uvc_get_ctrl_len (devh : uvc_device_handle) (unit ctrl : Z) : io Z :=
  ifnum ← lift (ctrl_interface devh);
  res ← control_transfer REQ_TYPE_GET UVC_GET_LEN (Z.shiftl ctrl 8) (Z.lor (Z.shiftl unit 8) ifnum)
    [junk; junk] 2 0;
  let '(ret, buf) := res in
  if ret <? 0 then mret ret else
  v ← lift (SW_TO_SHORT buf 0);
  mret (u16 v).

Definition uvc_get_ctrl (devh : uvc_device_handle) (unit ctrl : Z) (data : bytes) (n req_code : Z)
    : io (Z * bytes) :=
  ifnum ← lift (ctrl_interface devh);
  control_transfer REQ_TYPE_GET req_code (Z.shiftl ctrl 8) (Z.lor (Z.shiftl unit 8) ifnum) data n 0.

Definition uvc_set_ctrl (devh : uvc_device_handle) (unit ctrl : Z) (data : bytes) (n : Z) : io Z :=
  ifnum ← lift (ctrl_interface devh);
  res ← control_transfer REQ_TYPE_SET UVC_SET_CUR (Z.shiftl ctrl 8) (Z.lor (Z.shiftl unit 8) ifnum) data n 0;
  mret res.1.

Definition uvc_get_power_mode (devh : uvc_device_handle) (req_code : Z) : io (Z * option Z) :=
  ifnum ← lift (ctrl_interface devh);
  res ← control_transfer REQ_TYPE_GET req_code (Z.shiftl UVC_VC_VIDEO_POWER_MODE_CONTROL 8) ifnum [junk] 1 0;
  let '(ret, data) := res in
  if ret =? 1 then
    mode ← lift (rd data 0);
    mret (UVC_SUCCESS, Some mode)
  else mret (ret, None).

Definition uvc_set_power_mode (devh : uvc_device_handle) (mode : Z) : io Z :=
  ifnum ← lift (ctrl_interface devh);
  res ← control_transfer REQ_TYPE_SET UVC_SET_CUR (Z.shiftl UVC_VC_VIDEO_POWER_MODE_CONTROL 8) ifnum
    [u8 mode] 1 0;
  if res.1 =? 1 then mret UVC_SUCCESS else mret res.1.

(** ** ctrl-gen.c *)

Definition uvc_get_scanning_mode : get_op :=
  get_control CameraTerminal UVC_CT_SCANNING_MODE_CONTROL 1 [(U8, 0)].

Definition uvc_set_scanning_mode (devh : uvc_device_handle) (mode : Z) : io Z :=
  set_control CameraTerminal UVC_CT_SCANNING_MODE_CONTROL 1 [(U8, 0, mode)] devh.

Definition uvc_get_ae_mode : get_op :=
  get_control CameraTerminal UVC_CT_AE_MODE_CONTROL 1 [(U8, 0)].

Definition uvc_set_ae_mode (devh : uvc_device_handle) (mode : Z) : io Z :=
  set_control CameraTerminal UVC_CT_AE_MODE_CONTROL 1 [(U8, 0, mode)] devh.

Definition uvc_get_ae_priority : get_op :=
  get_control CameraTerminal UVC_CT_AE_PRIORITY_CONTROL 1 [(U8, 0)].

Definition uvc_set_ae_priority (devh : uvc_device_handle) (priority : Z) : io Z :=
  set_control CameraTerminal UVC_CT_AE_PRIORITY_CONTROL 1 [(U8, 0, priority)] devh.

Definition uvc_get_exposure_abs : get_op :=
  get_control CameraTerminal UVC_CT_EXPOSURE_TIME_ABSOLUTE_CONTROL 4 [(U32, 0)].

Definition uvc_set_exposure_abs (devh : uvc_device_handle) (time : Z) : io Z :=
  set_control CameraTerminal UVC_CT_EXPOSURE_TIME_ABSOLUTE_CONTROL 4 [(U32, 0, time)] devh.

Definition uvc_get_exposure_rel : get_op :=
  get_control CameraTerminal UVC_CT_EXPOSURE_TIME_RELATIVE_CONTROL 1 [(I8, 0)].

Definition uvc_set_exposure_rel (devh : uvc_device_handle) (step : Z) : io Z :=
  set_control CameraTerminal UVC_CT_EXPOSURE_TIME_RELATIVE_CONTROL 1 [(I8, 0, step)] devh.

Definition uvc_get_focus_abs : get_op :=
  get_control CameraTerminal UVC_CT_FOCUS_ABSOLUTE_CONTROL 2 [(U16, 0)].

Definition uvc_set_focus_abs (devh : uvc_device_handle) (focus : Z) : io Z :=
  set_control CameraTerminal UVC_CT_FOCUS_ABSOLUTE_CONTROL 2 [(U16, 0, focus)] devh.

Definition uvc_get_focus_rel : get_op :=
  get_control CameraTerminal UVC_CT_FOCUS_RELATIVE_CONTROL 2 [(I8, 0); (U8, 1)].

Definition uvc_set_focus_rel (devh : uvc_device_handle) (focus_rel speed : Z) : io Z :=
  set_control CameraTerminal UVC_CT_FOCUS_RELATIVE_CONTROL 2 [(I8, 0, focus_rel); (U8, 1, speed)] devh.

Definition uvc_get_focus_simple_range : get_op :=
  get_control CameraTerminal UVC_CT_FOCUS_SIMPLE_CONTROL 1 [(U8, 0)].

Definition uvc_set_focus_simple_range (devh : uvc_device_handle) (focus : Z) : io Z :=
  set_control CameraTerminal UVC_CT_FOCUS_SIMPLE_CONTROL 1 [(U8, 0, focus)] devh.

Definition uvc_get_focus_auto : get_op :=
  get_control CameraTerminal UVC_CT_FOCUS_AUTO_CONTROL 1 [(U8, 0)].

Definition uvc_set_focus_auto (devh : uvc_device_handle) (state : Z) : io Z :=
  set_control CameraTerminal UVC_CT_FOCUS_AUTO_CONTROL 1 [(U8, 0, state)] devh.

Definition uvc_get_iris_abs : get_op :=
  get_control CameraTerminal UVC_CT_IRIS_ABSOLUTE_CONTROL 2 [(U16, 0)].

Definition uvc_set_iris_abs (devh : uvc_device_handle) (iris : Z) : io Z :=
  set_control CameraTerminal UVC_CT_IRIS_ABSOLUTE_CONTROL 2 [(U16, 0, iris)] devh.

Definition uvc_get_iris_rel : get_op :=
  get_control CameraTerminal UVC_CT_IRIS_RELATIVE_CONTROL 1 [(U8, 0)].

Definition uvc_set_iris_rel (devh : uvc_device_handle) (iris_rel : Z) : io Z :=
  set_control CameraTerminal UVC_CT_IRIS_RELATIVE_CONTROL 1 [(U8, 0, iris_rel)] devh.

Definition uvc_get_zoom_abs : get_op :=
  get_control CameraTerminal UVC_CT_ZOOM_ABSOLUTE_CONTROL 2 [(U16, 0)].

Definition uvc_set_zoom_abs (devh : uvc_device_handle) (focal_length : Z) : io Z :=
  set_control CameraTerminal UVC_CT_ZOOM_ABSOLUTE_CONTROL 2 [(U16, 0, focal_length)] devh.

Definition uvc_get_zoom_rel : get_op :=
  get_control CameraTerminal UVC_CT_ZOOM_RELATIVE_CONTROL 3 [(I8, 0); (U8, 1); (U8, 2)].

Definition uvc_set_zoom_rel (devh : uvc_device_handle) (zoom_rel digital_zoom speed : Z) : io Z :=
  set_control CameraTerminal UVC_CT_ZOOM_RELATIVE_CONTROL 3 [(I8, 0, zoom_rel);
    (U8, 1, digital_zoom); (U8, 2, speed)] devh.

Definition uvc_get_pantilt_abs : get_op :=
  get_control CameraTerminal UVC_CT_PANTILT_ABSOLUTE_CONTROL 8 [(I32, 0); (I32, 4)].

Definition uvc_set_pantilt_abs (devh : uvc_device_handle) (pan tilt : Z) : io Z :=
  set_control CameraTerminal UVC_CT_PANTILT_ABSOLUTE_CONTROL 8 [(I32, 0, pan); (I32, 4, tilt)] devh.

Definition uvc_get_pantilt_rel : get_op :=
  get_control CameraTerminal UVC_CT_PANTILT_RELATIVE_CONTROL 4 [(I8, 0); (U8, 1); (I8, 2); (U8, 3)].

Definition uvc_set_pantilt_rel (devh : uvc_device_handle)
    (pan_rel pan_speed tilt_rel tilt_speed : Z) : io Z :=
  set_control CameraTerminal UVC_CT_PANTILT_RELATIVE_CONTROL 4 [(I8, 0, pan_rel);
    (U8, 1, pan_speed); (I8, 2, tilt_rel); (U8, 3, tilt_speed)] devh.

Definition uvc_get_roll_abs : get_op :=
  get_control CameraTerminal UVC_CT_ROLL_ABSOLUTE_CONTROL 2 [(I16, 0)].

Definition uvc_set_roll_abs (devh : uvc_device_handle) (roll : Z) : io Z :=
  set_control CameraTerminal UVC_CT_ROLL_ABSOLUTE_CONTROL 2 [(I16, 0, roll)] devh.

Definition uvc_get_roll_rel : get_op :=
  get_control CameraTerminal UVC_CT_ROLL_RELATIVE_CONTROL 2 [(I8, 0); (U8, 1)].

Definition uvc_set_roll_rel (devh : uvc_device_handle) (roll_rel speed : Z) : io Z :=
  set_control CameraTerminal UVC_CT_ROLL_RELATIVE_CONTROL 2 [(I8, 0, roll_rel); (U8, 1, speed)] devh.

Definition uvc_get_privacy : get_op :=
  get_control CameraTerminal UVC_CT_PRIVACY_CONTROL 1 [(U8, 0)].

Definition uvc_set_privacy (devh : uvc_device_handle) (privacy : Z) : io Z :=
  set_control CameraTerminal UVC_CT_PRIVACY_CONTROL 1 [(U8, 0, privacy)] devh.

Definition uvc_get_digital_window : get_op :=
  get_control CameraTerminal UVC_CT_DIGITAL_WINDOW_CONTROL 12 [(U16, 0); (U16, 2); (U16, 4);
    (U16, 6); (U16, 8); (U16, 10)].

Definition uvc_set_digital_window (devh : uvc_device_handle)
    (window_top window_left window_bottom window_right num_steps num_steps_units : Z) : io Z :=
  set_control CameraTerminal UVC_CT_DIGITAL_WINDOW_CONTROL 12 [(U16, 0, window_top);
    (U16, 2, window_left); (U16, 4, window_bottom); (U16, 6, window_right); (U16, 8, num_steps);
    (U16, 10, num_steps_units)] devh.

Definition uvc_get_digital_roi : get_op :=
  get_control CameraTerminal UVC_CT_REGION_OF_INTEREST_CONTROL 10 [(U16, 0); (U16, 2); (U16, 4);
    (U16, 6); (U16, 8)].

Definition uvc_set_digital_roi (devh : uvc_device_handle)
    (roi_top roi_left roi_bottom roi_right auto_controls : Z) : io Z :=
  set_control CameraTerminal UVC_CT_REGION_OF_INTEREST_CONTROL 10 [(U16, 0, roi_top);
    (U16, 2, roi_left); (U16, 4, roi_bottom); (U16, 6, roi_right); (U16, 8, auto_controls)] devh.

Definition uvc_get_backlight_compensation : get_op :=
  get_control ProcessingUnit UVC_PU_BACKLIGHT_COMPENSATION_CONTROL 2 [(U16, 0)].

Definition uvc_set_backlight_compensation (devh : uvc_device_handle)
    (backlight_compensation : Z) : io Z :=
  set_control ProcessingUnit UVC_PU_BACKLIGHT_COMPENSATION_CONTROL 2 [(U16, 0,
    backlight_compensation)] devh.

Definition uvc_get_brightness : get_op :=
  get_control ProcessingUnit UVC_PU_BRIGHTNESS_CONTROL 2 [(I16, 0)].

Definition uvc_set_brightness (devh : uvc_device_handle) (brightness : Z) : io Z :=
  set_control ProcessingUnit UVC_PU_BRIGHTNESS_CONTROL 2 [(I16, 0, brightness)] devh.

Definition uvc_get_contrast : get_op :=
  get_control ProcessingUnit UVC_PU_CONTRAST_CONTROL 2 [(U16, 0)].

Definition uvc_set_contrast (devh : uvc_device_handle) (contrast : Z) : io Z :=
  set_control ProcessingUnit UVC_PU_CONTRAST_CONTROL 2 [(U16, 0, contrast)] devh.

Definition uvc_get_contrast_auto : get_op :=
  get_control ProcessingUnit UVC_PU_CONTRAST_AUTO_CONTROL 1 [(U8, 0)].

Definition uvc_set_contrast_auto (devh : uvc_device_handle) (contrast_auto : Z) : io Z :=
  set_control ProcessingUnit UVC_PU_CONTRAST_AUTO_CONTROL 1 [(U8, 0, contrast_auto)] devh.

Definition uvc_get_gain : get_op :=
  get_control ProcessingUnit UVC_PU_GAIN_CONTROL 2 [(U16, 0)].

Definition uvc_set_gain (devh : uvc_device_handle) (gain : Z) : io Z :=
  set_control ProcessingUnit UVC_PU_GAIN_CONTROL 2 [(U16, 0, gain)] devh.

Definition uvc_get_power_line_frequency : get_op :=
  get_control ProcessingUnit UVC_PU_POWER_LINE_FREQUENCY_CONTROL 1 [(U8, 0)].

Definition uvc_set_power_line_frequency (devh : uvc_device_handle) (power_line_frequency : Z) : io Z :=
  set_control ProcessingUnit UVC_PU_POWER_LINE_FREQUENCY_CONTROL 1 [(U8, 0, power_line_frequency)] devh.

Definition uvc_get_hue : get_op :=
  get_control ProcessingUnit UVC_PU_HUE_CONTROL 2 [(I16, 0)].

Definition uvc_set_hue (devh : uvc_device_handle) (hue : Z) : io Z :=
  set_control ProcessingUnit UVC_PU_HUE_CONTROL 2 [(I16, 0, hue)] devh.

Definition uvc_get_hue_auto : get_op :=
  get_control ProcessingUnit UVC_PU_HUE_AUTO_CONTROL 1 [(U8, 0)].

Definition uvc_set_hue_auto (devh : uvc_device_handle) (hue_auto : Z) : io Z :=
  set_control ProcessingUnit UVC_PU_HUE_AUTO_CONTROL 1 [(U8, 0, hue_auto)] devh.

Definition uvc_get_saturation : get_op :=
  get_control ProcessingUnit UVC_PU_SATURATION_CONTROL 2 [(U16, 0)].

Definition uvc_set_saturation (devh : uvc_device_handle) (saturation : Z) : io Z :=
  set_control ProcessingUnit UVC_PU_SATURATION_CONTROL 2 [(U16, 0, saturation)] devh.

Definition uvc_get_sharpness : get_op :=
  get_control ProcessingUnit UVC_PU_SHARPNESS_CONTROL 2 [(U16, 0)].

Definition uvc_set_sharpness (devh : uvc_device_handle) (sharpness : Z) : io Z :=
  set_control ProcessingUnit UVC_PU_SHARPNESS_CONTROL 2 [(U16, 0, sharpness)] devh.

Definition uvc_get_gamma : get_op :=
  get_control ProcessingUnit UVC_PU_GAMMA_CONTROL 2 [(U16, 0)].

Definition uvc_set_gamma (devh : uvc_device_handle) (gamma : Z) : io Z :=
  set_control ProcessingUnit UVC_PU_GAMMA_CONTROL 2 [(U16, 0, gamma)] devh.

Definition uvc_get_white_balance_temperature : get_op :=
  get_control ProcessingUnit UVC_PU_WHITE_BALANCE_TEMPERATURE_CONTROL 2 [(U16, 0)].

Definition uvc_set_white_balance_temperature (devh : uvc_device_handle) (temperature : Z) : io Z :=
  set_control ProcessingUnit UVC_PU_WHITE_BALANCE_TEMPERATURE_CONTROL 2 [(U16, 0, temperature)] devh.

Definition uvc_get_white_balance_temperature_auto : get_op :=
  get_control ProcessingUnit UVC_PU_WHITE_BALANCE_TEMPERATURE_AUTO_CONTROL 1 [(U8, 0)].

Definition uvc_set_white_balance_temperature_auto (devh : uvc_device_handle)
    (temperature_auto : Z) : io Z :=
  set_control ProcessingUnit UVC_PU_WHITE_BALANCE_TEMPERATURE_AUTO_CONTROL 1 [(U8, 0,
    temperature_auto)] devh.

Definition uvc_get_white_balance_component : get_op :=
  get_control ProcessingUnit UVC_PU_WHITE_BALANCE_COMPONENT_CONTROL 4 [(U16, 0); (U16, 2)].

Definition uvc_set_white_balance_component (devh : uvc_device_handle) (blue red : Z) : io Z :=
  set_control ProcessingUnit UVC_PU_WHITE_BALANCE_COMPONENT_CONTROL 4 [(U16, 0, blue);
    (U16, 2, red)] devh.

Definition uvc_get_white_balance_component_auto : get_op :=
  get_control ProcessingUnit UVC_PU_WHITE_BALANCE_COMPONENT_AUTO_CONTROL 1 [(U8, 0)].

Definition uvc_set_white_balance_component_auto (devh : uvc_device_handle)
    (white_balance_component_auto : Z) : io Z :=
  set_control ProcessingUnit UVC_PU_WHITE_BALANCE_COMPONENT_AUTO_CONTROL 1 [(U8, 0,
    white_balance_component_auto)] devh.

Definition uvc_get_digital_multiplier : get_op :=
  get_control ProcessingUnit UVC_PU_DIGITAL_MULTIPLIER_CONTROL 2 [(U16, 0)].

Definition uvc_set_digital_multiplier (devh : uvc_device_handle) (multiplier_step : Z) : io Z :=
  set_control ProcessingUnit UVC_PU_DIGITAL_MULTIPLIER_CONTROL 2 [(U16, 0, multiplier_step)] devh.

Definition uvc_get_digital_multiplier_limit : get_op :=
  get_control ProcessingUnit UVC_PU_DIGITAL_MULTIPLIER_LIMIT_CONTROL 2 [(U16, 0)].

Definition uvc_set_digital_multiplier_limit (devh : uvc_device_handle) (multiplier_step : Z) : io Z :=
  set_control ProcessingUnit UVC_PU_DIGITAL_MULTIPLIER_LIMIT_CONTROL 2 [(U16, 0, multiplier_step)] devh.

Definition uvc_get_analog_video_standard : get_op :=
  get_control ProcessingUnit UVC_PU_ANALOG_VIDEO_STANDARD_CONTROL 1 [(U8, 0)].

Definition uvc_set_analog_video_standard (devh : uvc_device_handle) (video_standard : Z) : io Z :=
  set_control ProcessingUnit UVC_PU_ANALOG_VIDEO_STANDARD_CONTROL 1 [(U8, 0, video_standard)] devh.

Definition uvc_get_analog_video_lock_status : get_op :=
  get_control ProcessingUnit UVC_PU_ANALOG_LOCK_STATUS_CONTROL 1 [(U8, 0)].

Definition uvc_set_analog_video_lock_status (devh : uvc_device_handle) (status : Z) : io Z :=
  set_control ProcessingUnit UVC_PU_ANALOG_LOCK_STATUS_CONTROL 1 [(U8, 0, status)] devh.

Definition uvc_get_input_select : get_op :=
  get_control SelectorUnit UVC_SU_INPUT_SELECT_CONTROL 1 [(U8, 0)].

Definition uvc_set_input_select (devh : uvc_device_handle) (selector : Z) : io Z :=
  set_control SelectorUnit UVC_SU_INPUT_SELECT_CONTROL 1 [(U8, 0, selector)] devh.

(** ** The controls *)

(** A control: the C types of its values, its getter and its setter. *)
Record control := {
  cn_types : list ctype;
  cn_get : get_op;
  cn_set : uvc_device_handle → list Z → io Z;
}.

Definition all_controls : list control := [
  {| cn_types := [U8]; cn_get := uvc_get_scanning_mode;
     cn_set := λ devh vs,
       match vs with [a0] => uvc_set_scanning_mode devh a0 | _ => mret UVC_ERROR_INVALID_PARAM end |};
  {| cn_types := [U8]; cn_get := uvc_get_ae_mode;
     cn_set := λ devh vs,
       match vs with [a0] => uvc_set_ae_mode devh a0 | _ => mret UVC_ERROR_INVALID_PARAM end |};
  {| cn_types := [U8]; cn_get := uvc_get_ae_priority;
     cn_set := λ devh vs,
       match vs with [a0] => uvc_set_ae_priority devh a0 | _ => mret UVC_ERROR_INVALID_PARAM end |};
  {| cn_types := [U32]; cn_get := uvc_get_exposure_abs;
     cn_set := λ devh vs,
       match vs with [a0] => uvc_set_exposure_abs devh a0 | _ => mret UVC_ERROR_INVALID_PARAM end |};
  {| cn_types := [I8]; cn_get := uvc_get_exposure_rel;
     cn_set := λ devh vs,
       match vs with [a0] => uvc_set_exposure_rel devh a0 | _ => mret UVC_ERROR_INVALID_PARAM end |};
  {| cn_types := [U16]; cn_get := uvc_get_focus_abs;
     cn_set := λ devh vs,
       match vs with [a0] => uvc_set_focus_abs devh a0 | _ => mret UVC_ERROR_INVALID_PARAM end |};
  {| cn_types := [I8; U8]; cn_get := uvc_get_focus_rel;
     cn_set := λ devh vs,
       match vs with [a0; a1] => uvc_set_focus_rel devh a0 a1 | _ => mret UVC_ERROR_INVALID_PARAM end |};
  {| cn_types := [U8]; cn_get := uvc_get_focus_simple_range;
     cn_set := λ devh vs,
       match vs with [a0] => uvc_set_focus_simple_range devh a0 | _ => mret UVC_ERROR_INVALID_PARAM end |};
  {| cn_types := [U8]; cn_get := uvc_get_focus_auto;
     cn_set := λ devh vs,
       match vs with [a0] => uvc_set_focus_auto devh a0 | _ => mret UVC_ERROR_INVALID_PARAM end |};
  {| cn_types := [U16]; cn_get := uvc_get_iris_abs;
     cn_set := λ devh vs,
       match vs with [a0] => uvc_set_iris_abs devh a0 | _ => mret UVC_ERROR_INVALID_PARAM end |};
  {| cn_types := [U8]; cn_get := uvc_get_iris_rel;
     cn_set := λ devh vs,
       match vs with [a0] => uvc_set_iris_rel devh a0 | _ => mret UVC_ERROR_INVALID_PARAM end |};
  {| cn_types := [U16]; cn_get := uvc_get_zoom_abs;
     cn_set := λ devh vs,
       match vs with [a0] => uvc_set_zoom_abs devh a0 | _ => mret UVC_ERROR_INVALID_PARAM end |};
  {| cn_types := [I8; U8; U8]; cn_get := uvc_get_zoom_rel;
     cn_set := λ devh vs,
       match vs with [a0; a1; a2] => uvc_set_zoom_rel devh a0 a1 a2 | _ => mret UVC_ERROR_INVALID_PARAM end |};
  {| cn_types := [I32; I32]; cn_get := uvc_get_pantilt_abs;
     cn_set := λ devh vs,
       match vs with [a0; a1] => uvc_set_pantilt_abs devh a0 a1 | _ => mret UVC_ERROR_INVALID_PARAM end |};
  {| cn_types := [I8; U8; I8; U8]; cn_get := uvc_get_pantilt_rel;
     cn_set := λ devh vs,
       match vs with [a0; a1; a2; a3] => uvc_set_pantilt_rel devh a0 a1 a2 a3 | _ => mret UVC_ERROR_INVALID_PARAM end |};
  {| cn_types := [I16]; cn_get := uvc_get_roll_abs;
     cn_set := λ devh vs,
       match vs with [a0] => uvc_set_roll_abs devh a0 | _ => mret UVC_ERROR_INVALID_PARAM end |};
  {| cn_types := [I8; U8]; cn_get := uvc_get_roll_rel;
     cn_set := λ devh vs,
       match vs with [a0; a1] => uvc_set_roll_rel devh a0 a1 | _ => mret UVC_ERROR_INVALID_PARAM end |};
  {| cn_types := [U8]; cn_get := uvc_get_privacy;
     cn_set := λ devh vs,
       match vs with [a0] => uvc_set_privacy devh a0 | _ => mret UVC_ERROR_INVALID_PARAM end |};
  {| cn_types := [U16; U16; U16; U16; U16; U16]; cn_get := uvc_get_digital_window;
     cn_set := λ devh vs,
       match vs with [a0; a1; a2; a3; a4; a5] => uvc_set_digital_window devh a0 a1 a2 a3 a4 a5 | _ => mret UVC_ERROR_INVALID_PARAM end |};
  {| cn_types := [U16; U16; U16; U16; U16]; cn_get := uvc_get_digital_roi;
     cn_set := λ devh vs,
       match vs with [a0; a1; a2; a3; a4] => uvc_set_digital_roi devh a0 a1 a2 a3 a4 | _ => mret UVC_ERROR_INVALID_PARAM end |};
  {| cn_types := [U16]; cn_get := uvc_get_backlight_compensation;
     cn_set := λ devh vs,
       match vs with [a0] => uvc_set_backlight_compensation devh a0 | _ => mret UVC_ERROR_INVALID_PARAM end |};
  {| cn_types := [I16]; cn_get := uvc_get_brightness;
     cn_set := λ devh vs,
       match vs with [a0] => uvc_set_brightness devh a0 | _ => mret UVC_ERROR_INVALID_PARAM end |};
  {| cn_types := [U16]; cn_get := uvc_get_contrast;
     cn_set := λ devh vs,
       match vs with [a0] => uvc_set_contrast devh a0 | _ => mret UVC_ERROR_INVALID_PARAM end |};
  {| cn_types := [U8]; cn_get := uvc_get_contrast_auto;
     cn_set := λ devh vs,
       match vs with [a0] => uvc_set_contrast_auto devh a0 | _ => mret UVC_ERROR_INVALID_PARAM end |};
  {| cn_types := [U16]; cn_get := uvc_get_gain;
     cn_set := λ devh vs,
       match vs with [a0] => uvc_set_gain devh a0 | _ => mret UVC_ERROR_INVALID_PARAM end |};
  {| cn_types := [U8]; cn_get := uvc_get_power_line_frequency;
     cn_set := λ devh vs,
       match vs with [a0] => uvc_set_power_line_frequency devh a0 | _ => mret UVC_ERROR_INVALID_PARAM end |};
  {| cn_types := [I16]; cn_get := uvc_get_hue;
     cn_set := λ devh vs,
       match vs with [a0] => uvc_set_hue devh a0 | _ => mret UVC_ERROR_INVALID_PARAM end |};
  {| cn_types := [U8]; cn_get := uvc_get_hue_auto;
     cn_set := λ devh vs,
       match vs with [a0] => uvc_set_hue_auto devh a0 | _ => mret UVC_ERROR_INVALID_PARAM end |};
  {| cn_types := [U16]; cn_get := uvc_get_saturation;
     cn_set := λ devh vs,
       match vs with [a0] => uvc_set_saturation devh a0 | _ => mret UVC_ERROR_INVALID_PARAM end |};
  {| cn_types := [U16]; cn_get := uvc_get_sharpness;
     cn_set := λ devh vs,
       match vs with [a0] => uvc_set_sharpness devh a0 | _ => mret UVC_ERROR_INVALID_PARAM end |};
  {| cn_types := [U16]; cn_get := uvc_get_gamma;
     cn_set := λ devh vs,
       match vs with [a0] => uvc_set_gamma devh a0 | _ => mret UVC_ERROR_INVALID_PARAM end |};
  {| cn_types := [U16]; cn_get := uvc_get_white_balance_temperature;
     cn_set := λ devh vs,
       match vs with [a0] => uvc_set_white_balance_temperature devh a0 | _ => mret UVC_ERROR_INVALID_PARAM end |};
  {| cn_types := [U8]; cn_get := uvc_get_white_balance_temperature_auto;
     cn_set := λ devh vs,
       match vs with [a0] => uvc_set_white_balance_temperature_auto devh a0 | _ => mret UVC_ERROR_INVALID_PARAM end |};
  {| cn_types := [U16; U16]; cn_get := uvc_get_white_balance_component;
     cn_set := λ devh vs,
       match vs with [a0; a1] => uvc_set_white_balance_component devh a0 a1 | _ => mret UVC_ERROR_INVALID_PARAM end |};
  {| cn_types := [U8]; cn_get := uvc_get_white_balance_component_auto;
     cn_set := λ devh vs,
       match vs with [a0] => uvc_set_white_balance_component_auto devh a0 | _ => mret UVC_ERROR_INVALID_PARAM end |};
  {| cn_types := [U16]; cn_get := uvc_get_digital_multiplier;
     cn_set := λ devh vs,
       match vs with [a0] => uvc_set_digital_multiplier devh a0 | _ => mret UVC_ERROR_INVALID_PARAM end |};
  {| cn_types := [U16]; cn_get := uvc_get_digital_multiplier_limit;
     cn_set := λ devh vs,
       match vs with [a0] => uvc_set_digital_multiplier_limit devh a0 | _ => mret UVC_ERROR_INVALID_PARAM end |};
  {| cn_types := [U8]; cn_get := uvc_get_analog_video_standard;
     cn_set := λ devh vs,
       match vs with [a0] => uvc_set_analog_video_standard devh a0 | _ => mret UVC_ERROR_INVALID_PARAM end |};
  {| cn_types := [U8]; cn_get := uvc_get_analog_video_lock_status;
     cn_set := λ devh vs,
       match vs with [a0] => uvc_set_analog_video_lock_status devh a0 | _ => mret UVC_ERROR_INVALID_PARAM end |};
  {| cn_types := [U8]; cn_get := uvc_get_input_select;
     cn_set := λ devh vs,
       match vs with [a0] => uvc_set_input_select devh a0 | _ => mret UVC_ERROR_INVALID_PARAM end |}
].
End controls.
