(* ===== verification/ControlsFacts.v ===== *)
(** * ControlsFacts: what the control accessors promise

    The forty pairs of generated accessors are the rows of [control_table]: unit,
    selector and the C types of the fields, laid out one after the other.  The
    theorems are proved once for a row and hold for every accessor. *)

From stdpp Require Import prelude.
From S2P Require Import Prelude Types Environment Descriptors Handles Controls.

(** ** Field types *)

Definition width (ty : ctype) : Z :=
  match ty with
  | U8 | I8 => 1
  | U16 | I16 => 2
  | U32 | I32 => 4
  end.

Definition in_type (ty : ctype) (v : Z) : Prop :=
  match ty with
  | U8 => 0 ≤ v < 2 ^ 8
  | I8 => - 2 ^ 7 ≤ v < 2 ^ 7
  | U16 => 0 ≤ v < 2 ^ 16
  | I16 => - 2 ^ 15 ≤ v < 2 ^ 15
  | U32 => 0 ≤ v < 2 ^ 32
  | I32 => - 2 ^ 31 ≤ v < 2 ^ 31
  end.

#[export] Instance in_type_dec ty v : Decision (in_type ty v).
Proof. destruct ty; apply _. Defined.

(** The bytes of a field in a message. *)
Definition enc (ty : ctype) (v : Z) : bytes :=
  match ty with
  | U8 | I8 => [u8 v]
  | U16 | I16 => le16 v
  | U32 | I32 => le32 v
  end.

Fixpoint message (tys : list ctype) (vs : list Z) : bytes :=
  match tys, vs with
  | ty :: tys, v :: vs => enc ty v ++ message tys vs
  | _, _ => []
  end.

(** Fields one after the other from offset [o]. *)
Fixpoint layout (o : Z) (tys : list ctype) : list (ctype * Z) :=
  match tys with
  | [] => []
  | ty :: tys => (ty, o) :: layout (o + width ty) tys
  end.

Fixpoint total (tys : list ctype) : Z :=
  match tys with
  | [] => 0
  | ty :: tys => width ty + total tys
  end.

Fixpoint with_values (fields : list (ctype * Z)) (vs : list Z) : list (ctype * Z * Z) :=
  match fields, vs with
  | f :: fields, v :: vs => (f, v) :: with_values fields vs
  | _, _ => []
  end.

Lemma enc_len ty v : len (enc ty v) = width ty.
Proof. by destruct ty. Qed.

Lemma enc_ok ty v : bytes_ok (enc ty v).
Proof. destruct ty; (apply le16_ok || apply le32_ok || (repeat constructor; by apply wrapu_fits)). Qed.

Lemma width_pos ty : 0 < width ty.
Proof. by destruct ty. Qed.

Lemma total_nonneg tys : 0 ≤ total tys.
Proof. induction tys as [|ty tys IH]; simpl; [done|]. pose proof (width_pos ty). lia. Qed.

Lemma message_len tys vs : length vs = length tys → len (message tys vs) = total tys.
Proof.
  revert vs. induction tys as [|ty tys IH]; intros [|v vs]; try done.
  intros [= Hl]. cbn [message total]. rewrite len_app, enc_len, IH; done.
Qed.

Lemma message_ok tys vs : bytes_ok (message tys vs).
Proof.
  revert vs. induction tys as [|ty tys IH]; intros [|v vs]; try constructor.
  apply Forall_app. split; [apply enc_ok|apply IH].
Qed.

(** *** Writing and reading one field *)

Lemma put_field_at ty v (pre mid post : bytes) :
  len mid = width ty →
  put_field ty v (pre ++ mid ++ post) (len pre) = Ret (pre ++ enc ty v ++ post).
Proof.
  intros Hm. unfold put_field, SHORT_TO_SW, INT_TO_DW. rewrite <- (Z.add_0_r (len pre)), <- ?Z.add_assoc.
  destruct ty, mid as [|a [|b [|c [|d [|e mid]]]]]; unfold len in Hm; cbn [length width] in Hm; try lia.
  all: repeat (erewrite wr_app by (apply wr_head; unfold len; rewrite ?length_insert; cbn [length]; lia); cbn [mbind outcome_bind]).
  all: done.
Qed.

Lemma u16_bytes v : Z.lor (u8 v) (Z.shiftl (u8 (Z.shiftr v 8)) 8) = u16 v.
Proof.
  rewrite lor_shiftl_add; [|lia|by apply wrapu_fits|by apply wrapu_fits].
  rewrite Z.shiftr_div_pow2 by lia. unfold wrapu.
  change (2 ^ 8) with 256. change (2 ^ 16) with 65536.
  Z.to_euclidean_division_equations. lia.
Qed.

Lemma u32_bytes v :
  Z.lor (Z.lor (Z.lor (u8 v) (Z.shiftl (u8 (Z.shiftr v 8)) 8)) (Z.shiftl (u8 (Z.shiftr v 16)) 16))
    (Z.shiftl (u8 (Z.shiftr v 24)) 24) = u32 v.
Proof.
  rewrite u16_bytes.
  rewrite !(Z.shiftr_div_pow2 v) by lia.
  rewrite (lor_shiftl_add 16); [|lia|by apply wrapu_fits|by apply wrapu_fits].
  assert (u16 v + u8 (v / 2 ^ 16) * 2 ^ 16 = wrapu 24 v) as ->.
  { unfold wrapu. change (2 ^ 8) with 256. change (2 ^ 16) with 65536. change (2 ^ 24) with 16777216.
    Z.to_euclidean_division_equations. lia. }
  rewrite (lor_shiftl_add 24); [|lia|by apply wrapu_fits|by apply wrapu_fits].
  unfold wrapu. change (2 ^ 8) with 256. change (2 ^ 24) with 16777216. change (2 ^ 32) with 4294967296.
  Z.to_euclidean_division_equations. lia.
Qed.

Lemma wraps_wrapu w v : 0 < w → wraps w (wrapu w v) = wraps w v.
Proof. intros. unfold wraps, wrapu. by rewrite Zplus_mod_idemp_l. Qed.

Lemma wraps_id w v : 0 < w → - 2 ^ (w - 1) ≤ v < 2 ^ (w - 1) → wraps w v = v.
Proof.
  intros Hw Hv. unfold wraps. assert (2 ^ w = 2 * 2 ^ (w - 1)) as Hp.
  { rewrite <- Z.pow_succ_r by lia. f_equal. lia. }
  rewrite Z.mod_small; lia.
Qed.

Lemma get_field_at ty v (pre post : bytes) :
  in_type ty v → get_field ty (pre ++ enc ty v ++ post) (len pre) = Ret v.
Proof.
  intros Hv. unfold get_field, SW_TO_SHORT, DW_TO_INT. rewrite <- (Z.add_0_r (len pre)), <- ?Z.add_assoc.
  destruct ty; rewrite !rd_app by lia; unfold rd; rewrite !decide_True by lia;
    unfold mbind, outcome_bind; cbn -[Z.pow Z.lor Z.shiftl wrapu wraps].
  all: f_equal; rewrite ?u32_bytes, ?u16_bytes, ?wrapu_wraps, ?wraps_wrapu by lia.
  all: rewrite ?(wrapu_id _ (wrapu _ _)) by (by apply wrapu_fits).
  all: first [by apply wrapu_id | by apply wraps_id].
Qed.

(** *** Whole messages *)

Lemma put_fields_layout tys vs (pre mid : bytes) :
  length vs = length tys → len mid = total tys →
  put_fields (with_values (layout (len pre) tys) vs) (pre ++ mid) = Ret (pre ++ message tys vs).
Proof.
  revert vs pre mid. induction tys as [|ty tys IH]; intros [|v vs] pre mid; try done.
  { intros _ ->%len_nil_inv. done. }
  intros [= Hl] Hm. cbn [total] in Hm. pose proof (width_pos ty). pose proof (total_nonneg tys).
  cbn [layout with_values put_fields message].
  rewrite <- (take_drop (Z.to_nat (width ty)) mid).
  rewrite put_field_at by (apply len_take; lia). cbn [mbind outcome_bind].
  rewrite app_assoc, <- (enc_len ty v), <- len_app, IH; [by rewrite <- app_assoc|done|].
  rewrite enc_len, len_drop; lia.
Qed.

Lemma get_fields_layout tys vs (pre : bytes) :
  Forall2 in_type tys vs →
  get_fields (layout (len pre) tys) (pre ++ message tys vs) = Ret vs.
Proof.
  intros Hv. revert pre. induction Hv as [|ty v tys vs Hv _ IH]; intros pre; [done|].
  cbn [layout get_fields message]. rewrite get_field_at by done. cbn [mbind outcome_bind].
  rewrite app_assoc, <- (enc_len ty v), <- len_app, IH. done.
Qed.

(** Every block of the right size is the message of some values. *)

Ltac byte_arith :=
  unfold fits, le16, le32, wrapu, wraps in *; rewrite ?Z.shiftr_div_pow2 by lia;
  repeat match goal with |- _ :: _ = _ :: _ => f_equal end; try done;
  change (2 ^ 8) with 256 in *; change (2 ^ 16) with 65536 in *; change (2 ^ 24) with 16777216 in *;
  change (2 ^ (16 - 1)) with 32768 in *; change (2 ^ 32) with 4294967296 in *;
  change (2 ^ (32 - 1)) with 2147483648 in *; Z.to_euclidean_division_equations; lia.

Lemma le16_of a b : fits 8 a → fits 8 b → le16 (a + 2 ^ 8 * b) = [a; b].
Proof. intros. byte_arith. Qed.

Lemma le32_of a b c d :
  fits 8 a → fits 8 b → fits 8 c → fits 8 d → le32 (a + 2 ^ 8 * b + 2 ^ 16 * c + 2 ^ 24 * d) = [a; b; c; d].
Proof. intros. byte_arith. Qed.

Lemma le16_wraps z : le16 (wraps 16 z) = le16 z.
Proof. byte_arith. Qed.

Lemma le32_wraps z : le32 (wraps 32 z) = le32 z.
Proof. byte_arith. Qed.

Lemma wraps_range w z : 0 < w → - 2 ^ (w - 1) ≤ wraps w z < 2 ^ (w - 1).
Proof.
  intros Hw. unfold wraps. assert (2 ^ w = 2 * 2 ^ (w - 1)) as Hp.
  { rewrite <- Z.pow_succ_r by lia. f_equal. lia. }
  assert (0 < 2 ^ (w - 1)) by (apply Z.pow_pos_nonneg; lia).
  pose proof (Z.mod_pos_bound (z + 2 ^ (w - 1)) (2 ^ w)). lia.
Qed.

Lemma enc_surjective ty (mid : bytes) :
  bytes_ok mid → len mid = width ty → ∃ v, in_type ty v ∧ enc ty v = mid.
Proof.
  intros Hok Hl. unfold bytes_ok in Hok.
  destruct ty, mid as [|a [|b [|c [|d [|e mid]]]]]; unfold len in Hl; cbn [length width] in Hl; try lia;
    repeat match goal with H : Forall _ (_ :: _) |- _ => apply Forall_cons in H as [? H] end; cbn [in_type enc].
  - exists a. split; [done|]. by rewrite wrapu_id.
  - exists (wraps 8 a). split; [by apply (wraps_range 8)|]. by rewrite wrapu_wraps, wrapu_id.
  - exists (a + 2 ^ 8 * b). split; [unfold fits in *; lia|]. by rewrite le16_of.
  - exists (wraps 16 (a + 2 ^ 8 * b)). split; [by apply (wraps_range 16)|]. by rewrite le16_wraps, le16_of.
  - exists (a + 2 ^ 8 * b + 2 ^ 16 * c + 2 ^ 24 * d). split; [unfold fits in *; lia|]. by rewrite le32_of.
  - exists (wraps 32 (a + 2 ^ 8 * b + 2 ^ 16 * c + 2 ^ 24 * d)).
    split; [by apply (wraps_range 32)|]. by rewrite le32_wraps, le32_of.
Qed.

Lemma message_surjective tys (data : bytes) :
  bytes_ok data → len data = total tys → ∃ vs, Forall2 in_type tys vs ∧ message tys vs = data.
Proof.
  revert data. induction tys as [|ty tys IH]; intros data Hok Hl.
  { exists []. split; [constructor|]. by apply len_nil_inv in Hl. }
  cbn [total] in Hl. pose proof (width_pos ty). pose proof (total_nonneg tys).
  destruct (enc_surjective ty (take (Z.to_nat (width ty)) data)) as (v & Hv & Ev);
    [by apply bytes_ok_take|apply len_take; lia|].
  destruct (IH (drop (Z.to_nat (width ty)) data)) as (vs & Hvs & Evs);
    [by apply bytes_ok_drop|rewrite len_drop; lia|].
  exists (v :: vs). split; [by constructor|]. cbn [message]. rewrite Ev, Evs. apply take_drop.
Qed.

(** ** The table of controls

    The rows are in the order of [all_controls]: unit, selector, field types. *)

Abbreviation row := (ctrl_unit * Z * list ctype)%type.

Definition control_table : list row := [
  (CameraTerminal, UVC_CT_SCANNING_MODE_CONTROL, [U8]);
  (CameraTerminal, UVC_CT_AE_MODE_CONTROL, [U8]);
  (CameraTerminal, UVC_CT_AE_PRIORITY_CONTROL, [U8]);
  (CameraTerminal, UVC_CT_EXPOSURE_TIME_ABSOLUTE_CONTROL, [U32]);
  (CameraTerminal, UVC_CT_EXPOSURE_TIME_RELATIVE_CONTROL, [I8]);
  (CameraTerminal, UVC_CT_FOCUS_ABSOLUTE_CONTROL, [U16]);
  (CameraTerminal, UVC_CT_FOCUS_RELATIVE_CONTROL, [I8; U8]);
  (CameraTerminal, UVC_CT_FOCUS_SIMPLE_CONTROL, [U8]);
  (CameraTerminal, UVC_CT_FOCUS_AUTO_CONTROL, [U8]);
  (CameraTerminal, UVC_CT_IRIS_ABSOLUTE_CONTROL, [U16]);
  (CameraTerminal, UVC_CT_IRIS_RELATIVE_CONTROL, [U8]);
  (CameraTerminal, UVC_CT_ZOOM_ABSOLUTE_CONTROL, [U16]);
  (CameraTerminal, UVC_CT_ZOOM_RELATIVE_CONTROL, [I8; U8; U8]);
  (CameraTerminal, UVC_CT_PANTILT_ABSOLUTE_CONTROL, [I32; I32]);
  (CameraTerminal, UVC_CT_PANTILT_RELATIVE_CONTROL, [I8; U8; I8; U8]);
  (CameraTerminal, UVC_CT_ROLL_ABSOLUTE_CONTROL, [I16]);
  (CameraTerminal, UVC_CT_ROLL_RELATIVE_CONTROL, [I8; U8]);
  (CameraTerminal, UVC_CT_PRIVACY_CONTROL, [U8]);
  (CameraTerminal, UVC_CT_DIGITAL_WINDOW_CONTROL, [U16; U16; U16; U16; U16; U16]);
  (CameraTerminal, UVC_CT_REGION_OF_INTEREST_CONTROL, [U16; U16; U16; U16; U16]);
  (ProcessingUnit, UVC_PU_BACKLIGHT_COMPENSATION_CONTROL, [U16]);
  (ProcessingUnit, UVC_PU_BRIGHTNESS_CONTROL, [I16]);
  (ProcessingUnit, UVC_PU_CONTRAST_CONTROL, [U16]);
  (ProcessingUnit, UVC_PU_CONTRAST_AUTO_CONTROL, [U8]);
  (ProcessingUnit, UVC_PU_GAIN_CONTROL, [U16]);
  (ProcessingUnit, UVC_PU_POWER_LINE_FREQUENCY_CONTROL, [U8]);
  (ProcessingUnit, UVC_PU_HUE_CONTROL, [I16]);
  (ProcessingUnit, UVC_PU_HUE_AUTO_CONTROL, [U8]);
  (ProcessingUnit, UVC_PU_SATURATION_CONTROL, [U16]);
  (ProcessingUnit, UVC_PU_SHARPNESS_CONTROL, [U16]);
  (ProcessingUnit, UVC_PU_GAMMA_CONTROL, [U16]);
  (ProcessingUnit, UVC_PU_WHITE_BALANCE_TEMPERATURE_CONTROL, [U16]);
  (ProcessingUnit, UVC_PU_WHITE_BALANCE_TEMPERATURE_AUTO_CONTROL, [U8]);
  (ProcessingUnit, UVC_PU_WHITE_BALANCE_COMPONENT_CONTROL, [U16; U16]);
  (ProcessingUnit, UVC_PU_WHITE_BALANCE_COMPONENT_AUTO_CONTROL, [U8]);
  (ProcessingUnit, UVC_PU_DIGITAL_MULTIPLIER_CONTROL, [U16]);
  (ProcessingUnit, UVC_PU_DIGITAL_MULTIPLIER_LIMIT_CONTROL, [U16]);
  (ProcessingUnit, UVC_PU_ANALOG_VIDEO_STANDARD_CONTROL, [U8]);
  (ProcessingUnit, UVC_PU_ANALOG_LOCK_STATUS_CONTROL, [U8]);
  (SelectorUnit, UVC_SU_INPUT_SELECT_CONTROL, [U8])
].

#[export] Instance ctrl_unit_eq_dec : EqDecision ctrl_unit.
Proof. solve_decision. Defined.

#[export] Instance ctype_eq_dec : EqDecision ctype.
Proof. solve_decision. Defined.

(** No two rows share a unit and a selector. *)
Lemma control_table_nodup : NoDup (fst <$> control_table).
Proof. apply (bool_decide_unpack _). vm_compute. exact I. Qed.

Section rows.
Context `{Environment} (junk : Z).

Definition implements (r : row) (c : control) : Prop :=
  let '(u, sel, tys) := r in
  cn_types c = tys
  ∧ cn_get c = get_control junk u sel (total tys) (layout 0 tys)
  ∧ ∀ devh vs, length vs = length tys →
      cn_set c devh vs = set_control junk u sel (total tys) (with_values (layout 0 tys) vs) devh.

Lemma all_controls_implement : Forall2 implements control_table (all_controls junk).
Proof.
  repeat constructor.
  all: intros devh vs Hvs; repeat (destruct vs as [|? vs]; try discriminate Hvs); reflexivity.
Qed.

Lemma lookup_row i c :
  all_controls junk !! i = Some c → ∃ r, control_table !! i = Some r ∧ implements r c.
Proof. intros Hc. by apply (Forall2_lookup_r _ _ _ i c all_controls_implement). Qed.

(** [wIndex] and [wValue] of a row's requests. *)
Definition row_index (id ifnum : Z) : Z := Z.lor (Z.shiftl id 8) ifnum.

Definition set_request (sel ix : Z) (tys : list ctype) (vs : list Z) : request :=
  ControlTransfer REQ_TYPE_SET UVC_SET_CUR (Z.shiftl sel 8) ix (message tys vs) (total tys) 0.

Definition get_request (sel ix req_code : Z) (tys : list ctype) : request :=
  ControlTransfer REQ_TYPE_GET req_code (Z.shiftl sel 8) ix
    (replicate (Z.to_nat (total tys)) junk) (total tys) 0.

Lemma set_control_run u sel tys vs devh id ifnum t :
  unit_id devh u = Ret id → ctrl_interface devh = Ret ifnum → length vs = length tys →
  let q := set_request sel (row_index id ifnum) tys vs in
  set_control junk u sel (total tys) (with_values (layout 0 tys) vs) devh t
  = Ret (if rs_code (answer t q) =? total tys then UVC_SUCCESS else rs_code (answer t q),
         t ++ [(q, answer t q)]).
Proof.
  intros Hu Hi Hl q. unfold set_control. pose proof (total_nonneg tys).
  rewrite (run_lift _ _ _ (message tys vs)); last first.
  { apply (put_fields_layout tys vs []); [done|]. unfold len. rewrite length_replicate. lia. }
  rewrite (run_lift _ _ _ id), (run_lift _ _ _ ifnum) by done.
  rewrite run_control_transfer by (by rewrite message_len). cbn [fst].
  fold (row_index id ifnum). fold (set_request sel (row_index id ifnum) tys vs). fold q.
  by destruct (rs_code (answer t q) =? total tys).
Qed.

Lemma get_control_run u sel tys req devh id ifnum t :
  unit_id devh u = Ret id → ctrl_interface devh = Ret ifnum → fits 8 junk →
  let q := get_request sel (row_index id ifnum) req tys in
  let r := answer t q in
  ∃ vs, Forall2 in_type tys vs
    ∧ message tys vs = store_into (replicate (Z.to_nat (total tys)) junk) (rs_data r)
    ∧ get_control junk u sel (total tys) (layout 0 tys) devh req t
      = Ret (if rs_code r =? total tys then (UVC_SUCCESS, Some vs) else (rs_code r, None), t ++ [(q, r)]).
Proof.
  intros Hu Hi Hj q r. pose proof (total_nonneg tys).
  assert (len (replicate (Z.to_nat (total tys)) junk) = total tys) as Hn.
  { unfold len. rewrite length_replicate. lia. }
  destruct (message_surjective tys (store_into (replicate (Z.to_nat (total tys)) junk) (rs_data r)))
    as (vs & Hvs & Hm); [apply store_into_ok, Forall_replicate; done|by rewrite store_into_len|].
  exists vs. split_and!; [done..|]. unfold get_control.
  rewrite (run_lift _ _ _ id), (run_lift _ _ _ ifnum) by done.
  rewrite run_control_transfer by done.
  change (Z.testbit REQ_TYPE_GET 7) with true. cbn iota.
  fold (row_index id ifnum). fold (get_request sel (row_index id ifnum) req tys). fold q. fold r.
  destruct (rs_code r =? total tys); [|done].
  rewrite (run_lift _ _ _ vs); [done|]. rewrite <- Hm. by apply (get_fields_layout tys vs []).
Qed.
End rows.

(** ** A device that keeps its settings

    [current_setting] is the data of the last SET_CUR with the given value and
    index; the device accepts every SET_CUR in full and answers GET_CUR with the
    current setting, as the UVC specification asks of a settable control. *)

Section settings.
Context `{Environment} (junk : Z).

Definition setting_of (v ix : Z) (e : event) : option bytes :=
  match e.1 with
  | ControlTransfer ty rq v' ix' data _ _ =>
      if decide (ty = REQ_TYPE_SET ∧ rq = UVC_SET_CUR ∧ v' = v ∧ ix' = ix) then Some data else None
  | _ => None
  end.

Definition current_setting (v ix : Z) (t : trace) : option bytes := last (omap (setting_of v ix) t).

Record settings_device : Prop := {
  sd_accepts t v ix data n tmo :
    rs_code (answer t (ControlTransfer REQ_TYPE_SET UVC_SET_CUR v ix data n tmo)) = n;
  sd_answers t v ix data sent n tmo :
    current_setting v ix t = Some data → len data = n →
    let r := answer t (ControlTransfer REQ_TYPE_GET UVC_GET_CUR v ix sent n tmo) in
    rs_code r = n ∧ rs_data r = data;
}.

(** A handle whose device has the three kinds of unit, with different numbers. *)
Record addressable (devh : uvc_device_handle) (ids : ctrl_unit → Z) (ifnum : Z) : Prop := {
  ad_unit u : unit_id devh u = Ret (ids u);
  ad_interface : ctrl_interface devh = Ret ifnum;
  ad_ids u : fits 8 (ids u);
  ad_ifnum : fits 8 ifnum;
  ad_distinct : Inj (=) (=) ids;
}.

(** Setting controls, by their position in the table, one after the other. *)
Fixpoint set_controls (devh : uvc_device_handle) (l : list (nat * list Z)) : io () :=
  match l with
  | [] => mret ()
  | (j, ws) :: l =>
      match all_controls junk !! j with
      | Some d => _ ← cn_set d devh ws; set_controls devh l
      | None => set_controls devh l
      end
  end.

Lemma current_setting_hit v ix t q r data :
  setting_of v ix (q, r) = Some data → current_setting v ix (t ++ [(q, r)]) = Some data.
Proof. intros Hq. unfold current_setting. rewrite omap_app. cbn [omap list_omap]. rewrite Hq. apply last_snoc. Qed.

Lemma current_setting_miss v ix t q r :
  setting_of v ix (q, r) = None → current_setting v ix (t ++ [(q, r)]) = current_setting v ix t.
Proof.
  intros Hq. unfold current_setting. rewrite omap_app. cbn [omap list_omap]. by rewrite Hq, app_nil_r.
Qed.

(** Requests of different rows differ in value or index. *)
Lemma row_address_inj devh ids ifnum (u u' : ctrl_unit) sel sel' :
  addressable devh ids ifnum →
  Z.shiftl sel 8 = Z.shiftl sel' 8 → row_index (ids u) ifnum = row_index (ids u') ifnum →
  u = u' ∧ sel = sel'.
Proof.
  intros [_ _ Hids Hif Hinj] Hs Hi. unfold row_index in Hi.
  rewrite !(Z.lor_comm (Z.shiftl _ 8)), !lor_shiftl_add in Hi
    by (done || lia || (destruct (Hids u), (Hids u'); lia)).
  rewrite !Z.shiftl_mul_pow2 in Hs by lia.
  split; [apply Hinj; lia|lia].
Qed.

Lemma other_row_misses devh ids ifnum i j u sel tys u' sel' tys' ws r :
  addressable devh ids ifnum → j ≠ i →
  control_table !! i = Some (u, sel, tys) → control_table !! j = Some (u', sel', tys') →
  setting_of (Z.shiftl sel 8) (row_index (ids u) ifnum)
    (set_request sel' (row_index (ids u') ifnum) tys' ws, r) = None.
Proof.
  intros Ha Hne Hi Hj. unfold setting_of, set_request. cbn [fst]. rewrite decide_False; [done|].
  intros (_ & _ & Hv & Hx). destruct (row_address_inj _ _ _ u' u sel' sel Ha Hv Hx) as [-> ->].
  apply Hne, (NoDup_lookup _ _ _ (u, sel) control_table_nodup).
  - by rewrite list_lookup_fmap, Hj.
  - by rewrite list_lookup_fmap, Hi.
Qed.

(** Setting other controls leaves a control's setting alone. *)
Lemma set_controls_keep devh ids ifnum i u sel tys others data t :
  addressable devh ids ifnum → control_table !! i = Some (u, sel, tys) →
  Forall (λ '(j, ws), j ≠ i ∧ ∀ d, all_controls junk !! j = Some d → length ws = length (cn_types d)) others →
  current_setting (Z.shiftl sel 8) (row_index (ids u) ifnum) t = Some data →
  wp (set_controls devh others)
    (λ _ t', current_setting (Z.shiftl sel 8) (row_index (ids u) ifnum) t' = Some data) t.
Proof.
  intros Ha Hi Ho. revert t. induction Ho as [|[j ws] others [Hne Hl] _ IH]; intros t Ht; [exact Ht|].
  cbn [set_controls]. destruct (all_controls junk !! j) as [d|] eqn:Hd; [|by apply IH].
  destruct (lookup_row junk j d Hd) as ([[u' sel'] tys'] & Hj & Hty & _ & Hset).
  specialize (Hl d eq_refl). rewrite Hty in Hl.
  rewrite wp_bind, Hset by done.
  erewrite wp_Ret by (apply set_control_run; [apply Ha|apply Ha|done]).
  apply IH. rewrite current_setting_miss; [done|]. by eapply other_row_misses.
Qed.

(** C23: settings are kept and kept apart: on a device that accepts SET_CUR and
    answers GET_CUR with the current setting, setting any of the forty controls
    to values of its C types, then setting any number of other controls to
    anything, and then getting the first one returns success twice and exactly
    the values set, negative ones included. *)
Theorem controls_keep_settings devh ids ifnum i c vs others t :
  all_controls junk !! i = Some c →
  Forall2 in_type (cn_types c) vs →
  Forall (λ '(j, ws), j ≠ i ∧ ∀ d, all_controls junk !! j = Some d → length ws = length (cn_types d)) others →
  addressable devh ids ifnum →
  settings_device →
  fits 8 junk →
  wp (ret ← cn_set c devh vs;
      _ ← set_controls devh others;
      res ← cn_get c devh UVC_GET_CUR;
      mret (ret, res))
    (λ out _, out = (UVC_SUCCESS, (UVC_SUCCESS, Some vs))) t.
Proof.
  intros Hc Hvs Ho Ha Hd Hj.
  destruct (lookup_row junk i c Hc) as ([[u sel] tys] & Hi & Hty & Hget & Hset). rewrite Hty in Hvs.
  assert (length vs = length tys) as Hl by (by apply Forall2_length in Hvs).
  rewrite wp_bind, Hset by done.
  erewrite wp_Ret by (apply set_control_run; [apply Ha|apply Ha|done]).
  unfold set_request at 1. rewrite (sd_accepts Hd), Z.eqb_refl, wp_bind.
  eapply wp_mono.
  { eapply set_controls_keep; [done..|]. apply current_setting_hit.
    unfold setting_of, set_request. cbn [fst]. by rewrite decide_True. }
  intros [] t' Ht'. cbn beta. rewrite wp_bind, Hget.
  destruct (get_control_run junk u sel tys UVC_GET_CUR devh (ids u) ifnum t') as (vs' & Hvs' & Hm & Hrun);
    [apply Ha|apply Ha|done|].
  destruct (sd_answers Hd t' _ _ (message tys vs) (replicate (Z.to_nat (total tys)) junk) (total tys) 0 Ht')
    as [Hcode Hdata]; [by apply message_len|].
  unfold get_request in Hrun, Hm. rewrite Hcode, Z.eqb_refl in Hrun. rewrite Hdata in Hm.
  erewrite wp_Ret by exact Hrun. rewrite wp_ret. do 3 f_equal.
  pose proof (message_len tys vs Hl) as Hlen.
  rewrite store_into_full in Hm by
    (apply message_ok || (unfold len in Hlen; rewrite length_replicate; lia)).
  pose proof (get_fields_layout tys vs [] Hvs) as G. pose proof (get_fields_layout tys vs' [] Hvs') as G'.
  cbn [app] in G, G'. rewrite Hm in G'. congruence.
Qed.
End settings.

(** A getter reports exactly what the transfer did: when as many bytes as the
    control has arrived, it returns success and values of the C types whose
    encoding is the buffer received; otherwise it stores nothing and returns the
    transfer's number, so an empty reply (number 0) reads as success without a
    value. *)
Theorem control_get_exact `{Environment} junk devh ids ifnum c req t :
  c ∈ all_controls junk →
  addressable devh ids ifnum →
  fits 8 junk →
  wp (cn_get c devh req)
    (λ '(ret, vals) t', ∃ q, t' = t ++ [(q, answer t q)]
      ∧ let n := total (cn_types c) in
        let r := answer t q in
        if decide (rs_code r = n) then
          ret = UVC_SUCCESS ∧ ∃ vs, vals = Some vs ∧ Forall2 in_type (cn_types c) vs
            ∧ message (cn_types c) vs = store_into (replicate (Z.to_nat n) junk) (rs_data r)
        else ret = rs_code r ∧ vals = None) t.
Proof.
  intros [i Hc]%list_elem_of_lookup_1 Ha Hj.
  destruct (lookup_row junk i c Hc) as ([[u sel] tys] & Hi & -> & Hget & _). rewrite Hget.
  destruct (get_control_run junk u sel tys req devh (ids u) ifnum t) as (vs & Hvs & Hm & Hrun);
    [apply Ha|apply Ha|done|].
  erewrite wp_Ret by exact Hrun.
  set (q := get_request _ _ _ _ _) in *. cbn beta.
  destruct (Z.eqb_spec (rs_code (answer t q)) (total tys)).
  - exists q. split; [done|]. cbn zeta. rewrite decide_True by done. eauto.
  - exists q. split; [done|]. cbn zeta. by rewrite decide_False.
Qed.

(** ** Missing units *)

Definition has_unit (ctrl_if : uvc_control_interface) (u : ctrl_unit) : Prop :=
  match u with
  | CameraTerminal =>
      Exists (λ term, it_wTerminalType term = UVC_ITT_CAMERA) (ci_input_term_descs ctrl_if)
  | ProcessingUnit => ci_processing_unit_descs ctrl_if ≠ []
  | SelectorUnit => ci_selector_unit_descs ctrl_if ≠ []
  end.

#[export] Instance has_unit_dec ctrl_if u : Decision (has_unit ctrl_if u).
Proof. destruct u; apply _. Defined.

Lemma unit_id_has devh info u :
  dh_info devh = Some info → has_unit (di_ctrl_if info) u → ∃ id, unit_id devh u = Ret id.
Proof.
  intros Hi Hu. unfold unit_id, uvc_get_camera_terminal, uvc_get_processing_units,
    uvc_get_selector_units, uvc_get_input_terminals. rewrite Hi. cbn [deref mbind outcome_bind].
  destruct u; cbn [has_unit] in Hu.
  - destruct (list_find _ _) as [[k term]|] eqn:E; [by eexists|].
    apply list_find_None in E. apply Exists_exists in Hu as (x & Hx & Hp).
    by apply (proj1 (Forall_forall _ _) E x Hx) in Hp.
  - destruct (ci_processing_unit_descs _); [done|by eexists].
  - destruct (ci_selector_unit_descs _); [done|by eexists].
Qed.

Lemma unit_id_has_not devh info u :
  dh_info devh = Some info → ¬ has_unit (di_ctrl_if info) u → unit_id devh u = Undef NullDeref.
Proof.
  intros Hi Hu. unfold unit_id, uvc_get_camera_terminal, uvc_get_processing_units,
    uvc_get_selector_units, uvc_get_input_terminals. rewrite Hi. cbn [deref mbind outcome_bind].
  destruct u; cbn [has_unit] in Hu.
  - destruct (list_find _ _) as [[k term]|] eqn:E; [|done].
    apply list_find_Some in E as (Hk & Hp & _). destruct Hu. apply Exists_exists.
    exists term. split; [by apply list_elem_of_lookup_2 in Hk|done].
  - by destruct (ci_processing_unit_descs _); [|destruct Hu].
  - by destruct (ci_selector_unit_descs _); [|destruct Hu].
Qed.

(** The accessors are only safe on a device that has their unit: for each
    row of the table the getter and the setter return when the device has the
    row's terminal or unit, and dereference a null pointer when it has not. *)
Theorem control_needs_unit `{Environment} junk devh info i c u sel tys vs req t :
  all_controls junk !! i = Some c →
  control_table !! i = Some (u, sel, tys) →
  length vs = length tys →
  dh_info devh = Some info →
  fits 8 junk →
  if decide (has_unit (di_ctrl_if info) u)
  then wp (cn_get c devh req) (λ _ _, True) t ∧ wp (cn_set c devh vs) (λ _ _, True) t
  else cn_get c devh req t = Undef NullDeref ∧ cn_set c devh vs t = Undef NullDeref.
Proof.
  intros Hc Hr Hl Hinfo Hj.
  destruct (lookup_row junk i c Hc) as (r & Hi & Himp). rewrite Hr in Hi. injection Hi as <-.
  destruct Himp as (_ & -> & ->); [|done].
  assert (ctrl_interface devh = Ret (ci_bInterfaceNumber (di_ctrl_if info))) as Hif.
  { unfold ctrl_interface. by rewrite Hinfo. }
  case_decide as Hu.
  - destruct (unit_id_has devh info u Hinfo Hu) as [id Hid]. split.
    + destruct (get_control_run junk u sel tys req devh id _ t Hid Hif Hj) as (? & _ & _ & Hrun).
      by erewrite wp_Ret by exact Hrun.
    + by erewrite wp_Ret by (by apply set_control_run).
  - pose proof (unit_id_has_not devh info u Hinfo Hu) as Hid. split.
    + unfold get_control. by rewrite Hid.
    + unfold set_control. rewrite (run_lift _ _ _ (message tys vs)); [by rewrite Hid|].
      apply (put_fields_layout tys vs []); [done|].
      unfold len. rewrite length_replicate. pose proof (total_nonneg tys). lia.
Qed.

(** ** Witnesses *)

(** A camera with terminal 1, processing unit 2 and selector unit 3. *)
Definition camera_info : uvc_device_info :=
  {| di_config := [];
     di_ctrl_if :=
       {| ci_input_term_descs :=
            [{| it_bTerminalID := 1; it_wTerminalType := UVC_ITT_CAMERA; it_wObjectiveFocalLengthMin := 0;
                it_wObjectiveFocalLengthMax := 0; it_wOcularFocalLength := 0; it_bmControls := 0 |}];
          ci_selector_unit_descs := [{| su_bUnitID := 3 |}];
          ci_processing_unit_descs := [{| pu_bUnitID := 2; pu_bSourceID := 1; pu_bmControls := 0 |}];
          ci_extension_unit_descs := []; ci_bcdUVC := 0x110; ci_dwClockFrequency := 0;
          ci_bEndpointAddress := 0; ci_bInterfaceNumber := 0 |};
     di_stream_ifs := [] |}.

Definition camera : uvc_device_handle := handle_with (Some camera_info) 0 None.

Definition camera_ids (u : ctrl_unit) : Z :=
  match u with CameraTerminal => 1 | ProcessingUnit => 2 | SelectorUnit => 3 end.

Lemma camera_addressable : addressable camera camera_ids 0.
Proof. split; [by intros []|done|by intros []|done|by intros [] []]. Qed.

(** A device that stores every SET_CUR and answers with it. *)
Definition storing_env : Environment := λ t q,
  match q with
  | ControlTransfer ty _ v ix _ n _ =>
      {| rs_code := n; rs_errno := 0; rs_data := default [] (current_setting v ix t) |}
  | _ => {| rs_code := 0; rs_errno := 0; rs_data := [] |}
  end.

Lemma storing_env_keeps : settings_device (H := storing_env).
Proof. split; [done|]. intros t v ix data sent n tmo Hd Hl r. by cbn; rewrite Hd. Qed.

(** Pan and tilt (signed 32 bits) survive setting the roll and the brightness. *)
Lemma controls_keep_settings_witness :
  let c := {| cn_types := [I32; I32]; cn_get := uvc_get_pantilt_abs (H := storing_env) 0xAA;
              cn_set := λ devh vs, match vs with
                | [a0; a1] => uvc_set_pantilt_abs (H := storing_env) 0xAA devh a0 a1
                | _ => mret UVC_ERROR_INVALID_PARAM end |} in
  wp (ret ← cn_set c camera [-36000; 648000];
      _ ← set_controls (H := storing_env) 0xAA camera [(14%nat, [1; 2; 3; 4]); (21%nat, [-5])];
      res ← cn_get c camera UVC_GET_CUR;
      mret (ret, res))
    (λ out _, out = (UVC_SUCCESS, (UVC_SUCCESS, Some [-36000; 648000]))) [].
Proof.
  apply (controls_keep_settings (H := storing_env) 0xAA camera camera_ids 0 13).
  - reflexivity.
  - repeat (apply Forall2_cons_2; [unfold in_type; lia|]). apply Forall2_nil_2.
  - repeat constructor; try lia; intros d [= <-]; reflexivity.
  - exact camera_addressable.
  - exact storing_env_keeps.
  - split; [lia|reflexivity].
Defined.

Lemma control_get_exact_witness :
  wp (cn_get {| cn_types := [I16]; cn_get := uvc_get_brightness (H := storing_env) 0xAA;
                cn_set := λ devh vs, match vs with
                  | [a0] => uvc_set_brightness (H := storing_env) 0xAA devh a0
                  | _ => mret UVC_ERROR_INVALID_PARAM end |} camera UVC_GET_CUR)
    (λ res _, True) [].
Proof.
  eapply wp_mono; [|done].
  apply (control_get_exact (H := storing_env) 0xAA camera camera_ids 0).
  - apply (list_elem_of_lookup_2 _ 21). reflexivity.
  - exact camera_addressable.
  - split; [lia|reflexivity].
Defined.

Lemma control_needs_unit_witness :
  uvc_get_focus_abs (H := storing_env) 0xAA (handle_with (Some (info_zero [])) 0 None) UVC_GET_CUR []
  = Undef NullDeref.
Proof.
  assert (fits 8 0xAA) as Hj by (split; [lia|reflexivity]).
  pose proof (control_needs_unit (H := storing_env) 0xAA (handle_with (Some (info_zero [])) 0 None) (info_zero [])
    5 _ CameraTerminal UVC_CT_FOCUS_ABSOLUTE_CONTROL [U16] [0] UVC_GET_CUR []
    eq_refl eq_refl eq_refl eq_refl Hj) as G.
  destruct (decide _) as [Hu|_] in G; [inversion Hu|]. exact (proj1 G).
Defined.
