(* ===== verification/Frame.v ===== *)
(** * Frame: frame buffers and pixel conversions of src/frame.c

    The input and the output frame are different blocks.  [realloc_ok] says
    whether the allocator succeeds and [junk] is what fresh memory holds; a
    conversion returns the code and the output frame. *)

From stdpp Require Import prelude.
From S2P Require Import Prelude Types Handles.

(** ** Field updates *)

Definition set_data (f : uvc_frame) (data : option bytes) (data_bytes : Z) : uvc_frame :=
  {| uf_data := data; uf_data_bytes := data_bytes; uf_width := uf_width f; uf_height := uf_height f;
     uf_frame_format := uf_frame_format f; uf_step := uf_step f; uf_sequence := uf_sequence f;
     uf_capture_time := uf_capture_time f; uf_capture_time_finished := uf_capture_time_finished f;
     uf_source := uf_source f; uf_library_owns_data := uf_library_owns_data f;
     uf_metadata := uf_metadata f; uf_metadata_bytes := uf_metadata_bytes f |}.

Definition set_metadata (f : uvc_frame) (meta : option bytes) (meta_bytes : Z) : uvc_frame :=
  {| uf_data := uf_data f; uf_data_bytes := uf_data_bytes f; uf_width := uf_width f;
     uf_height := uf_height f; uf_frame_format := uf_frame_format f; uf_step := uf_step f;
     uf_sequence := uf_sequence f; uf_capture_time := uf_capture_time f;
     uf_capture_time_finished := uf_capture_time_finished f; uf_source := uf_source f;
     uf_library_owns_data := uf_library_owns_data f; uf_metadata := meta; uf_metadata_bytes := meta_bytes |}.

(** The assignments from [in] to [out] that the conversions share. *)
Definition copy_header (inf out : uvc_frame) (format step : Z) : uvc_frame :=
  {| uf_data := uf_data out; uf_data_bytes := uf_data_bytes out; uf_width := uf_width inf;
     uf_height := uf_height inf; uf_frame_format := format; uf_step := step;
     uf_sequence := uf_sequence inf; uf_capture_time := uf_capture_time inf;
     uf_capture_time_finished := uf_capture_time_finished inf; uf_source := uf_source inf;
     uf_library_owns_data := uf_library_owns_data out; uf_metadata := uf_metadata out;
     uf_metadata_bytes := uf_metadata_bytes out |}.

Definition is_null (p : option bytes) : bool :=
  match p with
  | None => true
  | Some _ => false
  end.

(** ** Allocation *)

Section frames.
Context (junk : Z) (realloc_ok : bool).

Definition uvc_ensure_frame_size (frame : uvc_frame) (need_bytes : Z) : Z * uvc_frame :=
  if nz (uf_library_owns_data frame) then
    let frame :=
      if is_null (uf_data frame) || negb (uf_data_bytes frame =? need_bytes) then
        set_data frame (if realloc_ok then Some (realloc junk (uf_data frame) need_bytes) else None) need_bytes
      else frame in
    if is_null (uf_data frame) then (UVC_ERROR_NO_MEM, frame) else (UVC_SUCCESS, frame)
  else
    if is_null (uf_data frame) || (uf_data_bytes frame <? need_bytes) then (UVC_ERROR_NO_MEM, frame)
    else (UVC_SUCCESS, frame).

(** [struct_ok]: the structure itself could be allocated. *)
Definition uvc_allocate_frame (struct_ok : bool) (data_bytes : Z) : option uvc_frame :=
  if negb struct_ok then None else
  let frame :=
    {| uf_data := None; uf_data_bytes := 0; uf_width := 0; uf_height := 0; uf_frame_format := 0;
       uf_step := 0; uf_sequence := 0; uf_capture_time := 0; uf_capture_time_finished := 0;
       uf_source := 0; uf_library_owns_data := 1; uf_metadata := None; uf_metadata_bytes := 0 |} in
  if 0 <? data_bytes then
    if negb realloc_ok then None
    else Some (set_data frame (Some (replicate (Z.to_nat data_bytes) junk)) data_bytes)
  else Some frame.

(** The blocks handed to [free], besides the structure. *)
Definition uvc_free_frame (frame : uvc_frame) : list (option bytes) :=
  if nz (uf_library_owns_data frame) then
    (if 0 <? uf_data_bytes frame then [uf_data frame] else [])
    ++ (if 0 <? uf_metadata_bytes frame then [uf_metadata frame] else [])
  else [].

Definition uvc_duplicate_frame (inf out : uvc_frame) : outcome (Z * uvc_frame) :=
  let '(ret, out) := uvc_ensure_frame_size out (uf_data_bytes inf) in
  if ret <? 0 then Ret (UVC_ERROR_NO_MEM, out) else
  let out := copy_header inf out (uf_frame_format inf) (uf_step inf) in
  data ← memcpy (block (uf_data out)) 0 (block (uf_data inf)) 0 (uf_data_bytes inf);
  let out := set_data out (Some data) (uf_data_bytes out) in
  if negb (is_null (uf_metadata inf)) && (0 <? uf_metadata_bytes inf) then
    meta ← (if uf_metadata_bytes out <? uf_metadata_bytes inf then
              if realloc_ok then Ret (realloc junk (uf_metadata out) (uf_metadata_bytes inf))
              else Undef NullDeref
            else Ret (block (uf_metadata out)));
    meta ← memcpy meta 0 (block (uf_metadata inf)) 0 (uf_metadata_bytes inf);
    Ret (UVC_SUCCESS, set_metadata out (Some meta) (uf_metadata_bytes inf))
  else Ret (UVC_SUCCESS, out).

(** ** Pixels *)

Definition sat (i : Z) : Z := u8 (if 255 <=? i then 255 else if i <? 0 then 0 else i).

(** The colour differences the four macros compute from [u] and [v]. *)
Definition red_diff (v : Z) : Z := Z.shiftr (22987 * (v - 128)) 14.
Definition green_diff (u v : Z) : Z := Z.shiftr (-5636 * (u - 128) - 11698 * (v - 128)) 14.
Definition blue_diff (u : Z) : Z := Z.shiftr (29049 * (u - 128)) 14.

(** Six stores at consecutive addresses. *)
Definition store6 (p : bytes) (o a b c d e f : Z) : outcome bytes :=
  p ← wr p o a;
  p ← wr p (o + 1) b;
  p ← wr p (o + 2) c;
  p ← wr p (o + 3) d;
  p ← wr p (o + 4) e;
  wr p (o + 5) f.

(** A macro: reads at an offset of the input, writes at an offset of the output. *)
Definition pixel_op : Type := bytes → Z → bytes → Z → outcome bytes.

Definition IYUYV2RGB_2 : pixel_op := λ pyuv i prgb o,
  v ← rd pyuv (i + 3);
  u ← rd pyuv (i + 1);
  y0 ← rd pyuv i;
  y1 ← rd pyuv (i + 2);
  let r := red_diff v in
  let g := green_diff u v in
  let b := blue_diff u in
  store6 prgb o (sat (y0 + r)) (sat (y0 + g)) (sat (y0 + b)) (sat (y1 + r)) (sat (y1 + g)) (sat (y1 + b)).

Definition IYUYV2RGB_4 : pixel_op := λ pyuv i prgb o,
  prgb ← IYUYV2RGB_2 pyuv i prgb o;
  IYUYV2RGB_2 pyuv (i + 4) prgb (o + 6).

Definition IYUYV2RGB_8 : pixel_op := λ pyuv i prgb o,
  prgb ← IYUYV2RGB_4 pyuv i prgb o;
  IYUYV2RGB_4 pyuv (i + 8) prgb (o + 12).

Definition IYUYV2BGR_2 : pixel_op := λ pyuv i pbgr o,
  v ← rd pyuv (i + 3);
  u ← rd pyuv (i + 1);
  y0 ← rd pyuv i;
  y1 ← rd pyuv (i + 2);
  let r := red_diff v in
  let g := green_diff u v in
  let b := blue_diff u in
  store6 pbgr o (sat (y0 + b)) (sat (y0 + g)) (sat (y0 + r)) (sat (y1 + b)) (sat (y1 + g)) (sat (y1 + r)).

Definition IYUYV2BGR_4 : pixel_op := λ pyuv i pbgr o,
  pbgr ← IYUYV2BGR_2 pyuv i pbgr o;
  IYUYV2BGR_2 pyuv (i + 4) pbgr (o + 6).

Definition IYUYV2BGR_8 : pixel_op := λ pyuv i pbgr o,
  pbgr ← IYUYV2BGR_4 pyuv i pbgr o;
  IYUYV2BGR_4 pyuv (i + 8) pbgr (o + 12).

Definition IUYVY2RGB_2 : pixel_op := λ pyuv i prgb o,
  v ← rd pyuv (i + 2);
  u ← rd pyuv i;
  y0 ← rd pyuv (i + 1);
  y1 ← rd pyuv (i + 3);
  let r := red_diff v in
  let g := green_diff u v in
  let b := blue_diff u in
  store6 prgb o (sat (y0 + r)) (sat (y0 + g)) (sat (y0 + b)) (sat (y1 + r)) (sat (y1 + g)) (sat (y1 + b)).

Definition IUYVY2RGB_4 : pixel_op := λ pyuv i prgb o,
  prgb ← IUYVY2RGB_2 pyuv i prgb o;
  IUYVY2RGB_2 pyuv (i + 4) prgb (o + 6).

Definition IUYVY2RGB_8 : pixel_op := λ pyuv i prgb o,
  prgb ← IUYVY2RGB_4 pyuv i prgb o;
  IUYVY2RGB_4 pyuv (i + 8) prgb (o + 12).

Definition IUYVY2BGR_2 : pixel_op := λ pyuv i pbgr o,
  v ← rd pyuv (i + 2);
  u ← rd pyuv i;
  y0 ← rd pyuv (i + 1);
  y1 ← rd pyuv (i + 3);
  let r := red_diff v in
  let g := green_diff u v in
  let b := blue_diff u in
  store6 pbgr o (sat (y0 + b)) (sat (y0 + g)) (sat (y0 + r)) (sat (y1 + b)) (sat (y1 + g)) (sat (y1 + r)).

Definition IUYVY2BGR_4 : pixel_op := λ pyuv i pbgr o,
  pbgr ← IUYVY2BGR_2 pyuv i pbgr o;
  IUYVY2BGR_2 pyuv (i + 4) pbgr (o + 6).

Definition IUYVY2BGR_8 : pixel_op := λ pyuv i pbgr o,
  pbgr ← IUYVY2BGR_4 pyuv i pbgr o;
  IUYVY2BGR_4 pyuv (i + 8) pbgr (o + 12).

Definition IYUYV2Y : pixel_op := λ pyuv i py o,
  y ← rd pyuv i;
  wr py o y.

Definition IYUYV2UV : pixel_op := λ pyuv i puv o,
  uv ← rd pyuv (i + 1);
  wr puv o uv.

(** ** Conversions *)

(** [while (p < p_end) { op; p += dout; pyuv += din; }] *)
Fixpoint pixel_loop (fuel : nat) (op : pixel_op) (din dout : Z) (src : bytes) (i : Z) (dst : bytes)
    (o o_end : Z) : outcome bytes :=
  if o <? o_end then
    match fuel with
    | O => Undef Diverged
    | S fuel =>
        dst ← op src i dst o;
        pixel_loop fuel op din dout src (i + din) dst (o + dout) o_end
    end
  else Ret dst.

(** The shape of the conversions: format check, room for [need] bytes, header,
    and the loop over the whole output buffer. *)
Definition convert (from to need step : Z) (op : pixel_op) (din dout : Z) (inf out : uvc_frame)
    : outcome (Z * uvc_frame) :=
  if negb (uf_frame_format inf =? from) then Ret (UVC_ERROR_INVALID_PARAM, out) else
  let '(ret, out) := uvc_ensure_frame_size out need in
  if ret <? 0 then Ret (UVC_ERROR_NO_MEM, out) else
  let out := copy_header inf out to step in
  data ← pixel_loop (Z.to_nat (uf_data_bytes out)) op din dout (block (uf_data inf)) 0
           (block (uf_data out)) 0 (uf_data_bytes out);
  Ret (UVC_SUCCESS, set_data out (Some data) (uf_data_bytes out)).

Definition uvc_yuyv2rgb (inf out : uvc_frame) : outcome (Z * uvc_frame) :=
  convert UVC_FRAME_FORMAT_YUYV UVC_FRAME_FORMAT_RGB
    (u32 (u32 (uf_width inf * uf_height inf) * 3)) (u32 (uf_width inf * 3)) IYUYV2RGB_8 (2 * 8) (3 * 8) inf out.

Definition uvc_yuyv2bgr (inf out : uvc_frame) : outcome (Z * uvc_frame) :=
  convert UVC_FRAME_FORMAT_YUYV UVC_FRAME_FORMAT_BGR
    (u32 (u32 (uf_width inf * uf_height inf) * 3)) (u32 (uf_width inf * 3)) IYUYV2BGR_8 (2 * 8) (3 * 8) inf out.

Definition uvc_yuyv2y (inf out : uvc_frame) : outcome (Z * uvc_frame) :=
  convert UVC_FRAME_FORMAT_YUYV UVC_FRAME_FORMAT_GRAY8
    (u32 (uf_width inf * uf_height inf)) (uf_width inf) IYUYV2Y 2 1 inf out.

Definition uvc_yuyv2uv (inf out : uvc_frame) : outcome (Z * uvc_frame) :=
  convert UVC_FRAME_FORMAT_YUYV UVC_FRAME_FORMAT_GRAY8
    (u32 (uf_width inf * uf_height inf)) (uf_width inf) IYUYV2UV 2 1 inf out.

Definition uvc_uyvy2rgb (inf out : uvc_frame) : outcome (Z * uvc_frame) :=
  convert UVC_FRAME_FORMAT_UYVY UVC_FRAME_FORMAT_RGB
    (u32 (u32 (uf_width inf * uf_height inf) * 3)) (u32 (uf_width inf * 3)) IUYVY2RGB_8 (2 * 8) (3 * 8) inf out.

Definition uvc_uyvy2bgr (inf out : uvc_frame) : outcome (Z * uvc_frame) :=
  convert UVC_FRAME_FORMAT_UYVY UVC_FRAME_FORMAT_BGR
    (u32 (u32 (uf_width inf * uf_height inf) * 3)) (u32 (uf_width inf * 3)) IUYVY2BGR_8 (2 * 8) (3 * 8) inf out.

(** [uvc_mjpeg2rgb] where the library is built with libjpeg. *)
Context (mjpeg2rgb : option (uvc_frame → uvc_frame → outcome (Z * uvc_frame))).

Definition uvc_any2rgb (inf out : uvc_frame) : outcome (Z * uvc_frame) :=
  let fmt := uf_frame_format inf in
  match (if fmt =? UVC_FRAME_FORMAT_MJPEG then mjpeg2rgb else None) with
  | Some uvc_mjpeg2rgb => uvc_mjpeg2rgb inf out
  | None =>
      if fmt =? UVC_FRAME_FORMAT_YUYV then uvc_yuyv2rgb inf out
      else if fmt =? UVC_FRAME_FORMAT_UYVY then uvc_uyvy2rgb inf out
      else if fmt =? UVC_FRAME_FORMAT_RGB then uvc_duplicate_frame inf out
      else Ret (UVC_ERROR_NOT_SUPPORTED, out)
  end.

Definition uvc_any2bgr (inf out : uvc_frame) : outcome (Z * uvc_frame) :=
  let fmt := uf_frame_format inf in
  if fmt =? UVC_FRAME_FORMAT_YUYV then uvc_yuyv2bgr inf out
  else if fmt =? UVC_FRAME_FORMAT_UYVY then uvc_uyvy2bgr inf out
  else if fmt =? UVC_FRAME_FORMAT_BGR then uvc_duplicate_frame inf out
  else Ret (UVC_ERROR_NOT_SUPPORTED, out).
End frames.
