(* ===== verification/FrameFacts.v ===== *)
(** * FrameFacts: what the frame functions promise

    A macro works on a window of the input and a window of the output
    ([window_op]); pairs of windows and the loop over the buffer are handled once,
    and the conversions are the rows of [conversions]. *)

From stdpp Require Import prelude.
From S2P Require Import Prelude Types Handles DeliveryFacts Frame.

(** ** Windows *)

(** The block with [mid] stored at offset [o]. *)
Definition splice (dst : bytes) (o : Z) (mid : bytes) : bytes :=
  take (Z.to_nat o) dst ++ mid ++ drop (Z.to_nat (o + len mid)) dst.

(** [n] bytes of a block from offset [i]. *)
Definition slice (src : bytes) (i n : Z) : bytes := take (Z.to_nat n) (drop (Z.to_nat i) src).

Lemma len_slice src i n : 0 ≤ i → 0 ≤ n → i + n ≤ len src → len (slice src i n) = n.
Proof. intros. unfold slice, len in *. rewrite length_take, length_drop. lia. Qed.

Lemma len_splice dst o mid : 0 ≤ o → o + len mid ≤ len dst → len (splice dst o mid) = len dst.
Proof.
  intros. unfold splice, len in *. rewrite !length_app, length_take, length_drop. lia.
Qed.

Lemma splice_app dst o m1 m2 :
  0 ≤ o → o + len m1 ≤ len dst →
  splice (splice dst o m1) (o + len m1) m2 = splice dst o (m1 ++ m2).
Proof.
  intros Ho Hl. unfold splice. rewrite len_app. pose proof (len_nonneg m1). pose proof (len_nonneg m2).
  assert (length (take (Z.to_nat o) dst ++ m1) = Z.to_nat (o + len m1)) as Hlen.
  { unfold len in *. rewrite length_app, length_take. lia. }
  rewrite (app_assoc (take _ dst) m1), <- Hlen, take_app_length.
  rewrite <- !app_assoc. do 3 f_equal.
  replace (Z.to_nat (o + len m1 + len m2)) with (length (take (Z.to_nat o) dst ++ m1) + length m2)%nat
    by (rewrite Hlen; unfold len in *; lia).
  rewrite app_assoc, drop_app_add, drop_drop. f_equal. rewrite Hlen. unfold len in *. lia.
Qed.

Lemma splice_decompose (dst : bytes) o n :
  0 ≤ o → 0 ≤ n → o + n ≤ len dst →
  ∃ pre mid post, dst = pre ++ mid ++ post ∧ len pre = o ∧ len mid = n
    ∧ slice dst o n = mid ∧ ∀ new, len new = n → splice dst o new = pre ++ new ++ post.
Proof.
  intros Ho Hn Hl. exists (take (Z.to_nat o) dst), (slice dst o n), (drop (Z.to_nat (o + n)) dst).
  split_and!; try done.
  - unfold slice. replace (Z.to_nat (o + n)) with (Z.to_nat o + Z.to_nat n)%nat by lia.
    rewrite <- drop_drop, take_drop, take_drop. done.
  - apply len_take. lia.
  - apply len_slice; lia.
  - intros new <-. done.
Qed.

(** [op] replaces [dout] bytes of the output by [f] of [din] bytes of the input
    when both windows are in bounds, and faults otherwise. *)
Record window_op (op : pixel_op) (din dout : Z) (f : bytes → bytes) : Prop := {
  wo_len l : len l = din → len (f l) = dout;
  wo_run src i dst o : 0 ≤ i → 0 ≤ o →
    op src i dst o = if decide (i + din ≤ len src ∧ o + dout ≤ len dst)
                     then Ret (splice dst o (f (slice src i din))) else Undef OutOfBounds;
}.

Lemma window_double op a b f :
  0 ≤ a → 0 ≤ b → window_op op a b f →
  window_op (λ src i dst o, dst ← op src i dst o; op src (i + a) dst (o + b)) (a + a) (b + b)
    (λ l, f (slice l 0 a) ++ f (slice l a a)).
Proof.
  intros Ha Hb [Hlen Hrun]. split.
  { intros l Hl. rewrite len_app, !Hlen; [done|apply len_slice; lia..]. }
  intros src i dst o Hi Ho. rewrite Hrun by done.
  assert (∀ k, 0 ≤ k → k + a ≤ a + a → i + (a + a) ≤ len src → slice (slice src i (a + a)) k a = slice src (i + k) a)
    as Hs.
  { intros k Hk Hka Hsrc. unfold slice. rewrite skipn_firstn_comm, firstn_firstn, drop_drop.
    rewrite Nat.min_l by lia. do 2 f_equal. lia. }
  destruct (decide (i + a ≤ len src ∧ o + b ≤ len dst)) as [[H1 H2]|Hno]; cbn [mbind outcome_bind].
  2:{ rewrite decide_False by lia. done. }
  assert (len (f (slice src i a)) = b) as Hf1 by (apply Hlen, len_slice; lia).
  rewrite Hrun by lia. rewrite len_splice by lia.
  destruct (decide (i + a + a ≤ len src ∧ o + b + b ≤ len dst)) as [[H3 H4]|Hno].
  - rewrite decide_True by lia. f_equal. rewrite !Hs by lia. rewrite Z.add_0_r.
    rewrite <- Hf1 at 1. by rewrite splice_app by lia.
  - by rewrite decide_False by lia.
Qed.

(** ** The loop *)

(** [f] of [k] pieces of [n] bytes, [a] bytes apart. *)
Fixpoint pieces (f : bytes → bytes) (n a : Z) (k : nat) (l : bytes) : bytes :=
  match k with
  | O => []
  | S k => f (slice l 0 n) ++ pieces f n a k (drop (Z.to_nat a) l)
  end.

(** The last of [k] pieces from offset [i] ends within the block. *)
Definition reaches (n a : Z) (k : nat) (i size : Z) : Prop :=
  k = O ∨ i + (Z.of_nat k - 1) * a + n ≤ size.

#[export] Instance reaches_dec n a k i size : Decision (reaches n a k i size).
Proof. unfold reaches. apply _. Defined.

Lemma slice_drop src i a : 0 ≤ i → slice (drop (Z.to_nat i) src) 0 a = slice src i a.
Proof. intros. unfold slice. by rewrite drop_drop, Nat.add_0_r. Qed.

Lemma pieces_len f n a b k l :
  (∀ l, len l = n → len (f l) = b) → 0 ≤ n ≤ a → reaches n a k 0 (len l) →
  len (pieces f n a k l) = Z.of_nat k * b.
Proof.
  intros Hf Ha. revert l. induction k as [|k IH]; intros l Hl; [done|]. unfold reaches in *.
  cbn [pieces]. rewrite len_app, Hf by (apply len_slice; nia).
  rewrite IH; [lia|]. destruct (decide (k = O)) as [|Hk]; [by left|]. right. rewrite len_drop; nia.
Qed.

(** The loop makes [k] rounds, the least number that reaches the end. *)
Lemma pixel_loop_run op n a b f src o_end k fuel i dst o :
  window_op op n b f → 0 ≤ n ≤ a → 0 < b →
  0 ≤ i → 0 ≤ o ≤ len dst →
  o_end ≤ o + Z.of_nat k * b → (0 < Z.of_nat k → o + (Z.of_nat k - 1) * b < o_end) → (k ≤ fuel)%nat →
  pixel_loop fuel op a b src i dst o o_end
  = if decide (reaches n a k i (len src) ∧ o + Z.of_nat k * b ≤ len dst)
    then Ret (splice dst o (pieces f n a k (drop (Z.to_nat i) src))) else Undef OutOfBounds.
Proof.
  intros [Hlen Hrun] Ha Hb. revert fuel i dst o. induction k as [|k IH]; intros fuel i dst o Hi Ho He Hl Hf.
  { rewrite decide_True by (unfold reaches; lia). cbn [pieces]. unfold splice. rewrite Z.add_0_r. cbn [app].
    rewrite take_drop. destruct fuel; cbn [pixel_loop]; by rewrite (proj2 (Z.ltb_ge o o_end)) by lia. }
  destruct fuel as [|fuel]; [lia|]. cbn [pixel_loop].
  rewrite (proj2 (Z.ltb_lt o o_end)) by nia. rewrite Hrun by lia.
  destruct (decide (i + n ≤ len src ∧ o + b ≤ len dst)) as [[H1 H2]|Hno]; cbn [mbind outcome_bind].
  2:{ rewrite decide_False by (unfold reaches; nia). done. }
  assert (len (f (slice src i n)) = b) as Hf1 by (apply Hlen, len_slice; lia).
  rewrite IH; rewrite ?len_splice by lia; try nia.
  destruct (decide (reaches n a k (i + a) (len src) ∧ o + b + Z.of_nat k * b ≤ len dst)) as [[H3 H4]|Hno].
  - rewrite decide_True by (unfold reaches in *; nia). f_equal. cbn [pieces]. rewrite slice_drop by lia.
    rewrite <- Hf1 at 1. rewrite splice_app by lia.
    by rewrite drop_drop, Z2Nat.inj_add by lia.
  - rewrite decide_False; [done|]. unfold reaches in *. destruct k; nia.
Qed.

(** ** The macros *)

Lemma store6_run p o a b c d e f :
  0 ≤ o →
  store6 p o a b c d e f
  = if decide (o + 6 ≤ len p) then Ret (splice p o [a; b; c; d; e; f]) else Undef OutOfBounds.
Proof.
  intros Ho. unfold store6. case_decide as Hl.
  - destruct (splice_decompose p o 6) as (pre & mid & post & -> & <- & Hm & _ & Hs); [lia..|].
    rewrite Hs by done. rewrite <- (Z.add_0_r (len pre)) at 1.
    repeat (erewrite wr_app by (apply wr_head; unfold len in *; rewrite ?length_insert; lia);
            cbn [mbind outcome_bind]).
    repeat (destruct mid as [|? mid]; [unfold len in Hm; simpl in Hm; lia|]).
    rewrite !len_cons in Hm. assert (len mid = 0) as ->%len_nil_inv by lia. done.
  - do 5 (edestruct (@wr_cases Z) as [->|(? & -> & ?)]; [done|]; cbn [mbind outcome_bind]).
    apply wr_oob. lia.
Qed.

Lemma read4 src i :
  0 ≤ i → i + 4 ≤ len src →
  ∃ a b c d, slice src i 4 = [a; b; c; d]
    ∧ rd src i = Ret a ∧ rd src (i + 1) = Ret b ∧ rd src (i + 2) = Ret c ∧ rd src (i + 3) = Ret d.
Proof.
  intros Hi Hl.
  destruct (splice_decompose src i 4) as (pre & mid & post & -> & <- & Hm & Hs & _); [lia..|].
  rewrite Hs. destruct mid as [|a [|b [|c [|d [|e mid]]]]]; unfold len in Hm; simpl in Hm; try lia.
  exists a, b, c, d. rewrite <- (Z.add_0_r (len pre)) at 1. by rewrite !rd_app by lia.
Qed.

(** A pixel from its luminance and the chrominances of its pair. *)
Definition rgb (y u v : Z) : bytes := [sat (y + red_diff v); sat (y + green_diff u v); sat (y + blue_diff u)].
Definition bgr (y u v : Z) : bytes := [sat (y + blue_diff u); sat (y + green_diff u v); sat (y + red_diff v)].

Definition yuyv_pair (px : Z → Z → Z → bytes) (l : bytes) : bytes :=
  match l with
  | [y0; u; y1; v] => px y0 u v ++ px y1 u v
  | _ => []
  end.

Definition uyvy_pair (px : Z → Z → Z → bytes) (l : bytes) : bytes :=
  match l with
  | [u; y0; v; y1] => px y0 u v ++ px y1 u v
  | _ => []
  end.

(** Four reads and six stores. *)
Ltac quad_window :=
  split;
  [ let l := fresh "l" in let Hl := fresh "Hl" in
    intros l Hl; destruct l as [|? [|? [|? [|? [|? l]]]]]; unfold len in Hl; simpl in Hl; try lia; reflexivity
  | intros src i dst o Hi Ho; destruct (decide (i + 4 ≤ len src)) as [H4|H4];
    [ destruct (read4 src i Hi H4) as (a & b & c & d & -> & E0 & E1 & E2 & E3);
      rewrite E0, E1, E2, E3; cbn [mbind outcome_bind]; rewrite store6_run by done;
      destruct (decide (o + 6 ≤ len dst)); [by rewrite decide_True by lia|by rewrite decide_False by lia]
    | rewrite (decide_False (P := _ ∧ _)) by lia;
      repeat match goal with
      | |- context [rd src ?k] =>
          let E := fresh "E" in
          destruct (rd_cases src k) as [E|[? E]]; rewrite E; cbn [mbind outcome_bind];
          [done|apply rd_in_range in E]
      end; lia ] ].

Lemma IYUYV2RGB_2_window : window_op IYUYV2RGB_2 4 6 (yuyv_pair rgb).
Proof. unfold IYUYV2RGB_2. quad_window. Qed.

Lemma IYUYV2BGR_2_window : window_op IYUYV2BGR_2 4 6 (yuyv_pair bgr).
Proof. unfold IYUYV2BGR_2. quad_window. Qed.

Lemma IUYVY2RGB_2_window : window_op IUYVY2RGB_2 4 6 (uyvy_pair rgb).
Proof. unfold IUYVY2RGB_2. quad_window. Qed.

Lemma IUYVY2BGR_2_window : window_op IUYVY2BGR_2 4 6 (uyvy_pair bgr).
Proof. unfold IUYVY2BGR_2. quad_window. Qed.

(** Eight pixels are four pairs. *)
Definition four_pairs (f : bytes → bytes) (l : bytes) : bytes :=
  (f (slice (slice l 0 8) 0 4) ++ f (slice (slice l 0 8) 4 4))
  ++ f (slice (slice l 8 8) 0 4) ++ f (slice (slice l 8 8) 4 4).

Lemma window_8 op f :
  window_op op 4 6 f →
  window_op (λ src i dst o,
      dst ← (dst ← op src i dst o; op src (i + 4) dst (o + 6));
      (dst ← op src (i + 8) dst (o + 12); op src (i + 8 + 4) dst (o + 12 + 6))) 16 24 (four_pairs f).
Proof.
  intros Hop.
  exact (window_double _ 8 12 _ ltac:(lia) ltac:(lia) (window_double op 4 6 f ltac:(lia) ltac:(lia) Hop)).
Qed.

(** A byte copied from [k] bytes into the window. *)
Lemma copy_byte src i dst o k :
  0 ≤ i → 0 ≤ o → 0 ≤ k →
  (x ← rd src (i + k); wr dst o x)
  = if decide (i + (k + 1) ≤ len src ∧ o + 1 ≤ len dst)
    then Ret (splice dst o [byte_at (slice src i (k + 1)) k]) else Undef OutOfBounds.
Proof.
  intros Hi Ho Hk. destruct (decide (i + (k + 1) ≤ len src)) as [H1|H1].
  - rewrite rd_byte_at by lia. cbn [mbind outcome_bind].
    replace (byte_at (slice src i (k + 1)) k) with (byte_at src (i + k)).
    2:{ unfold byte_at, slice. rewrite lookup_take_lt by lia. rewrite lookup_drop. do 2 f_equal. lia. }
    case_decide as Hd; [|by apply wr_oob; lia]. rewrite wr_in by lia. f_equal. unfold splice.
    rewrite insert_take_drop by (unfold len in *; lia). do 3 f_equal. unfold len. simpl. lia.
  - rewrite (rd_oob src) by lia. by rewrite decide_False by lia.
Qed.

Lemma IYUYV2Y_window : window_op IYUYV2Y 1 1 (λ l, [byte_at l 0]).
Proof.
  split; [done|]. intros src i dst o Hi Ho. unfold IYUYV2Y. rewrite <- (Z.add_0_r i) at 1.
  by apply (copy_byte src i dst o 0).
Qed.

Lemma IYUYV2UV_window : window_op IYUYV2UV 2 1 (λ l, [byte_at l 1]).
Proof. split; [done|]. intros src i dst o Hi Ho. by apply (copy_byte src i dst o 1). Qed.

(** ** The conversions *)

(** The reference images: pixel by pixel, pair by pair. *)
Fixpoint yuyv_image (px : Z → Z → Z → bytes) (l : bytes) : bytes :=
  match l with
  | y0 :: u :: y1 :: v :: l => px y0 u v ++ px y1 u v ++ yuyv_image px l
  | _ => []
  end.

Fixpoint uyvy_image (px : Z → Z → Z → bytes) (l : bytes) : bytes :=
  match l with
  | u :: y0 :: v :: y1 :: l => px y0 u v ++ px y1 u v ++ uyvy_image px l
  | _ => []
  end.

Fixpoint even_bytes (l : bytes) : bytes :=
  match l with
  | y :: _ :: l => y :: even_bytes l
  | _ => []
  end.

Fixpoint odd_bytes (l : bytes) : bytes :=
  match l with
  | _ :: c :: l => c :: odd_bytes l
  | _ => []
  end.

(** Bytes per output pixel, pixels per round of the loop, input bytes a round
    looks at, and the image of an input. *)
Record conversion := {
  cv_run : uvc_frame → uvc_frame → outcome (Z * uvc_frame);
  cv_from : Z;
  cv_to : Z;
  cv_bpp : Z;
  cv_group : Z;
  cv_reach : Z;
  cv_image : bytes → bytes;
}.

Definition conversions (junk : Z) (realloc_ok : bool) : list conversion := [
  {| cv_run := uvc_yuyv2rgb junk realloc_ok; cv_from := UVC_FRAME_FORMAT_YUYV; cv_to := UVC_FRAME_FORMAT_RGB;
     cv_bpp := 3; cv_group := 8; cv_reach := 16; cv_image := yuyv_image rgb |};
  {| cv_run := uvc_yuyv2bgr junk realloc_ok; cv_from := UVC_FRAME_FORMAT_YUYV; cv_to := UVC_FRAME_FORMAT_BGR;
     cv_bpp := 3; cv_group := 8; cv_reach := 16; cv_image := yuyv_image bgr |};
  {| cv_run := uvc_uyvy2rgb junk realloc_ok; cv_from := UVC_FRAME_FORMAT_UYVY; cv_to := UVC_FRAME_FORMAT_RGB;
     cv_bpp := 3; cv_group := 8; cv_reach := 16; cv_image := uyvy_image rgb |};
  {| cv_run := uvc_uyvy2bgr junk realloc_ok; cv_from := UVC_FRAME_FORMAT_UYVY; cv_to := UVC_FRAME_FORMAT_BGR;
     cv_bpp := 3; cv_group := 8; cv_reach := 16; cv_image := uyvy_image bgr |};
  {| cv_run := uvc_yuyv2y junk realloc_ok; cv_from := UVC_FRAME_FORMAT_YUYV; cv_to := UVC_FRAME_FORMAT_GRAY8;
     cv_bpp := 1; cv_group := 1; cv_reach := 1; cv_image := even_bytes |};
  {| cv_run := uvc_yuyv2uv junk realloc_ok; cv_from := UVC_FRAME_FORMAT_YUYV; cv_to := UVC_FRAME_FORMAT_GRAY8;
     cv_bpp := 1; cv_group := 1; cv_reach := 2; cv_image := odd_bytes |}
].

Definition need_of (c : conversion) (inf : uvc_frame) : Z := u32 (cv_bpp c * (uf_width inf * uf_height inf)).

(** What a row means: the function is the common shape with a macro that works on
    windows, and the pieces it makes are the image. *)
Definition row_of (junk : Z) (realloc_ok : bool) (c : conversion) : Prop :=
  ∃ op f (step : uvc_frame → Z),
    window_op op (cv_reach c) (cv_bpp c * cv_group c) f
    ∧ 0 < cv_bpp c ∧ 0 < cv_group c ∧ 0 ≤ cv_reach c ≤ 2 * cv_group c
    ∧ (∀ inf, fits 32 (uf_width inf) → step inf = u32 (cv_bpp c * uf_width inf))
    ∧ (∀ inf out, cv_run c inf out = convert junk realloc_ok (cv_from c) (cv_to c) (need_of c inf) (step inf) op
                                      (2 * cv_group c) (cv_bpp c * cv_group c) inf out)
    ∧ ∀ k l, Z.of_nat k * (2 * cv_group c) ≤ len l →
        pieces f (cv_reach c) (2 * cv_group c) k l
        = cv_image c (take (Z.to_nat (Z.of_nat k * (2 * cv_group c))) l).

(** An image made group by group. *)
Lemma pieces_image f image n a k l :
  0 ≤ a → image [] = [] →
  (∀ l1 l2, len l1 = a → image (l1 ++ l2) = f (slice l1 0 n) ++ image l2) → 0 ≤ n ≤ a →
  Z.of_nat k * a ≤ len l → pieces f n a k l = image (take (Z.to_nat (Z.of_nat k * a)) l).
Proof.
  intros Ha Hnil Hstep Hn. revert l. induction k as [|k IH]; intros l Hl; [exact (eq_sym Hnil)|].
  replace (Z.to_nat (Z.of_nat (S k) * a)) with (Z.to_nat a + Z.to_nat (Z.of_nat k * a))%nat by nia.
  rewrite <- take_take_drop, Hstep by (apply len_take; nia). cbn [pieces]. rewrite IH by (rewrite len_drop; nia).
  f_equal. f_equal. unfold slice. rewrite !drop_0, firstn_firstn. f_equal. lia.
Qed.

Ltac image_step :=
  let l := fresh "l" in let Hl := fresh "Hl" in
  intros l ? Hl; repeat (destruct l as [|? l]; [unfold len in Hl; simpl in Hl; lia|]);
  rewrite !len_cons in Hl; assert (len l = 0) as ->%len_nil_inv by lia; reflexivity.

(** The rows that make eight pixels a round. *)
Lemma colour_row junk realloc_ok run from to op px image op8 :
  window_op op 4 6 px →
  (∀ inf out, run inf out = convert junk realloc_ok from to (u32 (u32 (uf_width inf * uf_height inf) * 3))
                              (u32 (uf_width inf * 3)) op8 (2 * 8) (3 * 8) inf out) →
  op8 = (λ src i dst o,
      dst ← (dst ← op src i dst o; op src (i + 4) dst (o + 6));
      (dst ← op src (i + 8) dst (o + 12); op src (i + 8 + 4) dst (o + 12 + 6))) →
  image [] = [] →
  (∀ l1 l2, len l1 = 16 → image (l1 ++ l2) = four_pairs px (slice l1 0 16) ++ image l2) →
  row_of junk realloc_ok {| cv_run := run; cv_from := from; cv_to := to; cv_bpp := 3; cv_group := 8;
                            cv_reach := 16; cv_image := image |}.
Proof.
  intros Hop Hrun -> Hnil Himage. eexists _, (four_pairs px), (λ inf, u32 (uf_width inf * 3)).
  unfold need_of. cbn [cv_run cv_from cv_to cv_bpp cv_group cv_reach cv_image].
  split_and!; try lia; [by apply window_8|intros; f_equal; lia| |].
  - intros. rewrite Hrun. f_equal. unfold wrapu. rewrite Zmult_mod_idemp_l. f_equal. lia.
  - intros k l. by apply pieces_image.
Qed.

Lemma conversion_rows junk realloc_ok : Forall (row_of junk realloc_ok) (conversions junk realloc_ok).
Proof.
  unfold conversions. repeat apply Forall_cons_2; [..|apply Forall_nil_2].
  - eapply colour_row; [apply IYUYV2RGB_2_window|reflexivity..|image_step].
  - eapply colour_row; [apply IYUYV2BGR_2_window|reflexivity..|image_step].
  - eapply colour_row; [apply IUYVY2RGB_2_window|reflexivity..|image_step].
  - eapply colour_row; [apply IUYVY2BGR_2_window|reflexivity..|image_step].
  - eexists _, _, uf_width. unfold need_of. cbn [cv_run cv_from cv_to cv_bpp cv_group cv_reach cv_image].
    split_and!; try lia; [apply IYUYV2Y_window|intros; by rewrite Z.mul_1_l, wrapu_id| |].
    + intros. by rewrite Z.mul_1_l.
    + intros k l. apply pieces_image; try lia; [done|]. image_step.
  - eexists _, _, uf_width. unfold need_of. cbn [cv_run cv_from cv_to cv_bpp cv_group cv_reach cv_image].
    split_and!; try lia; [apply IYUYV2UV_window|intros; by rewrite Z.mul_1_l, wrapu_id| |].
    + intros. by rewrite Z.mul_1_l.
    + intros k l. apply pieces_image; try lia; [done|]. image_step.
Qed.

(** Rounds of the loop for [n] bytes of output, [b] bytes each. *)
Definition rounds (n b : Z) : nat := Z.to_nat ((n + b - 1) / b).

Lemma rounds_spec n b :
  0 ≤ n → 0 < b →
  n ≤ Z.of_nat (rounds n b) * b ∧ (0 < Z.of_nat (rounds n b) → (Z.of_nat (rounds n b) - 1) * b < n)
  ∧ Z.of_nat (rounds n b) ≤ n.
Proof.
  intros Hn Hb. unfold rounds. assert (0 ≤ (n + b - 1) / b) as Hq by (apply Z.div_pos; lia).
  rewrite Z2Nat.id by done. pose proof (Z.div_mod (n + b - 1) b). pose proof (Z.mod_pos_bound (n + b - 1) b).
  split_and!; nia.
Qed.

Lemma rounds_exact k b : 0 ≤ k → 0 < b → Z.of_nat (rounds (k * b) b) = k.
Proof.
  intros Hk Hb. unfold rounds. replace (k * b + b - 1) with (k * b + (b - 1)) by lia.
  rewrite Z.div_add_l, (Z.div_small (b - 1)) by lia. lia.
Qed.

Lemma convert_run junk realloc_ok from to need step op n a b f inf out out1 :
  window_op op n b f → 0 ≤ n ≤ a → 0 < b →
  uf_frame_format inf = from →
  uvc_ensure_frame_size junk realloc_ok out need = (UVC_SUCCESS, out1) → 0 ≤ uf_data_bytes out1 →
  let src := block (uf_data inf) in
  let dst := block (uf_data out1) in
  let k := rounds (uf_data_bytes out1) b in
  convert junk realloc_ok from to need step op a b inf out
  = if decide (reaches n a k 0 (len src) ∧ Z.of_nat k * b ≤ len dst)
    then Ret (UVC_SUCCESS, set_data (copy_header inf out1 to step)
                             (Some (splice dst 0 (pieces f n a k src))) (uf_data_bytes out1))
    else Undef OutOfBounds.
Proof.
  intros Hop Ha Hb Hf He Hn src dst k. unfold convert. rewrite Hf, Z.eqb_refl, He. cbn [negb].
  change (UVC_SUCCESS <? 0) with false. cbn iota.
  destruct (rounds_spec (uf_data_bytes out1) b Hn Hb) as (H1 & H2 & H3). fold k in H1, H2, H3.
  cbn [uf_data_bytes uf_data copy_header]. pose proof (len_nonneg dst).
  rewrite (pixel_loop_run op n a b f src (uf_data_bytes out1) k) by (done || lia).
  fold dst. rewrite (Z.add_0_l (Z.of_nat k * b)).
  by destruct (decide (reaches n a k 0 (len src) ∧ Z.of_nat k * b ≤ len dst)).
Qed.

(** Room in a frame the library owns. *)
Lemma ensure_owned junk out need :
  nz (uf_library_owns_data out) = true → uf_data_bytes out ≤ len (block (uf_data out)) → 0 ≤ need →
  ∃ out1, uvc_ensure_frame_size junk true out need = (UVC_SUCCESS, out1)
    ∧ uf_data_bytes out1 = need ∧ need ≤ len (block (uf_data out1))
    ∧ uf_metadata out1 = uf_metadata out ∧ uf_metadata_bytes out1 = uf_metadata_bytes out.
Proof.
  intros Ho Hl Hn. unfold uvc_ensure_frame_size. rewrite Ho.
  destruct (is_null (uf_data out) || negb (uf_data_bytes out =? need)) eqn:E; cbn [is_null set_data uf_data].
  - eexists. split; [done|]. cbn [set_data uf_data uf_data_bytes uf_metadata uf_metadata_bytes block default].
    unfold id, realloc. by rewrite len_resize.
  - apply orb_false_iff in E as [Hnull Hneed%negb_false_iff%Z.eqb_eq]. rewrite Hnull.
    eexists. split; [done|]. split_and!; try done. lia.
Qed.

(** C24: converting an image into a frame the library owns succeeds for all six
    conversions when its size is a whole number of loop rounds, its data are at least
    the 2 bytes per pixel of the source format, the size of the result fits 32 bits and
    memory does not run out: the output has the input's dimensions, sequence number,
    capture times and source, the target format, the exact number of bytes, and its
    pixels are those of the pixel-by-pixel reference. *)
Theorem conversions_correct junk c inf out m :
  c ∈ conversions junk true →
  uf_frame_format inf = cv_from c →
  fits 32 (uf_width inf) →
  0 ≤ m →
  let pixels := uf_width inf * uf_height inf in
  pixels = m * cv_group c →
  cv_bpp c * pixels < 2 ^ 32 →
  2 * pixels ≤ len (block (uf_data inf)) →
  nz (uf_library_owns_data out) = true →
  uf_data_bytes out ≤ len (block (uf_data out)) →
  returns (cv_run c inf out) (λ '(ret, out'),
    ret = UVC_SUCCESS
    ∧ uf_width out' = uf_width inf ∧ uf_height out' = uf_height inf ∧ uf_frame_format out' = cv_to c
    ∧ uf_sequence out' = uf_sequence inf ∧ uf_capture_time out' = uf_capture_time inf
    ∧ uf_capture_time_finished out' = uf_capture_time_finished inf ∧ uf_source out' = uf_source inf
    ∧ uf_step out' = u32 (cv_bpp c * uf_width inf)
    ∧ uf_data_bytes out' = cv_bpp c * pixels
    ∧ take (Z.to_nat (cv_bpp c * pixels)) (block (uf_data out'))
      = cv_image c (take (Z.to_nat (2 * pixels)) (block (uf_data inf)))).
Proof.
  intros Hc Hfmt Hw Hm pixels Hp Hfit Hin Hown Hout.
  destruct (proj1 (Forall_forall _ _) (conversion_rows junk true) c Hc)
    as (op & f & step & Hop & Hb & Hg & Hr & Hstep & Hrun & Himage).
  set (a := 2 * cv_group c) in *. set (b := cv_bpp c * cv_group c) in *.
  assert (need_of c inf = m * b) as Hneed.
  { unfold need_of. fold pixels. rewrite wrapu_id by (unfold fits; nia). unfold b. nia. }
  destruct (ensure_owned junk out (m * b) Hown Hout) as (out1 & He & Hn & Hl & _); [nia|].
  rewrite Hrun, Hneed.
  rewrite (convert_run junk true _ _ _ _ op (cv_reach c) a b f inf out out1) by (done || nia).
  rewrite Hn. set (k := rounds (m * b) b). assert (Z.of_nat k = m) as Hk by (apply rounds_exact; nia).
  rewrite decide_True by (unfold reaches; nia). cbn [returns]. split_and!; try done.
  - by apply Hstep.
  - cbn [uf_data_bytes set_data]. unfold b. nia.
  - cbn [uf_data set_data block default]. unfold id.
    assert (Z.of_nat k * a ≤ len (block (uf_data inf))) as Hka by nia.
    rewrite Himage by exact Hka. rewrite Hk. replace (m * a) with (2 * pixels) by nia.
    unfold splice. rewrite take_0. cbn [app].
    assert (len (cv_image c (take (Z.to_nat (2 * pixels)) (block (uf_data inf)))) = cv_bpp c * pixels) as Hlen.
    { replace (2 * pixels) with (Z.of_nat k * a) by nia. rewrite <- Himage by exact Hka.
      rewrite (pieces_len f (cv_reach c) a b); [unfold b; nia|apply Hop|lia|unfold reaches; nia]. }
    rewrite <- Hlen at 1. unfold len at 1. rewrite Nat2Z.id. apply take_app_length.
Qed.

(** C35: exactly when a conversion is memory safe: once there is room for the
    image, the loop makes [k] rounds over the whole output buffer, [k] the number
    of its bytes divided by those of a round, rounded up.  The conversion returns
    when [k] full rounds fit the output block and [k] rounds of input are there;
    in every other case it accesses memory outside a block.  The number of input
    bytes is never checked, and an image that is not a whole number of rounds
    overflows the block allocated for it. *)
Theorem conversion_safe_iff junk realloc_ok c inf out out1 :
  c ∈ conversions junk realloc_ok →
  uf_frame_format inf = cv_from c →
  uvc_ensure_frame_size junk realloc_ok out (need_of c inf) = (UVC_SUCCESS, out1) →
  0 ≤ uf_data_bytes out1 →
  let k := rounds (uf_data_bytes out1) (cv_bpp c * cv_group c) in
  if decide (reaches (cv_reach c) (2 * cv_group c) k 0 (len (block (uf_data inf)))
             ∧ Z.of_nat k * (cv_bpp c * cv_group c) ≤ len (block (uf_data out1)))
  then returns (cv_run c inf out) (λ '(ret, _), ret = UVC_SUCCESS)
  else cv_run c inf out = Undef OutOfBounds.
Proof.
  intros Hc Hfmt He Hn k.
  destruct (proj1 (Forall_forall _ _) (conversion_rows junk realloc_ok) c Hc)
    as (op & f & step & Hop & Hb & Hg & Hr & _ & Hrun & _).
  rewrite Hrun.
  erewrite (convert_run junk realloc_ok _ _ _ _ op (cv_reach c)) by (done || nia).
  fold k. by case_decide.
Qed.

(** ** Colours *)

(** A colour channel in units of 10^-5, cut to the range of a byte. *)
Definition clamp5 (x : Z) : Z := Z.max 0 (Z.min (255 * 10 ^ 5) x).

Lemma sat_clamp i : 10 ^ 5 * sat i = clamp5 (10 ^ 5 * i).
Proof.
  unfold sat, clamp5. rewrite wrapu_id by (unfold fits; destruct (Z.leb_spec 255 i), (Z.ltb_spec i 0); lia).
  destruct (Z.leb_spec 255 i), (Z.ltb_spec i 0); lia.
Qed.

Lemma clamp5_close x x' e : 0 ≤ e → Z.abs (x - x') ≤ e → Z.abs (clamp5 x - clamp5 x') ≤ e.
Proof. unfold clamp5. lia. Qed.

(** C37: the integer arithmetic of the conversions is within 1.14 levels of the
    floating-point formula the file also gives (r = y + 1.402 (v - 128), g = y -
    0.34414 (u - 128) - 0.71414 (v - 128), b = y + 1.772 (u - 128), cut to a
    byte), in every channel and for all bytes y, u and v. *)
Theorem colours_accurate y u v :
  fits 8 y → fits 8 u → fits 8 v →
  Forall2 (λ got ideal, Z.abs (10 ^ 5 * got - clamp5 ideal) ≤ 114000)
    (rgb y u v)
    [10 ^ 5 * y + 140200 * (v - 128);
     10 ^ 5 * y - 34414 * (u - 128) - 71414 * (v - 128);
     10 ^ 5 * y + 177200 * (u - 128)].
Proof.
  intros Hy Hu Hv. unfold fits in *. change (2 ^ 8) with 256 in *.
  repeat apply Forall2_cons_2; [..|apply Forall2_nil_2].
  all: rewrite sat_clamp; apply clamp5_close; [lia|].
  all: unfold red_diff, green_diff, blue_diff; rewrite Z.shiftr_div_pow2 by lia; change (2 ^ 14) with 16384.
  all: change (10 ^ 5) with 100000; Z.to_euclidean_division_equations; lia.
Qed.

(** ** Duplicates *)

(** Duplicating a frame into one the library owns succeeds and copies every
    stamp, the dimensions and all data bytes.  The metadata are copied when the
    original has some; when it has none the duplicate keeps whatever metadata the
    output frame had before. *)
Theorem duplicate_frame_correct junk inf out :
  frame_ok inf → frame_ok out →
  nz (uf_library_owns_data out) = true →
  returns (uvc_duplicate_frame junk true inf out) (λ '(ret, out'),
    ret = UVC_SUCCESS ∧ frame_ok out'
    ∧ uf_width out' = uf_width inf ∧ uf_height out' = uf_height inf
    ∧ uf_frame_format out' = uf_frame_format inf ∧ uf_step out' = uf_step inf
    ∧ uf_sequence out' = uf_sequence inf ∧ uf_capture_time out' = uf_capture_time inf
    ∧ uf_capture_time_finished out' = uf_capture_time_finished inf ∧ uf_source out' = uf_source inf
    ∧ uf_data_bytes out' = uf_data_bytes inf
    ∧ take (Z.to_nat (uf_data_bytes inf)) (block (uf_data out'))
      = take (Z.to_nat (uf_data_bytes inf)) (block (uf_data inf))
    ∧ if negb (is_null (uf_metadata inf)) && (0 <? uf_metadata_bytes inf)
      then uf_metadata_bytes out' = uf_metadata_bytes inf
           ∧ take (Z.to_nat (uf_metadata_bytes inf)) (block (uf_metadata out'))
             = take (Z.to_nat (uf_metadata_bytes inf)) (block (uf_metadata inf))
      else uf_metadata out' = uf_metadata out ∧ uf_metadata_bytes out' = uf_metadata_bytes out).
Proof.
  intros [Hid Him] [Hod Hom] Hown. unfold uvc_duplicate_frame.
  destruct (ensure_owned junk out (uf_data_bytes inf) Hown) as (out1 & -> & Hn & Hl & Hm & Hmb); [lia..|].
  change (UVC_SUCCESS <? 0) with false. cbn iota. cbn [copy_header uf_data].
  destruct (copy_front (block (uf_data out1)) (block (uf_data inf)) (uf_data_bytes inf))
    as (data & -> & Hld & Htd & _); [lia..|].
  cbn [mbind outcome_bind]. cbn [set_data copy_header uf_metadata uf_metadata_bytes]. rewrite Hm, Hmb.
  destruct (negb (is_null (uf_metadata inf)) && (0 <? uf_metadata_bytes inf)) eqn:Em.
  2:{ cbn [returns]. unfold frame_ok. cbn [set_data copy_header uf_data uf_data_bytes uf_metadata uf_metadata_bytes block default].
      unfold id. rewrite Hm, Hmb, Hn. split_and!; try done; try lia. exact (proj2 Hom). }
  rewrite returns_bind. eapply (returns_mono _ (λ m, uf_metadata_bytes inf ≤ len m)).
  { destruct (uf_metadata_bytes out <? uf_metadata_bytes inf) eqn:Eg; cbn [returns];
      [unfold realloc; rewrite len_resize; lia|lia]. }
  intros m Hlm. rewrite returns_bind.
  destruct (copy_front m (block (uf_metadata inf)) (uf_metadata_bytes inf)) as (meta & -> & Hlen & Ht & _); [lia..|].
  cbn [returns]. unfold frame_ok. cbn [set_metadata set_data copy_header uf_data uf_data_bytes uf_metadata
    uf_metadata_bytes block default]. unfold id. rewrite Hn.
  apply andb_true_iff in Em as [_ Em%Z.ltb_lt]. split_and!; try done; lia.
Qed.

(** ** Witnesses *)

Definition image_frame (width height format : Z) (data : bytes) : uvc_frame :=
  {| uf_data := Some data; uf_data_bytes := len data; uf_width := width; uf_height := height;
     uf_frame_format := format; uf_step := 2 * width; uf_sequence := 7; uf_capture_time := 0;
     uf_capture_time_finished := 0; uf_source := 0; uf_library_owns_data := 1;
     uf_metadata := Some [1; 2]; uf_metadata_bytes := 2 |}.

Definition empty_frame : uvc_frame :=
  {| uf_data := None; uf_data_bytes := 0; uf_width := 0; uf_height := 0; uf_frame_format := 0;
     uf_step := 0; uf_sequence := 0; uf_capture_time := 0; uf_capture_time_finished := 0; uf_source := 0;
     uf_library_owns_data := 1; uf_metadata := None; uf_metadata_bytes := 0 |}.

(** An image of 4 by 2 pixels is one round. *)
Lemma conversions_correct_witness :
  returns (uvc_yuyv2rgb 0xAA true (image_frame 4 2 UVC_FRAME_FORMAT_YUYV (replicate 16 128)) empty_frame)
    (λ '(ret, out'), ret = UVC_SUCCESS ∧ take 24 (block (uf_data out')) = replicate 24 128).
Proof.
  eapply returns_mono.
  - apply (conversions_correct 0xAA
      {| cv_run := uvc_yuyv2rgb 0xAA true; cv_from := UVC_FRAME_FORMAT_YUYV; cv_to := UVC_FRAME_FORMAT_RGB;
         cv_bpp := 3; cv_group := 8; cv_reach := 16; cv_image := yuyv_image rgb |}
      (image_frame 4 2 UVC_FRAME_FORMAT_YUYV (replicate 16 128)) empty_frame 1).
    + apply (list_elem_of_lookup_2 _ 0). reflexivity.
    + reflexivity.
    + split; [cbn; lia|reflexivity].
    + lia.
    + reflexivity.
    + reflexivity.
    + cbn. unfold len. cbn. lia.
    + reflexivity.
    + cbn. unfold len. cbn. lia.
  - intros [ret out'] (Hret & _ & _ & _ & _ & _ & _ & _ & _ & _ & Hp). split; [exact Hret|]. exact Hp.
Defined.

(** A 2 by 2 image overflows the twelve bytes allocated for it. *)
Lemma conversion_safe_iff_witness :
  uvc_yuyv2rgb 0xAA true (image_frame 2 2 UVC_FRAME_FORMAT_YUYV (replicate 8 128)) empty_frame
  = Undef OutOfBounds.
Proof.
  assert (0 ≤ uf_data_bytes (set_data empty_frame (Some (replicate 12 0xAA)) 12)) as Hn by (cbn; lia).
  pose proof (conversion_safe_iff 0xAA true
    {| cv_run := uvc_yuyv2rgb 0xAA true; cv_from := UVC_FRAME_FORMAT_YUYV; cv_to := UVC_FRAME_FORMAT_RGB;
       cv_bpp := 3; cv_group := 8; cv_reach := 16; cv_image := yuyv_image rgb |}
    (image_frame 2 2 UVC_FRAME_FORMAT_YUYV (replicate 8 128)) empty_frame
    (set_data empty_frame (Some (replicate 12 0xAA)) 12)
    (list_elem_of_lookup_2 (conversions 0xAA true) 0 _ eq_refl) eq_refl eq_refl Hn) as G.
  vm_compute in G. exact G.
Defined.

Lemma colours_accurate_witness :
  Forall2 (λ got ideal, Z.abs (10 ^ 5 * got - clamp5 ideal) ≤ 114000) (rgb 255 0 255)
    [10 ^ 5 * 255 + 140200 * (255 - 128);
     10 ^ 5 * 255 - 34414 * (0 - 128) - 71414 * (255 - 128);
     10 ^ 5 * 255 + 177200 * (0 - 128)].
Proof. apply (colours_accurate 255 0 255); split; lia. Defined.

Lemma duplicate_frame_correct_witness :
  returns (uvc_duplicate_frame 0xAA true (image_frame 1 2 UVC_FRAME_FORMAT_YUYV [1; 2; 3; 4]) empty_frame)
    (λ '(ret, out'), ret = UVC_SUCCESS ∧ uf_data_bytes out' = 4).
Proof.
  eapply returns_mono.
  - apply (duplicate_frame_correct 0xAA (image_frame 1 2 UVC_FRAME_FORMAT_YUYV [1; 2; 3; 4]) empty_frame).
    + split; split; vm_compute; discriminate.
    + split; split; vm_compute; discriminate.
    + reflexivity.
  - intros [ret out'] H. split; [apply H|]. exact (proj1 (proj2 (proj2 (proj2 (proj2 (proj2 (proj2 (proj2 (proj2 (proj2 (proj2 H))))))))))).
Defined.
