(* ===== verification/Mjpeg.v ===== *)
(** * Mjpeg: decoding motion JPEG frames, src/frame-mjpeg.c

    The decoder is libjpeg's; the library sets it up, gives it the standard Huffman
    tables when the frame has none, and tells it where each line goes.  An error
    inside libjpeg, from [jpeg_create_decompress] on, jumps to the failure exit; what
    libjpeg promises there is that [jpeg_destroy_decompress] works on a decoder in any
    state.  A call for a line that fails is taken to store nothing of it. *)

From stdpp Require Import prelude.
From S2P Require Import Prelude Types Handles Frame.

(** ** Huffman tables *)

Definition dc_lumi_len : bytes :=
  [0; 0; 1; 5; 1; 1; 1; 1; 1; 1; 0; 0; 0; 0; 0; 0;
   0].

Definition dc_lumi_val : bytes :=
  [0; 1; 2; 3; 4; 5; 6; 7; 8; 9; 10; 11].

Definition dc_chromi_len : bytes :=
  [0; 0; 3; 1; 1; 1; 1; 1; 1; 1; 1; 1; 0; 0; 0; 0;
   0].

Definition dc_chromi_val : bytes :=
  [0; 1; 2; 3; 4; 5; 6; 7; 8; 9; 10; 11].

Definition ac_lumi_len : bytes :=
  [0; 0; 2; 1; 3; 3; 2; 4; 3; 5; 5; 4; 4; 0; 0; 1;
   0x7d].

Definition ac_lumi_val : bytes :=
  [0x01; 0x02; 0x03; 0x00; 0x04; 0x11; 0x05; 0x12; 0x21; 0x31; 0x41; 0x06; 0x13; 0x51; 0x61; 0x07;
   0x22; 0x71; 0x14; 0x32; 0x81; 0x91; 0xa1; 0x08; 0x23; 0x42; 0xb1; 0xc1; 0x15; 0x52; 0xd1; 0xf0;
   0x24; 0x33; 0x62; 0x72; 0x82; 0x09; 0x0a; 0x16; 0x17; 0x18; 0x19; 0x1a; 0x25; 0x26; 0x27; 0x28;
   0x29; 0x2a; 0x34; 0x35; 0x36; 0x37; 0x38; 0x39; 0x3a; 0x43; 0x44; 0x45; 0x46; 0x47; 0x48; 0x49;
   0x4a; 0x53; 0x54; 0x55; 0x56; 0x57; 0x58; 0x59; 0x5a; 0x63; 0x64; 0x65; 0x66; 0x67; 0x68; 0x69;
   0x6a; 0x73; 0x74; 0x75; 0x76; 0x77; 0x78; 0x79; 0x7a; 0x83; 0x84; 0x85; 0x86; 0x87; 0x88; 0x89;
   0x8a; 0x92; 0x93; 0x94; 0x95; 0x96; 0x97; 0x98; 0x99; 0x9a; 0xa2; 0xa3; 0xa4; 0xa5; 0xa6; 0xa7;
   0xa8; 0xa9; 0xaa; 0xb2; 0xb3; 0xb4; 0xb5; 0xb6; 0xb7; 0xb8; 0xb9; 0xba; 0xc2; 0xc3; 0xc4; 0xc5;
   0xc6; 0xc7; 0xc8; 0xc9; 0xca; 0xd2; 0xd3; 0xd4; 0xd5; 0xd6; 0xd7; 0xd8; 0xd9; 0xda; 0xe1; 0xe2;
   0xe3; 0xe4; 0xe5; 0xe6; 0xe7; 0xe8; 0xe9; 0xea; 0xf1; 0xf2; 0xf3; 0xf4; 0xf5; 0xf6; 0xf7; 0xf8;
   0xf9; 0xfa].

Definition ac_chromi_len : bytes :=
  [0; 0; 2; 1; 2; 4; 4; 3; 4; 7; 5; 4; 4; 0; 1; 2;
   0x77].

Definition ac_chromi_val : bytes :=
  [0x00; 0x01; 0x02; 0x03; 0x11; 0x04; 0x05; 0x21; 0x31; 0x06; 0x12; 0x41; 0x51; 0x07; 0x61; 0x71;
   0x13; 0x22; 0x32; 0x81; 0x08; 0x14; 0x42; 0x91; 0xa1; 0xb1; 0xc1; 0x09; 0x23; 0x33; 0x52; 0xf0;
   0x15; 0x62; 0x72; 0xd1; 0x0a; 0x16; 0x24; 0x34; 0xe1; 0x25; 0xf1; 0x17; 0x18; 0x19; 0x1a; 0x26;
   0x27; 0x28; 0x29; 0x2a; 0x35; 0x36; 0x37; 0x38; 0x39; 0x3a; 0x43; 0x44; 0x45; 0x46; 0x47; 0x48;
   0x49; 0x4a; 0x53; 0x54; 0x55; 0x56; 0x57; 0x58; 0x59; 0x5a; 0x63; 0x64; 0x65; 0x66; 0x67; 0x68;
   0x69; 0x6a; 0x73; 0x74; 0x75; 0x76; 0x77; 0x78; 0x79; 0x7a; 0x82; 0x83; 0x84; 0x85; 0x86; 0x87;
   0x88; 0x89; 0x8a; 0x92; 0x93; 0x94; 0x95; 0x96; 0x97; 0x98; 0x99; 0x9a; 0xa2; 0xa3; 0xa4; 0xa5;
   0xa6; 0xa7; 0xa8; 0xa9; 0xaa; 0xb2; 0xb3; 0xb4; 0xb5; 0xb6; 0xb7; 0xb8; 0xb9; 0xba; 0xc2; 0xc3;
   0xc4; 0xc5; 0xc6; 0xc7; 0xc8; 0xc9; 0xca; 0xd2; 0xd3; 0xd4; 0xd5; 0xd6; 0xd7; 0xd8; 0xd9; 0xda;
   0xe2; 0xe3; 0xe4; 0xe5; 0xe6; 0xe7; 0xe8; 0xe9; 0xea; 0xf2; 0xf3; 0xf4; 0xf5; 0xf6; 0xf7; 0xf8;
   0xf9; 0xfa].

(** libjpeg's [JHUFF_TBL]: how many codes there are of each length, and the values. *)
Record huff_tbl := {
  ht_bits : bytes;        (* 17 *)
  ht_huffval : bytes;     (* 256 *)
}.

(** [dc_huff_tbl_ptrs[0]], [[1]], [ac_huff_tbl_ptrs[0]], [[1]]. *)
Record huff_slots := {
  hs_dc0 : option huff_tbl;
  hs_dc1 : option huff_tbl;
  hs_ac0 : option huff_tbl;
  hs_ac1 : option huff_tbl;
}.

Definition no_table (t : option huff_tbl) : bool := match t with None => true | Some _ => false end.

Section tables.
Context (junk : Z).

Definition jpeg_alloc_huff_table : huff_tbl :=
  {| ht_bits := replicate 17 junk; ht_huffval := replicate 256 junk |}.

Definition COPY_HUFF_TABLE (tbl : option huff_tbl) (name_len name_val : bytes) : outcome huff_tbl :=
  let tbl := default jpeg_alloc_huff_table tbl in
  bits ← memcpy (ht_bits tbl) 0 name_len 0 (len name_len);
  huffval ← memcpy (ht_huffval tbl) 0 (replicate 256 0) 0 256;
  huffval ← memcpy huffval 0 name_val 0 (len name_val);
  Ret {| ht_bits := bits; ht_huffval := huffval |}.

Definition insert_huff_tables (s : huff_slots) : outcome huff_slots :=
  dc0 ← COPY_HUFF_TABLE (hs_dc0 s) dc_lumi_len dc_lumi_val;
  dc1 ← COPY_HUFF_TABLE (hs_dc1 s) dc_chromi_len dc_chromi_val;
  ac0 ← COPY_HUFF_TABLE (hs_ac0 s) ac_lumi_len ac_lumi_val;
  ac1 ← COPY_HUFF_TABLE (hs_ac1 s) ac_chromi_len ac_chromi_val;
  Ret {| hs_dc0 := Some dc0; hs_dc1 := Some dc1; hs_ac0 := Some ac0; hs_ac1 := Some ac1 |}.
End tables.

(** ** libjpeg *)

Inductive color_space :=
  | JCS_RGB
  | JCS_GRAYSCALE.

(** A decoder that was started: its output size, its lines in order, [None] for an
    error in one, and whether [jpeg_finish_decompress] succeeds. *)
Record jpeg_output := {
  jo_width : Z;
  jo_height : Z;
  jo_line : nat → option bytes;
  jo_finish : bool;
}.

(** [jpeg_create_decompress] and the allocation of a table succeed or not;
    [jpeg_read_header] gives the tables of the file, [jpeg_start_decompress] the
    decoder, [None] is an error.  A call of [jpeg_read_scanlines] for one line gives
    one, since a source in memory never suspends. *)
Class Libjpeg := {
  jpeg_create_decompress : bool;
  jpeg_can_alloc : bool;
  jpeg_read_header : bytes → option huff_slots;
  jpeg_start_decompress : bytes → huff_slots → color_space → option jpeg_output;
}.

(** ** Conversion *)

Section convert.
Context `{Libjpeg} (junk : Z) (realloc_ok : bool).

(** The loop over the lines from line [k], [n] are left: whether they were all read,
    and the output block. *)
Fixpoint read_lines (jo : jpeg_output) (step : Z) (n k : nat) (data : bytes) : outcome (bool * bytes) :=
  match n with
  | O => Ret (true, data)
  | S n =>
      match jo_line jo k with
      | None => Ret (false, data)
      | Some line =>
          data ← memcpy data (Z.of_nat k * step) line 0 (len line);
          read_lines jo step n (S k) data
      end
  end.

Definition out_color_space (format : Z) : option color_space :=
  if format =? UVC_FRAME_FORMAT_RGB then Some JCS_RGB
  else if format =? UVC_FRAME_FORMAT_GRAY8 then Some JCS_GRAYSCALE
  else None.

Definition uvc_mjpeg_convert (inf out : uvc_frame) : outcome (Z * uvc_frame) :=
  src ← rd_bytes (block (uf_data inf)) 0 (uf_data_bytes inf);
  if negb jpeg_create_decompress then Ret (UVC_ERROR_OTHER, out) else
  match jpeg_read_header src with
  | None => Ret (UVC_ERROR_OTHER, out)
  | Some slots =>
      if no_table (hs_dc0 slots) && negb jpeg_can_alloc then Ret (UVC_ERROR_OTHER, out) else
      slots ← match hs_dc0 slots with None => insert_huff_tables junk slots | Some _ => Ret slots end;
      match out_color_space (uf_frame_format out) with
      | None => Ret (UVC_ERROR_OTHER, out)
      | Some cs =>
          match jpeg_start_decompress src slots cs with
          | None => Ret (UVC_ERROR_OTHER, out)
          | Some jo =>
              '(done, data) ← read_lines jo (uf_step out) (Z.to_nat (jo_height jo)) 0 (block (uf_data out));
              let out := set_data out (Some data) (uf_data_bytes out) in
              Ret (if done && jo_finish jo then UVC_SUCCESS else UVC_ERROR_OTHER, out)
          end
      end
  end.

Definition uvc_mjpeg2rgb (inf out : uvc_frame) : outcome (Z * uvc_frame) :=
  if negb (uf_frame_format inf =? UVC_FRAME_FORMAT_MJPEG) then Ret (UVC_ERROR_INVALID_PARAM, out) else
  let '(ret, out) := uvc_ensure_frame_size junk realloc_ok out (u32 (u32 (uf_width inf * uf_height inf) * 3)) in
  if ret <? 0 then Ret (UVC_ERROR_NO_MEM, out) else
  uvc_mjpeg_convert inf (copy_header inf out UVC_FRAME_FORMAT_RGB (u32 (uf_width inf * 3))).

Definition uvc_mjpeg2gray (inf out : uvc_frame) : outcome (Z * uvc_frame) :=
  if negb (uf_frame_format inf =? UVC_FRAME_FORMAT_MJPEG) then Ret (UVC_ERROR_INVALID_PARAM, out) else
  let '(ret, out) := uvc_ensure_frame_size junk realloc_ok out (u32 (uf_width inf * uf_height inf)) in
  if ret <? 0 then Ret (UVC_ERROR_NO_MEM, out) else
  uvc_mjpeg_convert inf (copy_header inf out UVC_FRAME_FORMAT_GRAY8 (uf_width inf)).
End convert.
