(* ===== verification/MjpegFacts.v ===== *)
(** * MjpegFacts: where a decoded JPEG goes

    The output block is sized by the frame, the lines written to it by the JPEG
    file.  The conversions are safe exactly when the file's image fits, and then
    the block holds its lines; the standard Huffman tables are proper codes. *)

From stdpp Require Import prelude.
From S2P Require Import Prelude Types Handles Frame FrameFacts Mjpeg.

(** ** The standard tables *)

(** The part of the code space the codes of length [k] and longer take, in units of
    [2 ^ -16]. *)
Fixpoint kraft (k : Z) (bits : bytes) : Z :=
  match bits with
  | [] => 0
  | b :: bits => b * 2 ^ (16 - k) + kraft (k + 1) bits
  end.

(** As many values as codes, all different; a prefix code that leaves the code of
    all ones unused. *)
Definition proper_table (name_len name_val : bytes) : Prop :=
  len name_len = 17 ∧ foldr Z.add 0 name_len = len name_val ∧ len name_val ≤ 256 ∧ NoDup name_val
  ∧ bytes_ok name_len ∧ bytes_ok name_val ∧ kraft 0 name_len < 2 ^ 16.

Lemma standard_tables :
  Forall (λ t, proper_table t.1 t.2)
    [(dc_lumi_len, dc_lumi_val); (dc_chromi_len, dc_chromi_val); (ac_lumi_len, ac_lumi_val); (ac_chromi_len, ac_chromi_val)].
Proof.
  repeat constructor; try (apply (bool_decide_unpack _); vm_compute; exact I); vm_compute; reflexivity.
Qed.

(** The table a decoder gets: the lengths, and the values padded with zeros. *)
Definition standard_table (name_len name_val : bytes) : huff_tbl :=
  {| ht_bits := name_len; ht_huffval := name_val ++ replicate (256 - length name_val) 0 |}.

Definition standard_slots : huff_slots :=
  {| hs_dc0 := Some (standard_table dc_lumi_len dc_lumi_val);
     hs_dc1 := Some (standard_table dc_chromi_len dc_chromi_val);
     hs_ac0 := Some (standard_table ac_lumi_len ac_lumi_val);
     hs_ac1 := Some (standard_table ac_chromi_len ac_chromi_val) |}.

(** The arrays of a [JHUFF_TBL] have their declared sizes. *)
Definition table_sized (t : option huff_tbl) : Prop :=
  match t with
  | None => True
  | Some t => len (ht_bits t) = 17 ∧ len (ht_huffval t) = 256
  end.

Definition slots_sized (s : huff_slots) : Prop :=
  table_sized (hs_dc0 s) ∧ table_sized (hs_dc1 s) ∧ table_sized (hs_ac0 s) ∧ table_sized (hs_ac1 s).

Lemma memcpy_splice dst o src :
  0 ≤ o → o + len src ≤ len dst → memcpy dst o src 0 (len src) = Ret (splice dst o src).
Proof.
  intros. unfold memcpy. pose proof (len_nonneg src). rewrite decide_True by lia.
  unfold splice. rewrite drop_0, (take_ge src); [done|]. unfold len. lia.
Qed.

(** A table is overwritten whole, whatever it held. *)
Lemma copy_huff_table_run junk t name_len name_val :
  table_sized t → proper_table name_len name_val →
  COPY_HUFF_TABLE junk t name_len name_val = Ret (standard_table name_len name_val).
Proof.
  intros Ht (Hl & _ & Hv & _).
  assert (table_sized (Some (default (jpeg_alloc_huff_table junk) t))) as [Hb Hh].
  { destruct t; [exact Ht|]. by split; vm_compute. }
  unfold COPY_HUFF_TABLE. cbv zeta. set (tbl := default _ t) in *.
  rewrite (memcpy_splice (ht_bits tbl) 0 name_len) by lia. cbn [mbind outcome_bind].
  assert (memcpy (ht_huffval tbl) 0 (replicate 256 0) 0 256 = Ret (splice (ht_huffval tbl) 0 (replicate 256 0))) as ->.
  { apply (memcpy_splice _ _ (replicate 256 0)); rewrite ?Hh; done. }
  cbn [mbind outcome_bind].
  assert (∀ (l m : bytes), len l = len m → splice l 0 m = m) as Hfull.
  { intros l m E. unfold splice. rewrite take_0, drop_ge; [by rewrite app_nil_r|]. unfold len in *. lia. }
  rewrite (Hfull (ht_bits tbl)) by lia. rewrite (Hfull (ht_huffval tbl)) by (rewrite Hh; done).
  rewrite memcpy_splice by (done || (change (len (replicate 256 0)) with 256; lia)).
  cbn [mbind outcome_bind]. unfold standard_table, splice. rewrite take_0, drop_replicate.
  replace (Z.to_nat (0 + len name_val)) with (length name_val); [done|]. unfold len. lia.
Qed.

Lemma insert_huff_tables_run junk s : slots_sized s → insert_huff_tables junk s = Ret standard_slots.
Proof.
  intros (H1 & H2 & H3 & H4). pose proof standard_tables as T.
  repeat (apply Forall_cons in T as [? T]).
  unfold insert_huff_tables. by rewrite !copy_huff_table_run.
Qed.

(** ** The lines *)

Lemma slice_take l m i n : 0 ≤ i → 0 ≤ n → i + n ≤ m → slice (take (Z.to_nat m) l) i n = slice l i n.
Proof.
  intros. unfold slice. rewrite skipn_firstn_comm, take_take. f_equal. lia.
Qed.

Lemma slice_splice dst o m : 0 ≤ o → o + len m ≤ len dst → slice (splice dst o m) o (len m) = m.
Proof.
  intros. unfold slice, splice. pose proof (len_nonneg m).
  rewrite drop_app_length' by (unfold len in *; rewrite length_take; lia).
  unfold len. rewrite Nat2Z.id. apply take_app_length.
Qed.

Lemma take_splice dst o m : 0 ≤ o ≤ len dst → take (Z.to_nat o) (splice dst o m) = take (Z.to_nat o) dst.
Proof.
  intros. unfold splice. apply take_app_length'. unfold len in *. rewrite length_take. lia.
Qed.

(** The lines from [k] on, each of [row] bytes, [step] apart: the loop stores each at
    its place when the last ends inside the block, and faults otherwise. *)
Lemma read_lines_run jo step row n : ∀ k data,
  0 ≤ step → 0 ≤ row →
  (∀ j, (k ≤ j < k + n)%nat → ∃ l, jo_line jo j = Some l ∧ len l = row) →
  if decide (n = 0%nat ∨ (Z.of_nat k + Z.of_nat n - 1) * step + row ≤ len data) then
    ∃ data', read_lines jo step n k data = Ret (true, data') ∧ len data' = len data
      ∧ take (Z.to_nat (Z.of_nat k * step)) data' = take (Z.to_nat (Z.of_nat k * step)) data
      ∧ (row ≤ step → ∀ j l, (k ≤ j < k + n)%nat → jo_line jo j = Some l →
           slice data' (Z.of_nat j * step) row = l)
  else read_lines jo step n k data = Undef OutOfBounds.
Proof.
  induction n as [|n IH]; intros k data Hs Hr Hlines.
  { rewrite decide_True by (left; done). exists data. split_and!; try done. intros; lia. }
  destruct (Hlines k) as (l & Hl & Hrow); [lia|]. cbn [read_lines]. rewrite Hl.
  destruct (decide (Z.of_nat k * step + row ≤ len data)) as [Hin|Hout].
  2:{ rewrite memcpy_oob by lia. rewrite decide_False; [done|]. nia. }
  rewrite memcpy_splice by lia. cbn [mbind outcome_bind].
  specialize (IH (S k) (splice data (Z.of_nat k * step) l) Hs Hr).
  rewrite len_splice in IH by lia.
  replace (Z.of_nat (S k) + Z.of_nat n - 1) with (Z.of_nat k + Z.of_nat (S n) - 1) in IH by lia.
  destruct n as [|n].
  { rewrite !decide_True by lia.
    destruct IH as (data' & [= <-] & _); [intros; lia|]. eexists. split; [done|].
    split; [apply len_splice; lia|]. split; [apply take_splice; lia|].
    intros _ j l' Hj Hl'. assert (j = k) as -> by lia. simplify_eq. apply slice_splice; lia. }
  destruct (decide ((Z.of_nat k + Z.of_nat (S (S n)) - 1) * step + row ≤ len data)) as [Hfit|Hfit].
  2:{ rewrite decide_False in IH by lia. rewrite decide_False by lia. apply IH. intros; apply Hlines; lia. }
  rewrite decide_True in IH by lia. rewrite decide_True by lia.
  destruct IH as (data' & Hrun & Hlen & Htake & Hslice); [intros; apply Hlines; lia|].
  exists data'. split; [done|]. split; [done|]. split.
  - rewrite <- (take_splice data (Z.of_nat k * step) l) by lia.
    apply (f_equal (take (Z.to_nat (Z.of_nat k * step)))) in Htake. rewrite !take_take in Htake.
    by rewrite !Nat.min_l in Htake by nia.
  - intros Hle j l' Hj Hl'. destruct (decide (j = k)) as [->|]; [|apply Hslice; (done || lia)].
    simplify_eq. rewrite <- (slice_take data' (Z.of_nat (S k) * step)) by nia.
    rewrite Htake, slice_take by nia. apply slice_splice; lia.
Qed.

(** How many lines are read before one fails, of [n] from line [k] on. *)
Fixpoint lines_before_error (jo : jpeg_output) (n k : nat) : nat :=
  match n with
  | O => O
  | S n => match jo_line jo k with None => O | Some _ => S (lines_before_error jo n (S k)) end
  end.

Lemma lines_before_error_some jo n : ∀ k j,
  (k ≤ j < k + lines_before_error jo n k)%nat → is_Some (jo_line jo j).
Proof.
  induction n as [|n IH]; intros k j Hj; cbn [lines_before_error] in Hj; [lia|].
  destruct (jo_line jo k) eqn:E; [|lia]. destruct (decide (j = k)) as [->|]; [by rewrite E|]. apply (IH (S k)). lia.
Qed.

(** The loop ends at the first line that fails. *)
Lemma read_lines_error jo step n : ∀ k data,
  read_lines jo step n k data
  = ('(_, data') ← read_lines jo step (lines_before_error jo n k) k data;
     Ret (bool_decide (lines_before_error jo n k = n), data')).
Proof.
  induction n as [|n IH]; intros k data; cbn [read_lines lines_before_error]; [done|].
  destruct (jo_line jo k) as [line|] eqn:E; [|done]. cbn [read_lines]. rewrite E.
  destruct (memcpy _ _ _ _ _) as [data1|]; [|done]. cbn [mbind outcome_bind]. rewrite IH.
  destruct (read_lines _ _ _ _ _) as [[b d]|]; [|done]. cbn [mbind outcome_bind].
  by rewrite (bool_decide_ext (S (lines_before_error jo n (S k)) = S n) (lines_before_error jo n (S k) = n)) by lia.
Qed.

(** ** The conversions *)

Record mjpeg_row := {
  mj_run : uvc_frame → uvc_frame → outcome (Z * uvc_frame);
  mj_to : Z;
  mj_space : color_space;
  mj_bpp : Z;             (* bytes of a pixel *)
}.

Section conversions.
Context `{Libjpeg} (junk : Z) (realloc_ok : bool).

Definition mjpeg_conversions : list mjpeg_row :=
  [{| mj_run := uvc_mjpeg2rgb junk realloc_ok; mj_to := UVC_FRAME_FORMAT_RGB; mj_space := JCS_RGB; mj_bpp := 3 |};
   {| mj_run := uvc_mjpeg2gray junk realloc_ok; mj_to := UVC_FRAME_FORMAT_GRAY8; mj_space := JCS_GRAYSCALE;
      mj_bpp := 1 |}].

(** The tables the decoder is started with. *)
Definition usable_slots (slots : huff_slots) : huff_slots :=
  match hs_dc0 slots with
  | None => standard_slots
  | Some _ => slots
  end.

(** What libjpeg documents: its tables have their declared sizes, and the lines it
    delivers are as long as the image is wide. *)
Record libjpeg_documented : Prop := {
  lj_tables src slots : jpeg_read_header src = Some slots → slots_sized slots;
  lj_lines src slots c jo : c ∈ mjpeg_conversions → jpeg_start_decompress src slots (mj_space c) = Some jo →
    0 ≤ jo_width jo ∧ ∀ k l, jo_line jo k = Some l → len l = mj_bpp c * jo_width jo;
}.

(** The decoder of a file, or [None] if libjpeg reports an error before the first line. *)
Definition decoder_of (src : bytes) (c : mjpeg_row) : option jpeg_output :=
  if negb jpeg_create_decompress then None else
  slots ← jpeg_read_header src;
  if no_table (hs_dc0 slots) && negb jpeg_can_alloc then None else
  jpeg_start_decompress src (usable_slots slots) (mj_space c).

(** The room a conversion asks for. *)
Definition mjpeg_need (c : mjpeg_row) (inf : uvc_frame) : Z := u32 (mj_bpp c * (uf_width inf * uf_height inf)).

Lemma mjpeg_row_run c inf out :
  c ∈ mjpeg_conversions → uf_frame_format inf = UVC_FRAME_FORMAT_MJPEG → fits 32 (mj_bpp c * uf_width inf) →
  out_color_space (mj_to c) = Some (mj_space c) ∧ 0 < mj_bpp c ∧
  mj_run c inf out =
    let '(ret, out1) := uvc_ensure_frame_size junk realloc_ok out (mjpeg_need c inf) in
    if ret <? 0 then Ret (UVC_ERROR_NO_MEM, out1) else
    uvc_mjpeg_convert junk inf (copy_header inf out1 (mj_to c) (mj_bpp c * uf_width inf)).
Proof.
  intros Hc Hf Hw. unfold mjpeg_conversions in Hc. unfold mjpeg_need.
  apply elem_of_cons in Hc as [->|[->|[]%elem_of_nil]%elem_of_cons];
    cbn [mj_run mj_to mj_space mj_bpp] in *; (split; [done|]); (split; [done|]).
  - unfold uvc_mjpeg2rgb. rewrite Hf. cbn [negb Z.eqb]. rewrite (Z.mul_comm (uf_width inf) 3), (wrapu_id _ (3 * _)) by done.
    unfold wrapu. rewrite Zmult_mod_idemp_l, (Z.mul_comm _ 3). done.
  - unfold uvc_mjpeg2gray. rewrite Hf, !Z.mul_1_l. done.
Qed.

(** C36: exactly when decoding a motion JPEG frame is memory safe, to RGB and to
    gray, for any file and any behaviour of libjpeg within its documentation (a call
    that fails stores nothing).  The output block, when there is memory for it, is
    sized by the dimensions of the frame, but lines are stored as the JPEG file has
    them, each as long as the file says, until all are or libjpeg reports an error.
    If it reports one before the first line, the result is UVC_ERROR_OTHER.  Else, if
    the last line that is stored ends inside the block, the conversion returns, with
    UVC_SUCCESS if no error occurred and UVC_ERROR_OTHER otherwise, with the input's
    dimensions and, unless the file is wider than the frame, each line stored at its
    place; and if it does not, the conversion writes behind the block.  A file without
    Huffman tables is decoded with the standard ones. *)
Theorem mjpeg_safe_iff c inf out out1 :
  libjpeg_documented →
  c ∈ mjpeg_conversions →
  uf_frame_format inf = UVC_FRAME_FORMAT_MJPEG →
  fits 32 (mj_bpp c * uf_width inf) →
  0 ≤ uf_data_bytes inf ≤ len (block (uf_data inf)) →
  uvc_ensure_frame_size junk realloc_ok out (mjpeg_need c inf) = (UVC_SUCCESS, out1) →
  let step := mj_bpp c * uf_width inf in
  match decoder_of (slice (block (uf_data inf)) 0 (uf_data_bytes inf)) c with
  | None => mj_run c inf out = Ret (UVC_ERROR_OTHER, copy_header inf out1 (mj_to c) step)
  | Some jo =>
      let height := Z.to_nat (jo_height jo) in
      let stored := lines_before_error jo height 0 in
      let row := mj_bpp c * jo_width jo in
      if decide (stored = 0%nat ∨ (Z.of_nat stored - 1) * step + row ≤ len (block (uf_data out1))) then
        returns (mj_run c inf out) (λ '(ret, out'),
          ret = (if bool_decide (stored = height) && jo_finish jo then UVC_SUCCESS else UVC_ERROR_OTHER)
          ∧ uf_width out' = uf_width inf ∧ uf_height out' = uf_height inf
          ∧ uf_frame_format out' = mj_to c ∧ uf_step out' = step ∧ uf_sequence out' = uf_sequence inf
          ∧ (jo_width jo ≤ uf_width inf → ∀ k l, (k < stored)%nat → jo_line jo k = Some l →
               slice (block (uf_data out')) (Z.of_nat k * step) row = l))
      else mj_run c inf out = Undef OutOfBounds
  end.
Proof.
  intros [Htables Hdoc] Hc Hf Hw Hin He step.
  destruct (mjpeg_row_run c inf out Hc Hf Hw) as (Hcs & Hb & ->). rewrite He. change (UVC_SUCCESS <? 0) with false. cbv iota.
  unfold uvc_mjpeg_convert, decoder_of. rewrite rd_bytes_in by lia. cbn [mbind outcome_bind].
  change (take _ (drop _ _)) with (slice (block (uf_data inf)) 0 (uf_data_bytes inf)).
  destruct jpeg_create_decompress; [|done]. cbn [negb].
  destruct (jpeg_read_header _) as [slots|] eqn:Hh; [|done]. cbn [mbind option_bind].
  destruct (no_table (hs_dc0 slots) && negb jpeg_can_alloc); [done|].
  assert (match hs_dc0 slots with None => insert_huff_tables junk slots | Some _ => Ret slots end
          = Ret (usable_slots slots)) as ->.
  { unfold usable_slots. destruct (hs_dc0 slots); [done|]. by eapply insert_huff_tables_run, Htables. }
  cbn [mbind outcome_bind copy_header uf_frame_format]. rewrite Hcs.
  destruct (jpeg_start_decompress _ _ _) as [jo|] eqn:Hstart; [|done].
  destruct (Hdoc _ _ c jo Hc Hstart) as [HW Hlines].
  cbn [copy_header uf_step uf_data uf_data_bytes]. fold step. rewrite read_lines_error.
  set (stored := lines_before_error jo _ 0). set (row := mj_bpp c * jo_width jo).
  assert (0 ≤ step) as Hs by apply Hw. assert (0 ≤ row) as Hr by (unfold row; nia).
  pose proof (read_lines_run jo step row stored 0 (block (uf_data out1)) Hs Hr) as R.
  assert (∀ j, (0 ≤ j < 0 + stored)%nat → ∃ l, jo_line jo j = Some l ∧ len l = row) as Hall.
  { intros j Hj. destruct (lines_before_error_some jo _ 0 j Hj) as [l Hl]. exists l. split; [done|]. by apply (Hlines j). }
  specialize (R Hall). destruct (decide (stored = 0%nat ∨ _)) as [Hfit|Hfit].
  - destruct R as (data' & -> & _ & _ & Hat).
    cbn [mbind outcome_bind returns]. split_and!; try done.
    intros Hle k l Hk Hl. apply Hat; [unfold row, step; nia|lia|done].
  - by rewrite R.
Qed.
End conversions.

(** ** Witnesses *)

(** A decoder that takes any file for a 2 by 3 image without tables; the last line
    fails in colour. *)
Definition sample_line (cs : color_space) (k : nat) : option bytes :=
  match cs with
  | JCS_GRAYSCALE => Some [Z.of_nat k; 7]
  | JCS_RGB => if decide (k = 2%nat) then None else Some (repeat (Z.of_nat k) 6)
  end.

Definition sample_jpeg (cs : color_space) : jpeg_output :=
  {| jo_width := 2; jo_height := 3; jo_line := sample_line cs; jo_finish := true |}.

#[local] Instance sample_libjpeg : Libjpeg := {|
  jpeg_create_decompress := true;
  jpeg_can_alloc := true;
  jpeg_read_header := λ _, Some {| hs_dc0 := None; hs_dc1 := None; hs_ac0 := None; hs_ac1 := None |};
  jpeg_start_decompress := λ _ _ cs, Some (sample_jpeg cs);
|}.

Definition gray_row : mjpeg_row :=
  {| mj_run := uvc_mjpeg2gray 0xAA true; mj_to := UVC_FRAME_FORMAT_GRAY8; mj_space := JCS_GRAYSCALE; mj_bpp := 1 |}.

Lemma sample_documented : libjpeg_documented 0xAA true.
Proof.
  split; [by intros src slots [= <-]|]. intros src slots c jo Hc [= <-]. split; [cbn; lia|].
  intros k l Hl. apply elem_of_cons in Hc as [->|[->|[]%elem_of_nil]%elem_of_cons]; cbn in Hl.
  - case_decide; [done|]. by injection Hl as <-.
  - by injection Hl as <-.
Qed.

(** A frame of 2 by 3 gets the lines; one of 2 by 2 overflows. *)
Lemma mjpeg_safe_iff_witness :
  returns (uvc_mjpeg2gray 0xAA true (image_frame 2 3 UVC_FRAME_FORMAT_MJPEG [0xFF; 0xD8]) empty_frame)
    (λ '(ret, out'), ret = UVC_SUCCESS ∧ slice (block (uf_data out')) (2 * (1 * 2)) (1 * 2) = [2; 7])
  ∧ uvc_mjpeg2gray 0xAA true (image_frame 2 2 UVC_FRAME_FORMAT_MJPEG [0xFF; 0xD8]) empty_frame
    = Undef OutOfBounds.
Proof.
  assert (gray_row ∈ mjpeg_conversions 0xAA true) as Hc by (apply (list_elem_of_lookup_2 _ 1); reflexivity).
  assert (∀ h, fits 32 (mj_bpp gray_row * uf_width (image_frame 2 h UVC_FRAME_FORMAT_MJPEG [0xFF; 0xD8]))) as Hw
    by (split; cbn; lia).
  assert (∀ h, 0 ≤ uf_data_bytes (image_frame 2 h UVC_FRAME_FORMAT_MJPEG [0xFF; 0xD8])
            ≤ len (block (uf_data (image_frame 2 h UVC_FRAME_FORMAT_MJPEG [0xFF; 0xD8])))) as Hin
    by (split; vm_compute; discriminate).
  split.
  - eapply returns_mono.
    + apply (mjpeg_safe_iff 0xAA true gray_row (image_frame 2 3 UVC_FRAME_FORMAT_MJPEG [0xFF; 0xD8]) empty_frame
        (set_data empty_frame (Some (replicate 6 0xAA)) 6) sample_documented Hc eq_refl (Hw 3) (Hin 3) eq_refl).
    + intros [ret out'] (Hr & _ & _ & _ & _ & _ & Hl). split; [exact Hr|].
      apply (Hl ltac:(cbn; lia) 2%nat [2; 7]); [vm_compute; lia|reflexivity].
  - exact (mjpeg_safe_iff 0xAA true gray_row (image_frame 2 2 UVC_FRAME_FORMAT_MJPEG [0xFF; 0xD8]) empty_frame
      (set_data empty_frame (Some (replicate 4 0xAA)) 4) sample_documented Hc eq_refl (Hw 2) (Hin 2) eq_refl).
Defined.
