(* ===== verification/Utlist.v ===== *)
(** * Utlist: the doubly linked lists of include/utlist.h

    The macros the library builds its lists with, on a heap of nodes.  The first
    node's [prev] is the last node, the last node's [next] is null; the head of a
    list is a variable of its owner.  A node that was freed is not in the heap. *)

From stdpp Require Import prelude gmap.
From S2P Require Import Prelude.

(** The two link fields of an element; [None] is null. *)
Record node := {
  nd_prev : option nat;
  nd_next : option nat;
}.

Abbreviation links := (gmap nat node).

(** ** The heap *)

Definition dl (A : Type) : Type := links → outcome (A * links).

#[export] Instance dl_ret : MRet dl := λ A a h, Ret (a, h).

#[export] Instance dl_bind : MBind dl := λ A B f m h,
  match m h with
  | Ret (a, h') => f a h'
  | Undef e => Undef e
  end.

Definition dl_load (p : option nat) : dl node := λ h,
  match p with
  | None => Undef NullDeref
  | Some a => match h !! a with Some n => Ret (n, h) | None => Undef UseAfterFree end
  end.

Definition dl_update (f : node → node) (p : option nat) : dl unit := λ h,
  match p with
  | None => Undef NullDeref
  | Some a => match h !! a with Some n => Ret (tt, <[a := f n]> h) | None => Undef UseAfterFree end
  end.

(** [p->prev = q], [p->next = q] *)
Definition set_prev (p q : option nat) : dl unit :=
  dl_update (λ n, {| nd_prev := q; nd_next := nd_next n |}) p.

Definition set_next (p q : option nat) : dl unit :=
  dl_update (λ n, {| nd_prev := nd_prev n; nd_next := q |}) p.

Definition dl_free (a : nat) : dl unit := λ h,
  if decide (a ∈ dom h) then Ret (tt, delete a h) else Undef UseAfterFree.

(** ** The macros

    A macro that assigns to the head returns the new one. *)

Definition DL_APPEND (head : option nat) (add : nat) : dl (option nat) :=
  match head with
  | Some _ =>
      hn ← dl_load head;
      _ ← set_prev (Some add) (nd_prev hn);
      hn ← dl_load head;
      _ ← set_next (nd_prev hn) (Some add);
      _ ← set_prev head (Some add);
      _ ← set_next (Some add) None;
      mret head
  | None =>
      let head := Some add in
      _ ← set_prev head head;
      _ ← set_next head None;
      mret head
  end.

Definition DL_DELETE (head : option nat) (del : nat) : dl (option nat) :=
  dn ← dl_load (Some del);
  if decide (nd_prev dn = Some del) then mret None
  else if decide (Some del = head) then
    _ ← set_prev (nd_next dn) (nd_prev dn);
    dn ← dl_load (Some del);
    mret (nd_next dn)
  else
    _ ← set_next (nd_prev dn) (nd_next dn);
    dn ← dl_load (Some del);
    _ ← match nd_next dn with
        | Some _ => set_prev (nd_next dn) (nd_prev dn)
        | None => set_prev head (nd_prev dn)
        end;
    mret head.

(** [for (el = head; el; el = el->next) body]: [acc] is what the body works on. *)
Fixpoint DL_FOREACH {A} (fuel : nat) (el : option nat) (body : nat → A → dl A) (acc : A) : dl A :=
  match el, fuel with
  | None, _ => mret acc
  | Some _, O => λ _, Undef Diverged
  | Some a, S fuel =>
      acc ← body a acc;
      n ← dl_load (Some a);
      DL_FOREACH fuel (nd_next n) body acc
  end.

(** The next element is read before the body runs. *)
Fixpoint DL_FOREACH_SAFE {A} (fuel : nat) (el : option nat) (body : nat → A → dl A) (acc : A) : dl A :=
  match el, fuel with
  | None, _ => mret acc
  | Some _, O => λ _, Undef Diverged
  | Some a, S fuel =>
      n ← dl_load (Some a);
      acc ← body a acc;
      DL_FOREACH_SAFE fuel (nd_next n) body acc
  end.

(** [n] steps along a link, or fewer when it is null. *)
Fixpoint dl_walk (link : node → option nat) (n : nat) (p : option nat) : dl (option nat) :=
  match p, n with
  | None, _ | _, O => mret p
  | Some _, S n =>
      nd ← dl_load p;
      dl_walk link n (link nd)
  end.

(** [DL_NTH] of libuvc_internal.h: forwards, or backwards for a negative [n]. *)
Definition DL_NTH (head : option nat) (n : Z) : dl (option nat) :=
  if n <? 0 then dl_walk nd_prev (Z.to_nat (- n)) head else dl_walk nd_next (Z.to_nat n) head.

(** The loop of [uvc_exit] over the open devices: [uvc_close] unlinks the device, and
    frees it unless it is quarantined.  The accumulator is the head. *)
Section exit.
Context (quarantined : nat → bool).

Definition close_node (a : nat) (head : option nat) : dl (option nat) :=
  head ← DL_DELETE head a;
  _ ← (if quarantined a then mret tt else dl_free a);
  mret head.

Definition exit_loop (fuel : nat) (head : option nat) : dl (option nat) :=
  DL_FOREACH_SAFE fuel head close_node head.
End exit.
