(* ===== verification/UtlistFacts.v ===== *)
(** * UtlistFacts: the linked lists are lists

    [dll head l h]: in the heap [h], [head] is the doubly linked list of the nodes [l].
    Every macro keeps it, so a history of insertions and removals refines the same
    history on a list; a loop that frees what it visits is safe in one form of the
    loop and not in the other. *)

From stdpp Require Import prelude gmap.
From S2P Require Import Prelude Utlist.

(** ** Representation *)

(** The first element of [l], or [n]; the last one, or [p]. *)
Definition first_or (l : list nat) (n : option nat) : option nat :=
  match l with
  | [] => n
  | x :: _ => Some x
  end.

Definition last_or (p : option nat) (l : list nat) : option nat :=
  match last l with
  | Some z => Some z
  | None => p
  end.

(** A segment of a list: [p] is in the first node's [prev], [n] in the last one's
    [next]. *)
Fixpoint dlseg (p : option nat) (l : list nat) (n : option nat) (h : links) : Prop :=
  match l with
  | [] => True
  | a :: l => h !! a = Some {| nd_prev := p; nd_next := first_or l n |} ∧ dlseg (Some a) l n h
  end.

Record dll (head : option nat) (l : list nat) (h : links) : Prop := {
  dll_head : head = first_or l None;
  dll_nodup : NoDup l;
  dll_links : dlseg (last l) l None h;
}.

Lemma dll_empty h : dll None [] h.
Proof. split; [done|constructor|done]. Qed.

Lemma last_or_snoc p l z : last_or p (l ++ [z]) = Some z.
Proof. unfold last_or. by rewrite last_snoc. Qed.

Lemma last_or_cons p a l : last_or p (a :: l) = last_or (Some a) l.
Proof. unfold last_or. rewrite last_cons. by destruct (last l). Qed.

Lemma first_or_app l1 l2 n : first_or (l1 ++ l2) n = first_or l1 (first_or l2 n).
Proof. by destruct l1. Qed.

Lemma dlseg_app l1 : ∀ p l2 n h,
  dlseg p (l1 ++ l2) n h ↔ dlseg p l1 (first_or l2 n) h ∧ dlseg (last_or p l1) l2 n h.
Proof.
  induction l1 as [|a l1 IH]; intros p l2 n h; [by cbn; tauto|]. cbn [app dlseg].
  rewrite IH, first_or_app, last_or_cons. tauto.
Qed.

(** Nodes outside the segment do not matter. *)
Lemma dlseg_frame l : ∀ p n h a m, a ∉ l → dlseg p l n h → dlseg p l n (<[a := m]> h).
Proof.
  induction l as [|b l IH]; intros p n h a m Ha; cbn [dlseg]; [done|]. apply not_elem_of_cons in Ha as [Hab Ha].
  intros [Hb Hl]. rewrite lookup_insert_ne by done. auto.
Qed.

Lemma dlseg_delete l : ∀ p n h a, a ∉ l → dlseg p l n h → dlseg p l n (delete a h).
Proof.
  induction l as [|b l IH]; intros p n h a Ha; cbn [dlseg]; [done|]. apply not_elem_of_cons in Ha as [Hab Ha].
  intros [Hb Hl]. rewrite lookup_delete_ne by done. auto.
Qed.

(** The outer links of a segment can be redirected. *)
Lemma dlseg_prev p q x l n h :
  NoDup (x :: l) → dlseg p (x :: l) n h →
  dlseg q (x :: l) n (<[x := {| nd_prev := q; nd_next := first_or l n |}]> h).
Proof.
  intros [Hx _]%NoDup_cons [_ Hl]. cbn [dlseg]. rewrite lookup_insert_eq. split; [done|]. by apply dlseg_frame.
Qed.

Lemma dlseg_next p l z n n' h :
  NoDup (l ++ [z]) → dlseg p (l ++ [z]) n h →
  dlseg p (l ++ [z]) n' (<[z := {| nd_prev := last_or p l; nd_next := n' |}]> h).
Proof.
  intros (_ & Hz & _)%NoDup_app [Hl [_ _]]%dlseg_app. apply dlseg_app. cbn [first_or dlseg].
  rewrite lookup_insert_eq. split; [|done]. apply dlseg_frame; [set_solver|done].
Qed.

(** Where a segment ends in the heap. *)
Lemma dlseg_last p l z n h :
  dlseg p (l ++ [z]) n h → h !! z = Some {| nd_prev := last_or p l; nd_next := n |}.
Proof. by intros [_ [H _]]%dlseg_app. Qed.

(** ** Steps *)

Lemma run_load a n h : h !! a = Some n → dl_load (Some a) h = Ret (n, h).
Proof. intros H. unfold dl_load. by rewrite H. Qed.

Lemma run_update f a n h : h !! a = Some n → dl_update f (Some a) h = Ret (tt, <[a := f n]> h).
Proof. intros H. unfold dl_update. by rewrite H. Qed.

Lemma run_dl_bind {A B} (m : dl A) (f : A → dl B) h a h' : m h = Ret (a, h') → (m ≫= f) h = f a h'.
Proof. intros H. unfold mbind, dl_bind. by rewrite H. Qed.

(** Runs a load or an update of a node known from [H]. *)
Ltac dl_step H :=
  first [ erewrite run_dl_bind; [|apply run_load; apply H]
        | erewrite run_dl_bind; [|apply run_update; apply H] ];
  cbn [nd_prev nd_next].

(** Nodes outside [l] are as they were, and none appeared or went. *)
Definition only_changes (l : list nat) (h h' : links) : Prop :=
  dom h' = dom h ∧ ∀ a, a ∉ l → h' !! a = h !! a.

Lemma only_changes_refl l h : only_changes l h h.
Proof. by split. Qed.

Lemma only_changes_insert l h h' a m n :
  h' !! a = Some m → a ∈ l → only_changes l h h' → only_changes l h (<[a := n]> h').
Proof.
  intros Hl Ha [Hd Hs]. split.
  - rewrite dom_insert_L, <- Hd. apply elem_of_dom_2 in Hl. set_solver.
  - intros b Hb. rewrite lookup_insert_ne by set_solver. by apply Hs.
Qed.

(** ** Appending and deleting *)

Lemma append_run head l h add n :
  dll head l h → add ∉ l → h !! add = Some n →
  ∃ head' h', DL_APPEND head add h = Ret (head', h') ∧ dll head' (l ++ [add]) h' ∧ only_changes (l ++ [add]) h h'.
Proof.
  intros [-> Hn Hl] Hnew Hadd. destruct l as [|x l']; cbn [first_or] in *.
  - cbn [DL_APPEND]. unfold set_prev, set_next. dl_step Hadd.
    pose proof (lookup_insert_eq h add {| nd_prev := Some add; nd_next := nd_next n |}) as Ha. dl_step Ha. eexists _, _. split; [reflexivity|].
    split; [split; [done|apply NoDup_singleton|cbn; by rewrite lookup_insert_eq]|].
    eapply only_changes_insert; [exact Ha|by left|].
    eapply only_changes_insert; [exact Hadd|by left|apply only_changes_refl].
  - destruct (exists_last (l := x :: l') ltac:(done)) as (m & z & E). rewrite E in *. rewrite last_snoc in Hl.
    assert (NoDup ((m ++ [z]) ++ [add])) as Hn'.
    { apply NoDup_app. split_and!; [done|set_solver|apply NoDup_singleton]. }
    assert (add ≠ z) as Haz by set_solver.
    assert (x ∈ (m ++ [z]) ++ [add]) as Mx by (rewrite <- E; by left).
    assert (z ∈ (m ++ [z]) ++ [add]) as Mz by set_solver.
    assert (add ∈ (m ++ [z]) ++ [add]) as Ma by set_solver.
    assert (add ≠ x) as Hax by (intros ->; apply Hnew; rewrite <- E; by left).
    assert (h !! x = Some {| nd_prev := Some z; nd_next := first_or l' None |}) as Hx by (rewrite <- E in Hl; apply Hl).
    cbn [DL_APPEND]. unfold set_prev, set_next. dl_step Hx. dl_step Hadd.
    set (h1 := <[add := _]> h). assert (dlseg (Some z) (m ++ [z]) None h1) as L1 by (by apply dlseg_frame).
    assert (h1 !! x = Some {| nd_prev := Some z; nd_next := first_or l' None |}) as Hx1 by (unfold h1; by rewrite lookup_insert_ne).
    dl_step Hx1. pose proof (dlseg_last _ _ _ _ _ L1) as Hz1. dl_step Hz1.
    set (h2 := <[z := _]> h1). assert (dlseg (Some z) (m ++ [z]) (Some add) h2) as L2 by (eapply dlseg_next; [done|exact L1]).
    assert (h2 !! x = Some {| nd_prev := Some z; nd_next := first_or l' (Some add) |}) as Hx2 by (rewrite <- E in L2; apply L2).
    dl_step Hx2. set (h3 := <[x := _]> h2).
    assert (dlseg (Some add) (m ++ [z]) (Some add) h3) as L3 by (rewrite <- E in *; by eapply dlseg_prev).
    assert (h3 !! add = Some {| nd_prev := Some z; nd_next := nd_next n |}) as Ha3.
    { unfold h3, h2, h1. by rewrite lookup_insert_ne, lookup_insert_ne, lookup_insert_eq by done. }
    dl_step Ha3. eexists _, _. split; [reflexivity|]. split.
    + split; [|done|].
      * by rewrite <- E.
      * rewrite last_snoc. apply dlseg_app. cbn [first_or dlseg]. rewrite last_or_snoc, lookup_insert_eq.
        split; [by apply dlseg_frame|done].
    + repeat (eapply only_changes_insert; [by eassumption|assumption|]); apply only_changes_refl.
Qed.

Lemma delete_run head l1 a l2 h :
  dll head (l1 ++ a :: l2) h →
  ∃ head' h', DL_DELETE head a h = Ret (head', h') ∧ dll head' (l1 ++ l2) h' ∧ only_changes (l1 ++ a :: l2) h h'
    ∧ h' !! a = h !! a.
Proof.
  intros [-> Hn Hl]. pose proof Hn as (N1 & Hd & [Ha N2]%NoDup_cons)%NoDup_app.
  assert (NoDup (l1 ++ l2)) as Hn' by (apply NoDup_app; split_and!; [done|set_solver|done]).
  apply dlseg_app in Hl as [L1 [Hlink L2]]. unfold DL_DELETE.
  destruct l1 as [|p m _] using rev_ind.
  - cbn [app first_or] in *. unfold last_or in Hlink. cbn [last] in Hlink. destruct l2 as [|y l2].
    + cbn [last] in Hlink. dl_step Hlink. rewrite decide_True by done. eexists _, _. split; [reflexivity|].
      split_and!; [apply dll_empty|apply only_changes_refl|done].
    + assert (last (a :: y :: l2) = last (y :: l2)) as El by done. rewrite El in Hlink.
      assert (last (y :: l2) ≠ Some a) as Hza by (intros Hz; apply Ha; by apply last_Some_elem_of in Hz).
      pose proof L2 as [Hy _]. assert (y ≠ a) as Hya by (intros ->; apply Ha; by left).
      dl_step Hlink. rewrite decide_False by done. rewrite decide_True by done. cbn [first_or] in *.
      unfold set_prev. dl_step Hy. set (h1 := <[y := _]> h).
      assert (h1 !! a = h !! a) as Ha1 by (unfold h1; by rewrite lookup_insert_ne).
      rewrite Hlink in Ha1. dl_step Ha1. eexists _, _. split; [reflexivity|]. split_and!; [|..|congruence].
      * split; [done|done|]. by eapply dlseg_prev.
      * eapply only_changes_insert; [exact Hy|set_solver|apply only_changes_refl].
  - set (e := last _) in *. rewrite last_or_snoc in Hlink.
    assert (p ≠ a) as Hpa by (intros ->; apply (Hd a); set_solver).
    assert (Some a ≠ first_or ((m ++ [p]) ++ a :: l2) None) as Hhead.
    { rewrite first_or_app. destruct m as [|x m]; cbn; intros [= <-]; [done|]. apply (Hd a); set_solver. }
    dl_step Hlink. rewrite decide_False by congruence. rewrite decide_False by done.
    unfold set_next. pose proof (dlseg_last _ _ _ _ _ L1) as Hp. dl_step Hp. set (h1 := <[p := _]> h).
    assert (h1 !! a = h !! a) as Ha1 by (unfold h1; by rewrite lookup_insert_ne).
    pose proof Ha1 as Ha1'. rewrite Hlink in Ha1'. dl_step Ha1'.
    assert (dlseg e (m ++ [p]) (first_or l2 None) h1) as L1' by (by eapply dlseg_next).
    assert (dlseg (Some a) l2 None h1) as L2' by (apply dlseg_frame; [set_solver|done]).
    assert (only_changes ((m ++ [p]) ++ a :: l2) h h1) as C1
      by (eapply only_changes_insert; [exact Hp|set_solver|apply only_changes_refl]).
    unfold set_prev. destruct l2 as [|y l2]; cbn [first_or].
    + assert (∃ x l', m ++ [p] = x :: l') as (x & l' & E) by (destruct m; eauto). rewrite E in *. cbn [app first_or].
      pose proof L1' as [Hx _]. dl_step Hx. eexists _, _. split; [reflexivity|]. rewrite app_nil_r. split_and!.
      * split; [done|done|]. rewrite <- E, last_snoc, E. by eapply dlseg_prev.
      * eapply only_changes_insert; [exact Hx|by left|done].
      * rewrite lookup_insert_ne; [done|]. intros ->. by apply Hhead.
    + pose proof L2' as [Hy _]. assert (y ≠ a) as Hya by (intros ->; apply Ha; by left).
      dl_step Hy. eexists _, _. split; [reflexivity|]. split_and!; [|..|by rewrite lookup_insert_ne].
      * split; [by rewrite !first_or_app; destruct m|done|]. apply dlseg_app. rewrite last_or_snoc. split.
        -- apply dlseg_frame; [set_solver|]. assert (last ((m ++ [p]) ++ y :: l2) = e) as ->; [|done].
           unfold e. by rewrite !last_app, !last_cons; destruct (last l2).
        -- by eapply dlseg_prev.
      * eapply only_changes_insert; [exact Hy|set_solver|done].
Qed.

(** ** Histories *)

Inductive list_op :=
  | OpAppend (a : nat)
  | OpDelete (a : nat).

Definition op_node (op : list_op) : nat := match op with OpAppend a | OpDelete a => a end.

(** An operation on the linked list, and on the list. *)
Definition heap_op (op : list_op) (head : option nat) : dl (option nat) :=
  match op with
  | OpAppend a => DL_APPEND head a
  | OpDelete a => DL_DELETE head a
  end.

Definition pure_op (op : list_op) (l : list nat) : option (list nat) :=
  match op with
  | OpAppend a => if decide (a ∈ l) then None else Some (l ++ [a])
  | OpDelete a => if decide (a ∈ l) then Some (filter (λ b, b ≠ a) l) else None
  end.

Fixpoint heap_ops (ops : list list_op) (head : option nat) : dl (option nat) :=
  match ops with
  | [] => mret head
  | op :: ops =>
      head ← heap_op op head;
      heap_ops ops head
  end.

Fixpoint pure_ops (ops : list list_op) (l : list nat) : option (list nat) :=
  match ops with
  | [] => Some l
  | op :: ops =>
      match pure_op op l with
      | Some l => pure_ops ops l
      | None => None
      end
  end.

Lemma filter_split (l1 : list nat) a l2 : NoDup (l1 ++ a :: l2) → filter (λ b, b ≠ a) (l1 ++ a :: l2) = l1 ++ l2.
Proof.
  intros (_ & Hd & [Ha _]%NoDup_cons)%NoDup_app. rewrite filter_app, filter_cons, decide_False by naive_solver.
  assert (∀ l : list nat, a ∉ l → filter (λ b, b ≠ a) l = l) as Hid.
  { clear. induction l as [|b l IH]; [done|]. intros [Hb Hl]%not_elem_of_cons.
    rewrite filter_cons, decide_True by done. by rewrite IH. }
  rewrite !Hid; [done|done|]. intros Hin. apply (Hd a Hin). by left.
Qed.

Lemma heap_op_run op head l l' h :
  dll head l h → pure_op op l = Some l' → op_node op ∈ dom h →
  ∃ head' h', heap_op op head h = Ret (head', h') ∧ dll head' l' h' ∧ only_changes (op_node op :: l) h h'.
Proof.
  intros Hl Hp Hlive. destruct op as [a|a]; cbn [pure_op op_node heap_op] in *; case_decide as Ha; try done.
  - injection Hp as <-. apply elem_of_dom in Hlive as [n Hn].
    destruct (append_run head l h a n Hl Ha Hn) as (head' & h' & Hr & Hd & Hdom & Hc). exists head', h'.
    split; [done|]. split; [done|]. split; [done|]. intros b Hb. apply Hc. set_solver.
  - injection Hp as <-. apply list_elem_of_split in Ha as (l1 & l2 & ->).
    destruct (delete_run head l1 a l2 h Hl) as (head' & h' & Hr & Hd & (Hdom & Hc) & _). exists head', h'.
    rewrite filter_split by apply Hl. split; [done|]. split; [done|]. split; [done|]. intros b Hb. apply Hc. set_solver.
Qed.

Lemma heap_ops_run ops : ∀ head l l' h,
  dll head l h → pure_ops ops l = Some l' → (∀ op, op ∈ ops → op_node op ∈ dom h) →
  ∃ head' h', heap_ops ops head h = Ret (head', h') ∧ dll head' l' h' ∧ only_changes ((op_node <$> ops) ++ l) h h'.
Proof.
  induction ops as [|op ops IH]; intros head l l' h Hl Hp Hlive; cbn [pure_ops heap_ops] in *.
  { injection Hp as <-. exists head, h. split_and!; [done|done|apply only_changes_refl]. }
  destruct (pure_op op l) as [l1|] eqn:E; [|done].
  destruct (heap_op_run op head l l1 h Hl E) as (head1 & h1 & Hr1 & Hd1 & Hdom1 & Hc1); [apply Hlive; by left|].
  destruct (IH head1 l1 l' h1 Hd1 Hp) as (head2 & h2 & Hr2 & Hd2 & Hdom2 & Hc2).
  { intros op' Hop. rewrite Hdom1. apply Hlive. by right. }
  exists head2, h2. erewrite run_dl_bind by exact Hr1. split; [done|]. split; [done|]. split; [congruence|].
  intros b Hb. rewrite fmap_cons in Hb. rewrite Hc2, Hc1; [done|set_solver|].
  intros [?|Hl1]%elem_of_app; [set_solver|]. destruct op as [a|a]; cbn [pure_op] in E; case_decide; try done; injection E as <-.
  - set_solver.
  - apply list_elem_of_filter in Hl1 as [_ ?]. set_solver.
Qed.

(** A loop whose body only computes. *)
Lemma foreach_run {A} (f : nat → A → A) l : ∀ fuel p acc h,
  dlseg p l None h → (length l ≤ fuel)%nat →
  DL_FOREACH fuel (first_or l None) (λ a acc, mret (f a acc)) acc h = Ret (foldl (λ acc a, f a acc) acc l, h).
Proof.
  induction l as [|a l IH]; intros fuel p acc h Hl Hf; [by destruct fuel|].
  destruct fuel as [|fuel]; [simpl in Hf; lia|]. destruct Hl as [Ha Hl]. cbn [first_or DL_FOREACH].
  erewrite run_dl_bind by reflexivity. dl_step Ha. cbn [foldl]. eapply IH; [exact Hl|]. simpl in Hf. lia.
Qed.

(** C8: the linked lists are lists.  Whatever nodes are appended to an empty list and
    deleted from it, in any order in which a node is appended when it is not in the
    list and deleted when it is, the macros follow only pointers to allocated nodes;
    afterwards a loop over the list visits exactly the nodes a plain list holds after
    the same history, in the same order, the first node's [prev] is the last node, and
    no other memory has changed. *)
Theorem dl_lists_refine ops l (h : links) :
  pure_ops ops [] = Some l → (∀ op, op ∈ ops → op_node op ∈ dom h) →
  ∃ head h', heap_ops ops None h = Ret (head, h')
    ∧ (∀ A (f : nat → A → A) acc,
         DL_FOREACH (length l) head (λ a acc, mret (f a acc)) acc h' = Ret (foldl (λ acc a, f a acc) acc l, h'))
    ∧ (match head with
       | None => l = []
       | Some x => ∃ l', l = x :: l' ∧ nd_prev <$> h' !! x = Some (last l)
       end)
    ∧ dom h' = dom h ∧ (∀ a, a ∉ op_node <$> ops → h' !! a = h !! a).
Proof.
  intros Hp Hlive. destruct (heap_ops_run ops None [] l h (dll_empty h) Hp Hlive) as (head & h' & Hr & [-> Hn Hl] & Hd & Hc).
  exists (first_or l None), h'. rewrite app_nil_r in Hc. split_and!; [done| |..|done|done].
  - intros A f acc. by eapply foreach_run.
  - destruct l as [|x l]; [done|]. cbn [first_or]. exists l. split; [done|]. destruct Hl as [-> _]. done.
Qed.

(** ** A loop that frees what it visits *)

Section exit.
Context (quarantined : nat → bool).

(** The nodes that are freed. *)
Definition freed (l : list nat) : list nat := filter (λ a, quarantined a = false) l.

(** Closing the first node leaves the list of the others. *)
Lemma close_first_run a l h :
  dll (Some a) (a :: l) h →
  ∃ h', close_node quarantined a (Some a) h = Ret (first_or l None, h') ∧ dll (first_or l None) l h'
    ∧ dom h' = (if quarantined a then dom h else dom h ∖ {[a]})
    ∧ h' !! a = (if quarantined a then h !! a else None).
Proof.
  intros Hl. destruct (delete_run (Some a) [] a l h Hl) as (head & h1 & Hr & [-> Hn Hl1] & (Hdom & _) & Ha).
  assert (a ∉ l) as Hal by (destruct Hl as [_ [? _]%NoDup_cons _]; done).
  assert (is_Some (h !! a)) as Hin by (destruct Hl as [_ _ [-> _]]; done).
  unfold close_node. erewrite run_dl_bind by exact Hr. cbn [app] in *. destruct (quarantined a).
  - exists h1. by split_and!.
  - unfold dl_free. erewrite run_dl_bind.
    2:{ rewrite decide_True; [reflexivity|]. rewrite Hdom. by apply elem_of_dom. }
    exists (delete a h1). split; [done|]. split_and!; [|by rewrite dom_delete_L, Hdom|apply lookup_delete_eq].
    split; [done|done|]. by apply dlseg_delete.
Qed.

Lemma exit_loop_run l : ∀ h,
  dll (first_or l None) l h →
  ∃ h', exit_loop quarantined (length l) (first_or l None) h = Ret (None, h') ∧ dom h' = dom h ∖ list_to_set (freed l).
Proof.
  unfold exit_loop. induction l as [|a l IH]; intros h Hl.
  { exists h. split; [done|]. cbn. set_solver. }
  destruct (close_first_run a l h Hl) as (h1 & Hr & Hl1 & Hd & _). destruct (IH h1 Hl1) as (h2 & Hr2 & Hd2).
  destruct Hl as [_ _ [Ha _]]. exists h2. cbn [length first_or DL_FOREACH_SAFE]. dl_step Ha.
  erewrite run_dl_bind by exact Hr. split; [exact Hr2|]. rewrite Hd2, Hd. unfold freed. rewrite filter_cons.
  destruct (quarantined a); [by rewrite decide_False by done|rewrite decide_True by done; set_solver].
Qed.

Lemma plain_loop_run l : ∀ h,
  dll (first_or l None) l h →
  if decide (freed l = [])
  then ∃ h', DL_FOREACH (length l) (first_or l None) (close_node quarantined) (first_or l None) h = Ret (None, h')
  else DL_FOREACH (length l) (first_or l None) (close_node quarantined) (first_or l None) h = Undef UseAfterFree.
Proof.
  induction l as [|a l IH]; intros h Hl; [by exists h|].
  destruct (close_first_run a l h Hl) as (h1 & Hr & Hl1 & _ & Ha1). destruct Hl as [_ _ [Ha _]].
  cbn [length first_or DL_FOREACH]. erewrite !run_dl_bind by exact Hr. unfold freed. rewrite filter_cons.
  destruct (quarantined a); [rewrite (decide_False (P := true = false)) by done|rewrite (decide_True (P := false = false)) by done].
  - rewrite Ha in Ha1. dl_step Ha1. exact (IH h1 Hl1).
  - rewrite decide_False by done. unfold mbind, dl_bind, dl_load. by rewrite Ha1.
Qed.

(** C25: closing all devices of a context.  After any history of devices opened and
    closed, the loop that reads the next device before it closes one, which [uvc_exit]
    uses, visits all open devices, never touches a freed one, frees exactly those that
    are not quarantined and leaves an empty list.  The loop that reads the next device
    afterwards would use a freed one as soon as a single device is really closed. *)
Theorem exit_loop_correct ops l head (h h1 : links) :
  pure_ops ops [] = Some l → (∀ op, op ∈ ops → op_node op ∈ dom h) → heap_ops ops None h = Ret (head, h1) →
  (∃ h', exit_loop quarantined (length l) head h1 = Ret (None, h') ∧ dom h' = dom h ∖ list_to_set (freed l))
  ∧ if decide (freed l = [])
    then ∃ h', DL_FOREACH (length l) head (close_node quarantined) head h1 = Ret (None, h')
    else DL_FOREACH (length l) head (close_node quarantined) head h1 = Undef UseAfterFree.
Proof.
  intros Hp Hlive Hr. destruct (heap_ops_run ops None [] l h (dll_empty h) Hp Hlive) as (head' & h' & Hr' & Hl & Hd & _).
  rewrite Hr in Hr'. injection Hr' as <- <-. destruct Hl as [-> Hn Hl]. split; [|by apply plain_loop_run].
  rewrite <- Hd. by apply exit_loop_run.
Qed.
End exit.

(** ** Three nodes *)

Definition three_nodes : links :=
  {[1%nat := {| nd_prev := None; nd_next := None |}; 2%nat := {| nd_prev := None; nd_next := None |};
    3%nat := {| nd_prev := None; nd_next := None |}]}.

Definition history : list list_op := [OpAppend 1; OpAppend 2; OpAppend 3; OpDelete 1; OpAppend 1; OpDelete 2].

Lemma history_live op : op ∈ history → op_node op ∈ dom three_nodes.
Proof. unfold history, three_nodes. rewrite !elem_of_cons. intros Hop. set_solver. Qed.

Lemma dl_lists_refine_witness :
  ∃ head h', heap_ops history None three_nodes = Ret (head, h')
    ∧ DL_FOREACH 2 head (λ a acc, mret (acc ++ [a])) [] h' = Ret ([3; 1]%nat, h').
Proof.
  destruct (dl_lists_refine history [3; 1]%nat three_nodes eq_refl history_live) as (head & h' & Hr & Hv & _).
  exists head, h'. split; [exact Hr|]. exact (Hv (list nat) (λ a acc, acc ++ [a]) []).
Defined.

(** The second of two devices is quarantined. *)
Lemma exit_loop_correct_witness :
  ∃ head h1, heap_ops history None three_nodes = Ret (head, h1)
    ∧ (∃ h', exit_loop (Nat.eqb 1) 2 head h1 = Ret (None, h') ∧ dom h' = dom three_nodes ∖ list_to_set [3%nat])
    ∧ DL_FOREACH 2 head (close_node (Nat.eqb 1)) head h1 = Undef UseAfterFree.
Proof.
  destruct (heap_ops history None three_nodes) as [[head h1]|] eqn:E; [|vm_compute in E; discriminate].
  exists head, h1. split; [reflexivity|].
  exact (exit_loop_correct (Nat.eqb 1) history [3; 1]%nat head three_nodes h1 eq_refl history_live E).
Defined.

(** ** Elements by number *)

Lemma dlseg_lookup l : ∀ p n h i a,
  dlseg p l n h → l !! i = Some a →
  h !! a = Some {| nd_prev := match i with O => p | S i => l !! i end;
                   nd_next := match l !! S i with Some b => Some b | None => n end |}.
Proof.
  induction l as [|x l IH]; intros p n h i a Hl Hi; [done|]. destruct Hl as [Hx Hl].
  destruct i as [|i]; cbn in Hi.
  - injection Hi as <-. rewrite Hx. by destruct l.
  - rewrite (IH _ _ _ _ _ Hl Hi). by destruct i.
Qed.

Section nth.
Context (head : option nat) (l : list nat) (h : links).
Hypothesis Hl : dll head l h.

Lemma walk_next k i : dl_walk nd_next k (l !! i) h = Ret (l !! (i + k)%nat, h).
Proof using Hl.
  revert i. induction k as [|k IH]; intros i; destruct (l !! i) as [a|] eqn:E; cbn [dl_walk].
  - by rewrite Nat.add_0_r, E.
  - by rewrite Nat.add_0_r, E.
  - pose proof (dlseg_lookup _ _ _ _ _ _ (dll_links _ _ _ Hl) E) as Ha.
    rewrite (run_dl_bind _ _ _ _ _ (run_load _ _ _ Ha)). cbn [nd_next].
    replace (match l !! S i with Some b => Some b | None => None end) with (l !! S i) by (by destruct (l !! S i)).
    rewrite IH. do 3 f_equal. lia.
  - apply lookup_ge_None in E. rewrite lookup_ge_None_2 by lia. done.
Qed.

Lemma walk_prev k i :
  (i < length l)%nat →
  dl_walk nd_prev k (l !! i) h = Ret (l !! Z.to_nat ((Z.of_nat i - Z.of_nat k) mod len l), h).
Proof using Hl.
  revert i. induction k as [|k IH]; intros i Hi; destruct (lookup_lt_is_Some_2 l i Hi) as [a E].
  - rewrite Z.sub_0_r, Z.mod_small by (unfold len; lia). rewrite Nat2Z.id. by rewrite E.
  - rewrite E. cbn [dl_walk]. pose proof (dlseg_lookup _ _ _ _ _ _ (dll_links _ _ _ Hl) E) as Ha.
    rewrite (run_dl_bind _ _ _ _ _ (run_load _ _ _ Ha)). cbn [nd_prev]. destruct i as [|i].
    + rewrite last_lookup, IH by lia. do 3 f_equal. f_equal.
      rewrite <- (Z.mod_add (Z.of_nat 0 - Z.of_nat (S k)) 1) by (unfold len; lia). f_equal. unfold len. lia.
    + rewrite IH by lia. do 3 f_equal. f_equal. f_equal. lia.
Qed.

End nth.

(** [DL_NTH] counts from the head, and backwards from the end (-1 is the last
    element); beyond the end it is null, before the beginning it goes round. *)
Lemma DL_NTH_correct head l h n :
  dll head l h →
  DL_NTH head n h = Ret (if n <? 0 then l !! Z.to_nat (n mod len l) else l !! Z.to_nat n, h).
Proof.
  intros Hl. unfold DL_NTH. assert (head = l !! 0%nat) as Hh by (rewrite (dll_head _ _ _ Hl); by destruct l).
  rewrite Hh. destruct (Z.ltb_spec n 0); [|by rewrite (walk_next _ _ _ Hl)].
  destruct (decide (l = [])) as [->|Hne]; [by destruct (Z.to_nat (- n))|].
  rewrite (walk_prev _ _ _ Hl) by (destruct l; cbn; [done|lia]). replace (Z.of_nat 0 - Z.of_nat (Z.to_nat (- n))) with n by lia. done.
Qed.
