(* ===== verification/FreeInfo.v ===== *)
(** * FreeInfo: letting go of a parsed device description, src/device.c

    [uvc_free_device_info] walks the tree the parsers built and frees it.  A block of
    memory is named by what it holds and where in the tree it hangs; the memory is
    the set of blocks that are allocated, and reading a block that is not is a
    fault. *)

From stdpp Require Import prelude gmap.
From S2P Require Import Prelude Types.

(** ** Memory *)

Inductive kind :=
  | KInfo
  | KConfig
  | KInput
  | KProcessing
  | KSelector
  | KExtension
  | KInterface
  | KFormat
  | KFrame
  | KIntervals
  | KStill
  | KStillRes
  | KCompression.

#[export] Instance kind_eq_dec : EqDecision kind.
Proof. solve_decision. Defined.

Definition kinds : list kind :=
  [KInfo; KConfig; KInput; KProcessing; KSelector; KExtension; KInterface; KFormat; KFrame; KIntervals;
   KStill; KStillRes; KCompression].

#[export] Instance kind_countable : Countable kind.
Proof.
  refine (inj_countable (λ k, fst <$> list_find (k =.) kinds) (λ n, n ≫= (kinds !!.)) _).
  by intros [].
Defined.

(** What a block holds, and the positions in the lists above it, innermost first. *)
Abbreviation block_id := (kind * list nat)%type.

Definition live_mem (A : Type) : Type := gset block_id → outcome (A * gset block_id).

#[export] Instance live_mem_ret : MRet live_mem := λ A a live, Ret (a, live).

#[export] Instance live_mem_bind : MBind live_mem := λ A B f m live,
  match m live with
  | Ret (a, live') => f a live'
  | Undef e => Undef e
  end.

(** A read or write of a block. *)
Definition touch (b : block_id) : live_mem unit := λ live,
  if decide (b ∈ live) then Ret (tt, live) else Undef UseAfterFree.

Definition free (b : block_id) : live_mem unit := λ live,
  if decide (b ∈ live) then Ret (tt, live ∖ {[b]}) else Undef UseAfterFree.

(** ** The list macros *)

(** [DL_FOREACH_SAFE]: the next element is read before the body runs.  The elements
    from number [i] on are [l], the blocks are [id]; the body learns whether there is
    a next element. *)
Fixpoint DL_FOREACH_SAFE {A} (id : nat → block_id) (body : nat → A → bool → live_mem unit) (i : nat) (l : list A)
    : live_mem unit :=
  match l with
  | [] => mret tt
  | x :: rest =>
      _ ← touch (id i);
      _ ← body i x (negb (bool_decide (rest = [])));
      DL_FOREACH_SAFE id body (S i) rest
  end.

(** [DL_DELETE] of the first element [i]: the pointer to the list is in [head], and
    the next element, when there is one, gets a new [prev]. *)
Definition DL_DELETE (head : block_id) (id : nat → block_id) (i : nat) (more : bool) : live_mem unit :=
  _ ← touch head;
  _ ← touch (id i);
  if more then touch (id (S i)) else mret tt.

(** ** [uvc_free_device_info] *)

Definition info_block : block_id := (KInfo, []).

(** The three loops over terminals and units. *)
Definition free_units {A} (k : kind) (l : list A) : live_mem unit :=
  let id i := (k, [i]) in
  DL_FOREACH_SAFE id (λ i _ more,
    _ ← DL_DELETE info_block id i more;
    free (id i)) 0 l.

Definition free_frame (format : block_id) (id : nat → block_id) (i : nat) (frame : uvc_frame_desc) (more : bool)
    : live_mem unit :=
  _ ← touch (id i);
  _ ← match fr_intervals frame with
      | Some _ => free (KIntervals, (id i).2)
      | None => mret tt
      end;
  _ ← DL_DELETE format id i more;
  free (id i).

Definition free_still_frame (id : nat → block_id) (i : nat) (still : uvc_still_frame_desc) (more : bool)
    : live_mem unit :=
  let res j := (KStillRes, j :: (id i).2) in
  _ ← touch (id i);
  _ ← DL_FOREACH_SAFE res (λ j _ _, free (res j)) 0 (sf_imageSizePatterns still);
  _ ← touch (id i);
  _ ← match sf_bCompression still with
      | [] => mret tt
      | _ => free (KCompression, (id i).2)
      end;
  free (id i).

Definition free_format (stream_if : block_id) (id : nat → block_id) (i : nat) (format : uvc_format_desc) (more : bool)
    : live_mem unit :=
  let frame_id j := (KFrame, j :: (id i).2) in
  let still_id j := (KStill, j :: (id i).2) in
  _ ← touch (id i);
  _ ← DL_FOREACH_SAFE frame_id (free_frame (id i) frame_id) 0 (fm_frame_descs format);
  _ ← touch (id i);
  _ ← DL_FOREACH_SAFE still_id (free_still_frame still_id) 0 (fm_still_frame_desc format);
  _ ← DL_DELETE stream_if id i more;
  free (id i).

Definition free_stream_if (id : nat → block_id) (i : nat) (stream_if : uvc_streaming_interface) (more : bool)
    : live_mem unit :=
  let format_id j := (KFormat, j :: (id i).2) in
  _ ← touch (id i);
  _ ← DL_FOREACH_SAFE format_id (free_format (id i) format_id) 0 (si_format_descs stream_if);
  _ ← DL_DELETE info_block id i more;
  free (id i).

(** The configuration descriptor of a parsed description is never null. *)
Definition uvc_free_device_info (info : uvc_device_info) : live_mem unit :=
  let if_id i := (KInterface, [i]) in
  _ ← touch info_block;
  _ ← free_units KInput (ci_input_term_descs (di_ctrl_if info));
  _ ← free_units KProcessing (ci_processing_unit_descs (di_ctrl_if info));
  _ ← free_units KExtension (ci_extension_unit_descs (di_ctrl_if info));
  _ ← DL_FOREACH_SAFE if_id (free_stream_if if_id) 0 (di_stream_ifs info);
  _ ← touch info_block;
  _ ← free (KConfig, []);
  free info_block.
