(* ===== verification/FreeInfoFacts.v ===== *)
(** * FreeInfoFacts: every block of a device description is freed once

    [frees P L m]: with the blocks [P] and [L] allocated, [m] frees exactly [L].  The
    loops are handled once, from the bodies up to the whole function. *)

From stdpp Require Import prelude gmap.
From S2P Require Import Prelude Types FreeInfo.

(** ** The blocks of a description *)

Fixpoint each {A B} (f : nat → A → list B) (i : nat) (l : list A) : list B :=
  match l with
  | [] => []
  | x :: l => f i x ++ each f (S i) l
  end.

Definition units {A} (k : kind) (l : list A) : list block_id := each (λ i _, [(k, [i])]) 0 l.

Definition frame_blocks (p : list nat) (i : nat) (frame : uvc_frame_desc) : list block_id :=
  match fr_intervals frame with
  | Some _ => [(KIntervals, i :: p)]
  | None => []
  end ++ [(KFrame, i :: p)].

Definition still_blocks (p : list nat) (i : nat) (still : uvc_still_frame_desc) : list block_id :=
  each (λ j _, [(KStillRes, j :: i :: p)]) 0 (sf_imageSizePatterns still)
  ++ match sf_bCompression still with
     | [] => []
     | _ => [(KCompression, i :: p)]
     end ++ [(KStill, i :: p)].

Definition format_blocks (p : list nat) (i : nat) (format : uvc_format_desc) : list block_id :=
  each (frame_blocks (i :: p)) 0 (fm_frame_descs format)
  ++ each (still_blocks (i :: p)) 0 (fm_still_frame_desc format) ++ [(KFormat, i :: p)].

Definition stream_if_blocks (i : nat) (s : uvc_streaming_interface) : list block_id :=
  each (format_blocks [i]) 0 (si_format_descs s) ++ [(KInterface, [i])].

(** All but the selector units. *)
Definition freed_blocks (info : uvc_device_info) : list block_id :=
  units KInput (ci_input_term_descs (di_ctrl_if info))
  ++ units KProcessing (ci_processing_unit_descs (di_ctrl_if info))
  ++ units KExtension (ci_extension_unit_descs (di_ctrl_if info))
  ++ each stream_if_blocks 0 (di_stream_ifs info) ++ [(KConfig, [])] ++ [info_block].

Definition selector_blocks (info : uvc_device_info) : list block_id :=
  units KSelector (ci_selector_unit_descs (di_ctrl_if info)).

(** ** Freeing *)

Definition frees (P L : list block_id) (m : live_mem unit) : Prop :=
  ∀ live : gset block_id, NoDup L → (∀ b, b ∈ P → (b ∉ L) ∧ b ∈ live) → (∀ b, b ∈ L → b ∈ live) →
  m live = Ret (tt, live ∖ list_to_set L).

Lemma frees_ret P : frees P [] (mret tt).
Proof. intros live _ _ _. unfold mret, live_mem_ret. do 2 f_equal. set_solver. Qed.

Lemma frees_free P b : frees P [b] (free b).
Proof.
  intros live _ _ Hl. unfold free. rewrite decide_True by set_solver. do 2 f_equal. set_solver.
Qed.

Lemma frees_weaken P P' L m : frees P L m → P ⊆ P' → frees P' L m.
Proof. intros Hm Hsub live Hn HP. apply Hm; set_solver. Qed.

(** What is freed later may still be used. *)
Lemma frees_seq P L1 L2 m1 m2 :
  frees (P ++ L2) L1 m1 → frees P L2 m2 → frees P (L1 ++ L2) (_ ← m1; m2).
Proof.
  intros H1 H2 live (N1 & Hd & N2)%NoDup_app HP HL. unfold mbind, live_mem_bind.
  rewrite H1; [|done|set_solver..]. rewrite H2; [|done|set_solver..]. do 2 f_equal. set_solver.
Qed.

Lemma frees_touch P L b m : b ∈ P ++ L → frees P L m → frees P L (_ ← touch b; m).
Proof.
  intros Hb Hm live Hn HP HL. unfold mbind, live_mem_bind, touch. rewrite decide_True by set_solver. by apply Hm.
Qed.

Lemma frees_delete P L head id i more m :
  head ∈ P ++ L → id i ∈ P ++ L → (more = true → id (S i) ∈ P ++ L) →
  frees P L m → frees P L (_ ← DL_DELETE head id i more; m).
Proof.
  intros Hh Hi Hm Hf live Hn HP HL. specialize (Hf live Hn HP HL).
  assert (DL_DELETE head id i more live = Ret (tt, live)) as Hd.
  { unfold DL_DELETE, mbind, live_mem_bind, touch. rewrite !(decide_True _ _) by set_solver.
    destruct more; [|done]. rewrite decide_True; [done|]. specialize (Hm eq_refl). set_solver. }
  unfold mbind, live_mem_bind. by rewrite Hd.
Qed.

Lemma frees_foreach {A} P id body (f : nat → A → list block_id) l : ∀ i,
  (∀ i x more, frees (P ++ if more : bool then [id (S i)] else []) (f i x) (body i x more)) →
  (∀ i x, id i ∈ f i x) →
  frees P (each f i l) (DL_FOREACH_SAFE id body i l).
Proof.
  induction l as [|x l IH]; intros i Hb Hid; cbn [each DL_FOREACH_SAFE]; [apply frees_ret|].
  apply frees_touch; [specialize (Hid i x); set_solver|].
  apply frees_seq; [|by apply IH]. eapply frees_weaken; [apply Hb|].
  destruct l as [|y l]; cbn [each]; [set_solver|].
  specialize (Hid (S i) y). case_bool_decide; [done|]. cbn [negb]. set_solver.
Qed.

(** A loop body ends by unlinking its block and freeing it. *)
Lemma frees_last P L head id i more m :
  frees (P ++ [id i]) L m → head ∈ P → (more = true → id (S i) ∈ P) →
  frees P (L ++ [id i]) (_ ← m; _ ← DL_DELETE head id i more; free (id i)).
Proof.
  intros Hm Hh Hmore. apply frees_seq; [done|]. apply frees_delete; [set_solver|set_solver| |apply frees_free].
  intros E. specialize (Hmore E). set_solver.
Qed.

Lemma free_units_frees {A} k (l : list A) : k ≠ KInfo → frees [info_block] (units k l) (free_units k l).
Proof.
  intros Hk. unfold free_units, units. apply frees_foreach; [|set_solver].
  intros i x more. apply frees_delete; [set_solver|set_solver|intros ->; set_solver|apply frees_free].
Qed.

Lemma free_frame_frees P format p i frame more :
  format ∈ P → (more = true → (KFrame, S i :: p) ∈ P) →
  frees P (frame_blocks p i frame) (free_frame format (λ j, (KFrame, j :: p)) i frame more).
Proof.
  intros Hf Hm. unfold free_frame, frame_blocks. apply frees_touch; [set_solver|].
  apply (frees_last P _ format (λ j, (KFrame, j :: p))); [|done|done].
  destruct (fr_intervals frame); [apply frees_free|apply frees_ret].
Qed.

Lemma free_still_frame_frees P p i still more :
  frees P (still_blocks p i still) (free_still_frame (λ j, (KStill, j :: p)) i still more).
Proof.
  unfold free_still_frame, still_blocks. apply frees_touch; [set_solver|]. apply frees_seq.
  - apply frees_foreach; [|set_solver]. intros j x m. apply frees_free.
  - apply frees_touch; [set_solver|]. apply frees_seq; [|apply frees_free].
    destruct (sf_bCompression still); [apply frees_ret|apply frees_free].
Qed.

Lemma free_format_frees P stream_if p i format more :
  stream_if ∈ P → (more = true → (KFormat, S i :: p) ∈ P) →
  frees P (format_blocks p i format) (free_format stream_if (λ j, (KFormat, j :: p)) i format more).
Proof.
  intros Hf Hm. unfold free_format, format_blocks. apply frees_touch; [set_solver|]. apply frees_seq.
  - apply frees_foreach; [|unfold frame_blocks; set_solver].
    intros j x m. apply free_frame_frees; [set_solver|intros ->; set_solver].
  - apply frees_touch; [set_solver|]. apply (frees_last P _ stream_if (λ j, (KFormat, j :: p))); [|done|done].
    apply frees_foreach; [|unfold still_blocks; set_solver].
    intros j x m. apply free_still_frame_frees.
Qed.

Lemma free_stream_if_frees P i s more :
  info_block ∈ P → (more = true → (KInterface, [S i]) ∈ P) →
  frees P (stream_if_blocks i s) (free_stream_if (λ j, (KInterface, [j])) i s more).
Proof.
  intros Hf Hm. unfold free_stream_if, stream_if_blocks. apply frees_touch; [set_solver|].
  apply (frees_last P _ info_block (λ j, (KInterface, [j]))); [|done|done].
  apply frees_foreach; [|unfold format_blocks; set_solver].
  intros j x m. apply free_format_frees; [set_solver|intros ->; set_solver].
Qed.

Lemma free_device_info_frees info : frees [] (freed_blocks info) (uvc_free_device_info info).
Proof.
  unfold uvc_free_device_info, freed_blocks. apply frees_touch; [set_solver|].
  do 3 (apply frees_seq; [eapply frees_weaken; [by apply free_units_frees|set_solver]|]).
  apply frees_seq.
  - apply frees_foreach; [|unfold stream_if_blocks; set_solver].
    intros i x m. apply free_stream_if_frees; [set_solver|intros ->; set_solver].
  - apply frees_touch; [set_solver|]. apply frees_seq; [apply frees_free|apply frees_free].
Qed.

(** ** The blocks are different *)

Lemma elem_of_each {A B} (f : nat → A → list B) (b : B) l : ∀ i,
  b ∈ each f i l → ∃ j x, (i ≤ j)%nat ∧ b ∈ f j x.
Proof.
  induction l as [|x l IH]; intros i; cbn [each]; [by intros ?%elem_of_nil|].
  intros [Hb|(j & y & Hj & Hb)%IH]%elem_of_app; [by exists i, x|]. exists j, y. split; [lia|done].
Qed.

(** Below position [i] of the list at [p]. *)
Definition below (i : nat) (p : list nat) (b : block_id) : Prop := i :: p `suffix_of` b.2.

Lemma below_unique i j p b : below i p b → below j p b → i = j.
Proof.
  intros [l1 E1] [l2 E2]. rewrite E1 in E2.
  apply app_inj_2 in E2 as [_ [= ->]]; done.
Qed.

Lemma NoDup_each {A} (f : nat → A → list block_id) p l : ∀ i,
  (∀ i x, NoDup (f i x)) → (∀ i x b, b ∈ f i x → below i p b) → NoDup (each f i l).
Proof.
  induction l as [|x l IH]; intros i Hn Hp; cbn [each]; [constructor|].
  apply NoDup_app. split_and!; [done| |by apply IH].
  intros b Hb (j & y & Hj & Hb')%elem_of_each. pose proof (below_unique i j p b (Hp _ _ _ Hb) (Hp _ _ _ Hb')). lia.
Qed.

Lemma Forall_each {A B} (Q : B → Prop) (f : nat → A → list B) i l :
  (∀ j x, Forall Q (f j x)) → Forall Q (each f i l).
Proof.
  intros Hf. apply Forall_forall. intros b (j & x & _ & Hb)%elem_of_each. by apply (Forall_forall Q (f j x)).
Qed.

Lemma Forall_each_below {A} (f : nat → A → list block_id) p q n i l :
  (∀ j x, Forall (below j (n :: p)) (f j x)) → q = n :: p → Forall (λ b, q `suffix_of` b.2) (each f i l).
Proof.
  intros Hf ->. apply Forall_each. intros j x. eapply Forall_impl; [apply Hf|].
  intros b [l' ->]. exists (l' ++ [j]). by rewrite <- app_assoc.
Qed.

(** Blocks of different kinds differ. *)
Lemma NoDup_app_kinds (K : kind → bool) (L1 L2 : list block_id) :
  Forall (λ b, K b.1 = true) L1 → Forall (λ b, K b.1 = false) L2 → NoDup L1 → NoDup L2 → NoDup (L1 ++ L2).
Proof.
  rewrite !Forall_forall. intros H1 H2 N1 N2. apply NoDup_app. split_and!; [done| |done].
  intros b Hb1%H1 Hb2%H2. congruence.
Qed.

Definition of_frame (k : kind) : bool := bool_decide (k = KFrame ∨ k = KIntervals).
Definition of_still (k : kind) : bool := bool_decide (k = KStill ∨ k = KStillRes ∨ k = KCompression).
Definition of_stream (k : kind) : bool := of_frame k || of_still k || bool_decide (k = KFormat ∨ k = KInterface).

Lemma frame_blocks_ok p i frame :
  NoDup (frame_blocks p i frame) ∧ Forall (below i p) (frame_blocks p i frame)
  ∧ Forall (λ b, of_frame b.1 = true) (frame_blocks p i frame).
Proof.
  unfold frame_blocks, below. destruct (fr_intervals frame); cbn [app]; split_and!.
  all: repeat (constructor || set_solver).
Qed.

Lemma units_NoDup {A} (k : kind) p (l : list A) : NoDup (each (λ i _, [(k, i :: p)]) 0 l).
Proof.
  apply (NoDup_each _ p); [intros; apply NoDup_singleton|].
  intros i x b ->%list_elem_of_singleton. by exists [].
Qed.

Lemma still_blocks_ok p i still :
  NoDup (still_blocks p i still) ∧ Forall (below i p) (still_blocks p i still)
  ∧ Forall (λ b, of_still b.1 = true) (still_blocks p i still).
Proof.
  unfold still_blocks. split_and!.
  - apply (NoDup_app_kinds (λ k, bool_decide (k = KStillRes))); [by apply Forall_each; repeat constructor| | |].
    all: try apply units_NoDup.
    all: destruct (sf_bCompression still); cbn [app]; repeat (constructor || set_solver).
  - apply Forall_app. split; [|destruct (sf_bCompression still); repeat (constructor || by exists [])].
    apply Forall_each. intros j _. repeat constructor. by exists [j].
  - apply Forall_app. split; [by apply Forall_each; repeat constructor|].
    destruct (sf_bCompression still); repeat constructor.
Qed.

Lemma format_blocks_ok p i format :
  NoDup (format_blocks p i format) ∧ Forall (below i p) (format_blocks p i format)
  ∧ Forall (λ b, of_stream b.1 = true ∧ b.1 ≠ KInterface) (format_blocks p i format).
Proof.
  pose proof (frame_blocks_ok (i :: p)) as HF. pose proof (still_blocks_ok (i :: p)) as HS.
  assert (Forall (λ b, of_frame b.1 = true) (each (frame_blocks (i :: p)) 0 (fm_frame_descs format))) as KF
    by (apply Forall_each; apply HF).
  assert (Forall (λ b, of_still b.1 = true) (each (still_blocks (i :: p)) 0 (fm_still_frame_desc format))) as KS
    by (apply Forall_each; apply HS).
  unfold format_blocks. split_and!.
  - apply (NoDup_app_kinds of_frame); [done| | |].
    + apply Forall_app. split; [|by repeat constructor]. eapply Forall_impl; [exact KS|]. by intros [[] ?].
    + apply (NoDup_each _ (i :: p)); [apply HF|]. intros j x. apply Forall_forall, HF.
    + apply (NoDup_app_kinds of_still); [done|by repeat constructor| |apply NoDup_singleton].
      apply (NoDup_each _ (i :: p)); [apply HS|]. intros j x. apply Forall_forall, HS.
  - repeat (apply Forall_app; split).
    + apply (Forall_each_below _ p _ i); [apply HF|done].
    + apply (Forall_each_below _ p _ i); [apply HS|done].
    + repeat constructor. by exists [].
  - repeat (apply Forall_app; split); [eapply Forall_impl; [exact KF|]|eapply Forall_impl; [exact KS|]|by repeat constructor].
    all: by intros [[] ?].
Qed.

Lemma stream_if_blocks_ok i s :
  NoDup (stream_if_blocks i s) ∧ Forall (below i []) (stream_if_blocks i s)
  ∧ Forall (λ b, of_stream b.1 = true) (stream_if_blocks i s).
Proof.
  pose proof (format_blocks_ok [i]) as HF.
  assert (Forall (λ b, of_stream b.1 = true ∧ b.1 ≠ KInterface) (each (format_blocks [i]) 0 (si_format_descs s))) as KF
    by (apply Forall_each; apply HF).
  unfold stream_if_blocks. split_and!.
  - apply (NoDup_app_kinds (λ k, negb (bool_decide (k = KInterface)))); [| | |apply NoDup_singleton].
    + eapply Forall_impl; [exact KF|]. intros b [_ Hb]. by rewrite bool_decide_false.
    + by repeat constructor.
    + apply (NoDup_each _ [i]); [apply HF|]. intros j x. apply Forall_forall, HF.
  - apply Forall_app. split; [|repeat constructor; by exists []].
    apply (Forall_each_below _ [] _ i); [apply HF|done].
  - apply Forall_app. split; [|by repeat constructor]. eapply Forall_impl; [exact KF|]. by intros b [].
Qed.

(** The kinds of a list of blocks, part by part; [KS] is what is known of the last. *)
Ltac kinds_of KS :=
  repeat (apply Forall_app; split);
  first [ by repeat constructor | by apply Forall_each; repeat constructor
        | by (eapply Forall_impl; [exact KS|]; intros [[] ?]) ].

Lemma freed_blocks_ok info :
  NoDup (freed_blocks info) ∧ Forall (λ b, b.1 ≠ KSelector) (freed_blocks info).
Proof.
  pose proof stream_if_blocks_ok as HS.
  assert (Forall (λ b, of_stream b.1 = true) (each stream_if_blocks 0 (di_stream_ifs info))) as KS
    by (apply Forall_each; apply HS).
  unfold freed_blocks. split; [|kinds_of KS].
  apply (NoDup_app_kinds (λ k, bool_decide (k = KInput))); [kinds_of KS|kinds_of KS|apply units_NoDup|].
  apply (NoDup_app_kinds (λ k, bool_decide (k = KProcessing))); [kinds_of KS|kinds_of KS|apply units_NoDup|].
  apply (NoDup_app_kinds (λ k, bool_decide (k = KExtension))); [kinds_of KS|kinds_of KS|apply units_NoDup|].
  apply (NoDup_app_kinds of_stream); [done|by repeat constructor| |repeat (constructor || set_solver)].
  apply (NoDup_each _ []); [apply HS|]. intros j x. apply Forall_forall, HS.
Qed.

(** C29: freeing a device description frees each of its blocks exactly once, uses
    none after it is gone and leaves all other memory alone; what is left of the
    description are its selector units, which are never freed. *)
Theorem free_device_info_exact (info : uvc_device_info) (other : gset block_id) :
  (∀ b, b ∈ freed_blocks info → b ∉ other) →
  uvc_free_device_info info (list_to_set (freed_blocks info) ∪ list_to_set (selector_blocks info) ∪ other)
  = Ret (tt, list_to_set (selector_blocks info) ∪ other).
Proof.
  intros Hother. destruct (freed_blocks_ok info) as [Hn Hk].
  rewrite free_device_info_frees; [|done|set_solver|set_solver]. do 2 f_equal.
  assert (∀ b, b ∈ selector_blocks info → b ∉ freed_blocks info) as Hsel.
  { intros b (j & x & _ & ->%list_elem_of_singleton)%elem_of_each Hb.
    rewrite Forall_forall in Hk. by apply (Hk _ Hb). }
  set_solver.
Qed.

(** ** A small description *)

Definition small_frame : uvc_frame_desc :=
  {| fr_bDescriptorSubtype := 5; fr_bFrameIndex := 1; fr_bmCapabilities := 0; fr_wWidth := 4; fr_wHeight := 2;
     fr_dwMinBitRate := 0; fr_dwMaxBitRate := 0; fr_dwMaxVideoFrameBufferSize := 16; fr_dwDefaultFrameInterval := 1;
     fr_dwMinFrameInterval := 1; fr_dwMaxFrameInterval := 1; fr_dwFrameIntervalStep := 0; fr_bFrameIntervalType := 1;
     fr_dwBytesPerLine := 0; fr_intervals := Some [1; 0] |}.

Definition small_still : uvc_still_frame_desc :=
  {| sf_bDescriptorSubtype := 3; sf_bEndPointAddress := 0;
     sf_imageSizePatterns := [{| sr_bResolutionIndex := 1; sr_wWidth := 4; sr_wHeight := 2 |};
                              {| sr_bResolutionIndex := 2; sr_wWidth := 8; sr_wHeight := 4 |}];
     sf_bNumCompressionPattern := 1; sf_bCompression := [5] |}.

Definition small_format : uvc_format_desc :=
  {| fm_bDescriptorSubtype := 4; fm_bFormatIndex := 1; fm_bNumFrameDescriptors := 2; fm_guidFormat := [];
     fm_bBitsPerPixel := 16; fm_bDefaultFrameIndex := 1; fm_bAspectRatioX := 0; fm_bAspectRatioY := 0;
     fm_bmInterlaceFlags := 0; fm_bCopyProtect := 0; fm_bVariableSize := 0;
     fm_frame_descs := [small_frame; small_frame]; fm_still_frame_desc := [small_still] |}.

Definition small_tree : uvc_device_info :=
  {| di_config := [];
     di_ctrl_if :=
       {| ci_input_term_descs := []; ci_selector_unit_descs := [{| su_bUnitID := 2 |}];
          ci_processing_unit_descs := [{| pu_bUnitID := 3; pu_bSourceID := 2; pu_bmControls := 0 |}];
          ci_extension_unit_descs := []; ci_bcdUVC := 0; ci_dwClockFrequency := 0; ci_bEndpointAddress := 0;
          ci_bInterfaceNumber := 0 |};
     di_stream_ifs :=
       [{| si_bInterfaceNumber := 1; si_format_descs := [small_format; small_format]; si_bEndpointAddress := 0x81;
           si_bTerminalLink := 0; si_bStillCaptureMethod := 2 |}] |}.

Lemma free_device_info_exact_witness :
  length (freed_blocks small_tree) = 22%nat
  ∧ uvc_free_device_info small_tree
      (list_to_set (freed_blocks small_tree) ∪ list_to_set (selector_blocks small_tree) ∪ ∅)
    = Ret (tt, list_to_set [(KSelector, [0%nat])] ∪ ∅).
Proof.
  split; [reflexivity|]. apply (free_device_info_exact small_tree ∅). intros b _. apply not_elem_of_empty.
Defined.
