(* ===== verification/Portability.v ===== *)
(** * Portability: replacements for functions a platform lacks

    [gettimeofday] of src/stream.c, compiled with Microsoft's compiler, and [strndup]
    of src/misc.c, compiled on Apple's systems, each with what it does. *)

From stdpp Require Import prelude.
From S2P Require Import Prelude.

(** ** The time of day on Windows *)

Definition DELTA_EPOCH_IN_MICROSECS : Z := 116444736000000000.

(** What [GetSystemTimeAsFileTime] stores: the time since 1601 in units of 100 ns, as
    two words of 32 bits. *)
Record FILETIME := {
  ft_dwLowDateTime : Z;
  ft_dwHighDateTime : Z;
}.

(** [long] has 32 bits there. *)
Record timeval := {
  tv_sec : Z;
  tv_usec : Z;
}.

Definition gettimeofday (ft : FILETIME) : timeval :=
  let tmpres := 0 in
  let tmpres := Z.lor tmpres (ft_dwHighDateTime ft) in
  let tmpres := u64 (Z.shiftl tmpres 32) in
  let tmpres := Z.lor tmpres (ft_dwLowDateTime ft) in
  let tmpres := tmpres / 10 in
  let tmpres := u64 (tmpres - DELTA_EPOCH_IN_MICROSECS) in
  {| tv_sec := i32 (tmpres / 1000000); tv_usec := i32 (tmpres mod 1000000) |}.

(** The clock, [t] microseconds after 1970; 11644473600 seconds lie between 1601 and
    1970. *)
Definition filetime_of (t : Z) : FILETIME :=
  let n := 10 * (t + 11644473600 * 1000000) in
  {| ft_dwLowDateTime := n mod 2 ^ 32; ft_dwHighDateTime := n / 2 ^ 32 |}.

(** ** Copying a string *)

(** [while ( *sp++ ) src_n++]: the length of the string in the memory [s]. *)
Fixpoint str_length (s : bytes) : outcome Z :=
  match s with
  | [] => Undef OutOfBounds
  | b :: s =>
      if b =? 0 then Ret 0 else
      n ← str_length s;
      Ret (n + 1)
  end.

(** [s]: the memory from the pointer on; [fresh]: the memory [malloc] gives for a size,
    if it does.  The result is the new block. *)
Definition strndup (malloc : Z → option bytes) (s : bytes) (n : Z) : outcome bytes :=
  src_n ← str_length s;
  let n := if src_n <? n then src_n else n in
  d ← deref (malloc (n + 1));
  d ← memcpy d 0 s 0 n;
  wr d n 0.
