(* ===== verification/PortabilityFacts.v ===== *)
(** * PortabilityFacts: the replacements against what they replace

    [strndup] copies what it should, but reads past the limit it is given.  The time of
    day on Windows is never right. *)

From stdpp Require Import prelude.
From S2P Require Import Prelude Portability.

Lemma filetime_words n :
  fits 64 n → Z.lor (u64 (Z.shiftl (Z.lor 0 (n / 2 ^ 32)) 32)) (n mod 2 ^ 32) = n.
Proof.
  intros Hn. rewrite Z.lor_0_l, Z.shiftl_mul_pow2 by lia.
  assert (fits 64 (n / 2 ^ 32 * 2 ^ 32)) as Hf.
  { unfold fits in *. pose proof (Z.div_mod n (2 ^ 32)). pose proof (Z.mod_pos_bound n (2 ^ 32)). lia. }
  rewrite wrapu_id by done. rewrite Z.lor_comm, <- Z.shiftl_mul_pow2 by lia.
  rewrite lor_shiftl_add; [|lia|apply Z.mod_pos_bound; lia|apply Z.div_pos; [apply Hn|lia]].
  pose proof (Z.div_mod n (2 ^ 32)). lia.
Qed.

(** The epochs are 10 times too far apart, so the subtraction wraps around. *)
Lemma gettimeofday_value t :
  0 ≤ t < 9 * 11644473600000000 →
  gettimeofday (filetime_of t) =
  {| tv_sec := i32 ((t + 18341943811309551616) / 1000000); tv_usec := i32 ((t + 18341943811309551616) mod 1000000) |}.
Proof.
  intros Ht. unfold gettimeofday, filetime_of. cbv zeta. cbn [ft_dwHighDateTime ft_dwLowDateTime].
  rewrite filetime_words by (unfold fits; lia).
  replace (10 * (t + 11644473600 * 1000000) / 10) with (t + 11644473600 * 1000000)
    by (rewrite (Z.mul_comm 10), Z.div_mul; lia).
  replace (u64 _) with (t + 18341943811309551616); [done|].
  unfold wrapu, DELTA_EPOCH_IN_MICROSECS.
  replace (_ - 116444736000000000) with (t + 18341943811309551616 + (-1) * 2 ^ 64) by lia.
  rewrite Z.mod_add by lia. rewrite Z.mod_small; lia.
Qed.

(** With Microsoft's compiler [gettimeofday] never gives the time of day: at every
    moment from 1970 to the year 5291 the seconds it stores differ from the seconds
    since 1970, even modulo the 32 bits of [tv_sec].  (The constant for the distance of
    the epochs is in units of 100 ns, not in microseconds.) *)
Theorem windows_time_wrong t :
  0 ≤ t < 9 * 11644473600000000 →
  tv_sec (gettimeofday (filetime_of t)) ≠ i32 (t / 1000000)
  ∧ ∃ carry, (carry = 0 ∨ carry = 1)
      ∧ tv_sec (gettimeofday (filetime_of t)) = i32 (t / 1000000 + 18341943811309 + carry).
Proof.
  intros Ht. rewrite gettimeofday_value by done. cbn [tv_sec].
  assert (∃ carry, (carry = 0 ∨ carry = 1)
            ∧ (t + 18341943811309551616) / 1000000 = t / 1000000 + 18341943811309 + carry) as (carry & Hc & ->).
  { exists ((t mod 1000000 + 551616) / 1000000). split.
    - assert (0 ≤ (t mod 1000000 + 551616) / 1000000 < 2) by (Z.to_euclidean_division_equations; lia). lia.
    - Z.to_euclidean_division_equations. lia. }
  split; [|by exists carry]. unfold wraps. generalize (t / 1000000). intros q Heq.
  Z.to_euclidean_division_equations. lia.
Qed.

Lemma windows_time_wrong_witness :
  tv_sec (gettimeofday (filetime_of 1767225600000000)) ≠ i32 (1767225600000000 / 1000000).
Proof. by apply (windows_time_wrong 1767225600000000). Defined.

(** ** Copying a string *)

Lemma str_length_string l post : Forall (λ b, b ≠ 0) l → str_length (l ++ 0 :: post) = Ret (len l).
Proof.
  induction 1 as [|b l Hb _ IH]; cbn [app str_length]; [done|].
  rewrite (proj2 (Z.eqb_neq _ _) Hb), IH. cbn. f_equal. rewrite len_cons. lia.
Qed.

Lemma str_length_none l : Forall (λ b, b ≠ 0) l → str_length l = Undef OutOfBounds.
Proof. induction 1 as [|b l Hb _ IH]; [done|]. cbn [str_length]. by rewrite (proj2 (Z.eqb_neq _ _) Hb), IH. Qed.

(** [malloc] gives a block of the size, or nothing. *)
Definition malloc_ok (malloc : Z → option bytes) : Prop := ∀ n d, 0 ≤ n → malloc n = Some d → len d = n.

(** [strndup] copies at most [n] characters of the string, and ends the copy with a
    zero; the block has just that size.  It measures the whole string first: memory
    without a zero is read beyond its end even when [n] is smaller, where the function it
    stands in for stops at [n].  A failed allocation is not noticed. *)
Theorem strndup_correct malloc l post n :
  malloc_ok malloc → Forall (λ b, b ≠ 0) l → 0 ≤ n →
  (let m := Z.min n (len l) in
   strndup malloc (l ++ 0 :: post) n =
   match malloc (m + 1) with
   | Some _ => Ret (take (Z.to_nat m) l ++ [0])
   | None => Undef NullDeref
   end)
  ∧ strndup malloc l n = Undef OutOfBounds.
Proof.
  intros Hm Hl Hn. cbv zeta. unfold strndup. rewrite str_length_string, str_length_none by done. split; [|done].
  cbn [mbind outcome_bind]. replace (if len l <? n then len l else n) with (Z.min n (len l)) by (destruct (Z.ltb_spec (len l) n); lia).
  pose proof (len_nonneg l).
  destruct (malloc _) as [d|] eqn:E; [|done]. apply Hm in E; [|lia]. cbn [deref mbind outcome_bind]. set (m := Z.min n (len l)) in *.
  destruct (memcpy_in d 0 (l ++ 0 :: post) 0 m) as (d' & -> & Hld & Htake & Hdrop);
    [lia..|rewrite len_app, len_cons; pose proof (len_nonneg post); lia|]. cbn [mbind outcome_bind].
  rewrite Z.add_0_l in *. cbn [Z.to_nat take drop app] in Htake. rewrite drop_0 in Htake.
  assert (take (Z.to_nat m) (l ++ 0 :: post) = take (Z.to_nat m) l) as Hl' by (rewrite take_app_le; unfold len in *; [done|lia]).
  rewrite Hl' in Htake. rewrite <- (take_drop (Z.to_nat m) d'), Htake.
  assert (len (drop (Z.to_nat m) d') = 1) as Hone by (rewrite len_drop; lia).
  destruct (drop (Z.to_nat m) d') as [|x [|]]; try done.
  - replace m with (len (take (Z.to_nat m) l) + 0) at 2 by (rewrite len_take; lia). by apply wr_app.
  - rewrite !len_cons in Hone. pose proof (len_nonneg l0). lia.
Qed.

Lemma strndup_correct_witness :
  strndup (λ n, Some (replicate (Z.to_nat n) 0)) [85; 86; 67; 0; 7] 2 = Ret [85; 86; 0]
  ∧ strndup (λ n, Some (replicate (Z.to_nat n) 0)) [85; 86; 67] 2 = Undef OutOfBounds.
Proof.
  destruct (strndup_correct (λ n, Some (replicate (Z.to_nat n) 0)) [85; 86; 67] [7] 2) as [H1 H2].
  - intros n d Hn [= <-]. unfold len. rewrite length_replicate. lia.
  - by apply (bool_decide_unpack _).
  - done.
  - by split.
Defined.
