(* ===== verification/Start.v ===== *)
(** * Start: how a stream is set up for its transfers, src/stream.c

    The part of [uvc_stream_start] before the transfers exist: the checks, the
    resets, the choice of an altsetting that carries the negotiated payload, and
    the sizes of the transfers.  What happens to the transfers afterwards is in
    Transfers. *)

From stdpp Require Import prelude.
From S2P Require Import Prelude Types Environment Formats Handles Negotiation Stream.

Definition set_user_cb (h : uvc_stream_handle) (cb : bool) : uvc_stream_handle :=
  {| sh_stream_if := sh_stream_if h; sh_running := sh_running h; sh_cur_ctrl := sh_cur_ctrl h;
     sh_working := sh_working h; sh_hold := sh_hold h; sh_last_polled_seq := sh_last_polled_seq h;
     sh_user_cb := cb; sh_frame := sh_frame h; sh_frame_format := sh_frame_format h |}.

Definition set_format (h : uvc_stream_handle) (format : Z) : uvc_stream_handle :=
  {| sh_stream_if := sh_stream_if h; sh_running := sh_running h; sh_cur_ctrl := sh_cur_ctrl h;
     sh_working := sh_working h; sh_hold := sh_hold h; sh_last_polled_seq := sh_last_polled_seq h;
     sh_user_cb := sh_user_cb h; sh_frame := sh_frame h; sh_frame_format := format |}.

(** [running = 1; seq = 1; fid = 0; pts = 0; last_scr = 0]: the byte counts, the
    held frame and the number of the last frame polled stay. *)
Definition start_reset (h : uvc_stream_handle) : uvc_stream_handle :=
  let w := sh_working h in
  set_running
    (set_working h
       {| wk_fid := 0; wk_seq := 1; wk_pts := 0; wk_last_scr := 0; wk_got_bytes := wk_got_bytes w;
          wk_outbuf := wk_outbuf w; wk_meta_got_bytes := wk_meta_got_bytes w;
          wk_meta_outbuf := wk_meta_outbuf w; wk_frame_had_errors := wk_frame_had_errors w |})
    true.

Definition num_transfer_bufs (transfer_buffer_count : Z) : Z :=
  if nz transfer_buffer_count then
    let n := if transfer_buffer_count <? 2 then 2 else transfer_buffer_count in
    if LIBUVC_NUM_TRANSFER_BUFS <? n then LIBUVC_NUM_TRANSFER_BUFS else n
  else LIBUVC_NUM_TRANSFER_BUFS.

(** The bytes per packet of the first endpoint that has a SuperSpeed companion or
    the address wanted: [wMaxPacketSize] is [unused:2 (multiplier-1):3 size:11]. *)
Fixpoint endpoint_bytes (address : Z) (endpoints : list usb_endpoint) : Z :=
  match endpoints with
  | [] => 0
  | ep :: rest =>
      match ep_wBytesPerInterval ep with
      | Some n => n
      | None =>
          if ep_bEndpointAddress ep =? address then
            let n := ep_wMaxPacketSize ep in
            Z.land n 0x07ff * (Z.land (Z.shiftr n 11) 3 + 1)
          else endpoint_bytes address rest
      end
  end.

(** Altsetting, packets per transfer and bytes per packet. *)
Fixpoint choose_altsetting (alts : list usb_altsetting) (address config_bytes max_frame : Z)
    : outcome (option (usb_altsetting * Z * Z)) :=
  match alts with
  | [] => Ret None
  | alt :: rest =>
      let n := endpoint_bytes address (as_endpoint alt) in
      if config_bytes <=? n then
        packets ← cdiv (u64 (max_frame + n - 1)) n;
        let packets := if 32 <? packets then 32 else packets in
        Ret (Some (alt, packets, n))
      else choose_altsetting rest address config_bytes max_frame
  end.

(** What the transfers are to be: how many, bulk or isochronous, their size, and
    for the isochronous ones the packets and their length. *)
Record transfer_setup := {
  tu_count : Z;
  tu_isochronous : bool;
  tu_endpoint : Z;
  tu_size : Z;
  tu_packets : Z;
  tu_packet_bytes : Z;
}.

Section start.
Context `{Environment}.

(** [do { ... } while (ret != UVC_SUCCESS && attempts < 3)], [n] attempts are left. *)
Fixpoint select_altsetting (n : nat) (idx alt ret : Z) : io Z :=
  match n with
  | O => mret ret
  | S n =>
      ret ← call (SetInterfaceAltSetting idx alt);
      if ret =? UVC_SUCCESS then mret ret else select_altsetting n idx alt ret
  end.

(** [goto fail] *)
Definition start_failed (h : uvc_stream_handle) (ret : Z)
    : Z * uvc_stream_handle * option transfer_setup := (ret, set_running h false, None).

(** [uvc_stream_start] up to the allocation of the transfers: the code, the handle
    and, when the transfers are to be set up, how. *)
Definition stream_start_setup (devh : uvc_device_handle) (h : uvc_stream_handle)
    : io (Z * uvc_stream_handle * option transfer_setup) :=
  if sh_running h then mret (UVC_ERROR_BUSY, h, None) else
  let h := start_reset h in
  let ctrl := sh_cur_ctrl h in
  let count := num_transfer_bufs (dh_transfer_buffer_count devh) in
  match uvc_find_frame_desc_stream h (sc_bFormatIndex ctrl) (sc_bFrameIndex ctrl) with
  | None => mret (start_failed h UVC_ERROR_INVALID_PARAM)
  | Some (format_desc, frame_desc) =>
      let h := set_format h (uvc_frame_format_for_guid (fm_guidFormat format_desc)) in
      if sh_frame_format h =? UVC_FRAME_FORMAT_UNKNOWN then mret (start_failed h UVC_ERROR_NOT_SUPPORTED) else
      let interface_id := si_bInterfaceNumber (sh_stream_if h) in
      let address := si_bEndpointAddress (sh_stream_if h) in
      info ← lift (deref (dh_info devh));
      interface ← lift (rd (di_config info) interface_id);
      if 1 <? len interface then
        chosen ← lift (choose_altsetting interface address
          (sc_dwMaxPayloadTransferSize ctrl) (sc_dwMaxVideoFrameSize ctrl));
        match chosen with
        | None => mret (start_failed h UVC_ERROR_INVALID_MODE)
        | Some (alt, packets, n) =>
            ret ← select_altsetting 3 (as_bInterfaceNumber alt) (as_bAlternateSetting alt) UVC_SUCCESS;
            if negb (ret =? UVC_SUCCESS) then mret (start_failed h ret) else
            mret (UVC_SUCCESS, h,
              Some {| tu_count := count; tu_isochronous := true; tu_endpoint := address;
                      tu_size := packets * n; tu_packets := packets; tu_packet_bytes := n |})
        end
      else
        mret (UVC_SUCCESS, h,
          Some {| tu_count := count; tu_isochronous := false; tu_endpoint := address;
                  tu_size := sc_dwMaxPayloadTransferSize ctrl; tu_packets := 0; tu_packet_bytes := 0 |})
  end.
End start.
