(* ===== verification/Transfers.v ===== *)
(** * Transfers: the life of a stream's USB transfers, src/stream.c

    Three threads share a stream: the application, which configures, starts, polls,
    stops and closes it, one call at a time; libusb's event thread, which runs
    [_uvc_stream_callback] when a transfer completes; and the thread that hands
    frames to the user's callback.  The state holds the slots [strmh->transfers],
    what has become of every transfer allocated so far, and which of the two
    structures the threads reach through ([strmh] and [strmh->devh]) are still
    allocated.  A step is one critical section under [cb_mutex], or one access
    outside it; what a callback does with the data of one transfer is one step.
    A thread that waits on [cb_cond] goes on only after a broadcast, a timeout, or a
    wake-up without a cause, which POSIX allows.  [exec] runs the step a label names
    and is [Undef UseAfterFree] when the step touches freed memory.  What the
    allocators and [pthread_create] answer is part of the labels. *)

From stdpp Require Import prelude.
From S2P Require Import Prelude Machine Types Handles Negotiation Stream Start.

(** ** Transfers *)

Inductive xfer_status :=
  | XferCompleted
  | XferCancelled
  | XferError
  | XferNoDevice
  | XferTimedOut
  | XferStall
  | XferOverflow.

(** Where the callback of a transfer is: entered with a status; about to look at
    [strmh->running]; about to resubmit; about to mark the transfer as deleted. *)
Inductive callback_pc :=
  | CbEntered (status : xfer_status)
  | CbDecide
  | CbSubmit
  | CbDelete.

(** A transfer is filled in, owned by libusb, in its callback, freed, or dropped:
    no longer submitted, not found in a slot and so never freed. *)
Inductive xfer :=
  | Filled
  | InFlight
  | InCallback (pc : callback_pc)
  | FreedXfer
  | Dropped.

(** What a completed transfer carries: one payload, or a status and a payload per
    isochronous packet. *)
Inductive xfer_data :=
  | BulkData (payload : bytes)
  | IsoData (packets : list (Z * bytes)).

(** ** The application's calls *)

(** Where the application is: between calls; filling slot [i] of [n]; submitting
    slot [i] of [n]; freeing the rest after a failed submission ([first]: nothing
    had been submitted); cancelling; about to look at the slots after [k] timeouts;
    asleep in the timed wait; joining the user callback's thread, the stop's result
    being [ret]; about to scan the slots in [uvc_stream_close]; done with the
    stream; done with the device.  [closing]: the stop belongs to a close.
    [PollWaits]: asleep in [uvc_stream_get_frame], with or without a time limit,
    [memory] being what [realloc] will answer. *)
Inductive user_pc :=
  | Idle
  | PollWaits (timed : bool) (memory : bool * bool)
  | Filling (i n : nat) (cb : bool)
  | Submitting (i n : nat)
  | FreeingRest (i n : nat) (first : bool)
  | Cancelling (closing : bool)
  | Waiting (k : Z) (closing : bool)
  | Asleep (k : Z) (closing : bool)
  | Joining (ret : Z) (closing : bool)
  | Scanning
  | StreamClosed
  | DeviceClosed.

(** Where the thread of the user's callback is, with its [last_seq]: about to look
    at the stream under the mutex; waiting on [cb_cond]; done, but not joined. *)
Inductive thread_pc :=
  | ThChecks (last_seq : Z)
  | ThWaits (last_seq : Z)
  | ThExited.

Record tstate := {
  ts_h : uvc_stream_handle;
  ts_slots : list (option nat);
  ts_xfers : list xfer;
  ts_null_bufs : list nat;         (* the transfers whose buffer [malloc] did not give *)
  ts_user : user_pc;
  ts_thread : option thread_pc;    (* the thread [cb_thread] names, if it names one *)
  ts_stream_live : bool;
  ts_devh_live : bool;
  ts_quarantined : bool;           (* devh->has_quarantined_stream *)
}.

Definition set_h (s : tstate) (h : uvc_stream_handle) : tstate :=
  {| ts_h := h; ts_slots := ts_slots s; ts_xfers := ts_xfers s;
     ts_null_bufs := ts_null_bufs s; ts_user := ts_user s;
     ts_thread := ts_thread s; ts_stream_live := ts_stream_live s; ts_devh_live := ts_devh_live s;
     ts_quarantined := ts_quarantined s |}.

Definition set_slots (s : tstate) (slots : list (option nat)) (xfers : list xfer) : tstate :=
  {| ts_h := ts_h s; ts_slots := slots; ts_xfers := xfers;
     ts_null_bufs := ts_null_bufs s; ts_user := ts_user s;
     ts_thread := ts_thread s; ts_stream_live := ts_stream_live s; ts_devh_live := ts_devh_live s;
     ts_quarantined := ts_quarantined s |}.

Definition set_xfer (s : tstate) (t : nat) (x : xfer) : tstate :=
  set_slots s (ts_slots s) (<[t := x]> (ts_xfers s)).

Definition set_user (s : tstate) (pc : user_pc) : tstate :=
  {| ts_h := ts_h s; ts_slots := ts_slots s; ts_xfers := ts_xfers s;
     ts_null_bufs := ts_null_bufs s; ts_user := pc;
     ts_thread := ts_thread s; ts_stream_live := ts_stream_live s; ts_devh_live := ts_devh_live s;
     ts_quarantined := ts_quarantined s |}.

Definition set_thread (s : tstate) (thread : option thread_pc) : tstate :=
  {| ts_h := ts_h s; ts_slots := ts_slots s; ts_xfers := ts_xfers s;
     ts_null_bufs := ts_null_bufs s; ts_user := ts_user s;
     ts_thread := thread; ts_stream_live := ts_stream_live s; ts_devh_live := ts_devh_live s;
     ts_quarantined := ts_quarantined s |}.

Definition set_lives (s : tstate) (stream devh quarantined : bool) : tstate :=
  {| ts_h := ts_h s; ts_slots := ts_slots s; ts_xfers := ts_xfers s;
     ts_null_bufs := ts_null_bufs s; ts_user := ts_user s;
     ts_thread := ts_thread s; ts_stream_live := stream; ts_devh_live := devh;
     ts_quarantined := quarantined |}.

Definition add_null_buf (s : tstate) (t : nat) : tstate :=
  {| ts_h := ts_h s; ts_slots := ts_slots s; ts_xfers := ts_xfers s;
     ts_null_bufs := t :: ts_null_bufs s; ts_user := ts_user s;
     ts_thread := ts_thread s; ts_stream_live := ts_stream_live s; ts_devh_live := ts_devh_live s;
     ts_quarantined := ts_quarantined s |}.

(** [pthread_cond_broadcast(&strmh->cb_cond)] as the thread of the user's callback
    sees it.  For the application, which can be woken at any time, see [UWake]. *)
Definition broadcast (s : tstate) : tstate :=
  match ts_thread s with
  | Some (ThWaits last_seq) => set_thread s (Some (ThChecks last_seq))
  | _ => s
  end.

(** An access through [strmh] or [strmh->devh]. *)
Definition touch_stream (s : tstate) : outcome unit :=
  if ts_stream_live s then Ret tt else Undef UseAfterFree.

Definition touch_devh (s : tstate) : outcome unit :=
  if ts_devh_live s then Ret tt else Undef UseAfterFree.

Definition slot_free (o : option nat) : bool := match o with None => true | Some _ => false end.

(** No slot holds a transfer. *)
Definition no_transfers (s : tstate) : bool := forallb slot_free (ts_slots s).

(** ** The transfer callback *)

Section callback.
Context (clock : Z → Z) (is_isight : bool).

(** The loop over the isochronous packets, with what it published. *)
Fixpoint process_packets (h : uvc_stream_handle) (packets : list (Z * bytes))
    : outcome (uvc_stream_handle * list publication) :=
  match packets with
  | [] => Ret (h, [])
  | (status, payload) :: rest =>
      if nz status then process_packets (set_working h (set_had_errors (sh_working h) true)) rest
      else
        '(h, pubs) ← _uvc_process_payload clock is_isight h payload (len payload);
        '(h, pubs2) ← process_packets h rest;
        Ret (h, pubs ++ pubs2)
  end.

Definition process_completed (h : uvc_stream_handle) (data : xfer_data)
    : outcome (uvc_stream_handle * list publication) :=
  match data with
  | BulkData payload => _uvc_process_payload clock is_isight h payload (len payload)
  | IsoData packets => process_packets h packets
  end.

(** The bytes that are read of a transfer's buffer. *)
Definition data_bytes (data : xfer_data) : bytes :=
  match data with
  | BulkData payload => payload
  | IsoData packets => concat ((λ p : Z * bytes, if nz p.1 then [] else p.2) <$> packets)
  end.

(** An access to the buffer of a transfer. *)
Definition touch_buffer (t : nat) (data : xfer_data) (s : tstate) : outcome unit :=
  if bool_decide (t ∈ ts_null_bufs s) && negb (bool_decide (data_bytes data = [])) then Undef NullDeref else Ret tt.

(** The broadcasts of the frames that were published without an error. *)
Definition announce (pubs : list publication) (s : tstate) : tstate :=
  if existsb fst pubs then broadcast s else s.

(** The slot of a transfer, if it is in one. *)
Definition slot_of (t : nat) (slots : list (option nat)) : option nat :=
  fst <$> list_find (λ o, o = Some t) slots.

(** "Mark transfer as deleted": free it and clear its slot, or leave it alone; then
    wake who waits. *)
Definition mark_deleted (t : nat) (s : tstate) : tstate :=
  broadcast
    match slot_of t (ts_slots s) with
    | Some i => set_slots s (<[i := None]> (ts_slots s)) (<[t := FreedXfer]> (ts_xfers s))
    | None => set_xfer s t Dropped
    end.

(** One section of [_uvc_stream_callback] for transfer [t]; [data] is what a
    completed transfer carries and [submit_ret] what a resubmission returns. *)
Definition _uvc_stream_callback (t : nat) (pc : callback_pc) (data : xfer_data) (submit_ret : Z)
    (s : tstate) : outcome tstate :=
  match pc with
  | CbEntered XferCompleted =>
      _ ← touch_stream s;
      _ ← touch_devh s;
      _ ← touch_buffer t data s;
      '(h, pubs) ← process_completed (ts_h s) data;
      Ret (announce pubs (set_xfer (set_h s h) t (InCallback CbDecide)))
  | CbEntered (XferCancelled | XferError | XferNoDevice) => Ret (set_xfer s t (InCallback CbDelete))
  | CbEntered (XferTimedOut | XferStall | XferOverflow) => Ret (set_xfer s t (InCallback CbDecide))
  | CbDecide =>
      _ ← touch_stream s;
      Ret (set_xfer s t (InCallback (if sh_running (ts_h s) then CbSubmit else CbDelete)))
  | CbSubmit => Ret (set_xfer s t (if submit_ret <? 0 then InCallback CbDelete else InFlight))
  | CbDelete =>
      _ ← touch_stream s;
      Ret (mark_deleted t s)
  end.
End callback.

(** ** Starting, stopping, closing *)

(** [free(transfers[i]->buffer); libusb_free_transfer(transfers[i]); transfers[i] = 0];
    only the clean-up that frees all of them ([first]) tests the slot. *)
Definition free_slot (i : nat) (first : bool) (s : tstate) : outcome tstate :=
  match ts_slots s !! i with
  | Some (Some t) => Ret (set_slots s (<[i := None]> (ts_slots s)) (<[t := FreedXfer]> (ts_xfers s)))
  | Some None => if first then Ret s else Undef NullDeref
  | None => Undef OutOfBounds
  end.

(** Fills slot [i] with a new transfer and its buffer.  Neither allocation is
    checked: [transfer] and [buffer] say whether they succeeded, and the macros that
    fill in a transfer write through the pointer. *)
Definition fill_slot (i : nat) (transfer buffer : bool) (s : tstate) : outcome tstate :=
  if decide (i < length (ts_slots s))%nat then
    if negb transfer then Undef NullDeref else
    let t := length (ts_xfers s) in
    let s := set_slots s (<[i := Some t]> (ts_slots s)) (ts_xfers s ++ [Filled]) in
    Ret (if buffer then s else add_null_buf s t)
  else Undef OutOfBounds.

(** [libusb_submit_transfer(strmh->transfers[i])] with result [ret]. *)
Definition submit_slot (i : nat) (ret : Z) (s : tstate) : outcome tstate :=
  match ts_slots s !! i with
  | Some (Some t) => Ret (if ret =? UVC_SUCCESS then set_xfer s t InFlight else s)
  | _ => Undef NullDeref
  end.

(** The application's next step.  A call is chosen in [Idle]: [UCtrl ctrl ret] is
    [uvc_stream_ctrl], the device's answer to the request being [ret]; [UPoll
    timeout_us memory] is [uvc_stream_get_frame]; [UStart format ready count cb] is a
    start whose set-up found [format] and, when [ready], goes on to the transfers,
    [count] being the device's setting for their number; [UStop], [UClose];
    [UCloseDevice] is the end of [uvc_close] for the device.  [UAlloc transfer
    buffer] allocates the next transfer, [UCreate created] goes on to the thread of
    the callback.  [UGo ret] runs the call under way, [ret] being the result of a
    submission; [UTimeout] and [UWake] are the two ways out of a wait. *)
Inductive user_label :=
  | UCtrl (ctrl : uvc_stream_ctrl) (ret : Z)
  | UPoll (timeout_us : Z) (memory : bool * bool)
  | UStart (format : Z) (ready : bool) (count : Z) (cb : bool)
  | UStop
  | UClose
  | UCloseDevice
  | UAlloc (transfer buffer : bool)
  | UCreate (created : bool)
  | UGo (ret : Z)
  | UTimeout
  | UWake.

Definition LIBUVC_STREAM_STOP_TIMEOUT_ATTEMPTS : Z := 5.

(** [uvc_stream_ctrl] when the device answers the request with [ret]. *)
Definition stream_ctrl_call (ctrl : uvc_stream_ctrl) (ret : Z) (s : tstate) : tstate :=
  if negb (si_bInterfaceNumber (sh_stream_if (ts_h s)) =? sc_bInterfaceNumber ctrl) then s else
  if sh_running (ts_h s) then s else
  if negb (ret =? UVC_SUCCESS) then s else
  set_h s (set_cur_ctrl (ts_h s) ctrl).

Definition uvc_stream_start (format : Z) (ready : bool) (count : Z) (cb : bool) (s : tstate) : tstate :=
  if sh_running (ts_h s) then s
  else
    let h := set_format (start_reset (ts_h s)) format in
    if ready then set_user (set_h s h) (Filling 0 (Z.to_nat (num_transfer_bufs count)) cb)
    else set_h s (set_running h false).

(** After the last slot is filled: [user_cb] is set and its thread created, which
    nobody checks. *)
Definition start_thread (cb created : bool) (n : nat) (s : tstate) : tstate :=
  let s := set_h s (set_user_cb (ts_h s) cb) in
  let s := if cb && created then set_thread s (Some (ThChecks 0)) else s in
  set_user s (Submitting 0 n).

(** After a submission that returned [ret]: the next one, or the clean-up. *)
Definition after_submit (i n : nat) (ret : Z) (s : tstate) : tstate :=
  if ret =? UVC_SUCCESS then
    if decide (S i < n)%nat then set_user s (Submitting (S i) n) else set_user s Idle
  else if decide (i = 0)%nat then set_user s (FreeingRest 0 n true) else set_user s (FreeingRest i n false).

(** [uvc_stream_stop] up to the cancellation. *)
Definition uvc_stream_stop (closing : bool) (s : tstate) : tstate :=
  if sh_running (ts_h s)
  then set_user (set_h s (set_running (ts_h s) false)) (Cancelling closing)
  else if closing then set_user s Scanning else s.

(** The end of the wait for the transfers: "kick the user thread awake". *)
Definition stop_waited (ret : Z) (closing : bool) (s : tstate) : tstate :=
  set_user (broadcast s) (Joining ret closing).

(** [pthread_join(strmh->cb_thread, NULL)] if there is a callback.  [None]: it waits. *)
Definition join_thread (s : tstate) : option (outcome tstate) :=
  if sh_user_cb (ts_h s) then
    match ts_thread s with
    | None => Some (Undef BadArgument)
    | Some ThExited => Some (Ret (set_thread s None))
    | Some _ => None
    end
  else Some (Ret s).

(** [uvc_stream_close] after the stop: scan the slots, then quarantine or free. *)
Definition uvc_stream_close_scan (s : tstate) : tstate :=
  if no_transfers s
  then set_user (set_lives s false (ts_devh_live s) (ts_quarantined s)) StreamClosed
  else set_user (set_lives s (ts_stream_live s) (ts_devh_live s) true) StreamClosed.

(** The end of [uvc_close]: the handle is freed unless a stream is quarantined. *)
Definition close_device (s : tstate) : tstate :=
  if ts_quarantined s then set_user s DeviceClosed
  else set_user (set_lives s (ts_stream_live s) false (ts_quarantined s)) DeviceClosed.

(** ** Polling *)

Section application.
Context (junk : Z) (info : uvc_device_info).

(** The handle as [uvc_stream_get_frame] leaves it when it has the mutex and a frame
    may have arrived. *)
Definition poll_look (memory : bool * bool) (s : tstate) : outcome tstate :=
  '(_, h) ← look_again junk memory info (ts_h s);
  Ret (set_h s h).

(** [uvc_stream_get_frame] up to the wait, which it enters only if there is no frame
    and it may wait. *)
Definition poll_call (timeout_us : Z) (memory : bool * bool) (s : tstate) : outcome tstate :=
  if negb (sh_running (ts_h s)) then Ret s else
  if sh_user_cb (ts_h s) then Ret s else
  if sh_last_polled_seq (ts_h s) <? hd_seq (sh_hold (ts_h s)) then poll_look memory s else
  if timeout_us =? -1 then Ret s else
  Ret (set_user s (PollWaits (negb (timeout_us =? 0)) memory)).

(** [None]: the step is not possible here, or the thread is blocked. *)
Definition user_step (l : user_label) (s : tstate) : option (outcome tstate) :=
  match ts_user s, l with
  | Idle, UCtrl ctrl ret => Some (Ret (stream_ctrl_call ctrl ret s))
  | Idle, UPoll timeout_us memory => Some (poll_call timeout_us memory s)
  | PollWaits _ memory, UWake => Some (poll_look memory (set_user s Idle))
  | PollWaits true _, UTimeout => Some (Ret (set_user s Idle))
  | Idle, UStart format ready count cb => Some (Ret (uvc_stream_start format ready count cb s))
  | Idle, UStop => Some (Ret (uvc_stream_stop false s))
  | Idle, UClose => Some (Ret (uvc_stream_stop true s))
  | Filling i n cb, UAlloc transfer buffer =>
      if decide (i < n)%nat
      then Some (s ← fill_slot i transfer buffer s; Ret (set_user s (Filling (S i) n cb)))
      else None
  | Filling i n cb, UCreate created =>
      if decide (i < n)%nat then None else Some (Ret (start_thread cb created n s))
  | Submitting i n, UGo ret =>
      Some (if decide (i < n)%nat then s ← submit_slot i ret s; Ret (after_submit i n ret s)
            else Ret (set_user s Idle))
  | FreeingRest i n first, UGo _ =>
      Some (if decide (i < n)%nat then s ← free_slot i first s; Ret (set_user s (FreeingRest (S i) n first))
            else Ret (set_user s Idle))
  | Cancelling closing, UGo _ => Some (Ret (set_user s (Waiting 0 closing)))
  | Waiting k closing, UGo _ =>
      Some (Ret (if no_transfers s then stop_waited UVC_SUCCESS closing s else set_user s (Asleep k closing)))
  | Asleep k closing, UWake => Some (Ret (set_user s (Waiting k closing)))
  | Asleep k closing, UTimeout =>
      Some (Ret (if LIBUVC_STREAM_STOP_TIMEOUT_ATTEMPTS <=? k + 1
                 then stop_waited UVC_ERROR_TIMEOUT closing s
                 else set_user s (Waiting (k + 1) closing)))
  | Joining ret closing, UGo _ =>
      match join_thread s with
      | None => None
      | Some o => Some (s ← o; Ret (set_user s (if closing then Scanning else Idle)))
      end
  | Scanning, UGo _ => Some (Ret (uvc_stream_close_scan s))
  | StreamClosed, UCloseDevice => Some (Ret (close_device s))
  | _, _ => None
  end.
End application.

(** ** Interleaving *)

(** A step of the system: libusb completes a transfer; a callback runs a section;
    the user callback's thread runs a round, or wakes up without a broadcast; the
    application runs. *)
Inductive label :=
  | LComplete (t : nat) (status : xfer_status)
  | LCallback (t : nat) (data : xfer_data) (submit_ret : Z)
  | LThread (memory : bool * bool)
  | LSpurious
  | LUser (l : user_label).

Section system.
Context (clock : Z → Z) (is_isight : bool) (junk : Z) (info : uvc_device_info).

(** One look of [_uvc_user_caller] at the stream, with its [last_seq]: leave when it
    no longer runs, wait when there is no other frame, else populate the frame and
    call the user. *)
Definition _uvc_user_caller (last_seq : Z) (memory : bool * bool) (s : tstate) : outcome tstate :=
  _ ← touch_stream s;
  if negb (sh_running (ts_h s)) then Ret (set_thread s (Some ThExited)) else
  if last_seq =? hd_seq (sh_hold (ts_h s)) then Ret (set_thread s (Some (ThWaits last_seq))) else
  h ← _uvc_populate_frame junk memory info (ts_h s);
  Ret (set_thread (set_h s h) (Some (ThChecks (hd_seq (sh_hold h))))).

Definition exec (l : label) (s : tstate) : option (outcome tstate) :=
  match l with
  | LComplete t status =>
      match ts_xfers s !! t with
      | Some InFlight => Some (Ret (set_xfer s t (InCallback (CbEntered status))))
      | _ => None
      end
  | LCallback t data submit_ret =>
      match ts_xfers s !! t with
      | Some (InCallback pc) => Some (_uvc_stream_callback clock is_isight t pc data submit_ret s)
      | _ => None
      end
  | LThread memory =>
      match ts_thread s with
      | Some (ThChecks last_seq) => Some (_uvc_user_caller last_seq memory s)
      | _ => None
      end
  | LSpurious =>
      match ts_thread s with
      | Some (ThWaits last_seq) => Some (Ret (set_thread s (Some (ThChecks last_seq))))
      | _ => None
      end
  | LUser l => user_step junk info l s
  end.
End system.

Abbreviation run_steps clock is_isight junk info := (run_labels (exec clock is_isight junk info)).

(** A stream just opened. *)
Definition opened (h : uvc_stream_handle) : tstate :=
  {| ts_h := h; ts_slots := replicate (Z.to_nat LIBUVC_NUM_TRANSFER_BUFS) None; ts_xfers := [];
     ts_null_bufs := []; ts_user := Idle; ts_thread := None; ts_stream_live := true;
     ts_devh_live := true; ts_quarantined := false |}.
