(* ===== verification/TransfersFacts.v ===== *)
(** * TransfersFacts: no thread reaches freed memory

    The slots name every transfer that libusb or a callback still has, so the scan
    in [uvc_stream_close] sees all of them; the structures are only freed when it
    finds none.  The invariant [tinv] says so for every point a thread can be at, and
    that the thread of the user's callback does not sleep when the application joins
    it. *)

From stdpp Require Import prelude.
From S2P Require Import Prelude Machine Types Handles DescriptorsFacts Negotiation NegotiationFacts Stream StreamFacts DeliveryFacts Start Transfers.

(** ** Slots and transfers *)

(** libusb owns the transfer, or its callback runs. *)
Definition busy (x : xfer) : bool :=
  match x with
  | InFlight | InCallback _ => true
  | _ => false
  end.

Record slots_ok (slots : list (option nat)) (xfers : list xfer) : Prop := {
  so_len : length slots = Z.to_nat LIBUVC_NUM_TRANSFER_BUFS;
  so_slot i t : slots !! i = Some (Some t) → ∃ x, xfers !! t = Some x ∧ (x = Filled ∨ busy x = true);
  so_inj i j t : slots !! i = Some (Some t) → slots !! j = Some (Some t) → i = j;
  so_busy t x : xfers !! t = Some x → busy x = true → ∃ i, slots !! i = Some (Some t);
}.

(** Slots [i] to [n] hold transfers that were never submitted. *)
Definition filled (slots : list (option nat)) (xfers : list xfer) (i n : nat) : Prop :=
  ∀ j, (i ≤ j < n)%nat → ∃ t, slots !! j = Some (Some t) ∧ xfers !! t = Some Filled.

Definition empty_from (slots : list (option nat)) (i : nat) : Prop :=
  ∀ j t, (i ≤ j)%nat → slots !! j ≠ Some (Some t).

(** A transfer in a slot changes hands. *)
Lemma slots_ok_set slots xfers i t y :
  slots_ok slots xfers → slots !! i = Some (Some t) → busy y = true → slots_ok slots (<[t := y]> xfers).
Proof.
  intros [Hl Hs Hj Hb] Hi Hy. split; [done| |done|].
  - intros i' t' Hi'. destruct (decide (t' = t)) as [->|Hne].
    + exists y. split; [|by right]. apply list_lookup_insert_eq.
      destruct (Hs i t Hi) as (x & Hx & _). by apply lookup_lt_Some in Hx.
    + rewrite list_lookup_insert_ne by done. by apply (Hs i').
  - intros t' x Hx Hbx. destruct (decide (t' = t)) as [->|Hne]; [by exists i|].
    rewrite list_lookup_insert_ne in Hx by done. by apply (Hb t' x).
Qed.

(** A slot is cleared and its transfer freed. *)
Lemma slots_ok_clear slots xfers i t :
  slots_ok slots xfers → slots !! i = Some (Some t) →
  slots_ok (<[i := None]> slots) (<[t := FreedXfer]> xfers).
Proof.
  intros [Hl Hs Hj Hb] Hi.
  assert (∀ i' t', <[i := None]> slots !! i' = Some (Some t') → slots !! i' = Some (Some t') ∧ i' ≠ i) as Hback.
  { intros i' t' H'. destruct (decide (i' = i)) as [->|Hne].
    - rewrite list_lookup_insert_eq in H' by (by apply lookup_lt_Some in Hi). done.
    - by rewrite list_lookup_insert_ne in H' by done. }
  split; [by rewrite length_insert| | |].
  - intros i' t' [Hi' Hne]%Hback. destruct (decide (t' = t)) as [->|Ht]; [by destruct Hne; apply (Hj _ _ t)|].
    rewrite list_lookup_insert_ne by done. by apply (Hs i').
  - intros i1 i2 t' [H1 _]%Hback [H2 _]%Hback. by apply (Hj i1 i2 t').
  - intros t' x Hx Hbx. destruct (decide (t' = t)) as [->|Hne].
    { rewrite list_lookup_insert_eq in Hx; [by injection Hx as <-|].
      destruct (Hs i t Hi) as (y & Hy & _). by apply lookup_lt_Some in Hy. }
    rewrite list_lookup_insert_ne in Hx by done. destruct (Hb t' x Hx Hbx) as (i' & Hi'). exists i'.
    rewrite list_lookup_insert_ne; [done|]. intros ->. congruence.
Qed.

(** An empty slot is filled with a new transfer. *)
Lemma slots_ok_fill slots xfers i :
  slots_ok slots xfers → (i < length slots)%nat → (∀ t, slots !! i ≠ Some (Some t)) →
  slots_ok (<[i := Some (length xfers)]> slots) (xfers ++ [Filled]).
Proof.
  intros [Hl Hs Hj Hb] Hi Hnone.
  assert (∀ i' t', <[i := Some (length xfers)]> slots !! i' = Some (Some t') →
    (i' = i ∧ t' = length xfers) ∨ (slots !! i' = Some (Some t') ∧ (t' < length xfers)%nat)) as Hback.
  { intros i' t' H'. destruct (decide (i' = i)) as [->|Hne].
    - rewrite list_lookup_insert_eq in H' by done. left. by injection H' as <-.
    - rewrite list_lookup_insert_ne in H' by done. right. split; [done|].
      destruct (Hs i' t' H') as (x & Hx & _). by apply lookup_lt_Some in Hx. }
  split; [by rewrite length_insert| | |].
  - intros i' t' [[-> ->]|[Hi' Ht]]%Hback.
    + exists Filled. split; [by apply list_lookup_middle|by left].
    + rewrite lookup_app_l by done. by apply (Hs i').
  - intros i1 i2 t' [[-> ->]|[H1 Ht1]]%Hback [[-> Ht2]|[H2 Ht2]]%Hback; try done; try lia. by apply (Hj i1 i2 t').
  - intros t' x Hx Hbx. destruct (decide (t' < length xfers)%nat) as [Hlt|Hge].
    + rewrite lookup_app_l in Hx by done. destruct (Hb t' x Hx Hbx) as (i' & Hi'). exists i'.
      rewrite list_lookup_insert_ne; [done|]. intros ->. by apply (Hnone t').
    + rewrite lookup_app_r in Hx by lia.
      destruct (t' - length xfers)%nat; [injection Hx as <-; done|done].
Qed.

Lemma filled_set slots xfers i n t x y :
  filled slots xfers i n → xfers !! t = Some x → busy x = true → filled slots (<[t := y]> xfers) i n.
Proof.
  intros Hf Hx Hb j Hj. destruct (Hf j Hj) as (t' & Hs & Ht'). exists t'. split; [done|].
  rewrite list_lookup_insert_ne; [done|]. intros ->. rewrite Hx in Ht'. by injection Ht' as ->.
Qed.

Lemma filled_clear slots xfers i n k t x :
  filled slots xfers i n → slots !! k = Some (Some t) → xfers !! t = Some x → busy x = true →
  filled (<[k := None]> slots) (<[t := FreedXfer]> xfers) i n.
Proof.
  intros Hf Hk Hx Hb j Hj. destruct (Hf j Hj) as (t' & Hs & Ht'). exists t'.
  assert (t' ≠ t) by (intros ->; rewrite Hx in Ht'; injection Ht' as ->; done).
  rewrite !list_lookup_insert_ne; [done|done|]. intros ->. congruence.
Qed.

Lemma empty_from_clear slots i k : empty_from slots i → empty_from (<[k := None]> slots) i.
Proof.
  intros He j t Hj Hs. destruct (decide (j = k)) as [->|Hne].
  - destruct (decide (k < length slots)%nat).
    + by rewrite list_lookup_insert_eq in Hs by done.
    + rewrite list_insert_ge in Hs by lia. by apply (He k t).
  - rewrite list_lookup_insert_ne in Hs by done. by apply (He j t).
Qed.

Lemma no_transfers_empty s : no_transfers s = true ↔ empty_from (ts_slots s) 0.
Proof.
  unfold no_transfers. rewrite <- Is_true_true, forallb_True, Forall_lookup. split.
  - intros H j t _ Hj. by apply H in Hj.
  - intros H j [t|] Hj; [|done]. by apply (H j t) in Hj; [|lia].
Qed.

(** ** The invariant *)

Definition open_pc (pc : user_pc) : bool :=
  match pc with
  | StreamClosed | DeviceClosed => false
  | _ => true
  end.

(** What the application relies on at each point. *)
Definition user_ok (s : tstate) : Prop :=
  match ts_user s with
  | PollWaits _ memory => memory = enough_memory ∧ sh_running (ts_h s) = true ∧ sh_user_cb (ts_h s) = false
  | Filling i n _ => (i ≤ n ≤ 100)%nat ∧ filled (ts_slots s) (ts_xfers s) 0 i
                     ∧ empty_from (ts_slots s) i ∧ sh_running (ts_h s) = true
  | Submitting i n => (n ≤ 100)%nat ∧ filled (ts_slots s) (ts_xfers s) i n ∧ sh_running (ts_h s) = true
  | FreeingRest i n _ => (n ≤ 100)%nat ∧ filled (ts_slots s) (ts_xfers s) i n ∧ sh_running (ts_h s) = true
  | Cancelling _ => sh_running (ts_h s) = false
  | Waiting k _ | Asleep k _ => sh_running (ts_h s) = false ∧ 0 ≤ k < LIBUVC_STREAM_STOP_TIMEOUT_ATTEMPTS
  | Joining ret _ => sh_running (ts_h s) = false
                     ∧ (ret = UVC_SUCCESS ∧ empty_from (ts_slots s) 0 ∨ ret = UVC_ERROR_TIMEOUT)
                     ∧ ∀ n, ts_thread s ≠ Some (ThWaits n)
  | _ => True
  end.

(** There is a thread of the user's callback that has not been joined. *)
Definition thread_due (s : tstate) : bool :=
  sh_user_cb (ts_h s)
  && match ts_user s with
     | Idle | PollWaits _ _ => sh_running (ts_h s)
     | Filling _ _ _ | Scanning | StreamClosed | DeviceClosed => false
     | _ => true
     end.

Section invariant.
Context (info : uvc_device_info).

(** The device has the frame a control block names. *)
Definition known_frame (ctrl : uvc_stream_ctrl) : Prop :=
  ∃ format desc, uvc_find_frame_desc info (sc_bFormatIndex ctrl) (sc_bFrameIndex ctrl) = Some (format, desc)
                 ∧ frame_wf desc.

(** The buffers are as the payload code needs them, and the frame can be
    populated from them. *)
Definition stream_good (h : uvc_stream_handle) : Prop :=
  stream_inv h ∧ frame_ok (sh_frame h) ∧ known_frame (sh_cur_ctrl h).

Record tinv (s : tstate) : Prop := {
  ti_slots : slots_ok (ts_slots s) (ts_xfers s);
  ti_open : open_pc (ts_user s) = true →
    ts_stream_live s = true ∧ ts_devh_live s = true ∧ ts_quarantined s = false;
  ti_stream : ts_stream_live s = false → empty_from (ts_slots s) 0;
  ti_devh : ts_devh_live s = false → empty_from (ts_slots s) 0;
  ti_closed : ts_user s = StreamClosed → ts_quarantined s = false → ts_stream_live s = false;
  ti_user : user_ok s;
  ti_thread : is_Some (ts_thread s) ↔ thread_due s = true;
  ti_bufs : ts_null_bufs s = [];
  ti_good : stream_good (ts_h s);
}.

(** Data libusb can hand to a callback. *)
Definition payload_ok (payload : bytes) : Prop := bytes_ok payload ∧ len payload < 2 ^ 32.

Definition data_ok (data : xfer_data) : Prop :=
  match data with
  | BulkData payload => payload_ok payload
  | IsoData packets => Forall (λ p, payload_ok p.2) packets
  end.

(** The labels the theorems are about: data are bytes; memory does not run out and
    the thread can be created; a stream is not started while transfers of an earlier
    start are left in its slots, and not configured for another size of frame or a
    frame the device does not have. *)
Definition label_ok (l : label) (s : tstate) : Prop :=
  match l with
  | LCallback _ data _ => data_ok data
  | LThread memory | LUser (UPoll _ memory) => memory = enough_memory
  | LUser (UAlloc transfer buffer) => transfer = true ∧ buffer = true
  | LUser (UCreate created) => created = true
  | LUser (UCtrl ctrl _) =>
      sc_dwMaxVideoFrameSize ctrl = sc_dwMaxVideoFrameSize (sh_cur_ctrl (ts_h s)) ∧ known_frame ctrl
  | LUser (UStart _ _ _ _) => sh_running (ts_h s) = true ∨ no_transfers s = true
  | _ => True
  end.

(** *** The event thread *)

Context (clock : Z → Z) (is_isight : bool) (junk : Z).

(** What the buffers and the other threads need of a handle. *)
Definition same_flow (h h' : uvc_stream_handle) : Prop :=
  stream_inv h' ∧ sh_running h' = sh_running h ∧ sh_user_cb h' = sh_user_cb h
  ∧ sh_cur_ctrl h' = sh_cur_ctrl h ∧ sh_frame h' = sh_frame h.

Lemma same_flow_good h h' : stream_good h → same_flow h h' → stream_good h'.
Proof. intros (_ & Hf & Hd) (Hi & _ & _ & Hc & Hf'). unfold stream_good. by rewrite Hc, Hf'. Qed.

Lemma payload_step h payload :
  stream_inv h → payload_ok payload →
  returns (_uvc_process_payload clock is_isight h payload (len payload)) (λ '(h', _), same_flow h h').
Proof.
  intros Hh [Hb Hl]. pose proof (len_nonneg payload).
  pose proof (payload_inv clock is_isight h payload (len payload) Hh Hb ltac:(lia) Hl) as H1.
  pose proof (payload_keeps clock is_isight h payload (len payload)) as H2.
  destruct (_uvc_process_payload _ _ _ _ _) as [[h' p]|]; [|done].
  destruct H1 as (? & ? & _), H2 as (? & ? & ? & _). by split_and!.
Qed.

Lemma packets_step packets h :
  stream_inv h → Forall (λ p, payload_ok p.2) packets →
  returns (process_packets clock is_isight h packets) (λ '(h', _), same_flow h h').
Proof.
  intros Hh Hp. revert h Hh. induction Hp as [|[status payload] packets Hp _ IH]; intros h Hh; [done|].
  cbn [process_packets]. destruct (nz status).
  - eapply returns_mono; [apply IH|done].
    by destruct Hh as (? & (? & ? & ? & ? & ?) & ?); split_and!.
  - rewrite returns_bind. eapply returns_mono; [by apply payload_step|].
    intros [h1 p] (H1 & H2 & H3 & H4 & H5). rewrite returns_bind. eapply returns_mono; [by apply IH|].
    intros [h' p'] (? & ? & ? & ? & ?). cbn [returns]. split_and!; congruence.
Qed.

Lemma completed_step h data :
  stream_inv h → data_ok data →
  returns (process_completed clock is_isight h data) (λ '(h', _), same_flow h h').
Proof.
  intros Hh Hd. destruct data as [payload|packets]; cbn [process_completed data_ok] in *;
    [by apply payload_step|by apply packets_step].
Qed.

(** The thread of the user's callback moves; it only waits while the stream runs. *)
Lemma tinv_set_thread s th :
  tinv s → is_Some (ts_thread s) → (∀ n, th = ThWaits n → sh_running (ts_h s) = true) →
  tinv (set_thread s (Some th)).
Proof.
  intros [Hs Ho Hst Hd Hc Hu Ht Hb Hg] Hsome Hw. split; try done.
  - unfold user_ok in *. cbn [set_thread ts_h ts_user ts_slots ts_xfers ts_thread] in *.
    destruct (ts_user s); try done. destruct Hu as (Hr & Hret & _). split_and!; [done..|].
    intros n [= ->]. rewrite (Hw n eq_refl) in Hr. done.
  - cbn [set_thread ts_thread]. by rewrite <- (proj1 Ht Hsome) at 1.
Qed.

Lemma tinv_broadcast s : tinv s → tinv (broadcast s).
Proof.
  intros Hi. unfold broadcast. destruct (ts_thread s) as [[| |]|] eqn:E; try done.
  apply tinv_set_thread; [done|by rewrite E|done].
Qed.

Lemma tinv_announce pubs s : tinv s → tinv (announce pubs s).
Proof. unfold announce. destruct (existsb fst pubs); auto using tinv_broadcast. Qed.

(** A busy transfer changes hands, the handle's buffers may have changed. *)
Lemma tinv_set_busy s t x y h :
  tinv s → ts_xfers s !! t = Some x → busy x = true → busy y = true → same_flow (ts_h s) h →
  tinv (set_xfer (set_h s h) t y).
Proof.
  intros [Hs Ho Hst Hd Hc Hu Ht Hn Hb] Hx Hbx Hby Hf. pose proof Hf as (_ & Hr & Hcb & _).
  destruct (so_busy _ _ Hs t x Hx Hbx) as (i & Hi').
  split; cbn [set_xfer set_slots set_h ts_h ts_slots ts_xfers ts_user ts_thread ts_stream_live ts_devh_live ts_quarantined]; try done.
  - by eapply slots_ok_set.
  - unfold user_ok in *. cbn [set_xfer set_slots set_h ts_h ts_slots ts_xfers ts_user ts_thread].
    rewrite Hr, ?Hcb. destruct (ts_user s); try done; naive_solver eauto using filled_set.
  - unfold thread_due in *. cbn [set_xfer set_slots set_h ts_h ts_user]. by rewrite Hr, Hcb.
  - by eapply same_flow_good.
Qed.

Lemma set_h_same s : set_h s (ts_h s) = s.
Proof. by destruct s. Qed.

Lemma same_flow_refl s : tinv s → same_flow (ts_h s) (ts_h s).
Proof. intros H. by split; [apply ti_good, H|]. Qed.

(** A busy transfer's slot is cleared and the transfer freed. *)
Lemma tinv_mark_deleted s t x :
  tinv s → ts_xfers s !! t = Some x → busy x = true → tinv (mark_deleted t s).
Proof.
  intros [Hs Ho Hst Hd Hc Hu Ht Hn Hb] Hx Hbx. unfold mark_deleted, slot_of. apply tinv_broadcast.
  destruct (so_busy _ _ Hs t x Hx Hbx) as (i & Hi).
  destruct (list_find (λ o, o = Some t) (ts_slots s)) as [[k o]|] eqn:E; last first.
  { apply list_find_None in E. apply (Forall_lookup_1 _ _ i (Some t)) in E; done. }
  apply list_find_Some in E as (Hk & -> & _). cbn [fmap option_fmap option_map fst].
  split; cbn [set_slots ts_h ts_slots ts_xfers ts_user ts_thread ts_stream_live ts_devh_live ts_quarantined]; try done.
  - by apply slots_ok_clear.
  - intros H. by apply empty_from_clear, Hst.
  - intros H. by apply empty_from_clear, Hd.
  - unfold user_ok in *. cbn [set_slots ts_h ts_slots ts_xfers ts_user ts_thread].
    destruct (ts_user s); try done; naive_solver eauto using filled_clear, empty_from_clear.
Qed.

(** While a transfer is busy both structures are allocated. *)
Lemma busy_live s t x :
  tinv s → ts_xfers s !! t = Some x → busy x = true → ts_stream_live s = true ∧ ts_devh_live s = true.
Proof.
  intros [Hs Ho Hst Hd _ _ _ _ _] Hx Hb. destruct (so_busy _ _ Hs t x Hx Hb) as (i & Hi). split.
  - destruct (ts_stream_live s); [done|]. by destruct (Hst eq_refl i t ltac:(lia)).
  - destruct (ts_devh_live s); [done|]. by destruct (Hd eq_refl i t ltac:(lia)).
Qed.

Lemma callback_step t pc data ret s :
  tinv s → ts_xfers s !! t = Some (InCallback pc) → data_ok data →
  returns (_uvc_stream_callback clock is_isight t pc data ret s) tinv.
Proof.
  intros Hi Hx Hd. destruct (busy_live s t _ Hi Hx eq_refl) as [Hsl Hdl].
  assert (∀ y, busy y = true → tinv (set_xfer s t y)) as Hset.
  { intros y Hy. rewrite <- (set_h_same s) at 1. by eapply (tinv_set_busy s t (InCallback pc)); [..|apply same_flow_refl]. }
  unfold _uvc_stream_callback, touch_stream, touch_devh, touch_buffer. rewrite Hsl, Hdl, (ti_bufs _ Hi).
  rewrite bool_decide_false by apply not_elem_of_nil. cbn [mbind outcome_bind andb].
  destruct pc as [[]| | |]; try (by apply Hset).
  - rewrite returns_bind. eapply returns_mono; [apply completed_step; [apply ti_good, Hi|done]|].
    intros [h pubs] Hh. cbn [returns]. apply tinv_announce. by eapply tinv_set_busy.
  - cbn [returns]. apply Hset. by destruct (ret <? 0).
  - cbn [returns]. by eapply tinv_mark_deleted.
Qed.

(** *** The user callback's thread *)

(** A frame is populated, by the thread or by a poll. *)
Lemma tinv_populated s :
  tinv s → ts_stream_live s = true →
  returns (_uvc_populate_frame junk enough_memory info (ts_h s)) (λ h,
    hd_seq (sh_hold h) = hd_seq (sh_hold (ts_h s)) ∧ sh_running h = sh_running (ts_h s)
    ∧ ∀ n, tinv (set_h s h) ∧ tinv (set_h s (set_polled h n))).
Proof.
  intros Hi Hlive. destruct (ti_good _ Hi) as (Hinv & Hf & format & desc & Hdesc & Hwf).
  eapply returns_mono; [by apply (populate_frame_run junk info _ _ format desc (proj2 (proj2 Hinv)))|].
  intros h (Hh & Hf' & _). rewrite Hh. split_and!; [done..|]. intros n.
  destruct Hi as [? ? ? ? ? Hu ? ? ?]. split; (split; try done; split_and!; [done|done|by exists format, desc]).
Qed.

Lemma thread_step last_seq s :
  tinv s → ts_thread s = Some (ThChecks last_seq) →
  returns (_uvc_user_caller junk info last_seq enough_memory s) tinv.
Proof.
  intros Hi Hl. assert (is_Some (ts_thread s)) as Hsome by (by rewrite Hl).
  pose proof (proj1 (ti_thread _ Hi) Hsome) as Ht.
  assert (ts_stream_live s = true) as Hlive.
  { apply (ti_open _ Hi). unfold thread_due in Ht. by destruct (sh_user_cb _), (ts_user s). }
  unfold _uvc_user_caller, touch_stream. rewrite Hlive. cbn [mbind outcome_bind].
  destruct (sh_running (ts_h s)) eqn:Er; cbn [negb]; [|by apply tinv_set_thread].
  destruct (_ =? _); [by apply tinv_set_thread|]. rewrite returns_bind.
  eapply returns_mono; [by apply tinv_populated|]. intros h (_ & _ & Hh). cbn [returns].
  destruct (Hh 0) as [Hh0 _]. by apply tinv_set_thread.
Qed.

(** *** The application *)

Lemma num_transfer_bufs_range n : 2 ≤ num_transfer_bufs n ≤ 100.
Proof. unfold num_transfer_bufs, LIBUVC_NUM_TRANSFER_BUFS. repeat case_match; lia. Qed.

(** The application moves on without touching anything else. *)
Lemma tinv_goto s pc :
  tinv s → open_pc (ts_user s) = true → open_pc pc = true → user_ok (set_user s pc) →
  thread_due (set_user s pc) = thread_due s → tinv (set_user s pc).
Proof.
  intros [? Ho ? ? ? ? Ht ? ?] Ho1 Ho2 Hu Ht'. split; try done; cbn [set_user ts_user ts_thread]; auto.
  - by intros ->.
  - by rewrite Ht'.
Qed.

Lemma no_thread s : tinv s → thread_due s = false → ts_thread s = None.
Proof.
  intros Hi Hd. destruct (ts_thread s) eqn:E; [|done]. assert (thread_due s = true); [|congruence].
  apply (ti_thread _ Hi). by rewrite E.
Qed.

(** No thread has to be joined where [thread_due] says so. *)
Lemma thread_gone s s' :
  ts_thread s' = ts_thread s → ts_thread s = None → thread_due s' = false →
  is_Some (ts_thread s') ↔ thread_due s' = true.
Proof. intros -> -> ->. split; [by intros []|done]. Qed.

Lemma start_reset_good h b : stream_good h → stream_good (set_running (set_format (start_reset h) b) true).
Proof. intros ((? & (? & ? & ? & ? & ?) & ?) & ? & ?). by split_and!. Qed.

Lemma start_inv format ready count cb s :
  tinv s → ts_user s = Idle → sh_running (ts_h s) = true ∨ no_transfers s = true →
  tinv (uvc_stream_start format ready count cb s).
Proof.
  intros Hi Hpc Hok. unfold uvc_stream_start. destruct (sh_running (ts_h s)) eqn:Er; [done|].
  destruct Hok as [|He%no_transfers_empty]; [done|].
  assert (ts_thread s = None) as Hnone.
  { apply no_thread; [done|]. unfold thread_due. rewrite Hpc, Er. apply andb_false_r. }
  destruct Hi as [? Ho ? ? ? ? ? ? Hg]. rewrite Hpc in Ho. specialize (Ho eq_refl).
  pose proof (start_reset_good _ format Hg) as ((? & ? & ?) & ? & ?).
  pose proof (num_transfer_bufs_range count).
  assert (∀ pc h, sh_user_cb h && (match pc with Idle => sh_running h | Filling _ _ _ => false | _ => true end) = false →
    pc = Idle ∨ (∃ i n cb, pc = Filling i n cb) → is_Some (ts_thread s) ↔ thread_due (set_user (set_h s h) pc) = true) as Hth.
  { intros pc h Hd Hor. apply (thread_gone s (set_user (set_h s h) pc)); [done..|].
    unfold thread_due. cbn [set_user set_h ts_user ts_h]. by destruct Hor as [->|(? & ? & ? & ->)]. }
  destruct ready.
  - split; try done; cbn [set_user set_h ts_user ts_thread].
    + unfold user_ok; cbn [set_user set_h ts_h ts_user ts_slots ts_xfers ts_thread].
      split_and!; try done; try lia. intros j Hj. lia.
    + apply Hth; [by rewrite andb_false_r|by right; eauto].
  - split; try done; cbn [set_user set_h ts_user ts_thread]; rewrite ?Hpc; try done.
    + unfold user_ok; cbn [set_h ts_user]. by rewrite Hpc.
    + pose proof (Hth Idle (set_running (set_format (start_reset (ts_h s)) format) false)) as Hi'.
      unfold thread_due in *. cbn [set_user set_h ts_user ts_h] in *. rewrite Hpc. apply Hi'; [apply andb_false_r|by left].
Qed.

Lemma stop_inv closing s : tinv s → ts_user s = Idle → tinv (uvc_stream_stop closing s).
Proof.
  intros Hi Hpc. unfold uvc_stream_stop. destruct (sh_running (ts_h s)) eqn:Er.
  - destruct Hi as [? Ho ? ? ? ? Ht ? Hg]. rewrite Hpc in Ho. specialize (Ho eq_refl).
    split; try done. revert Ht. unfold thread_due. rewrite Hpc, Er. done.
  - destruct closing; [|done]. apply tinv_goto; try done; [by rewrite Hpc|].
    unfold thread_due. rewrite Hpc, Er. done.
Qed.

(** A stream is configured again for frames of the same size. *)
Lemma ctrl_inv ctrl ret s :
  tinv s → ts_user s = Idle → label_ok (LUser (UCtrl ctrl ret)) s → tinv (stream_ctrl_call ctrl ret s).
Proof.
  intros Hi Hpc [Hsize Hk]. unfold stream_ctrl_call.
  destruct (negb _); [done|]. destruct (sh_running (ts_h s)) eqn:Er; [done|]. destruct (negb _); [done|].
  destruct Hi as [? ? ? ? ? Hu Ht ? ((Hfit & Hw & Hh) & Hf & _)]. split; try done.
  split; [|done]. unfold stream_inv. cbn [set_h ts_h set_cur_ctrl sh_cur_ctrl sh_working sh_hold] in *. by rewrite Hsize.
Qed.

(** A poll takes the frame if there is another one. *)
Lemma poll_look_inv s :
  tinv s → open_pc (ts_user s) = true → returns (poll_look junk info enough_memory s) tinv.
Proof.
  intros Hi Ho. unfold poll_look, look_again, take_frame. rewrite returns_bind.
  destruct (_ <? _); [|by rewrite <- (set_h_same s) in Hi].
  rewrite returns_bind. eapply returns_mono; [apply tinv_populated; [done|by apply (ti_open _ Hi)]|].
  intros h (_ & _ & Hh). cbn [returns]. apply Hh.
Qed.

Lemma poll_inv timeout_us s :
  tinv s → ts_user s = Idle → returns (poll_call junk info timeout_us enough_memory s) tinv.
Proof.
  intros Hi Hpc. unfold poll_call. destruct (sh_running (ts_h s)) eqn:Er; [|done].
  destruct (sh_user_cb (ts_h s)) eqn:Ec; [done|]. cbn [negb].
  destruct (_ <? _); [apply poll_look_inv; [done|by rewrite Hpc]|]. destruct (_ =? _); [done|].
  apply tinv_goto; try done; [by rewrite Hpc|]. unfold thread_due. cbn [set_user ts_h]. by rewrite Ec.
Qed.

Lemma fill_inv i n cb s :
  tinv s → ts_user s = Filling i n cb → (i < n)%nat →
  returns (fill_slot i true true s) (λ s', tinv (set_user s' (Filling (S i) n cb))).
Proof.
  intros [Hs Ho ? ? ? Hu Ht ? ?] Hpc Hin. unfold user_ok in Hu. rewrite Hpc in Hu, Ho. specialize (Ho eq_refl).
  destruct Hu as (Hn & Hf & He & Hr). unfold fill_slot.
  rewrite decide_True by (rewrite (so_len _ _ Hs); unfold LIBUVC_NUM_TRANSFER_BUFS; lia).
  destruct Ho as (Hsl & Hdl & Hq). cbn [negb returns].
  split; cbn [set_user set_slots ts_h ts_slots ts_xfers ts_null_bufs ts_user ts_thread ts_stream_live ts_devh_live ts_quarantined];
    try done; try congruence.
  - apply slots_ok_fill; [done| |by intros t; apply He].
    rewrite (so_len _ _ Hs); unfold LIBUVC_NUM_TRANSFER_BUFS; lia.
  - unfold user_ok. cbn [set_user set_slots ts_h ts_slots ts_xfers ts_user ts_thread]. split_and!; try done; try lia.
    + intros j Hj. destruct (decide (j = i)) as [->|Hne].
      * exists (length (ts_xfers s)). rewrite list_lookup_insert_eq by (rewrite (so_len _ _ Hs); unfold LIBUVC_NUM_TRANSFER_BUFS; lia).
        split; [done|]. by apply list_lookup_middle.
      * destruct (Hf j) as (t & Hj1 & Hj2); [lia|]. exists t. rewrite list_lookup_insert_ne by done.
        split; [done|]. by apply lookup_app_l_Some.
    + intros j t Hj. rewrite list_lookup_insert_ne by lia. apply He. lia.
  - revert Ht. unfold thread_due. cbn [set_user set_slots ts_h ts_user]. by rewrite Hpc.
Qed.

Lemma start_thread_inv n cb s :
  tinv s → ts_user s = Filling n n cb → tinv (start_thread cb true n s).
Proof.
  intros [Hs Ho ? ? ? Hu Ht ? Hg] Hpc. unfold user_ok in Hu. rewrite Hpc in Hu, Ho. specialize (Ho eq_refl).
  destruct Hu as (Hn & Hf & He & Hr). unfold start_thread. unfold thread_due in Ht. rewrite Hpc, andb_false_r in Ht.
  assert (ts_thread s = None) as Hnone by (destruct (ts_thread s); [naive_solver|done]).
  destruct cb; split; try done; unfold user_ok, thread_due;
    cbn [andb set_user set_thread set_h set_user_cb ts_h ts_slots ts_xfers ts_user ts_thread sh_user_cb sh_running];
    try (split_and!; [simpl; lia|done..]); rewrite ?Hnone; split; done || by intros [].
Qed.

(** One slot of several that hold unsubmitted transfers is dealt with. *)
Lemma filled_rest slots xfers i n t y :
  slots_ok slots xfers → filled slots xfers i n → slots !! i = Some (Some t) →
  filled slots (<[t := y]> xfers) (S i) n ∧ filled (<[i := None]> slots) (<[t := y]> xfers) (S i) n.
Proof.
  intros Hs Hf Hi. split; intros j Hj; destruct (Hf j) as (t' & Hj1 & Hj2); [lia| |lia|]; exists t'.
  all: assert (t' ≠ t) by (intros ->; assert (i = j) by (by eapply (so_inj _ _ Hs)); lia).
  all: rewrite !list_lookup_insert_ne by (done || lia); done.
Qed.

Lemma submit_inv i n ret s :
  tinv s → ts_user s = Submitting i n → (i < n)%nat →
  returns (submit_slot i ret s) (λ s', tinv (after_submit i n ret s')).
Proof.
  intros Hi Hpc Hin. pose proof (ti_user _ Hi) as Hu. unfold user_ok in Hu. rewrite Hpc in Hu.
  destruct Hu as (Hn & Hf & Hr). destruct (Hf i ltac:(lia)) as (t & Ht1 & Ht2).
  unfold submit_slot, after_submit. rewrite Ht1. cbn [returns].
  destruct (ret =? UVC_SUCCESS); last first.
  { case_decide; subst; (apply tinv_goto; [done|by rewrite Hpc|done|done|]); unfold thread_due; by rewrite Hpc. }
  destruct (filled_rest _ _ i n t InFlight (ti_slots _ Hi) Hf Ht1) as [Hrest _].
  destruct Hi as [Hs Ho ? ? ? Hu Hth ? ?]. rewrite Hpc in Ho. destruct (Ho eq_refl) as (Hsl & Hdl & Hq).
  unfold thread_due in Hth. rewrite Hpc in Hth.
  case_decide; split; unfold thread_due;
    cbn [set_user set_xfer set_slots ts_h ts_slots ts_xfers ts_null_bufs ts_user ts_thread ts_stream_live ts_devh_live ts_quarantined];
    rewrite ?Hr; try done; try congruence; by eapply slots_ok_set.
Qed.

Lemma free_inv i n first s :
  tinv s → ts_user s = FreeingRest i n first → (i < n)%nat →
  returns (free_slot i first s) (λ s', tinv (set_user s' (FreeingRest (S i) n first))).
Proof.
  intros Hi Hpc Hin. pose proof (ti_user _ Hi) as Hu. unfold user_ok in Hu. rewrite Hpc in Hu.
  destruct Hu as (Hn & Hf & Hr). destruct (Hf i ltac:(lia)) as (t & Ht1 & Ht2).
  unfold free_slot. rewrite Ht1. cbn [returns].
  destruct (filled_rest _ _ i n t FreedXfer (ti_slots _ Hi) Hf Ht1) as [_ Hrest].
  destruct Hi as [Hs Ho ? ? ? Hu Hth ? ?]. rewrite Hpc in Ho. destruct (Ho eq_refl) as (Hsl & Hdl & Hq).
  unfold thread_due in Hth. rewrite Hpc in Hth.
  split; unfold thread_due;
    cbn [set_user set_slots ts_h ts_slots ts_xfers ts_null_bufs ts_user ts_thread ts_stream_live ts_devh_live ts_quarantined];
    try done; try congruence; by apply slots_ok_clear.
Qed.

Lemma close_inv s : tinv s → ts_user s = Scanning → tinv (uvc_stream_close_scan s).
Proof.
  intros [Hs Ho ? ? ? Hu Hth ? ?] Hpc. rewrite Hpc in Ho. destruct (Ho eq_refl) as (Hsl & Hdl & Hq).
  unfold thread_due in Hth. rewrite Hpc in Hth.
  unfold uvc_stream_close_scan. destruct (no_transfers s) eqn:E; [apply no_transfers_empty in E|]; by split.
Qed.

Lemma close_device_inv s : tinv s → ts_user s = StreamClosed → tinv (close_device s).
Proof.
  intros [Hs Ho Hst Hd Hc Hu Hth ? ?] Hpc. unfold close_device. unfold thread_due in Hth. rewrite Hpc in Hth.
  destruct (ts_quarantined s) eqn:Eq; split; try done. intros _. by apply Hst, Hc.
Qed.

(** The stop has waited long enough, or has nothing to wait for. *)
Lemma stop_waited_inv ret closing s :
  tinv s → open_pc (ts_user s) = true → sh_running (ts_h s) = false →
  thread_due (set_user s (Joining ret closing)) = thread_due s →
  ret = UVC_SUCCESS ∧ empty_from (ts_slots s) 0 ∨ ret = UVC_ERROR_TIMEOUT →
  tinv (stop_waited ret closing s).
Proof.
  intros Hi Ho Hr Hth Hret. pose proof (tinv_broadcast s Hi) as Hb. unfold stop_waited.
  assert (∀ n, ts_thread (broadcast s) ≠ Some (ThWaits n)) as Hawake.
  { unfold broadcast. intros n Hn. destruct (ts_thread s) as [[]|] eqn:E; simpl in Hn; congruence. }
  assert (ts_user (broadcast s) = ts_user s ∧ ts_h (broadcast s) = ts_h s ∧ ts_slots (broadcast s) = ts_slots s)
    as (H1 & H2 & H3) by (unfold broadcast; repeat case_match; done).
  apply tinv_goto; [done|by rewrite H1|done| |].
  - unfold user_ok. cbn [set_user ts_user ts_h ts_slots ts_thread]. by rewrite H2, H3.
  - unfold thread_due in *. cbn [set_user ts_h ts_user] in *. by rewrite H1, H2.
Qed.

Lemma waiting_inv k closing s : tinv s → ts_user s = Waiting k closing →
  tinv (if no_transfers s then stop_waited UVC_SUCCESS closing s else set_user s (Asleep k closing)).
Proof.
  intros Hi Hpc. pose proof (ti_user _ Hi) as Hu. unfold user_ok in Hu. rewrite Hpc in Hu.
  destruct (no_transfers s) eqn:E.
  - apply no_transfers_empty in E. apply stop_waited_inv; [done|by rewrite Hpc|apply Hu| |by left].
    unfold thread_due. by rewrite Hpc.
  - apply tinv_goto; [done|by rewrite Hpc|done|done|]. unfold thread_due. by rewrite Hpc.
Qed.

Lemma asleep_inv k closing s : tinv s → ts_user s = Asleep k closing →
  tinv (set_user s (Waiting k closing))
  ∧ tinv (if LIBUVC_STREAM_STOP_TIMEOUT_ATTEMPTS <=? k + 1 then stop_waited UVC_ERROR_TIMEOUT closing s
          else set_user s (Waiting (k + 1) closing)).
Proof.
  intros Hi Hpc. pose proof (ti_user _ Hi) as Hu. unfold user_ok in Hu. rewrite Hpc in Hu.
  destruct Hu as [Hr Hk].
  assert (∀ k', 0 ≤ k' < LIBUVC_STREAM_STOP_TIMEOUT_ATTEMPTS → tinv (set_user s (Waiting k' closing))) as Hw.
  { intros k' Hk'. apply tinv_goto; [done|by rewrite Hpc|done|done|]. unfold thread_due. by rewrite Hpc. }
  split; [by apply Hw|]. destruct (_ <=? _) eqn:E; [|apply Hw; lia].
  apply stop_waited_inv; [done|by rewrite Hpc|done| |by right]. unfold thread_due. by rewrite Hpc.
Qed.

(** The join finds a thread to join whenever there is a callback. *)
Lemma joining_inv ret closing s o :
  tinv s → ts_user s = Joining ret closing → join_thread s = Some o →
  returns o (λ s', tinv (set_user s' (if closing then Scanning else Idle))).
Proof.
  intros Hi Hpc. pose proof (ti_user _ Hi) as Hu. unfold user_ok in Hu. rewrite Hpc in Hu. destruct Hu as (Hr & _).
  pose proof (ti_thread _ Hi) as Ht. unfold thread_due in Ht. rewrite Hpc, andb_true_r in Ht. unfold join_thread.
  destruct (sh_user_cb (ts_h s)) eqn:Ec.
  - destruct (ts_thread s) as [[]|] eqn:Et; try done; [|by destruct (proj2 Ht eq_refl)].
    intros [= <-]. destruct Hi as [? Ho ? ? ? ? ? ? ?]. rewrite Hpc in Ho. destruct (Ho eq_refl) as (? & ? & ?).
    destruct closing; (split; try done); unfold thread_due; simpl; rewrite ?Hr, ?andb_false_r; split; done || by intros [].
  - intros [= <-]. destruct closing; (apply tinv_goto; [done|by rewrite Hpc|done|done|]);
      unfold thread_due; simpl; by rewrite Ec.
Qed.

Lemma user_step_inv l s o :
  tinv s → label_ok (LUser l) s → user_step junk info l s = Some o → returns o tinv.
Proof.
  intros Hi Hok Hstep. pose proof (ti_user _ Hi) as Hu. unfold user_ok in Hu. unfold user_step in Hstep.
  assert (∀ timed memory, ts_user s = PollWaits timed memory → tinv (set_user s Idle) ∧ memory = enough_memory) as Hpoll.
  { intros timed memory Hpc. rewrite Hpc in Hu. split; [|apply Hu].
    apply tinv_goto; [done|by rewrite Hpc|done|done|]. unfold thread_due. by rewrite Hpc. }
  destruct (ts_user s) as [|[] memory| | | | | | | | | |] eqn:Hpc, l; try discriminate.
  - injection Hstep as <-. by apply ctrl_inv.
  - injection Hstep as <-. simpl in Hok. subst memory. by apply poll_inv.
  - injection Hstep as <-. by apply start_inv.
  - injection Hstep as <-. by apply stop_inv.
  - injection Hstep as <-. by apply stop_inv.
  - injection Hstep as <-. by destruct (Hpoll _ _ eq_refl).
  - injection Hstep as <-. destruct (Hpoll _ _ eq_refl) as [H1 ->]. by apply poll_look_inv.
  - injection Hstep as <-. destruct (Hpoll _ _ eq_refl) as [H1 ->]. by apply poll_look_inv.
  - destruct Hok as [-> ->]. case_decide; [|done]. injection Hstep as <-. rewrite returns_bind. by apply fill_inv.
  - simpl in Hok. subst created. case_decide; [done|]. injection Hstep as <-.
    assert (i = n) as -> by (destruct Hu; lia). by apply start_thread_inv.
  - injection Hstep as <-. case_decide.
    + rewrite returns_bind. by apply submit_inv.
    + apply tinv_goto; try done; [by rewrite Hpc|]. destruct Hu as (_ & _ & Hr). unfold thread_due. simpl. by rewrite Hpc, Hr.
  - injection Hstep as <-. case_decide.
    + rewrite returns_bind. by apply free_inv.
    + apply tinv_goto; try done; [by rewrite Hpc|]. destruct Hu as (_ & _ & Hr). unfold thread_due. simpl. by rewrite Hpc, Hr.
  - injection Hstep as <-. apply tinv_goto; try done; [by rewrite Hpc|]. unfold thread_due. by rewrite Hpc.
  - injection Hstep as <-. by apply waiting_inv.
  - injection Hstep as <-. by apply asleep_inv.
  - injection Hstep as <-. by apply asleep_inv.
  - destruct (join_thread s) as [o1|] eqn:Ej; [|done]. injection Hstep as <-. rewrite returns_bind.
    by eapply joining_inv.
  - injection Hstep as <-. by apply close_inv.
  - injection Hstep as <-. by apply close_device_inv.
Qed.

Lemma exec_inv l s o :
  tinv s → label_ok l s → exec clock is_isight junk info l s = Some o → returns o tinv.
Proof.
  intros Hi Hok Hstep. destruct l as [t status|t data ret|memory| |l]; cbn [exec] in Hstep.
  - destruct (ts_xfers s !! t) as [[]|] eqn:Ht; try discriminate. injection Hstep as <-.
    cbn [returns]. rewrite <- (set_h_same s) at 1.
    by eapply (tinv_set_busy s t InFlight); [..|apply same_flow_refl].
  - destruct (ts_xfers s !! t) as [[]|] eqn:Ht; try discriminate. injection Hstep as <-. by apply callback_step.
  - simpl in Hok. subst memory. destruct (ts_thread s) as [[]|] eqn:Ht; try done. injection Hstep as <-. by apply thread_step.
  - destruct (ts_thread s) as [[]|] eqn:Ht; try done. injection Hstep as <-.
    apply tinv_set_thread; [done|by rewrite Ht|done].
  - by eapply user_step_inv.
Qed.

(** Every step of a run is one the theorem is about. *)
Definition disciplined : list label → tstate → Prop := legal (exec clock is_isight junk info) label_ok.

Lemma run_inv ls s o :
  tinv s → disciplined ls s → run_steps clock is_isight junk info ls s = Some o → returns o tinv.
Proof. apply (run_invariant _ tinv label_ok), exec_inv. Qed.

Lemma opened_inv h : stream_good h → sh_running h = false → tinv (opened h).
Proof.
  intros Hg Hrun.
  assert (∀ i t, replicate (Z.to_nat LIBUVC_NUM_TRANSFER_BUFS) None !! i ≠ Some (Some t : option nat)) as Hno.
  { intros i t [H _]%lookup_replicate. done. }
  split; try done.
  - split; cbn [opened ts_slots ts_xfers].
    + by rewrite length_replicate.
    + intros i t H. by apply Hno in H.
    + intros i j t H. by apply Hno in H.
    + intros t x H. by rewrite lookup_nil in H.
  - unfold thread_due. cbn [opened ts_h ts_user ts_thread]. rewrite Hrun, andb_false_r. split; [by intros []|done].
Qed.

(** *** The stop ends *)

(** An upper bound on the steps the application still takes in a stop or close. *)
Definition stop_left (pc : user_pc) : Z :=
  match pc with
  | Cancelling _ => 14
  | Waiting k _ => 3 + 2 * (LIBUVC_STREAM_STOP_TIMEOUT_ATTEMPTS - k)
  | Asleep k _ => 2 + 2 * (LIBUVC_STREAM_STOP_TIMEOUT_ATTEMPTS - k)
  | Joining _ _ => 2
  | Scanning => 1
  | _ => 0
  end.

(** ... and of the thread, once the stream no longer runs. *)
Definition thread_left (s : tstate) : Z :=
  match ts_thread s with
  | Some (ThChecks _ | ThWaits _) => 1
  | _ => 0
  end.

Definition closing_of (pc : user_pc) : option bool :=
  match pc with
  | Cancelling c | Waiting _ c | Asleep _ c | Joining _ c => Some c
  | Scanning => Some true
  | _ => None
  end.

(** Where the call leaves the application. *)
Definition after_stop (closing : bool) : user_pc := if closing then StreamClosed else Idle.

(** The application is in the stop or close, or has come out of it. *)
Definition stopping (closing : bool) (s : tstate) : Prop :=
  tinv s ∧ sh_running (ts_h s) = false
  ∧ (closing_of (ts_user s) = Some closing ∨ ts_user s = after_stop closing).

Definition new_call (l : label) : bool :=
  match l with
  | LUser (UCtrl _ _ | UPoll _ _ | UStart _ _ _ _ | UStop | UClose | UCloseDevice) => true
  | _ => false
  end.

(** Steps of the application and of the callback's thread other than waking up, and
    wake-ups of the application. *)
Definition own_step (l : label) : Z :=
  match l with
  | LUser UWake => 0
  | LUser _ | LThread _ => 1
  | _ => 0
  end.
Definition wake_up (l : label) : Z :=
  match l with
  | LUser UWake => 1
  | _ => 0
  end.
Definition count (weight : label → Z) (ls : list label) : Z := foldr (λ l n, weight l + n) 0 ls.

Lemma broadcast_keeps s :
  ts_user (broadcast s) = ts_user s ∧ ts_h (broadcast s) = ts_h s ∧ thread_left (broadcast s) = thread_left s.
Proof. unfold broadcast, thread_left. destruct (ts_thread s) as [[]|] eqn:E; rewrite ?E; done. Qed.

Lemma completed_keeps h data :
  if_returns (process_completed clock is_isight h data) (λ '(h', _), sh_running h' = sh_running h).
Proof.
  assert (∀ h p, if_returns (_uvc_process_payload clock is_isight h p (len p)) (λ '(h', _), sh_running h' = sh_running h)) as Hp.
  { intros h' p. eapply if_returns_mono; [apply payload_keeps|]. by intros [h2 pubs] (? & _). }
  destruct data as [payload|packets]; cbn [process_completed]; [apply Hp|].
  revert h. induction packets as [|[status payload] packets IH]; intros h; cbn [process_packets]; [done|].
  destruct (nz status); [apply (IH (set_working h (set_had_errors (sh_working h) true)))|]. rewrite if_returns_bind. eapply if_returns_mono; [apply Hp|]. intros [h1 pubs] H1.
  rewrite if_returns_bind. eapply if_returns_mono; [apply IH|]. intros [h2 pubs2] H2. cbn [if_returns]. congruence.
Qed.

(** Only the application moves the application; a callback gives the thread no work
    of its own and neither starts nor stops the stream. *)
Lemma callback_keeps t pc data ret s s' :
  _uvc_stream_callback clock is_isight t pc data ret s = Ret s' →
  ts_user s' = ts_user s ∧ thread_left s' = thread_left s ∧ sh_running (ts_h s') = sh_running (ts_h s).
Proof.
  intros Hs.
  assert (∀ x, ts_user x = ts_user s → ts_thread x = ts_thread s → sh_running (ts_h x) = sh_running (ts_h s) →
    ts_user (broadcast x) = ts_user s ∧ thread_left (broadcast x) = thread_left s
    ∧ sh_running (ts_h (broadcast x)) = sh_running (ts_h s)) as Hb.
  { intros x H1 H2 H3. destruct (broadcast_keeps x) as (-> & -> & ->). unfold thread_left. by rewrite H2. }
  destruct pc as [[]| | |]; cbn [_uvc_stream_callback] in Hs; inv_ret Hs; try (injection Hs as <-; done).
  - injection Hs as <-. pose proof (proj1 (if_returns_iff _ _) (completed_keeps (ts_h s) data) _ Ha2) as Hr. simpl in Hr.
    unfold announce. destruct (existsb _ _); [by apply Hb|done].
  - injection Hs as <-. unfold mark_deleted. destruct (slot_of t (ts_slots s)); by apply Hb.
Qed.

(** What is left of a stop: every step of the two threads takes of it, a wake-up of
    the application gives one step back. *)
Definition left_of_stop (s : tstate) : Z := stop_left (ts_user s) + thread_left s.

Lemma left_of_stop_nonneg s : tinv s → 0 ≤ left_of_stop s.
Proof.
  intros Hi. pose proof (ti_user _ Hi) as Hu. unfold user_ok in Hu. unfold left_of_stop, thread_left.
  assert (0 ≤ stop_left (ts_user s)); [|repeat case_match; lia].
  destruct (ts_user s); cbn [stop_left]; unfold LIBUVC_STREAM_STOP_TIMEOUT_ATTEMPTS in *; lia.
Qed.

Lemma left_of_user s pc : left_of_stop (set_user s pc) = stop_left pc + thread_left s.
Proof. done. Qed.

(** The application's own steps in a stop. *)
Lemma stop_user_step closing l s s' :
  stopping closing s → new_call (LUser l) = false → user_step junk info l s = Some (Ret s') →
  (closing_of (ts_user s') = Some closing ∨ ts_user s' = after_stop closing)
  ∧ sh_running (ts_h s') = false ∧ own_step (LUser l) + left_of_stop s' ≤ left_of_stop s + wake_up (LUser l).
Proof.
  intros (Hi & Hr & Hc) Hn Hs. pose proof (ti_user _ Hi) as Hu. unfold user_ok in Hu.
  assert (∀ ret c, left_of_stop (stop_waited ret c s) = 2 + thread_left s ∧ sh_running (ts_h (stop_waited ret c s)) = false) as Hw.
  { intros ret c. unfold left_of_stop, stop_waited. destruct (broadcast_keeps s) as (_ & H2 & H3).
    cbn [set_user ts_user ts_h stop_left]. rewrite H2. split; [|done]. rewrite <- H3. done. }
  unfold user_step in Hs. destruct (ts_user s) eqn:Hpc, l; try discriminate.
  all: destruct Hc as [Hc|Hc]; try discriminate; try (by destruct closing).
  all: cbn [closing_of] in Hc; injection Hc as <-; try injection Hs as Hs.
  - subst s'. split_and!; [by left|done|]. rewrite left_of_user. unfold left_of_stop. rewrite Hpc. simpl. unfold LIBUVC_STREAM_STOP_TIMEOUT_ATTEMPTS. lia.
  - destruct (no_transfers s); subst s'.
    + split_and!; [by left|apply Hw|]. rewrite (proj1 (Hw _ _)). unfold left_of_stop. rewrite Hpc.
      cbn [stop_left own_step wake_up]. unfold LIBUVC_STREAM_STOP_TIMEOUT_ATTEMPTS in *. lia.
    + split_and!; [by left|done|]. rewrite left_of_user. unfold left_of_stop. rewrite Hpc. cbn [stop_left own_step wake_up]. lia.
  - destruct (_ <=? _) eqn:E; subst s'.
    + split_and!; [by left|apply Hw|]. rewrite (proj1 (Hw _ _)). unfold left_of_stop. rewrite Hpc.
      cbn [stop_left own_step wake_up]. unfold LIBUVC_STREAM_STOP_TIMEOUT_ATTEMPTS in *. lia.
    + split_and!; [by left|done|]. rewrite left_of_user. unfold left_of_stop. rewrite Hpc. cbn [stop_left own_step wake_up]. lia.
  - subst s'. split_and!; [by left|done|]. rewrite left_of_user. unfold left_of_stop. rewrite Hpc. cbn [stop_left own_step wake_up]. lia.
  - unfold join_thread in Hs.
    assert (∃ th, s' = set_user (set_thread s th) (if closing0 then Scanning else Idle)
      ∧ thread_left (set_thread s th) ≤ thread_left s) as (th & -> & Hle).
    { destruct (sh_user_cb (ts_h s)).
      - destruct (ts_thread s) as [[]|] eqn:Et; try discriminate. injection Hs as <-. exists None.
        split; [done|]. unfold thread_left. rewrite Et. done.
      - injection Hs as <-. exists (ts_thread s). by destruct s. }
    unfold left_of_stop, thread_left in *. rewrite Hpc.
    destruct closing0; (split_and!; [by (left + right)|done|]);
      cbn [set_user set_thread ts_user ts_thread stop_left own_step wake_up] in *; lia.
  - subst s'. unfold uvc_stream_close_scan, left_of_stop, thread_left. rewrite Hpc.
    destruct (no_transfers s); (split_and!; [by right|done|]);
      cbn [set_user set_lives ts_user ts_thread stop_left own_step wake_up]; lia.
Qed.

Lemma stopping_step closing l s s' :
  stopping closing s → new_call l = false → label_ok l s → exec clock is_isight junk info l s = Some (Ret s') →
  stopping closing s' ∧ own_step l + left_of_stop s' ≤ left_of_stop s + wake_up l.
Proof.
  intros Hst Hn Hok Hs. pose proof Hst as (Hi & Hr & Hc). pose proof (exec_inv l s (Ret s') Hi Hok Hs) as Hi'. cbn [returns] in Hi'.
  assert (ts_user s' = ts_user s → sh_running (ts_h s') = sh_running (ts_h s) → own_step l + thread_left s' ≤ thread_left s →
    stopping closing s' ∧ own_step l + left_of_stop s' ≤ left_of_stop s + wake_up l) as Hsame.
  { intros H1 H2 H3. unfold stopping, left_of_stop. rewrite H1, H2. split; [done|]. destruct l as [| | | |[]]; simpl in *; lia. }
  destruct l as [t status|t data ret|memory| |l]; cbn [exec] in Hs.
  - destruct (ts_xfers s !! t) as [[]|]; try discriminate. injection Hs as <-. by apply Hsame.
  - destruct (ts_xfers s !! t) as [[]|]; try discriminate. injection Hs as Hs.
    destruct (callback_keeps _ _ _ _ _ _ Hs) as (? & H2 & ?). apply Hsame; [done..|]. rewrite H2. done.
  - destruct (ts_thread s) as [[]|] eqn:Et; try discriminate. injection Hs as Hs. unfold _uvc_user_caller in Hs. inv_ret Hs.
    rewrite Hr in Hs. injection Hs as <-. apply Hsame; [done..|]. unfold thread_left. by rewrite Et.
  - destruct (ts_thread s) as [[]|] eqn:Et; try discriminate. injection Hs as <-. apply Hsame; [done..|].
    unfold thread_left. by rewrite Et.
  - destruct (stop_user_step closing l s s' Hst Hn Hs) as (? & ? & ?). done.
Qed.

(** In a stop one of the two threads can always go on without being woken. *)
Lemma stop_progress closing s :
  stopping closing s →
  ts_user s = after_stop closing
  ∨ ∃ l s', own_step l = 1 ∧ new_call l = false ∧ label_ok l s ∧ exec clock is_isight junk info l s = Some (Ret s').
Proof.
  intros (Hi & Hr & [Hc|Hc]); [right|by left].
  destruct (ti_open _ Hi) as (Hlive & _); [by destruct (ts_user s)|].
  assert (∀ l s', own_step (LUser l) = 1 → new_call (LUser l) = false → label_ok (LUser l) s →
    user_step junk info l s = Some (Ret s') → ∃ l s', own_step l = 1 ∧ new_call l = false ∧ label_ok l s
      ∧ exec clock is_isight junk info l s = Some (Ret s')) as Huser by eauto 10.
  pose proof (ti_user _ Hi) as Hu. unfold user_ok in Hu. pose proof (ti_thread _ Hi) as Ht. unfold thread_due in Ht.
  destruct (ts_user s) eqn:Hpc; try discriminate.
  - eapply (Huser (UGo 0)); try done. unfold user_step. by rewrite Hpc.
  - eapply (Huser (UGo 0)); try done. unfold user_step. by rewrite Hpc.
  - eapply (Huser UTimeout); try done. unfold user_step. by rewrite Hpc.
  - destruct Hu as (_ & _ & Hawake). rewrite andb_true_r in Ht.
    destruct (sh_user_cb (ts_h s)) eqn:Ecb.
    + destruct (proj2 Ht eq_refl) as [[n|n|] Eth].
      * exists (LThread enough_memory), (set_thread s (Some ThExited)). split_and!; try done.
        cbn [exec]. rewrite Eth. unfold _uvc_user_caller, touch_stream. by rewrite Hlive, Hr.
      * by destruct (Hawake n).
      * eapply (Huser (UGo 0)); try done. unfold user_step, join_thread. by rewrite Hpc, Ecb, Eth.
    + eapply (Huser (UGo 0)); try done. unfold user_step, join_thread. by rewrite Hpc, Ecb.
  - eapply (Huser (UGo 0)); try done. unfold user_step. by rewrite Hpc.
Qed.


(** C2: whatever the order in which the application's calls (configuring, polling,
    starting, stopping and closing the stream, then closing the device), the
    completions of transfers and the threads' steps interleave, no thread touches
    freed memory, overruns a buffer, follows a null pointer or joins a thread that
    does not exist.  This holds for a stream just opened, on these conditions: memory
    does not run out and the callback's thread can be created; the application makes
    one call at a time, does not start a stream in whose slots transfers are left,
    and does not configure it for another size of frame than it was opened for, or
    for a frame the device does not have.  Then a transfer that libusb or a callback
    still has keeps both the stream's and the device's handle allocated, and a stop
    that reports success has left no transfer. *)
Theorem teardown_no_use_after_free h ls o :
  stream_good h → sh_running h = false → disciplined ls (opened h) →
  run_steps clock is_isight junk info ls (opened h) = Some o →
  returns o (λ s,
    (∀ t x, ts_xfers s !! t = Some x → busy x = true → ts_stream_live s = true ∧ ts_devh_live s = true)
    ∧ (ts_stream_live s = false ∨ ts_devh_live s = false → no_transfers s = true ∧ ts_thread s = None)
    ∧ (∀ closing, ts_user s = Joining UVC_SUCCESS closing → no_transfers s = true)).
Proof.
  intros Hg Hrun Hd Hr. eapply returns_mono; [eapply run_inv; [by apply opened_inv|done..]|].
  intros s Hi. split; [by intros; eapply busy_live|split].
  - intros Hdead. rewrite no_transfers_empty. split; [destruct Hdead; [by apply (ti_stream _ Hi)|by apply (ti_devh _ Hi)]|].
    apply no_thread; [done|]. pose proof (ti_open _ Hi) as Ho. unfold thread_due.
    destruct (ts_user s); try apply andb_false_r; destruct (Ho eq_refl) as (? & ? & _), Hdead; congruence.
  - intros c Hpc. pose proof (ti_user _ Hi) as Hu. unfold user_ok in Hu. rewrite Hpc in Hu.
    destruct Hu as [_ [[[_ He]|] _]]; [|done]. by apply no_transfers_empty.
Qed.
End invariant.

(** ** Starting again after a stop that timed out *)

Definition go (n : nat) : list label := replicate n (LUser (UGo 0)).
Definition allocs (n : nat) : list label := replicate n (LUser (UAlloc true true)).

(** libusb has the transfer, and no slot names it. *)
Definition forgotten (t : nat) (s : tstate) : Prop :=
  ts_xfers s !! t = Some InFlight ∧ ∀ j, ts_slots s !! j ≠ Some (Some t).

(** The transfer completes, or a section of its callback runs. *)
Definition about_transfer (t : nat) (l : label) : bool :=
  match l with
  | LComplete t' _ | LCallback t' _ _ => bool_decide (t' = t)
  | _ => false
  end.

Lemma forgotten_slots s s' t :
  forgotten t s → ts_xfers s' = ts_xfers s → ts_slots s' = ts_slots s → forgotten t s'.
Proof. unfold forgotten. by intros ? -> ->. Qed.

Lemma forgotten_xfer s t t' x : forgotten t s → t' ≠ t → forgotten t (set_xfer s t' x).
Proof. intros [H1 H2] Hne. split; [|done]. cbn [set_xfer set_slots ts_xfers]. by rewrite list_lookup_insert_ne. Qed.

Lemma forgotten_clear s t t' i x :
  forgotten t s → t' ≠ t → forgotten t (set_slots s (<[i := None]> (ts_slots s)) (<[t' := x]> (ts_xfers s))).
Proof.
  intros [H1 H2] Hne. split; cbn [set_slots ts_xfers ts_slots]; [by rewrite list_lookup_insert_ne|].
  intros j [[_ [??]]|[_ ?]]%list_lookup_insert_Some; [done|by apply (H2 j)].
Qed.

Lemma forgotten_fill s t i n :
  forgotten t s → n = length (ts_xfers s) →
  forgotten t (set_slots s (<[i := Some n]> (ts_slots s)) (ts_xfers s ++ [Filled])).
Proof.
  intros [H1 H2] ->. pose proof (lookup_lt_Some _ _ _ H1). split; cbn [set_slots ts_xfers ts_slots].
  - by rewrite lookup_app_l.
  - intros j [(_ & [= ?] & _)|[_ ?]]%list_lookup_insert_Some; [lia|by apply (H2 j)].
Qed.

Lemma broadcast_slots s : ts_xfers (broadcast s) = ts_xfers s ∧ ts_slots (broadcast s) = ts_slots s.
Proof. unfold broadcast. by destruct (ts_thread s) as [[]|]. Qed.
Section restart.
Context (info : uvc_device_info) (clock : Z → Z) (is_isight : bool) (junk : Z).

Lemma forgotten_broadcast s t : forgotten t s → forgotten t (broadcast s).
Proof. intros H. destruct (broadcast_slots s). by eapply forgotten_slots. Qed.

Lemma forgotten_callback t t' pc data ret s s' :
  forgotten t s → t' ≠ t → _uvc_stream_callback clock is_isight t' pc data ret s = Ret s' → forgotten t s'.
Proof.
  intros Hf Hne Hs. destruct pc as [[]| | |]; cbn [_uvc_stream_callback] in Hs; inv_ret Hs; injection Hs as <-;
    try (by apply forgotten_xfer).
  - unfold announce. destruct (existsb _ _); [apply forgotten_broadcast|];
      (apply forgotten_xfer; [|done]); by eapply forgotten_slots.
  - unfold mark_deleted. apply forgotten_broadcast.
    destruct (slot_of _ _); [by apply forgotten_clear|by apply forgotten_xfer].
Qed.

Lemma forgotten_user t l s s' : forgotten t s → user_step junk info l s = Some (Ret s') → forgotten t s'.
Proof.
  intros Hf Hs.
  assert (∀ s1, ts_xfers s1 = ts_xfers s → ts_slots s1 = ts_slots s → forgotten t s1) as Hsame
    by (intros; by eapply forgotten_slots).
  assert (∀ memory s1 s2, ts_xfers s1 = ts_xfers s → ts_slots s1 = ts_slots s →
    poll_look junk info memory s1 = Ret s2 → forgotten t s2) as Hlook.
  { intros memory s1 s2 H1 H2 H3. unfold poll_look in H3. inv_ret H3. injection H3 as <-. by apply Hsame. }
  unfold user_step in Hs. destruct (ts_user s) as [|[] memory| | | | | | | | | |], l; try discriminate.
  - injection Hs as <-. unfold stream_ctrl_call. repeat case_match; by apply Hsame.
  - injection Hs as Hs. unfold poll_call in Hs. repeat case_match; try (injection Hs as <-; by apply Hsame). eapply Hlook; [..|exact Hs]; done.
  - injection Hs as <-. unfold uvc_stream_start. repeat case_match; by apply Hsame.
  - injection Hs as <-. unfold uvc_stream_stop. repeat case_match; by apply Hsame.
  - injection Hs as <-. unfold uvc_stream_stop. repeat case_match; by apply Hsame.
  - injection Hs as <-. by apply Hsame.
  - injection Hs as Hs. eapply Hlook; [..|exact Hs]; done.
  - injection Hs as Hs. eapply Hlook; [..|exact Hs]; done.
  - case_decide; [|done]. injection Hs as Hs. inv_ret Hs. injection Hs as <-.
    unfold fill_slot in Ha. case_decide; [|done]. destruct transfer; [|done]. injection Ha as <-.
    eapply forgotten_slots; [by apply (forgotten_fill s t i _ Hf eq_refl)|by destruct buffer..].
  - case_decide; [done|]. injection Hs as <-. unfold start_thread. case_match; by apply Hsame.
  - injection Hs as Hs. case_decide; [|injection Hs as <-; by apply Hsame]. inv_ret Hs. injection Hs as <-.
    unfold submit_slot in Ha. destruct (ts_slots s !! i) as [[t'|]|] eqn:Ei; try done. injection Ha as <-.
    assert (t' ≠ t) by (intros ->; by apply (proj2 Hf i)).
    apply (forgotten_slots (if ret =? UVC_SUCCESS then set_xfer s t' InFlight else s));
      [case_match; [by apply forgotten_xfer|done]|unfold after_submit; repeat case_match; done..].
  - injection Hs as Hs. case_decide; [|injection Hs as <-; by apply Hsame]. inv_ret Hs. injection Hs as <-.
    unfold free_slot in Ha. destruct (ts_slots s !! i) as [[t'|]|] eqn:Ei; try done.
    + injection Ha as <-. assert (t' ≠ t) by (intros ->; by apply (proj2 Hf i)).
      eapply forgotten_slots; [by apply (forgotten_clear s t t' i FreedXfer)|done..].
    + destruct first; [|done]. injection Ha as <-. by apply Hsame.
  - injection Hs as <-. by apply Hsame.
  - injection Hs as <-. destruct (broadcast_slots s). case_match; by apply Hsame.
  - injection Hs as <-. destruct (broadcast_slots s). case_match; by apply Hsame.
  - injection Hs as <-. by apply Hsame.
  - unfold join_thread in Hs. destruct (sh_user_cb (ts_h s)); [destruct (ts_thread s) as [[]|]|]; try discriminate;
      injection Hs as <-; by apply Hsame.
  - injection Hs as <-. unfold uvc_stream_close_scan. case_match; by apply Hsame.
  - injection Hs as <-. unfold close_device. case_match; by apply Hsame.
Qed.

(** Once forgotten, a transfer stays so until it completes. *)
Lemma forgotten_run t ls : ∀ s s',
  forgotten t s → forallb (λ l, negb (about_transfer t l)) ls = true →
  run_steps clock is_isight junk info ls s = Some (Ret s') → forgotten t s'.
Proof.
  induction ls as [|l ls IH]; intros s s' Hf Hl Hr; cbn [run_labels forallb] in *; [by injection Hr as <-|].
  apply andb_prop in Hl as [Hl Hls]. destruct (exec _ _ _ _ l s) as [[s1|]|] eqn:E; try done.
  apply (IH s1); [|done..]. apply negb_true_iff in Hl.
  destruct l as [t' status|t' data ret|memory| |l]; cbn [exec about_transfer] in *; try apply bool_decide_eq_false in Hl.
  - destruct (ts_xfers s !! t') as [[]|]; try discriminate. injection E as <-. by apply forgotten_xfer.
  - destruct (ts_xfers s !! t') as [[]|]; try discriminate. injection E as E. by eapply forgotten_callback.
  - destruct (ts_thread s) as [[]|]; try discriminate. injection E as E. unfold _uvc_user_caller in E. inv_ret E.
    repeat case_match; inv_ret E; injection E as <-; by eapply forgotten_slots.
  - destruct (ts_thread s) as [[]|]; try discriminate. injection E as <-. by eapply forgotten_slots.
  - by eapply forgotten_user.
Qed.
(** Slots up to the one a transfer is in are filled anew. *)
Lemma refill t i n cb k : ∀ j s,
  ts_user s = Filling j n cb → (j + k = S i)%nat → (S i ≤ n)%nat → (n ≤ length (ts_slots s))%nat →
  ts_xfers s !! t = Some InFlight → (∀ j', ts_slots s !! j' = Some (Some t) → j' = i ∧ (j ≤ i)%nat) →
  ∃ s', run_steps clock is_isight junk info (allocs k) s = Some (Ret s') ∧ forgotten t s'.
Proof.
  induction k as [|k IH]; intros j s Hpc Hj Hin Hn Ht Hs; cbn [allocs replicate run_labels].
  { exists s. split; [done|]. split; [done|]. intros j' Hj'. apply Hs in Hj'. lia. }
  cbn [exec]. unfold user_step. rewrite Hpc, decide_True by lia. unfold fill_slot. rewrite decide_True by lia.
  cbn [negb mbind outcome_bind]. pose proof (lookup_lt_Some _ _ _ Ht). apply (IH (S j)); try done; try lia.
  - cbn [set_user set_slots ts_slots]. by rewrite length_insert.
  - cbn [set_user set_slots ts_xfers]. by rewrite lookup_app_l.
  - intros j' [(_ & [= ?] & _)|[Hne Hj']]%list_lookup_insert_Some; [lia|]. apply Hs in Hj' as [-> ?]. lia.
Qed.

(** The transfer completes with a status, and its callback runs up to its first use
    of the stream. *)
Definition late_completion (t : nat) (status : xfer_status) (data : xfer_data) (ret : Z) : list label :=
  LComplete t status
  :: replicate (match status with XferCompleted => 1 | _ => 2 end) (LCallback t data ret).

(** C39: starting a stream again after a stop that reported a timeout forgets the
    transfers libusb still has.  In any state the threads can bring an idle, stopped
    stream to, with a transfer in flight in one of the slots the start fills: after
    the start has filled that slot, and whatever happens until the transfer completes,
    no slot names it any more.  So if the transfers of the new start have ended when
    the stream is closed, the close frees the stream's handle instead of quarantining
    it, and when the old transfer then completes, with any status, its callback uses
    freed memory. *)
Theorem restart_after_timeout_is_unsafe s t i format count cb :
  tinv info s → ts_user s = Idle → sh_running (ts_h s) = false →
  ts_slots s !! i = Some (Some t) → ts_xfers s !! t = Some InFlight → Z.of_nat i < num_transfer_bufs count →
  ∃ s1, run_steps clock is_isight junk info (LUser (UStart format true count cb) :: allocs (S i)) s = Some (Ret s1)
    ∧ ∀ ls s2, forallb (λ l, negb (about_transfer t l)) ls = true →
        run_steps clock is_isight junk info ls s1 = Some (Ret s2) →
        (∀ j, ts_slots s2 !! j ≠ Some (Some t))
        ∧ (ts_user s2 = Scanning → no_transfers s2 = true → ∀ status data ret,
            run_steps clock is_isight junk info (LUser (UGo 0) :: late_completion t status data ret) s2
            = Some (Undef UseAfterFree)).
Proof.
  intros Hi Hpc Hr Hslot Hx Hcount. pose proof (ti_slots _ _ Hi) as Hso.
  set (n := Z.to_nat (num_transfer_bufs count)).
  set (s0 := set_user (set_h s (set_format (start_reset (ts_h s)) format)) (Filling 0 n cb)).
  assert (exec clock is_isight junk info (LUser (UStart format true count cb)) s = Some (Ret s0)) as He.
  { cbn [exec]. unfold user_step, uvc_stream_start. by rewrite Hpc, Hr. }
  pose proof (num_transfer_bufs_range count) as Hrange.
  destruct (refill t i n cb (S i) 0 s0) as (s1 & Hrun & Hf); [done|lia|subst n; lia| |done| |].
  { cbn [s0 set_user set_h ts_slots]. rewrite (so_len _ _ Hso). unfold LIBUVC_NUM_TRANSFER_BUFS. lia. }
  { intros j' Hj'. split; [|lia]. by apply (so_inj _ _ Hso j' i t). }
  exists s1. split; [cbn [run_labels]; by rewrite He|]. intros ls s2 Hls Hrun2.
  pose proof (forgotten_run t ls s1 s2 Hf Hls Hrun2) as [Hx2 Hs2]. split; [done|]. intros Hpc2 Hno status data ret.
  cbn [run_labels exec late_completion]. unfold user_step, uvc_stream_close_scan. rewrite Hpc2, Hno.
  cbn [set_user set_lives ts_xfers]. rewrite Hx2. pose proof (lookup_lt_Some _ _ _ Hx2).
  destruct status; cbn [replicate run_labels exec set_xfer set_slots set_user set_lives ts_xfers]; rewrite list_lookup_insert_eq by done;
    try reflexivity.
  all: cbn [_uvc_stream_callback set_xfer set_slots set_user set_lives ts_xfers];
    rewrite list_lookup_insert_eq by (by rewrite length_insert); reflexivity.
Qed.
End restart.
(** ** The small stream, started and closed *)

Definition stopped_stream : uvc_stream_handle := set_running (sample_stream 8 8) false.

Lemma stopped_stream_good : stream_good small_info stopped_stream.
Proof.
  split; [|split].
  - destruct (sample_stream_inv 8) as (? & ? & ?); [unfold fits; lia|]. by split_and!.
  - exact sample_frame_ok.
  - exists small_format, degenerate_frame. split; [exact small_info_frame|exact degenerate_frame_wf].
Qed.

Abbreviation small_steps := (run_steps (λ _, 0) false 0 small_info).
Abbreviation small_disciplined := (disciplined small_info (λ _, 0) false 0).

(** A start with two transfers, both submitted. *)
Definition start_two (cb : bool) : list label :=
  LUser (UStart UVC_FRAME_FORMAT_MJPEG true 2 cb) :: allocs 2 ++ LUser (UCreate true) :: go 2.

(** The wait of a stop on a device that completes nothing: it times out five times. *)
Definition five_timeouts : list label := go 1 ++ concat (replicate 5 (go 1 ++ [LUser UTimeout])).

(** Labels without a condition. *)
Lemma always_ok ls : Forall (λ l, ∀ s, label_ok small_info l s) ls → ∀ s, small_disciplined ls s.
Proof. induction 1 as [|l ls Hl _ IH]; intros s; [done|]. split; [apply Hl|]. repeat case_match; done || apply IH. Qed.

(** A run the theorems are about, and what it leads to. *)
Lemma disciplined_run {A} (f : tstate → A) ls v :
  small_disciplined ls (opened stopped_stream) →
  match small_steps ls (opened stopped_stream) with Some (Ret s) => Some (f s) | _ => None end = Some v →
  ∃ s, small_steps ls (opened stopped_stream) = Some (Ret s) ∧ tinv small_info s ∧ f s = v.
Proof.
  intros Hd Hv. destruct (small_steps ls (opened stopped_stream)) as [o|] eqn:E; [|discriminate].
  pose proof (run_inv small_info (λ _, 0) false 0 _ _ o
    (opened_inv _ _ stopped_stream_good eq_refl) Hd E) as Hi.
  destruct o as [s|]; [|discriminate]. injection Hv as Hv. eauto.
Qed.

Ltac check_discipline := vm_compute; repeat split; first [by right|constructor].

(** Started with a callback and stopped, with the device dead: the first transfer is
    still in its slot. *)
Definition timed_out_run : list label :=
  start_two false ++ LUser UStop :: five_timeouts ++ go 1.

(** Another start, none of whose transfers can be submitted; then a close. *)
Definition failing_rest : list label :=
  allocs 1 ++ LUser (UCreate true) :: LUser (UGo (-1)) :: go 3 ++ LUser UClose :: go 3.

Lemma restart_after_timeout_is_unsafe_witness :
  ∃ s s1 s2, small_steps timed_out_run (opened stopped_stream) = Some (Ret s)
    ∧ small_steps (LUser (UStart UVC_FRAME_FORMAT_MJPEG true 2 false) :: allocs 1) s = Some (Ret s1)
    ∧ small_steps failing_rest s1 = Some (Ret s2)
    ∧ small_steps (LUser (UGo 0) :: late_completion 0 XferCancelled (BulkData []) 0) s2 = Some (Undef UseAfterFree).
Proof.
  destruct (disciplined_run (λ s, (ts_user s, sh_running (ts_h s), ts_slots s !! 0%nat, ts_xfers s !! 0%nat)) timed_out_run
    (Idle, false, Some (Some 0%nat), Some InFlight)) as (s & Hrun & Hi & [= H1 H2 H3 H4]);
    [check_discipline|vm_compute; reflexivity|].
  destruct (restart_after_timeout_is_unsafe small_info (λ _, 0) false 0 s 0 0 UVC_FRAME_FORMAT_MJPEG 2 false
    Hi H1 H2 H3 H4 ltac:(vm_compute; reflexivity)) as (s1 & Hs1 & Hall).
  assert (match small_steps timed_out_run (opened stopped_stream) with
          | Some (Ret s) =>
              match small_steps (LUser (UStart UVC_FRAME_FORMAT_MJPEG true 2 false) :: allocs 1) s with
              | Some (Ret s1) =>
                  match small_steps failing_rest s1 with
                  | Some (Ret s2) => Some (ts_user s2, no_transfers s2)
                  | _ => None
                  end
              | _ => None
              end
          | _ => None
          end = Some (Scanning, true)) as Hv by (vm_compute; reflexivity).
  rewrite Hrun, Hs1 in Hv. destruct (small_steps failing_rest s1) as [[s2|]|] eqn:E2; [|discriminate Hv|discriminate Hv].
  injection Hv as H5 H6. exists s, s1, s2. split; [exact Hrun|]. split; [exact Hs1|]. split; [exact E2|].
  exact (proj2 (Hall failing_rest s2 eq_refl E2) H5 H6 XferCancelled (BulkData []) 0).
Defined.

(** A close on a dead device quarantines the stream; the late completion is harmless. *)
Definition quarantine_run : list label :=
  start_two false ++ LUser (UPoll (-1) enough_memory) :: LUser UClose :: five_timeouts ++ go 2
    ++ LUser UCloseDevice :: late_completion 0 XferCancelled (BulkData []) 0.

Lemma teardown_no_use_after_free_witness :
  ∃ s, small_steps quarantine_run (opened stopped_stream) = Some (Ret s)
    ∧ ts_quarantined s = true ∧ ts_xfers s !! 1%nat = Some InFlight ∧ ts_stream_live s = true.
Proof.
  assert (small_disciplined quarantine_run (opened stopped_stream)) as Hd by check_discipline.
  destruct (disciplined_run (λ s, (ts_xfers s !! 1%nat, ts_quarantined s)) quarantine_run (Some InFlight, true) Hd)
    as (s & Hrun & _ & [= H1 H2]); [vm_compute; reflexivity|].
  pose proof (teardown_no_use_after_free small_info (λ _, 0) false 0 stopped_stream quarantine_run (Ret s)
    stopped_stream_good eq_refl Hd Hrun) as (Hbusy & _).
  exists s. split; [exact Hrun|]. split; [exact H2|]. split; [exact H1|]. exact (proj1 (Hbusy 1%nat InFlight H1 eq_refl)).
Defined.

(** The stream started with a callback, whose thread waits, and a close begun. *)
Definition dead_device_run : list label :=
  start_two true ++ [LThread enough_memory; LUser UClose].

