(* ===== verification/Assembly.v ===== *)
(** * Assembly: what the payload processor is meant to do

    An abstract assembler that knows images and not buffers: it has the image
    received so far, the flag for errors and the frame published last.  The payload
    processor of src/stream.c implements it for every sequence of payloads, whatever
    bytes they are made of: a theorem about the assembler holds for the code. *)

From stdpp Require Import prelude.
From S2P Require Import Prelude Types Environment Handles Negotiation Stream StreamFacts Transfers TransfersFacts.

(** ** The assembler *)

Record assembler := {
  am_fid : Z;
  am_seq : Z;
  am_image : bytes;
  am_flagged : bool;
  am_held : Z * bytes;
}.

(** Whether the listeners are woken, the number of the frame and its image. *)
Abbreviation announcement := (bool * (Z * bytes))%type.

Definition am_start : assembler :=
  {| am_fid := 0; am_seq := 1; am_image := []; am_flagged := false; am_held := (0, []) |}.

Definition am_with_fid (a : assembler) (fid : Z) : assembler :=
  {| am_fid := fid; am_seq := am_seq a; am_image := am_image a; am_flagged := am_flagged a; am_held := am_held a |}.

Definition am_with_image (a : assembler) (image : bytes) : assembler :=
  {| am_fid := am_fid a; am_seq := am_seq a; am_image := image; am_flagged := am_flagged a; am_held := am_held a |}.

Definition am_flag (a : assembler) : assembler :=
  {| am_fid := am_fid a; am_seq := am_seq a; am_image := am_image a; am_flagged := true; am_held := am_held a |}.

(** The image received so far becomes a frame. *)
Definition am_publish (a : assembler) : assembler * list announcement :=
  ({| am_fid := am_fid a; am_seq := u32 (am_seq a + 1); am_image := []; am_flagged := false;
      am_held := (am_seq a, am_image a) |},
   [(negb (am_flagged a), (am_seq a, am_image a))]).

(** Image data: what is beyond [max] is cut off; a frame ends with EOF, or full. *)
Definition am_add (max : Z) (a : assembler) (eof : bool) (data : bytes) : assembler * list announcement :=
  if 0 <? len data then
    let image := take (Z.to_nat max) (am_image a ++ data) in
    let a := am_with_image a image in
    if eof || (len image =? max) then am_publish a else (a, [])
  else (a, []).

(** The tag an iSight camera sends with its headers, at [o] in [n] bytes or more. *)
Definition tagged (payload : bytes) (n o : Z) : bool :=
  (n <=? len payload) && bool_decide (take 12 (drop (Z.to_nat o) payload) = isight_tag).

(** A payload: data alone, or a header and data.  A header that announces more than
    there is makes the payload void, the error bit makes it a bad one; a changed
    frame id ends the frame before. *)
Definition am_receive (is_isight : bool) (max : Z) (a : assembler) (payload : bytes)
    : assembler * list announcement :=
  if len payload =? 0 then (a, []) else
  if is_isight && negb (tagged payload 14 2 || tagged payload 15 3) then am_add max a false payload else
  let header_len := byte_at payload 0 in
  if len payload <? header_len then (a, []) else
  let data := if is_isight then [] else drop (Z.to_nat header_len) payload in
  if header_len <? 2 then am_add max a false data else
  let flags := byte_at payload 1 in
  if nz (Z.land flags 0x40) then (am_flag a, []) else
  let fid := Z.land flags 1 in
  let '(a, out) := if negb (am_fid a =? fid) && (0 <? len (am_image a)) then am_publish a else (a, []) in
  let '(a, out2) := am_add max (am_with_fid a fid) (nz (Z.land flags 2)) data in
  (a, out ++ out2).

Fixpoint am_receive_all (is_isight : bool) (max : Z) (a : assembler) (payloads : list bytes)
    : assembler * list announcement :=
  match payloads with
  | [] => (a, [])
  | p :: rest =>
      let '(a, out) := am_receive is_isight max a p in
      let '(a, out2) := am_receive_all is_isight max a rest in
      (a, out ++ out2)
  end.

(** ** How a stream represents it *)

(** The held buffer has the frame [v]. *)
Definition holds (v : Z * bytes) (hd : stream_hold) : Prop :=
  hd_seq hd = v.1 ∧ hd_bytes hd = len v.2 ∧ take (Z.to_nat (len v.2)) (hd_buf hd) = v.2.

Definition announces (o : announcement) (p : publication) : Prop := p.1 = o.1 ∧ holds o.2 p.2.

Record filling (max : Z) (a : assembler) (h : uvc_stream_handle) : Prop := {
  fl_max : fits 32 max;
  fl_ctrl : sc_dwMaxVideoFrameSize (sh_cur_ctrl h) = max;
  fl_buf : len (wk_outbuf (sh_working h)) = max;
  fl_meta_buf : len (wk_meta_outbuf (sh_working h)) = LIBUVC_XFER_META_BUF_SIZE;
  fl_meta : 0 ≤ wk_meta_got_bytes (sh_working h) ≤ LIBUVC_XFER_META_BUF_SIZE;
  fl_hold : hold_ok max (sh_hold h);
  fl_fid : wk_fid (sh_working h) = am_fid a;
  fl_seq : wk_seq (sh_working h) = am_seq a;
  fl_got : wk_got_bytes (sh_working h) = len (am_image a);
  fl_fit : len (am_image a) ≤ max;
  fl_image : take (Z.to_nat (len (am_image a))) (wk_outbuf (sh_working h)) = am_image a;
  fl_flag : wk_frame_had_errors (sh_working h) = am_flagged a;
  fl_held : holds (am_held a) (sh_hold h);
}.

(** Between two payloads there is room left. *)
Definition implements (max : Z) (a : assembler) (h : uvc_stream_handle) : Prop :=
  filling max a h ∧ (len (am_image a) < max ∨ am_image a = []).

Lemma implements_inv max a h : implements max a h → stream_inv h.
Proof.
  intros [[] Hroom]. unfold stream_inv, working_ok. rewrite fl_ctrl0, fl_got0.
  pose proof (len_nonneg (am_image a)). split_and!; try done; try lia.
  destruct Hroom as [|E]; [by left|right; by rewrite E].
Qed.

(** A stream that holds nothing yet. *)
Lemma implements_start h :
  stream_inv h → wk_fid (sh_working h) = 0 → wk_seq (sh_working h) = 1 → wk_got_bytes (sh_working h) = 0 →
  wk_frame_had_errors (sh_working h) = false → hd_seq (sh_hold h) = 0 → hd_bytes (sh_hold h) = 0 →
  implements (sc_dwMaxVideoFrameSize (sh_cur_ctrl h)) am_start h.
Proof.
  intros (Hf & (? & ? & ? & ? & ?) & Hh) Hfid Hseq Hgot Herr Hs Hb. split; [|by right].
  destruct Hf as [Hf0 Hf1]. by split.
Qed.

Section refinement.
Context (clock : Z → Z) (max : Z).

Lemma swap_refines a h :
  filling max a h →
  implements max (am_publish a).1 (_uvc_swap_buffers clock h).1
  ∧ Forall2 announces (am_publish a).2 [(_uvc_swap_buffers clock h).2].
Proof.
  intros []. destruct fl_hold0 as (Hb1 & Hb2 & Hb3 & Hb4). pose proof (len_nonneg (am_image a)).
  assert (holds (am_seq a, am_image a) (_uvc_swap_buffers clock h).2.2) as Hh by done.
  split; [split; [|by right]|repeat constructor; [simpl; by rewrite fl_flag0|apply Hh..]].
  split; try done; simpl; rewrite ?fl_seq0; try done.
  - unfold hold_ok. simpl. rewrite fl_got0. split_and!; done || lia.
  - by destruct fl_max0.
Qed.

Lemma take_image (image data : bytes) :
  len image ≤ max →
  take (Z.to_nat max) (image ++ data) = image ++ take (Z.to_nat (Z.min (len data) (max - len image))) data.
Proof.
  intros Hl. unfold len in *. rewrite take_app, firstn_all2 by lia. f_equal.
  destruct (Z.min_spec (Z.of_nat (length data)) (max - Z.of_nat (length image))) as [[Hm ->]|[Hm ->]].
  - rewrite !firstn_all2 by lia. done.
  - f_equal. lia.
Qed.

(** The bytes copied by [append_data] are those the assembler keeps. *)
Lemma append_refines a h payload hl info dl :
  implements max a h → 0 ≤ hl → 0 ≤ dl < 2 ^ 32 → hl + dl ≤ len payload →
  returns (append_data clock h payload hl info dl) (λ '(h', pubs),
    let '(a', out) := am_add max a (nz (Z.land info 2)) (take (Z.to_nat dl) (drop (Z.to_nat hl) payload)) in
    implements max a' h' ∧ Forall2 announces out pubs).
Proof.
  intros [Hfill Hroom] Hhl Hdl Hp. set (data := take _ (drop _ payload)).
  assert (len data = dl) as Hdata.
  { unfold data. apply len_take. rewrite len_drop by (pose proof (len_nonneg payload); lia). lia. }
  unfold append_data, am_add. rewrite Hdata. destruct (0 <? dl) eqn:E; [|done].
  pose proof Hfill as []. pose proof fl_max0 as [Hm0 Hm1]. rewrite fl_ctrl0, fl_got0, take_image by done.
  pose proof (len_nonneg (am_image a)) as Hi.
  set (d := if max <? _ then _ else _).
  assert (d = Z.min dl (max - len (am_image a))) as Hd
    by (unfold d; rewrite !u64_small by lia; case_match; lia).
  rewrite <- Hdata in Hd. rewrite <- Hd. rewrite Hdata in Hd. clearbody d.
  destruct (memcpy_in (wk_outbuf (sh_working h)) (len (am_image a)) payload hl d) as (out & -> & Hlen & Htake & _); [lia..|].
  cbn [mbind outcome_bind]. rewrite u64_small by lia.
  set (image := am_image a ++ take (Z.to_nat d) data).
  assert (len image = len (am_image a) + d) as Himage
    by (unfold image; rewrite len_app, len_take by lia; done).
  rewrite <- Himage. set (h1 := set_working h _).
  assert (filling max (am_with_image a image) h1) as Hfill1.
  { split; try done; simpl; try lia. rewrite Himage, Htake, fl_image0. unfold image. f_equal.
    unfold data. rewrite take_take. f_equal. lia. }
  destruct (_ || _) eqn:Eend; cbn [returns].
  - destruct (_uvc_swap_buffers clock h1) as [h' p] eqn:Es. cbn [returns].
    pose proof (swap_refines _ _ Hfill1) as [H1 H2]. by rewrite Es in H1, H2.
  - apply orb_false_iff in Eend as [_ Eend]. apply Z.eqb_neq in Eend. split; [|constructor].
    split; [done|]. left. cbn [am_with_image am_image]. lia.
Qed.

Lemma header_refines a h payload header_len info :
  implements max a h → 0 ≤ header_len < 256 → header_len ≤ len payload →
  returns (read_header (sh_working h) payload header_len info) (λ w,
    implements max (am_with_fid a (Z.land info 1)) (set_working h w)).
Proof.
  intros Himp Hl Hp. pose proof (implements_inv _ _ _ Himp) as (_ & Hw & _). destruct Himp as [[] Hroom].
  rewrite fl_ctrl0 in Hw. eapply returns_mono; [by apply (read_header_safe max)|].
  intros w ((Ho & _ & _ & Hml & Hmg) & Hg & Hout & He & Hs & Hf). split; [|done].
  split; try done; cbn [set_working sh_working am_with_fid am_seq am_image am_flagged]; try congruence.
Qed.

Lemma tag_refines payload n o :
  0 ≤ o → o + 12 ≤ n → no_tag payload (len payload) n o = Ret (negb (tagged payload n o)).
Proof.
  intros Ho Hn. unfold no_tag, tagged. destruct (len payload <? n) eqn:E.
  - by replace (n <=? len payload) with false by lia.
  - replace (n <=? len payload) with true by lia. rewrite rd_bytes_in by lia. done.
Qed.

Lemma magic_refines payload :
  no_isight_magic payload (len payload) = Ret (negb (tagged payload 14 2 || tagged payload 15 3)).
Proof.
  unfold no_isight_magic. rewrite !tag_refines by lia. by destruct (tagged payload 14 2).
Qed.

Lemma payload_refines is_isight a h payload :
  implements max a h → payload_ok payload →
  returns (_uvc_process_payload clock is_isight h payload (len payload)) (λ '(h', pubs),
    let '(a', out) := am_receive is_isight max a payload in
    implements max a' h' ∧ Forall2 announces out pubs).
Proof.
  intros Himp [Hb Hsmall]. pose proof (len_nonneg payload) as Hlen. unfold _uvc_process_payload, am_receive.
  destruct (Z.eqb_spec (len payload) 0) as [|E0]; [done|].
  assert ((if is_isight then no_isight_magic payload (len payload) else Ret false)
    = Ret (is_isight && negb (tagged payload 14 2 || tagged payload 15 3))) as ->
    by (destruct is_isight; [apply magic_refines|done]).
  cbn [mbind outcome_bind]. destruct (is_isight && _).
  { pose proof (append_refines a h payload 0 0 (len payload) Himp) as Ha.
    assert (take (Z.to_nat (len payload)) (drop (Z.to_nat 0) payload) = payload) as Hall
      by (apply firstn_all2; simpl; unfold len; lia).
    rewrite Hall in Ha. apply Ha; lia. }
  rewrite (rd_byte_at payload 0) by lia. cbn [mbind outcome_bind].
  pose proof (byte_at_fits payload 0 Hb) as [Hh0 Hh1]. change (2 ^ 8) with 256 in Hh1. set (hl := byte_at payload 0) in *.
  destruct (len payload <? hl) eqn:E1; [done|]. apply Z.ltb_ge in E1.
  set (dl := if is_isight then 0 else _). set (data := if is_isight then [] else _).
  assert (0 ≤ dl < 2 ^ 32 ∧ hl + dl ≤ len payload ∧ take (Z.to_nat dl) (drop (Z.to_nat hl) payload) = data)
    as (Hd0 & Hd1 & Hd).
  { unfold dl, data. destruct is_isight; split_and!; try lia; try done.
    apply firstn_all2. rewrite length_drop. unfold len. lia. }
  destruct (hl <? 2) eqn:E2.
  { pose proof (append_refines a h payload hl 0 dl Himp) as Ha. rewrite Hd in Ha. by apply Ha. }
  rewrite (rd_byte_at payload 1) by lia. cbn [mbind outcome_bind]. set (flags := byte_at payload 1).
  destruct (nz (Z.land flags 64)).
  { cbn [returns]. destruct Himp as [[] Hroom]. split; [|constructor]. split; [|done]. by split. }
  assert (negb (wk_fid (sh_working h) =? Z.land flags 1) && nz (wk_got_bytes (sh_working h))
    = negb (am_fid a =? Z.land flags 1) && (0 <? len (am_image a))) as ->.
  { destruct Himp as [[] _]. rewrite fl_fid0, fl_got0. f_equal. unfold nz. pose proof (len_nonneg (am_image a)).
    destruct (Z.eqb_spec (len (am_image a)) 0), (Z.ltb_spec 0 (len (am_image a))); done || lia. }
  assert (∃ a1 out1 h1 pubs1,
    (if negb (am_fid a =? Z.land flags 1) && (0 <? len (am_image a)) then am_publish a else (a, [])) = (a1, out1)
    ∧ (if negb (am_fid a =? Z.land flags 1) && (0 <? len (am_image a))
       then let '(h, p) := _uvc_swap_buffers clock h in (h, [p]) else (h, [])) = (h1, pubs1)
    ∧ implements max a1 h1 ∧ Forall2 announces out1 pubs1) as (a1 & out1 & h1 & pubs1 & -> & -> & Himp1 & Hout1).
  { destruct (_ && _); [|by exists a, [], h, []]. destruct Himp as [Hf _].
    pose proof (swap_refines a h Hf) as [H1 H2]. destruct (_uvc_swap_buffers clock h) as [h' p] eqn:Es.
    by do 4 eexists. }
  rewrite returns_bind. eapply returns_mono; [apply (header_refines a1 h1); [done|lia|done]|].
  intros w Hw. rewrite returns_bind. eapply returns_mono; [by apply (append_refines _ _ payload hl flags dl Hw)|].
  rewrite Hd. intros [h2 pubs2]. destruct (am_add _ _ _ _) as [a2 out2]. intros [H1 H2]. split; [done|].
  by apply Forall2_app.
Qed.

Lemma flag_refines a h :
  implements max a h → implements max (am_flag a) (set_working h (set_had_errors (sh_working h) true)).
Proof. intros [[] Hroom]. split; [|done]. by split. Qed.

(** C6: the payload processor implements the abstract assembler.  For every
    sequence of payloads, whatever bytes the device sends and for either kind of
    camera, it returns, and it announces exactly the frames the assembler does: the
    same images byte for byte, under the same numbers, waking the listeners for the
    same ones; what it has of the next frame is what the assembler has of it, and the
    parts of the handle other threads use are untouched. *)
Theorem assembly_refines is_isight payloads a h :
  implements max a h → Forall payload_ok payloads →
  returns (process_payloads clock is_isight h payloads) (λ '(h', pubs),
    let '(a', out) := am_receive_all is_isight max a payloads in
    implements max a' h' ∧ Forall2 announces out pubs ∧ untouched h h').
Proof.
  intros Himp Hall. revert a h Himp. induction Hall as [|p ps Hp _ IH]; intros a h Himp;
    cbn [process_payloads am_receive_all]; [by split_and!|].
  pose proof (payload_refines is_isight a h p Himp Hp) as Hr. pose proof (payload_keeps clock is_isight h p (len p)) as Hk.
  destruct (_uvc_process_payload clock is_isight h p (len p)) as [[h1 pubs]|]; [|done].
  cbn [returns if_returns mbind outcome_bind] in *. destruct (am_receive is_isight max a p) as [a1 out].
  destruct Hr as [H1 H2]. rewrite returns_bind. eapply returns_mono; [by apply IH|]. intros [h' pubs2].
  destruct (am_receive_all is_isight max a1 ps) as [a' out2]. intros (H3 & H4 & H5). cbn [returns].
  split_and!; [done|by apply Forall2_app|by etrans].
Qed.

(** ** Transfers *)

(** A packet that failed makes the frame a bad one. *)
Fixpoint am_packets (is_isight : bool) (a : assembler) (packets : list (Z * bytes)) : assembler * list announcement :=
  match packets with
  | [] => (a, [])
  | (status, payload) :: rest =>
      let '(a, out) := if nz status then (am_flag a, []) else am_receive is_isight max a payload in
      let '(a, out2) := am_packets is_isight a rest in
      (a, out ++ out2)
  end.

Definition am_complete (is_isight : bool) (a : assembler) (data : xfer_data) : assembler * list announcement :=
  match data with
  | BulkData payload => am_receive is_isight max a payload
  | IsoData packets => am_packets is_isight a packets
  end.

Lemma packets_refine is_isight packets a h :
  implements max a h → Forall (λ p, payload_ok p.2) packets →
  returns (process_packets clock is_isight h packets) (λ '(h', pubs),
    let '(a', out) := am_packets is_isight a packets in
    implements max a' h' ∧ Forall2 announces out pubs ∧ untouched h h').
Proof.
  intros Himp Hall. revert a h Himp. induction Hall as [|[status p] ps Hp _ IH]; intros a h Himp;
    cbn [process_packets am_packets fst snd] in *; [done|].
  destruct (nz status).
  - eapply returns_mono; [by apply IH, flag_refines|]. intros [h' pubs].
    by destruct (am_packets is_isight (am_flag a) ps).
  - pose proof (payload_refines is_isight a h p Himp Hp) as Hr. pose proof (payload_keeps clock is_isight h p (len p)) as Hk.
    destruct (_uvc_process_payload clock is_isight h p (len p)) as [[h1 pubs]|]; [|done].
    cbn [returns if_returns mbind outcome_bind] in *. destruct (am_receive is_isight max a p) as [a1 out].
    destruct Hr as [H1 H2]. rewrite returns_bind. eapply returns_mono; [by apply IH|]. intros [h' pubs2].
    destruct (am_packets is_isight a1 ps) as [a' out2]. intros (H3 & H4 & H5). cbn [returns].
    split_and!; [done|by apply Forall2_app|by etrans].
Qed.

Lemma complete_refines is_isight a h data :
  implements max a h → data_ok data →
  returns (process_completed clock is_isight h data) (λ '(h', pubs),
    let '(a', out) := am_complete is_isight a data in
    implements max a' h' ∧ Forall2 announces out pubs ∧ untouched h h').
Proof.
  intros Himp Hd. destruct data as [p|packets]; cbn [process_completed am_complete data_ok] in *; [|by apply packets_refine].
  pose proof (payload_refines is_isight a h p Himp Hd) as Hr. pose proof (payload_keeps clock is_isight h p (len p)) as Hk.
  destruct (_uvc_process_payload clock is_isight h p (len p)) as [[h1 pubs]|]; [|done].
  cbn [returns if_returns] in *. destruct (am_receive is_isight max a p) as [a1 out]. by destruct Hr.
Qed.

(** ** Numbers *)

(** The frame held is the one announced last, or still the one before. *)
Definition newest (v : Z * bytes) (out : list announcement) : Z * bytes := default v (snd <$> last out).

(** At most [k] frames are announced, and they are numbered from the next number on. *)
Definition advances (k : Z) (a : assembler) (r : assembler * list announcement) : Prop :=
  0 ≤ am_seq a → am_seq a + k < 2 ^ 32 → (am_held a).1 = am_seq a - 1 →
  am_seq r.1 = am_seq a + len r.2 ∧ len r.2 ≤ k ∧ (am_held r.1).1 = am_seq r.1 - 1
  ∧ am_held r.1 = newest (am_held a) r.2.

Lemma advances_stay k a a' :
  0 ≤ k → am_seq a' = am_seq a → am_held a' = am_held a → advances k a (a', []).
Proof. intros Hk Hs Hh H0 H1 H2. cbn [fst snd]. change (len []) with 0. rewrite Hs, Hh. split_and!; try done; lia. Qed.

Lemma advances_trans k1 k2 a a1 out1 r :
  0 ≤ k2 → advances k1 a (a1, out1) → advances k2 a1 r → advances (k1 + k2) a (r.1, out1 ++ r.2).
Proof.
  intros Hk H1 H2 Ha Hb Hc. destruct H1 as (E1 & E2 & E3 & E4); [done|lia|done|]. cbn [fst snd] in *.
  pose proof (len_nonneg out1). destruct H2 as (F1 & F2 & F3 & F4); [lia|lia|done|].
  rewrite len_app. split_and!; [lia|lia|done|]. rewrite F4, E4. unfold newest. rewrite last_app.
  by destruct (last r.2).
Qed.

Lemma publish_advances a : advances 1 a (am_publish a).
Proof.
  intros H0 H1 H2. cbn [am_publish fst snd am_seq am_held]. rewrite wrapu_id by (unfold fits; lia).
  split_and!; try done; lia.
Qed.

Lemma add_advances a eof data : advances 1 a (am_add max a eof data).
Proof.
  unfold am_add. destruct (0 <? len data); [|by apply advances_stay].
  destruct (eof || _); [|by apply advances_stay]. apply (publish_advances (am_with_image a _)).
Qed.

Lemma advances_weaken k1 k2 a r : k1 ≤ k2 → advances k1 a r → advances k2 a r.
Proof. intros Hk H1 Ha Hb Hc. destruct H1 as (? & ? & ? & ?); [done|lia|done|]. split_and!; try done; lia. Qed.

Lemma receive_advances is_isight a payload : advances 2 a (am_receive is_isight max a payload).
Proof.
  unfold am_receive. destruct (len payload =? 0); [by apply advances_stay|].
  destruct (is_isight && _); [eapply advances_weaken; [|apply add_advances]; lia|].
  destruct (len payload <? _); [by apply advances_stay|].
  destruct (byte_at payload 0 <? 2); [eapply advances_weaken; [|apply add_advances]; lia|].
  destruct (nz _); [by apply advances_stay|]. set (fid := Z.land _ 1).
  assert (advances 1 a (if negb (am_fid a =? fid) && (0 <? len (am_image a)) then am_publish a else (a, []))) as H1
    by (destruct (_ && _); [apply publish_advances|by apply advances_stay]).
  destruct (if negb _ && _ then _ else _) as [a1 out1].
  match goal with |- context [am_add max ?x ?y ?z] =>
    pose proof (add_advances x y z) as H2; destruct (am_add max x y z) as [a2 out2] end.
  by apply (advances_trans 1 1 a a1 out1 (a2, out2)).
Qed.

Lemma packets_advance is_isight packets a : advances (2 * len packets) a (am_packets is_isight a packets).
Proof.
  revert a. induction packets as [|[status p] ps IH]; intros a; cbn [am_packets]; [by apply advances_stay|].
  pose proof (len_nonneg ps). rewrite len_cons.
  assert (advances 2 a (if nz status then (am_flag a, []) else am_receive is_isight max a p)) as H1
    by (destruct (nz status); [by apply advances_stay|apply receive_advances]).
  destruct (if nz status then _ else _) as [a1 out1]. specialize (IH a1).
  destruct (am_packets is_isight a1 ps) as [a2 out2]. replace (2 * (1 + len ps)) with (2 + 2 * len ps) by lia.
  apply (advances_trans 2 (2 * len ps) a a1 out1 (a2, out2)); [lia|done..].
Qed.

(** The payloads a transfer carries. *)
Definition payload_count (data : xfer_data) : Z :=
  match data with
  | BulkData _ => 1
  | IsoData packets => len packets
  end.

Lemma complete_advances is_isight a data : advances (2 * payload_count data) a (am_complete is_isight a data).
Proof. destruct data; [apply receive_advances|apply packets_advance]. Qed.
End refinement.

(** ** An example *)

(** Two frames: the second payload is bad, the fourth changes the frame id without an
    EOF before it, and the data of the fifth does not fit. *)
Definition sample_payloads : list bytes :=
  [[2; 0; 10; 11]; [2; 0x40; 99]; [2; 2; 12]; [2; 0; 20]; [3; 1; 77; 30; 31; 32; 33; 34; 35; 36; 37; 38; 39]].

Lemma assembly_refines_witness :
  ∃ h' pubs, process_payloads (λ _, 0) false (sample_stream 8 8) sample_payloads = Ret (h', pubs)
    ∧ Forall2 announces [(false, (1, [10; 11; 12])); (true, (2, [20])); (true, (3, [30; 31; 32; 33; 34; 35; 36; 37]))] pubs.
Proof.
  assert (stream_inv (sample_stream 8 8)) as Hi by (apply sample_stream_inv; unfold fits; lia).
  pose proof (implements_start (sample_stream 8 8) Hi eq_refl eq_refl eq_refl eq_refl eq_refl eq_refl) as Himp.
  assert (Forall payload_ok sample_payloads) as Hok.
  { repeat constructor; try (unfold len; simpl; lia); by apply (bool_decide_unpack _). }
  pose proof (assembly_refines (λ _, 0) 8 false sample_payloads am_start (sample_stream 8 8) Himp Hok) as Hs.
  destruct (proj1 (returns_iff _ _) Hs) as ([h' pubs] & Hrun & Hres). exists h', pubs. split; [exact Hrun|].
  destruct (am_receive_all false 8 am_start sample_payloads) as [a' out] eqn:Ea.
  assert (out = (am_receive_all false 8 am_start sample_payloads).2) as Hout by (rewrite Ea; reflexivity).
  vm_compute in Hout. subst out. exact (proj1 (proj2 Hres)).
Defined.
