(* ===== verification/StartFacts.v ===== *)
(** * StartFacts: what a stream's transfers are set up with

    The altsetting [uvc_stream_start] selects carries the negotiated payload, is
    the first that does, and the transfers it leads to are of bounded size; the
    state it leaves is the one the transfers start from. *)

From stdpp Require Import prelude.
From S2P Require Import Prelude Types Environment Formats Descriptors DescriptorsFacts Handles Negotiation NegotiationFacts Stream StreamFacts Start Transfers TransfersFacts.

(** ** Endpoints *)

Definition endpoint_wf (ep : usb_endpoint) : Prop :=
  fits 16 (ep_wMaxPacketSize ep) ∧ (∀ n, ep_wBytesPerInterval ep = Some n → fits 16 n).

Definition altsetting_wf (alt : usb_altsetting) : Prop := Forall endpoint_wf (as_endpoint alt).

(** At most 2047 bytes in each of four transactions, or what a SuperSpeed
    companion says. *)
Lemma endpoint_bytes_range address eps : Forall endpoint_wf eps → 0 ≤ endpoint_bytes address eps < 2 ^ 16.
Proof.
  induction 1 as [|ep eps [Hw Hc] _ IH]; cbn [endpoint_bytes]; [lia|].
  destruct (ep_wBytesPerInterval ep) as [n|]; [by apply Hc|]. destruct (_ =? _); [|done].
  set (a := Z.land _ 2047). set (b := Z.land _ 3).
  assert (0 ≤ a < 2 ^ 11) by (unfold a; change 2047 with (Z.ones 11); rewrite Z.land_ones by lia; apply Z.mod_pos_bound; lia).
  assert (0 ≤ b < 2 ^ 2) by (unfold b; change 3 with (Z.ones 2); rewrite Z.land_ones by lia; apply Z.mod_pos_bound; lia).
  nia.
Qed.

(** ** The altsetting *)

(** The first altsetting whose endpoint carries [payload] bytes per packet. *)
Definition first_suitable (alts : list usb_altsetting) (address payload : Z) (alt : usb_altsetting) : Prop :=
  ∃ i, alts !! i = Some alt ∧ payload ≤ endpoint_bytes address (as_endpoint alt)
    ∧ ∀ j alt', (j < i)%nat → alts !! j = Some alt' → endpoint_bytes address (as_endpoint alt') < payload.

(** Packets of [n] bytes for a frame of [max] bytes, at most 32. *)
Definition packets_for (max n : Z) : Z := Z.min 32 ((max + n - 1) / n).

Lemma choose_altsetting_run alts address payload max :
  Forall altsetting_wf alts → 0 < payload → fits 32 max →
  returns (choose_altsetting alts address payload max) (λ chosen,
    match chosen with
    | Some (alt, packets, n) =>
        first_suitable alts address payload alt ∧ n = endpoint_bytes address (as_endpoint alt)
        ∧ packets = packets_for max n
    | None => Forall (λ alt, endpoint_bytes address (as_endpoint alt) < payload) alts
    end).
Proof.
  intros Hwf Hp Hm. induction Hwf as [|alt alts Halt _ IH]; [by constructor|]. cbn [choose_altsetting].
  set (n := endpoint_bytes address (as_endpoint alt)).
  assert (0 ≤ n < 2 ^ 16) as Hn by (by apply endpoint_bytes_range).
  destruct (payload <=? n) eqn:E.
  - rewrite u64_small by (unfold fits in *; lia).
    unfold cdiv. rewrite decide_False by lia. cbn [mbind outcome_bind returns].
    split_and!; [|done|].
    + exists 0%nat. split_and!; [done|unfold n in *; lia|]. intros; lia.
    + unfold packets_for. destruct (32 <? _) eqn:E2; lia.
  - eapply returns_mono; [exact IH|]. intros [[[alt' packets] m]|] H.
    + destruct H as ((i & H1 & H2 & H3) & H4 & H5). split_and!; [|done..].
      exists (S i). split_and!; [done..|]. intros [|j] a Hj Ha; [injection Ha as <-; unfold n in *; lia|].
      apply (H3 j); [lia|done].
    + constructor; [unfold n in *; lia|done].
Qed.

Lemma packets_cover max n :
  0 ≤ max → 0 < n → 0 ≤ packets_for max n ≤ 32 ∧ Z.min max (32 * n) ≤ packets_for max n * n.
Proof.
  intros Hm Hn. unfold packets_for. pose proof (Z.div_mod (max + n - 1) n ltac:(lia)).
  pose proof (Z.mod_pos_bound (max + n - 1) n Hn).
  assert (0 ≤ (max + n - 1) / n) by (apply Z.div_pos; lia). nia.
Qed.

(** ** Selecting it *)

Section start.
Context `{Environment}.

(** Every attempt but the last failed, and there were at most [n]. *)
Lemma select_altsetting_run n idx alt t ret :
  wp (select_altsetting n idx alt ret) (λ r t',
    (length t' ≤ length t + n)%nat
    ∧ (n ≠ 0%nat → ∃ t0 a, t' = t0 ++ [(SetInterfaceAltSetting idx alt, a)] ∧ rs_code a = r)) t.
Proof.
  revert t ret. induction n as [|n IH]; intros t ret; cbn [select_altsetting]; wp_run.
  - split; [lia|done].
  - set (a := answer t _). assert (length (t ++ [(SetInterfaceAltSetting idx alt, a)]) = S (length t)) as Hl
      by (rewrite length_app; simpl; lia).
    destruct (_ =? _); wp_run.
    + split; [lia|]. intros _. by exists t, a.
    + destruct n as [|n]; [cbn [select_altsetting]; wp_run; split; [lia|intros _; by exists t, a]|].
      eapply wp_mono; [apply IH|]. intros r t' [H1 H2]. split; [lia|]. intros _. by apply H2.
Qed.

(** The interface of the stream in the configuration. *)
Definition interface_of (info : uvc_device_info) (h : uvc_stream_handle) : option (list usb_altsetting) :=
  di_config info !! Z.to_nat (si_bInterfaceNumber (sh_stream_if h)).

Lemma start_setup_run devh info alts h t :
  dh_info devh = Some info → interface_of info h = Some alts → 0 ≤ si_bInterfaceNumber (sh_stream_if h) →
  Forall altsetting_wf alts →
  0 < sc_dwMaxPayloadTransferSize (sh_cur_ctrl h) → fits 32 (sc_dwMaxVideoFrameSize (sh_cur_ctrl h)) →
  wp (stream_start_setup devh h) (λ '(ret, h', setup) t',
    let payload := sc_dwMaxPayloadTransferSize (sh_cur_ctrl h) in
    let max := sc_dwMaxVideoFrameSize (sh_cur_ctrl h) in
    let address := si_bEndpointAddress (sh_stream_if h) in
    (∀ s cb, ts_h s = h → ts_h (uvc_stream_start (sh_frame_format h') (bool_decide (is_Some setup))
                                  (dh_transfer_buffer_count devh) cb s) = h')
    ∧ match setup with
      | None => ret ≠ UVC_SUCCESS ∧ (if sh_running h then h' = h ∧ t' = t else sh_running h' = false)
      | Some tu =>
          ret = UVC_SUCCESS ∧ sh_running h = false ∧ sh_running h' = true
          ∧ sh_frame_format h' ≠ UVC_FRAME_FORMAT_UNKNOWN ∧ 2 ≤ tu_count tu ≤ 100
          ∧ if tu_isochronous tu then
              ∃ alt, first_suitable alts address payload alt
                ∧ tu_packet_bytes tu = endpoint_bytes address (as_endpoint alt)
                ∧ 0 ≤ tu_packets tu ≤ 32 ∧ tu_size tu = tu_packets tu * tu_packet_bytes tu
                ∧ Z.min max (32 * tu_packet_bytes tu) ≤ tu_size tu
                ∧ (length t' ≤ length t + 3)%nat
                ∧ ∃ t0 a, t' = t0 ++ [(SetInterfaceAltSetting (as_bInterfaceNumber alt) (as_bAlternateSetting alt), a)]
                    ∧ rs_code a = UVC_SUCCESS
            else len alts ≤ 1 ∧ tu_size tu = payload ∧ t' = t
      end) t.
Proof.
  intros Hinfo Halts Hif Hwf Hp Hm. unfold stream_start_setup.
  destruct (sh_running h) eqn:Er; wp_run.
  { split; [|done]. intros s cb <-. unfold uvc_stream_start. by rewrite Er. }
  assert (∀ h', set_format h' (sh_frame_format h') = h') as Hsame by (by intros []).
  assert (∀ s cb ready fmt, ts_h s = h →
    ts_h (uvc_stream_start fmt ready (dh_transfer_buffer_count devh) cb s)
    = set_running (set_format (start_reset h) fmt) ready) as Hstart.
  { intros s cb ready fmt <-. unfold uvc_stream_start. rewrite Er. by destruct ready. }
  destruct (uvc_find_frame_desc_stream _ _ _) as [[format desc]|]; wp_run; last first.
  { split; [|done]. intros s cb Hs. by rewrite (Hstart s cb _ _ Hs). }
  set (fmt := uvc_frame_format_for_guid _). cbn [set_format sh_frame_format].
  destruct (Z.eqb_spec fmt UVC_FRAME_FORMAT_UNKNOWN); wp_run.
  { split; [|done]. intros s cb Hs. by rewrite (Hstart s cb _ _ Hs). }
  rewrite Hinfo. cbn [deref returns]. change (sh_stream_if (set_format (start_reset h) fmt)) with (sh_stream_if h). wp_run.
  rewrite (proj2 (rd_Ret _ _ alts) (conj Hif Halts)). cbn [returns].
  destruct (1 <? len alts) eqn:El; wp_run; last first.
  { split; [intros s cb Hs; by rewrite (Hstart s cb _ _ Hs)|].
    split_and!; try done; try apply num_transfer_bufs_range. cbn [tu_isochronous]. split_and!; [lia|done..]. }
  eapply returns_mono; [by apply choose_altsetting_run|]. intros [[[alt packets] nb]|] Hc; wp_run; last first.
  { split; [intros s cb Hs; by rewrite (Hstart s cb _ _ Hs)|done]. }
  destruct Hc as (Hfirst & -> & ->).
  eapply wp_mono; [apply select_altsetting_run|]. intros r t' [Ht1 Ht2].
  destruct (Ht2 ltac:(done)) as (t0 & a & -> & Ha).
  destruct (Z.eqb_spec r UVC_SUCCESS) as [->|Hr]; cbn [negb]; wp_run; last first.
  { split; [intros s cb Hs; by rewrite (Hstart s cb _ _ Hs)|done]. }
  split; [intros s cb Hs; by rewrite (Hstart s cb _ _ Hs)|].
  pose proof Hfirst as (i & _ & Hbig & _).
  destruct (packets_cover (sc_dwMaxVideoFrameSize (sh_cur_ctrl h))
    (endpoint_bytes (si_bEndpointAddress (sh_stream_if h)) (as_endpoint alt))) as [H1 H2]; [apply Hm|by eapply Z.lt_le_trans; [exact Hp|exact Hbig]|].
  split_and!; try done; try apply num_transfer_bufs_range.
  exists alt. split_and!; try done; try lia; try apply H1. by exists t0, a.
Qed.

(** The transfers are only set up for a frame size the interface of the stream offers. *)
Lemma start_setup_frame devh h t ret h' tu t' :
  stream_start_setup devh h t = Ret ((ret, h', Some tu), t') →
  is_Some (uvc_find_frame_desc_stream h (sc_bFormatIndex (sh_cur_ctrl h)) (sc_bFrameIndex (sh_cur_ctrl h))).
Proof.
  unfold stream_start_setup. destruct (sh_running h); [discriminate|].
  change (uvc_find_frame_desc_stream (start_reset h)) with (uvc_find_frame_desc_stream h).
  change (sh_cur_ctrl (start_reset h)) with (sh_cur_ctrl h).
  destruct (uvc_find_frame_desc_stream h _ _); [done|discriminate].
Qed.

(** The stream is stopped and has a frame of a known format, so that the set-up goes
    on to the interface. *)
Definition reaches_interface (h : uvc_stream_handle) : bool :=
  negb (sh_running h)
  && match uvc_find_frame_desc_stream h (sc_bFormatIndex (sh_cur_ctrl h)) (sc_bFrameIndex (sh_cur_ctrl h)) with
     | Some (format, _) => negb (uvc_frame_format_for_guid (fm_guidFormat format) =? UVC_FRAME_FORMAT_UNKNOWN)
     | None => false
     end.

Lemma start_setup_no_interface devh info h t :
  dh_info devh = Some info → interface_of info h = None → 0 ≤ si_bInterfaceNumber (sh_stream_if h) →
  reaches_interface h = true → stream_start_setup devh h t = Undef OutOfBounds.
Proof.
  intros Hinfo Hno Hif. unfold reaches_interface, stream_start_setup. destruct (sh_running h); [done|].
  change (uvc_find_frame_desc_stream (start_reset h)) with (uvc_find_frame_desc_stream h).
  change (sh_cur_ctrl (start_reset h)) with (sh_cur_ctrl h).
  destruct (uvc_find_frame_desc_stream h _ _) as [[format desc]|]; [|done]. cbn [negb andb].
  change (sh_frame_format (set_format ?h ?f)) with f.
  destruct (_ =? _); [done|]. intros _. rewrite Hinfo. unfold mbind, io_bind, lift. cbn [deref].
  change (sh_stream_if (set_format (start_reset h) _)) with (sh_stream_if h). unfold rd, interface_of in *.
  case_decide; [|done]. by rewrite Hno.
Qed.


(** When a device's negotiated payload size is 0, starting a stream divides by
    zero: altsetting 0 of a video streaming interface has no endpoint, so its
    packets of 0 bytes are found big enough. *)
Theorem zero_payload_divides_by_zero devh info alts alt0 h format desc t :
  dh_info devh = Some info → interface_of info h = Some (alt0 :: alts) →
  0 ≤ si_bInterfaceNumber (sh_stream_if h) → as_endpoint alt0 = [] → alts ≠ [] →
  sh_running h = false → sc_dwMaxPayloadTransferSize (sh_cur_ctrl h) = 0 →
  uvc_find_frame_desc_stream h (sc_bFormatIndex (sh_cur_ctrl h)) (sc_bFrameIndex (sh_cur_ctrl h)) = Some (format, desc) →
  uvc_frame_format_for_guid (fm_guidFormat format) ≠ UVC_FRAME_FORMAT_UNKNOWN →
  stream_start_setup devh h t = Undef DivByZero.
Proof.
  intros Hinfo Halts Hif Hep Hne Hr Hp Hd Hf. unfold stream_start_setup. rewrite Hr.
  change (uvc_find_frame_desc_stream (start_reset h)) with (uvc_find_frame_desc_stream h).
  change (sh_cur_ctrl (start_reset h)) with (sh_cur_ctrl h). rewrite Hd.
  cbn [set_format sh_frame_format]. rewrite (proj2 (Z.eqb_neq _ _) Hf).
  rewrite Hinfo, (run_lift _ _ _ info) by done.
  rewrite (run_lift _ _ _ (alt0 :: alts)) by (by apply rd_Ret).
  assert ((1 <? len (alt0 :: alts)) = true) as ->.
  { destruct alts; [done|]. apply Z.ltb_lt. unfold len. simpl. lia. }
  unfold mbind, io_bind, lift. cbn [choose_altsetting]. rewrite Hep, Hp. reflexivity.
Qed.
End start.

(** ** A high-bandwidth isochronous camera *)

Definition idle_alt : usb_altsetting :=
  {| as_bInterfaceNumber := 1; as_bAlternateSetting := 0; as_bInterfaceClass := 14; as_bInterfaceSubClass := 2;
     as_endpoint := []; as_extra := [] |}.

(** Three transactions of 1024 bytes per microframe. *)
Definition video_alt : usb_altsetting :=
  {| as_bInterfaceNumber := 1; as_bAlternateSetting := 1; as_bInterfaceClass := 14; as_bInterfaceSubClass := 2;
     as_endpoint := [{| ep_bEndpointAddress := 0x81; ep_wMaxPacketSize := 0x1400; ep_wBytesPerInterval := None |}];
     as_extra := [] |}.

Definition iso_info : uvc_device_info := info_zero [[]; [idle_alt; video_alt]].

(** A stopped stream for the format of the small device with this payload size. *)
Definition iso_stream (payload : Z) : uvc_stream_handle :=
  let h := sample_stream 8 8 in
  {| sh_stream_if := set_format_descs (sh_stream_if h) [small_format]; sh_running := false;
     sh_cur_ctrl := {| sc_bmHint := 1; sc_bFormatIndex := 1; sc_bFrameIndex := 1; sc_dwFrameInterval := 333333;
       sc_wKeyFrameRate := 0; sc_wPFrameRate := 0; sc_wCompQuality := 0; sc_wCompWindowSize := 0;
       sc_wDelay := 0; sc_dwMaxVideoFrameSize := 1000000; sc_dwMaxPayloadTransferSize := payload;
       sc_dwClockFrequency := 0; sc_bmFramingInfo := 0; sc_bPreferredVersion := 0;
       sc_bMinVersion := 0; sc_bMaxVersion := 0; sc_bInterfaceNumber := 1 |};
     sh_working := sh_working h; sh_hold := sh_hold h; sh_last_polled_seq := 0; sh_user_cb := false;
     sh_frame := sh_frame h; sh_frame_format := 0 |}.


Lemma zero_payload_divides_by_zero_witness :
  stream_start_setup (H := agree_env) (handle_with (Some iso_info) 0 None) (iso_stream 0) [] = Undef DivByZero.
Proof.
  apply (zero_payload_divides_by_zero (H := agree_env) (handle_with (Some iso_info) 0 None) iso_info [video_alt]
    idle_alt (iso_stream 0) small_format degenerate_frame []); try reflexivity; try discriminate.
Defined.
