(* ===== verification/Status.v ===== *)
(** * Status: the VideoControl status endpoint, src/device.c

    A device may have an interrupt endpoint on which it reports button presses and
    changes of controls.  One transfer is kept in flight on it from the opening of
    the device to its close: its callback, on libusb's event thread, handles what
    arrived and submits it again; [uvc_close] stops that before it gives the
    interface back.  First what the callback makes of the bytes, then the life of
    the transfer as steps of the two threads, a step being one critical section
    under [status_mutex] or one access outside it. *)

From stdpp Require Import prelude.
From S2P Require Import Prelude Machine Types Handles Transfers.

(** ** Status packets *)

Definition UVC_STATUS_CLASS_CONTROL_CAMERA : Z := 0x11.
Definition UVC_STATUS_CLASS_CONTROL_PROCESSING : Z := 0x12.

(** The callbacks of a handle: whether each is set, and its [user_ptr]. *)
Record status_callbacks := {
  sb_status_cb : bool;
  sb_status_user_ptr : Z;
  sb_button_cb : bool;
  sb_button_user_ptr : Z;
}.

Definition uvc_set_status_callback (b : status_callbacks) (cb : bool) (user_ptr : Z) : status_callbacks :=
  {| sb_status_cb := cb; sb_status_user_ptr := user_ptr;
     sb_button_cb := sb_button_cb b; sb_button_user_ptr := sb_button_user_ptr b |}.

Definition uvc_set_button_callback (b : status_callbacks) (cb : bool) (user_ptr : Z) : status_callbacks :=
  {| sb_status_cb := sb_status_cb b; sb_status_user_ptr := sb_status_user_ptr b;
     sb_button_cb := cb; sb_button_user_ptr := user_ptr |}.

(** A call of user code. *)
Inductive status_call :=
  | StatusCb (status_class event selector attribute : Z) (content : bytes) (user_ptr : Z)
  | ButtonCb (button state user_ptr : Z).

Section packets.
Context (info : uvc_device_info) (cbs : status_callbacks).

(** The kind of the first entity with this id, terminals before units. *)
Definition status_class_of (originator : Z) : option Z :=
  let c := di_ctrl_if info in
  if existsb (λ t, it_bTerminalID t =? originator) (ci_input_term_descs c)
  then Some UVC_STATUS_CLASS_CONTROL_CAMERA
  else if existsb (λ u, pu_bUnitID u =? originator) (ci_processing_unit_descs c)
  then Some UVC_STATUS_CLASS_CONTROL_PROCESSING
  else None.

Definition uvc_process_control_status (data : bytes) (n : Z) : outcome (list status_call) :=
  if n <? 5 then Ret [] else
  originator ← rd data 1;
  event ← rd data 2;
  selector ← rd data 3;
  if originator =? 0 then Ret [] else
  if nz event then Ret [] else
  match status_class_of originator with
  | None => Ret []
  | Some status_class =>
      attribute ← rd data 4;
      content ← rd_bytes data 5 (n - 5);
      Ret (if sb_status_cb cbs
           then [StatusCb status_class event selector attribute content (sb_status_user_ptr cbs)] else [])
  end.

Definition uvc_process_streaming_status (data : bytes) (n : Z) : outcome (list status_call) :=
  if n <? 3 then Ret [] else
  event ← rd data 2;
  if event =? 0 then
    if n <? 4 then Ret [] else
    button ← rd data 1;
    state ← rd data 3;
    Ret (if sb_button_cb cbs then [ButtonCb button state (sb_button_user_ptr cbs)] else [])
  else Ret [].

(** [data] is the transfer's buffer and [n] its [actual_length]. *)
Definition uvc_process_status_xfer (data : bytes) (n : Z) : outcome (list status_call) :=
  if 0 <? n then
    b ← rd data 0;
    let kind := Z.land b 0x0f in
    if kind =? 1 then uvc_process_control_status data n
    else if kind =? 2 then uvc_process_streaming_status data n
    else Ret []
  else Ret [].
End packets.

(** ** The transfer *)

(** Where the callback is: entered with a status, or about to take the mutex for
    the decision to submit again. *)
Inductive status_pc :=
  | StEntered (status : xfer_status)
  | StResubmit.

(** The transfer: not allocated, with the library, owned by libusb, in its
    callback, freed. *)
Inductive status_xfer :=
  | SNone
  | SHeld
  | SInFlight
  | SCallback (pc : status_pc)
  | SFreed.

(** Where the thread that opens and closes the device is.  [Polling]: in the wait
    of [uvc_stop_status_xfer], with the milliseconds waited and the flag as last
    read; [StoppedXfer]: after it returned; then the interfaces are released, the
    USB handle closed and the library's handle freed. *)
Inductive closer_pc :=
  | Opening
  | Opened
  | Polling (waited_ms : Z) (submitted : bool)
  | StoppedXfer (ok : bool)
  | Releasing
  | ClosingUsb
  | FreeingDevh
  | Gone
  | Quarantined.

Record sstate := {
  ss_xfer : status_xfer;
  ss_submitted : bool;          (* status_xfer_submitted *)
  ss_stopping : bool;           (* status_xfer_stopping *)
  ss_closer : closer_pc;
  ss_claimed : bool;            (* the VideoControl interface is claimed *)
  ss_usb_open : bool;
  ss_devh_live : bool;
  ss_late_urb : bool;           (* submitted on an interface that was not claimed *)
  ss_calls : list status_call;
}.

Definition set_status (s : sstate) (x : status_xfer) (submitted : bool) : sstate :=
  {| ss_xfer := x; ss_submitted := submitted; ss_stopping := ss_stopping s; ss_closer := ss_closer s;
     ss_claimed := ss_claimed s; ss_usb_open := ss_usb_open s; ss_devh_live := ss_devh_live s;
     ss_late_urb := ss_late_urb s; ss_calls := ss_calls s |}.

Definition set_stopping (s : sstate) : sstate :=
  {| ss_xfer := ss_xfer s; ss_submitted := ss_submitted s; ss_stopping := true; ss_closer := ss_closer s;
     ss_claimed := ss_claimed s; ss_usb_open := ss_usb_open s; ss_devh_live := ss_devh_live s;
     ss_late_urb := ss_late_urb s; ss_calls := ss_calls s |}.

Definition set_closer (s : sstate) (pc : closer_pc) : sstate :=
  {| ss_xfer := ss_xfer s; ss_submitted := ss_submitted s; ss_stopping := ss_stopping s; ss_closer := pc;
     ss_claimed := ss_claimed s; ss_usb_open := ss_usb_open s; ss_devh_live := ss_devh_live s;
     ss_late_urb := ss_late_urb s; ss_calls := ss_calls s |}.

Definition set_resources (s : sstate) (claimed usb_open devh_live : bool) : sstate :=
  {| ss_xfer := ss_xfer s; ss_submitted := ss_submitted s; ss_stopping := ss_stopping s; ss_closer := ss_closer s;
     ss_claimed := claimed; ss_usb_open := usb_open; ss_devh_live := devh_live;
     ss_late_urb := ss_late_urb s; ss_calls := ss_calls s |}.

Definition set_late (s : sstate) (late : bool) : sstate :=
  {| ss_xfer := ss_xfer s; ss_submitted := ss_submitted s; ss_stopping := ss_stopping s; ss_closer := ss_closer s;
     ss_claimed := ss_claimed s; ss_usb_open := ss_usb_open s; ss_devh_live := ss_devh_live s;
     ss_late_urb := late; ss_calls := ss_calls s |}.

Definition add_calls (s : sstate) (calls : list status_call) : sstate :=
  {| ss_xfer := ss_xfer s; ss_submitted := ss_submitted s; ss_stopping := ss_stopping s; ss_closer := ss_closer s;
     ss_claimed := ss_claimed s; ss_usb_open := ss_usb_open s; ss_devh_live := ss_devh_live s;
     ss_late_urb := ss_late_urb s; ss_calls := ss_calls s ++ calls |}.

(** libusb or the callback has the transfer. *)
Definition xfer_busy (x : status_xfer) : bool :=
  match x with
  | SInFlight | SCallback _ => true
  | _ => false
  end.

(** [libusb_submit_transfer] with result [ret]; an accepted one is noted if the
    interface is not claimed.  The flag is cleared when it fails. *)
Definition submit_status (ret : Z) (s : sstate) : sstate :=
  if ret =? UVC_SUCCESS
  then set_late (set_status s SInFlight (ss_submitted s)) (ss_late_urb s || negb (ss_claimed s))
  else set_status s SHeld false.

(** The end of [uvc_open_internal]: [endpoint] says whether there is a status
    endpoint, [alloc] whether a transfer could be allocated. *)
Definition open_status (endpoint alloc : bool) (ret : Z) (s : sstate) : sstate :=
  if endpoint then
    if alloc then
      let s := submit_status ret (set_status s SHeld true) in
      set_closer s (if ret =? UVC_SUCCESS then Opened else Releasing)
    else set_closer s Releasing
  else set_closer s Opened.

Section machine.
Context (info : uvc_device_info) (cbs : status_callbacks).

(** [_uvc_status_callback], one section of it; [data] and [n] are the buffer and
    the length received, [ret] the result of a submission. *)
Definition _uvc_status_callback (pc : status_pc) (data : bytes) (n ret : Z) (s : sstate) : outcome sstate :=
  if negb (ss_devh_live s) then Undef UseAfterFree else
  match pc with
  | StEntered (XferError | XferCancelled | XferNoDevice) => Ret (set_status s SHeld false)
  | StEntered XferCompleted =>
      calls ← uvc_process_status_xfer info cbs data n;
      Ret (set_status (add_calls s calls) (SCallback StResubmit) (ss_submitted s))
  | StEntered (XferTimedOut | XferStall | XferOverflow) => Ret (set_status s (SCallback StResubmit) (ss_submitted s))
  | StResubmit =>
      if ss_stopping s then Ret (set_status s SHeld false)
      else Ret (submit_status ret s)
  end.
End machine.

Definition LIBUVC_STATUS_STOP_TIMEOUT_MS : Z := 500.
Definition LIBUVC_STATUS_STOP_POLL_MS : Z := 2.

(** [uvc_stop_status_xfer] up to its wait: announce the stop, and cancel. *)
Definition uvc_stop_status_xfer (s : sstate) : sstate :=
  match ss_xfer s with
  | SNone => set_closer s (StoppedXfer true)
  | _ => set_closer (set_stopping s) (Polling 0 (ss_submitted s))
  end.

(** One round of its wait, and its result. *)
Definition poll_status (waited_ms : Z) (submitted : bool) (s : sstate) : sstate :=
  if submitted && (waited_ms <? LIBUVC_STATUS_STOP_TIMEOUT_MS)
  then set_closer s (Polling (waited_ms + LIBUVC_STATUS_STOP_POLL_MS) (ss_submitted s))
  else set_closer s (StoppedXfer (negb submitted)).

(** [uvc_free_devh]: the transfer is freed when the flag is clear, then the handle.
    libusb forbids freeing a transfer it owns. *)
Definition free_devh (s : sstate) : outcome sstate :=
  let s' := set_closer (set_resources s (ss_claimed s) (ss_usb_open s) false) Gone in
  match ss_xfer s with
  | SNone => Ret s'
  | x => if ss_submitted s then Ret s'
         else if xfer_busy x then Undef UseAfterFree
         else Ret (set_status s' SFreed false)
  end.

(** A step of the closing thread: the rest of [uvc_open_internal] in [Opening], then
    [uvc_close] (in [StoppedXfer], [stream] says that a stream is quarantined). *)
Inductive closer_label :=
  | COpen (endpoint alloc : bool) (ret : Z)
  | CGo (stream : bool).

Definition closer_step (l : closer_label) (s : sstate) : option (outcome sstate) :=
  match ss_closer s, l with
  | Opening, COpen endpoint alloc ret => Some (Ret (open_status endpoint alloc ret s))
  | Opened, CGo _ => Some (Ret (uvc_stop_status_xfer s))
  | Polling waited_ms submitted, CGo _ => Some (Ret (poll_status waited_ms submitted s))
  | StoppedXfer ok, CGo stream => Some (Ret (set_closer s (if stream || negb ok then Quarantined else Releasing)))
  | Releasing, CGo _ => Some (Ret (set_closer (set_resources s false (ss_usb_open s) (ss_devh_live s)) ClosingUsb))
  | ClosingUsb, CGo _ =>
      Some (if xfer_busy (ss_xfer s) then Undef UseAfterFree
            else Ret (set_closer (set_resources s (ss_claimed s) false (ss_devh_live s)) FreeingDevh))
  | FreeingDevh, CGo _ => Some (free_devh s)
  | _, _ => None
  end.

(** A step of the system: libusb completes the transfer, its callback runs a
    section, the closing thread runs. *)
Inductive status_label :=
  | SComplete (status : xfer_status)
  | SRun (data : bytes) (n ret : Z)
  | SCloser (l : closer_label).

Section system.
Context (info : uvc_device_info) (cbs : status_callbacks).

Definition status_step (l : status_label) (s : sstate) : option (outcome sstate) :=
  match l with
  | SComplete status =>
      match ss_xfer s with
      | SInFlight => Some (Ret (set_status s (SCallback (StEntered status)) (ss_submitted s)))
      | _ => None
      end
  | SRun data n ret =>
      match ss_xfer s with
      | SCallback pc => Some (_uvc_status_callback info cbs pc data n ret s)
      | _ => None
      end
  | SCloser l => closer_step l s
  end.
End system.

Abbreviation run_status info cbs := (run_labels (status_step info cbs)).

(** A handle just before the status transfer is set up: the interface is claimed. *)
Definition opening : sstate :=
  {| ss_xfer := SNone; ss_submitted := false; ss_stopping := false; ss_closer := Opening; ss_claimed := true;
     ss_usb_open := true; ss_devh_live := true; ss_late_urb := false; ss_calls := [] |}.
