(* ===== verification/StatusFacts.v ===== *)
(** * StatusFacts: the status transfer is stopped before anything is given back

    What a status packet makes the library call, and that the transfer is neither
    submitted nor touched once its stop has been confirmed. *)

From stdpp Require Import prelude.
From S2P Require Import Prelude Machine Types Handles Transfers Status.

(** Reads at a constant offset of a list that shows enough elements. *)
Ltac rd_const :=
  repeat match goal with
  | |- context [rd (?a :: ?l) ?i] =>
      let v := eval vm_compute in ((a :: l) !! Z.to_nat i) in
      match v with Some ?b => change (rd (a :: l) i) with (Ret b : outcome Z) end
  end; unfold mbind, outcome_bind.

(** ** Status packets *)

Section packets.
Context (info : uvc_device_info) (cbs : status_callbacks).

(** What a packet means, by its bytes: the type of the interface, the originator,
    the event, then a button's state, or a selector, an attribute and the content. *)
Definition packet_calls (p : bytes) : list status_call :=
  match p with
  | kind :: originator :: event :: x :: rest =>
      if negb (event =? 0) then []
      else if Z.land kind 0x0f =? 2 then
        if sb_button_cb cbs then [ButtonCb originator x (sb_button_user_ptr cbs)] else []
      else if (Z.land kind 0x0f =? 1) && negb (originator =? 0) then
        match rest, status_class_of info originator with
        | attribute :: content, Some class =>
            if sb_status_cb cbs then [StatusCb class event x attribute content (sb_status_user_ptr cbs)] else []
        | _, _ => []
        end
      else []
  | _ => []
  end.

(** The handlers on a packet that lies in the buffer. *)
Lemma control_status_spec b0 b1 b2 b3 b4 rest n :
  5 ≤ n ≤ 5 + len rest → Z.land b0 0x0f = 1 →
  uvc_process_control_status info cbs (b0 :: b1 :: b2 :: b3 :: b4 :: rest) n
  = Ret (packet_calls (b0 :: b1 :: b2 :: b3 :: b4 :: take (Z.to_nat (n - 5)) rest)).
Proof.
  intros Hn Hk. unfold uvc_process_control_status, packet_calls. rewrite Hk.
  rewrite (proj2 (Z.ltb_ge n 5)) by lia.
  rd_const. unfold nz. destruct (b1 =? 0), (b2 =? 0); try done.
  cbn [negb andb Z.eqb Pos.eqb]. destruct (status_class_of info b1); [|done].
  rewrite rd_bytes_in by (unfold len in *; simpl; lia). done.
Qed.

Lemma status_xfer_spec data n :
  0 ≤ n ≤ len data →
  uvc_process_status_xfer info cbs data n = Ret (packet_calls (take (Z.to_nat n) data)).
Proof.
  intros Hn. unfold uvc_process_status_xfer, uvc_process_streaming_status.
  destruct (decide (n ≤ 4)) as [Hs|Hs].
  - assert (n = 0 ∨ n = 1 ∨ n = 2 ∨ n = 3 ∨ n = 4) as Hcase by lia.
    assert (∀ d, n < 5 → uvc_process_control_status info cbs d n = Ret []) as Hc.
    { intros d Hd. unfold uvc_process_control_status. by rewrite (proj2 (Z.ltb_lt n 5)). }
    rewrite Hc by lia. clear Hc Hs.
    destruct data as [|b0 [|b1 [|b2 [|b3 rest]]]]; unfold len in Hn; simpl length in Hn;
      destruct Hcase as [->|[->|[->|[->| ->]]]]; try lia; try done.
    all: rd_const; simpl; destruct (Z.land b0 15 =? 1) eqn:E1, (Z.land b0 15 =? 2) eqn:E2; try done; try lia.
    all: try destruct (b2 =? 0); try destruct (b1 =? 0); done.
  - destruct data as [|b0 [|b1 [|b2 [|b3 [|b4 rest]]]]]; unfold len in Hn; simpl length in Hn; try lia.
    replace (Z.to_nat n) with (5 + Z.to_nat (n - 5))%nat by lia. cbn [take plus].
    rewrite (proj2 (Z.ltb_lt 0 n)) by lia. rd_const.
    destruct (Z.eqb_spec (Z.land b0 15) 1) as [E1|E1].
    { apply control_status_spec; [unfold len; lia|done]. }
    rewrite (proj2 (Z.ltb_ge n 3)), (proj2 (Z.ltb_ge n 4)) by lia. cbn [packet_calls].
    rewrite (proj2 (Z.eqb_neq _ _) E1). by destruct (_ =? 2), (b2 =? 0).
Qed.
(** C27: a status packet of any length and content is handled within the transfer's
    buffer, and the callbacks run are exactly those its received bytes call for: a
    button event for a streaming interface's packet, a control update for one
    from a known terminal or processing unit, nothing for anything else. *)
Theorem status_packet_calls data n :
  0 ≤ n ≤ len data →
  uvc_process_status_xfer info cbs data n = Ret (packet_calls (take (Z.to_nat n) data)).
Proof. apply status_xfer_spec. Qed.
End packets.

(** ** The transfer *)

Definition status_live (s : sstate) : Prop :=
  ss_claimed s = true ∧ ss_usb_open s = true ∧ ss_devh_live s = true.

(** The library has the transfer, for good. *)
Definition settled (s : sstate) : Prop := xfer_busy (ss_xfer s) = false ∧ ss_submitted s = false.

Definition closer_ok (s : sstate) : Prop :=
  match ss_closer s with
  | Opening => status_live s ∧ settled s ∧ ss_xfer s = SNone
  | Opened => status_live s
  | Polling w submitted => status_live s ∧ ss_stopping s = true ∧ 0 ≤ w < LIBUVC_STATUS_STOP_TIMEOUT_MS + LIBUVC_STATUS_STOP_POLL_MS
                           ∧ (submitted = false → settled s)
  | StoppedXfer ok => status_live s ∧ (ok = true → settled s)
  | Releasing => status_live s ∧ settled s
  | Quarantined => status_live s
  | _ => settled s
  end.

Record sinv (s : sstate) : Prop := {
  si_busy : xfer_busy (ss_xfer s) = true → ss_submitted s = true ∧ status_live s;
  si_clear : ss_submitted s = true → xfer_busy (ss_xfer s) = true;
  si_late : ss_late_urb s = false;
  si_freed : ss_xfer s = SFreed → ss_closer s = Gone;
  si_closer : closer_ok s;
}.

(** What libusb gives the callback: as many bytes as it says, in the buffer. *)
Definition status_label_ok (l : status_label) : Prop :=
  match l with
  | SRun data n _ => 0 ≤ n ≤ len data
  | _ => True
  end.

Section safety.
Context (info : uvc_device_info) (cbs : status_callbacks).

(** A transfer that is busy stays so, or is given back with its flag cleared. *)
Lemma sinv_busy_step s x submitted calls :
  sinv s → xfer_busy (ss_xfer s) = true →
  (xfer_busy x = true ∧ submitted = ss_submitted s ∨ x = SHeld ∧ submitted = false) →
  sinv (set_status (add_calls s calls) x submitted).
Proof.
  intros [Hb Hc Hl Hf Hcl] Hbusy Hx. destruct (Hb Hbusy) as [Hsub Hlive].
  split; cbn [set_status add_calls ss_xfer ss_submitted ss_late_urb ss_closer]; try done.
  - destruct Hx as [[? ->]|[-> ->]]; intros ?; [by split|done].
  - destruct Hx as [[? ->]|[-> ->]]; done.
  - intros ->. by destruct Hx as [[? _]|[? _]].
  - assert (settled s → False) as Hns by (intros [H _]; congruence).
    assert (status_live (set_status (add_calls s calls) x submitted)) as Hlive' by done.
    unfold closer_ok in *. cbn [set_status add_calls ss_closer ss_stopping ss_xfer]. destruct (ss_closer s); try done.
    + by destruct Hcl as (_ & H & _).
    + destruct Hcl as (_ & Hstop & Hw & Hset). split_and!; [done|done|apply Hw|apply Hw|]. intros H. by destruct Hns; apply Hset.
    + destruct Hcl as (_ & Hset). split; [done|]. intros H. by destruct Hns; apply Hset.
    + by destruct Hcl.
Qed.

Lemma add_no_calls s : add_calls s [] = s.
Proof. destruct s. unfold add_calls. simpl. by rewrite app_nil_r. Qed.

Lemma submit_status_inv s ret :
  sinv s → xfer_busy (ss_xfer s) = true → sinv (submit_status ret s).
Proof.
  intros Hi Hbusy. unfold submit_status. destruct (si_busy _ Hi Hbusy) as [_ (Hcl & _)].
  rewrite <- (add_no_calls s). destruct (ret =? UVC_SUCCESS).
  - pose proof (sinv_busy_step s SInFlight (ss_submitted s) [] Hi Hbusy ltac:(by left)) as [? ? ? ? ?].
    split; try done. cbn [set_late ss_late_urb add_calls ss_claimed]. rewrite Hcl, (si_late _ Hi). done.
  - apply sinv_busy_step; [done..|by right].
Qed.

Lemma status_callback_inv pc data n ret s :
  sinv s → ss_xfer s = SCallback pc → 0 ≤ n ≤ len data →
  returns (_uvc_status_callback info cbs pc data n ret s) sinv.
Proof.
  intros Hi Hx Hn. assert (xfer_busy (ss_xfer s) = true) as Hbusy by (by rewrite Hx).
  destruct (si_busy _ Hi Hbusy) as [Hsub (_ & _ & Hlive)].
  assert (∀ x submitted, xfer_busy x = true ∧ submitted = ss_submitted s ∨ x = SHeld ∧ submitted = false →
    sinv (set_status s x submitted)) as Hset.
  { intros. rewrite <- (add_no_calls s) at 1. by apply sinv_busy_step. }
  unfold _uvc_status_callback. rewrite Hlive. cbn [negb].
  destruct pc as [[]|]; try (apply Hset; auto; fail).
  - rewrite (status_xfer_spec info cbs data n Hn). cbn [mbind outcome_bind returns].
    apply sinv_busy_step; [done..|by left].
  - destruct (ss_stopping s); [apply Hset; auto|]. by apply submit_status_inv.
Qed.

(** *** The closing thread *)

(** The closing thread moves on; what it may have changed are the resources and
    the stop flag. *)
Lemma sinv_closer s s' :
  sinv s → ss_xfer s' = ss_xfer s → ss_submitted s' = ss_submitted s → ss_late_urb s' = false →
  (ss_xfer s = SFreed → ss_closer s' = Gone) → (xfer_busy (ss_xfer s) = true → status_live s') →
  closer_ok s' → sinv s'.
Proof.
  intros [Hb Hc Hl Hf Hcl] Hx Hsub Hlate Hfr Hlive Hok. split; rewrite ?Hx, ?Hsub; auto.
  intros H. split; [by apply Hb|auto].
Qed.

Lemma open_status_inv endpoint alloc ret s :
  sinv s → ss_closer s = Opening → sinv (open_status endpoint alloc ret s).
Proof.
  intros Hi Hpc. pose proof (si_closer _ Hi) as Hok. unfold closer_ok in Hok. rewrite Hpc in Hok.
  destruct Hok as (Hlive & Hset & Hnone). unfold open_status.
  destruct endpoint; [destruct alloc|].
  - unfold submit_status. pose proof Hlive as (Hcl & _). pose proof (si_late _ Hi) as Hlate.
    destruct (ret =? UVC_SUCCESS) eqn:E; split; try done.
    cbn [set_closer set_late set_status ss_late_urb ss_claimed]. by rewrite Hcl, Hlate.
  - apply (sinv_closer s); try done; [apply (si_late _ Hi)|by rewrite Hnone].
  - apply (sinv_closer s); try done; [apply (si_late _ Hi)|by rewrite Hnone].
Qed.

(** The state of the transfer is confirmed by a clear flag. *)
Lemma clear_settled s : sinv s → ss_submitted s = false → settled s.
Proof.
  intros Hi Hs. split; [|done]. destruct (xfer_busy (ss_xfer s)) eqn:E; [|done].
  destruct (si_busy _ Hi E). congruence.
Qed.

Lemma stop_status_inv s : sinv s → ss_closer s = Opened → sinv (uvc_stop_status_xfer s).
Proof.
  intros Hi Hpc. pose proof (si_closer _ Hi) as Hok. unfold closer_ok in Hok. rewrite Hpc in Hok.
  assert (ss_xfer s = SFreed → False) as Hfr by (intros H%(si_freed _ Hi); congruence).
  unfold uvc_stop_status_xfer. destruct (ss_xfer s) eqn:Ex; [|..|by destruct Hfr];
    (apply (sinv_closer s); try done; [apply (si_late _ Hi)|by rewrite Ex|]).
  - split; [done|]. intros _. split; [by cbn [set_closer ss_xfer]; rewrite Ex|].
    destruct (ss_submitted s) eqn:Es; [|done]. apply (si_clear _ Hi) in Es. by rewrite Ex in Es.
  - split_and!; try done. intros H. exact (clear_settled s Hi H).
  - split_and!; try done. intros H. exact (clear_settled s Hi H).
  - split_and!; try done. intros H. exact (clear_settled s Hi H).
Qed.

Lemma poll_status_inv w submitted s :
  sinv s → ss_closer s = Polling w submitted → sinv (poll_status w submitted s).
Proof.
  intros Hi Hpc. pose proof (si_closer _ Hi) as Hok. unfold closer_ok in Hok. rewrite Hpc in Hok.
  destruct Hok as (Hlive & Hstop & Hw & Hset).
  assert (ss_xfer s = SFreed → False) as Hfr by (intros H%(si_freed _ Hi); congruence).
  unfold poll_status, LIBUVC_STATUS_STOP_TIMEOUT_MS, LIBUVC_STATUS_STOP_POLL_MS in *.
  destruct submitted; cbn [andb negb]; [destruct (w <? 500) eqn:E|];
    (apply (sinv_closer s); try done; [apply (si_late _ Hi)|..]).
  - unfold closer_ok, LIBUVC_STATUS_STOP_TIMEOUT_MS, LIBUVC_STATUS_STOP_POLL_MS. simpl.
    split_and!; try done; try lia. intros H. exact (clear_settled s Hi H).
  - split; [done|]. intros _. exact (Hset eq_refl).
Qed.

Lemma free_devh_inv s : sinv s → ss_closer s = FreeingDevh → returns (free_devh s) sinv.
Proof.
  intros Hi Hpc. pose proof (si_closer _ Hi) as Hok. unfold closer_ok in Hok. rewrite Hpc in Hok.
  destruct Hok as [Hbusy Hsub]. pose proof (si_late _ Hi). unfold free_devh. rewrite Hsub.
  destruct (ss_xfer s) eqn:Ex; try done; cbn [xfer_busy].
  apply (sinv_closer s); try done; [by rewrite Ex|]. unfold closer_ok, settled. simpl. by rewrite Ex.
Qed.

Lemma closer_step_inv l s o : sinv s → closer_step l s = Some o → returns o sinv.
Proof.
  intros Hi Hs. pose proof (si_closer _ Hi) as Hok. unfold closer_ok in Hok. unfold closer_step in Hs.
  assert (ss_xfer s = SFreed → ss_closer s ≠ Gone → False) as Hfr by (intros H%(si_freed _ Hi); congruence).
  pose proof (si_late _ Hi) as Hlate.
  destruct (ss_closer s) eqn:Hpc, l; try discriminate; injection Hs as <-.
  - by apply open_status_inv.
  - by apply stop_status_inv.
  - by apply poll_status_inv.
  - destruct Hok as [Hlive Hset]. destruct stream, ok; cbn [orb negb];
      (apply (sinv_closer s); try done; [intros H; by destruct Hfr|..]); auto. split; [done|exact (Hset eq_refl)].
  - destruct Hok as [Hlive Hset]. apply (sinv_closer s); try done; [intros H; by destruct Hfr|].
    destruct Hset. congruence.
  - destruct Hok as [Hb Hsub]. rewrite Hb. apply (sinv_closer s); try done; [intros H; by destruct Hfr|congruence].
  - by apply free_devh_inv.
Qed.

Lemma status_step_inv l s o :
  sinv s → status_label_ok l → status_step info cbs l s = Some o → returns o sinv.
Proof.
  intros Hi Hok Hs. destruct l as [status|data n ret|l]; cbn [status_step] in Hs.
  - destruct (ss_xfer s) eqn:Ex; try discriminate. injection Hs as <-. cbn [returns].
    rewrite <- (add_no_calls s) at 1. apply sinv_busy_step; [done|by rewrite Ex|by left].
  - destruct (ss_xfer s) eqn:Ex; try discriminate. injection Hs as <-. by apply status_callback_inv.
  - by eapply closer_step_inv.
Qed.

Lemma status_run_inv ls s o :
  sinv s → Forall status_label_ok ls → run_status info cbs ls s = Some o → returns o sinv.
Proof.
  intros Hi Hls. apply (run_invariant _ sinv (λ l _, status_label_ok l)); [|done|by apply legal_labels].
  apply status_step_inv.
Qed.

Lemma opening_inv : sinv opening.
Proof. by split. Qed.

(** C10: however the completions of the status transfer interleave with the opening
    and closing of its device, the callback never touches a freed handle and the
    transfer is never freed, nor the USB handle closed, while libusb has it.  Once
    its stop is confirmed nothing submits it again: no transfer reaches the
    VideoControl interface after that was given back.  If the stop is not
    confirmed, the interface, the USB handle and the handle are all kept. *)
Theorem status_teardown_safe ls o :
  Forall status_label_ok ls → run_status info cbs ls opening = Some o →
  returns o (λ s,
    ss_late_urb s = false
    ∧ (xfer_busy (ss_xfer s) = true → status_live s)
    ∧ (ss_claimed s = false → settled s)
    ∧ (ss_closer s = StoppedXfer true → settled s)
    ∧ (ss_closer s = Quarantined → status_live s)).
Proof.
  intros Hls Hr. eapply returns_mono; [eapply status_run_inv; [apply opening_inv|done..]|].
  intros s Hi. pose proof (si_closer _ Hi) as Hok. unfold closer_ok in Hok. split_and!.
  - by apply si_late.
  - intros H. by apply (si_busy _ Hi H).
  - intros Hcl. unfold status_live in Hok. destruct (ss_closer s); try done; destruct Hok as [Hok ?]; naive_solver congruence.
  - intros Hpc. rewrite Hpc in Hok. by apply Hok.
  - intros Hpc. by rewrite Hpc in Hok.
Qed.

(** *** The wait ends *)

Definition past_wait (pc : closer_pc) : bool :=
  match pc with
  | Opening | Opened | Polling _ _ => false
  | _ => true
  end.

Fixpoint closer_steps (ls : list status_label) : Z :=
  match ls with
  | [] => 0
  | SCloser _ :: ls => 1 + closer_steps ls
  | _ :: ls => closer_steps ls
  end.

Lemma event_keeps_closer l s s' :
  status_step info cbs l s = Some (Ret s') → (∀ c, l ≠ SCloser c) → ss_closer s' = ss_closer s.
Proof.
  intros Hs Hl. destruct l as [status|data n ret|c]; cbn [status_step] in Hs; [..|by destruct (Hl c)].
  - destruct (ss_xfer s); try discriminate. by injection Hs as <-.
  - destruct (ss_xfer s) as [| | |pc|]; try discriminate. injection Hs as Hs. unfold _uvc_status_callback, submit_status in Hs.
    destruct (negb _); [done|]. destruct pc as [[]|]; inv_ret Hs; repeat case_match; by injection Hs as <-.
Qed.

Lemma past_wait_stays ls s s' :
  past_wait (ss_closer s) = true → run_status info cbs ls s = Some (Ret s') → past_wait (ss_closer s') = true.
Proof.
  apply (run_keeps _ (λ s, past_wait (ss_closer s) = true)). clear. intros l s s1 Hp E.
  destruct l as [status|data n ret|c]; [by rewrite (event_keeps_closer _ _ _ E)..|]. cbn [status_step] in E.
  unfold closer_step, free_devh in E. destruct (ss_closer s), c; try discriminate; repeat case_match; try discriminate; by injection E as <-.
Qed.

(** C28: the wait for the status transfer is bounded: while it goes on it has polled
    as often as half the milliseconds it has counted, and at most 250 times. *)
Theorem status_wait_bounded ls s s' submitted waited_ms submitted' :
  ss_closer s = Polling 0 submitted → run_status info cbs ls s = Some (Ret s') →
  ss_closer s' = Polling waited_ms submitted' →
  waited_ms = LIBUVC_STATUS_STOP_POLL_MS * closer_steps ls ∧ closer_steps ls ≤ 250.
Proof.
  assert (∀ ls s w b, ss_closer s = Polling w b → w < 502 → run_status info cbs ls s = Some (Ret s') →
    ss_closer s' = Polling waited_ms submitted' → waited_ms = w + 2 * closer_steps ls ∧ waited_ms < 502) as Hgen.
  { clear. induction ls as [|l ls IH]; intros s w b Hpc Hw Hr Hend; cbn [run_labels closer_steps] in *.
    { injection Hr as <-. rewrite Hpc in Hend. injection Hend as <- <-. lia. }
    destruct (status_step info cbs l s) as [[s1|]|] eqn:E; try done.
    destruct l as [status|data n ret|c]; [by apply (IH s1 w b); [rewrite (event_keeps_closer _ _ _ E)|..]..|].
    cbn [status_step] in E. unfold closer_step, poll_status in E. rewrite Hpc in E. destruct c; [discriminate|].
    destruct (b && (w <? LIBUVC_STATUS_STOP_TIMEOUT_MS)) eqn:Eb; injection E as <-.
    - apply andb_prop in Eb as [-> Eb%Z.ltb_lt]. unfold LIBUVC_STATUS_STOP_TIMEOUT_MS in Eb.
      destruct (IH (set_closer s (Polling (w + 2) (ss_submitted s))) (w + 2) (ss_submitted s) eq_refl ltac:(lia) Hr Hend). lia.
    - pose proof (past_wait_stays ls (set_closer s (StoppedXfer (negb b))) s' eq_refl Hr) as Hp. by rewrite Hend in Hp. }
  intros Hpc Hr Hend. destruct (Hgen ls s 0 submitted Hpc ltac:(lia) Hr Hend).
  unfold LIBUVC_STATUS_STOP_POLL_MS. lia.
Qed.
End safety.

(** ** A camera with a button *)

Definition button_cbs : status_callbacks :=
  {| sb_status_cb := true; sb_status_user_ptr := 7; sb_button_cb := true; sb_button_user_ptr := 9 |}.

Lemma status_packet_calls_witness :
  uvc_process_status_xfer (info_zero []) button_cbs ([0x82; 1; 0; 1] ++ replicate 28 0) 4 = Ret [ButtonCb 1 1 9].
Proof.
  rewrite (status_packet_calls (info_zero []) button_cbs _ 4); [reflexivity|]. unfold len. simpl. lia.
Defined.

(** Opened; the stop is announced while the callback is between its entry and its
    decision, which then gives the transfer back; all is released. *)
Definition close_run : list status_label :=
  [SCloser (COpen true true 0); SComplete XferCompleted; SRun [0x82; 1; 0; 1] 4 0; SCloser (CGo false);
   SRun [] 0 0; SCloser (CGo false); SCloser (CGo false); SCloser (CGo false); SCloser (CGo false);
   SCloser (CGo false); SCloser (CGo false)].

Lemma status_teardown_safe_witness :
  ∃ s, run_status (info_zero []) button_cbs close_run opening = Some (Ret s)
    ∧ ss_closer s = Gone ∧ ss_xfer s = SFreed ∧ ss_late_urb s = false.
Proof.
  assert (Forall status_label_ok close_run) as Hls by (repeat constructor; unfold len; simpl; lia).
  destruct (run_status (info_zero []) button_cbs close_run opening) as [o|] eqn:E; [|vm_compute in E; discriminate].
  pose proof (status_teardown_safe (info_zero []) button_cbs close_run o Hls E) as H.
  vm_compute in E. injection E as <-. eexists. split; [reflexivity|]. split; [reflexivity|]. split; [reflexivity|].
  exact (proj1 H).
Defined.

Lemma status_wait_bounded_witness :
  ∃ s s', run_status (info_zero []) button_cbs [SCloser (COpen true true 0); SCloser (CGo false)] opening = Some (Ret s)
    ∧ run_status (info_zero []) button_cbs [SCloser (CGo false); SCloser (CGo false)] s = Some (Ret s')
    ∧ ss_closer s' = Polling 4 true ∧ closer_steps [SCloser (CGo false); SCloser (CGo false)] ≤ 250.
Proof.
  destruct (run_status (info_zero []) button_cbs [SCloser (COpen true true 0); SCloser (CGo false)] opening)
    as [[s|]|] eqn:E; [|vm_compute in E; discriminate..]. vm_compute in E. injection E as <-.
  eexists _, _. split; [reflexivity|]. split; [reflexivity|]. split; [reflexivity|].
  match goal with |- context [closer_steps ?ls] =>
    eapply (status_wait_bounded (info_zero []) button_cbs ls (set_closer (set_status (set_stopping opening) SInFlight true)
      (Polling 0 true)) _ true 4 true); reflexivity end.
Defined.
