(* ===== verification/Discovery.v ===== *)
(** * Discovery: finding cameras, src/device.c

    [uvc_get_device_list] wraps every USB device that looks like a camera in a
    reference-counted [uvc_device_t]; [uvc_find_device] and [uvc_find_devices] pick
    by vendor, product and serial number.  What libusb says of each device is data;
    the memory is explicit: the [uvc_device_t] blocks with their counts, libusb's
    own count of each device, and how many blocks of the other kinds are out. *)

From stdpp Require Import prelude gmap.
From S2P Require Import Prelude Types.

(** ** What libusb says of a device *)

(** The strings a device that can be opened gives, when it has them. *)
Record usb_strings := {
  us_serial : option bytes;
  us_manufacturer : option bytes;
  us_product : option bytes;
}.

(** [None]: the call for it fails. *)
Record usb_device := {
  ud_config : option usb_config;
  ud_ids : option (Z * Z);           (* vendor and product *)
  ud_strings : option usb_strings;   (* when [libusb_open] succeeds *)
}.

(** ** Memory *)

(** [struct uvc_device]: the USB device, by its place in libusb's list, and [ref]. *)
Record uvc_device := uvc_dev {
  dv_usb_dev : nat;
  dv_ref : Z;
}.

Record heap := {
  hp_devs : gmap nat uvc_device;
  hp_next : nat;                      (* addresses from here on are free *)
  hp_usb : nat → Z;                   (* libusb's reference counts *)
  hp_lists : Z;                       (* lists of device pointers *)
  hp_configs : Z;                     (* configuration descriptors *)
  hp_descs : Z;                       (* device descriptors *)
}.

Definition mem (A : Type) : Type := heap → outcome (A * heap).

#[export] Instance mem_ret : MRet mem := λ A a h, Ret (a, h).

#[export] Instance mem_bind : MBind mem := λ A B f m h,
  match m h with
  | Ret (a, h') => f a h'
  | Undef e => Undef e
  end.

Definition set_devs (h : heap) (devs : gmap nat uvc_device) (next : nat) : heap :=
  {| hp_devs := devs; hp_next := next; hp_usb := hp_usb h; hp_lists := hp_lists h;
     hp_configs := hp_configs h; hp_descs := hp_descs h |}.

Definition bump_usb (h : heap) (u : nat) (d : Z) : heap :=
  {| hp_devs := hp_devs h; hp_next := hp_next h;
     hp_usb := λ v, if decide (v = u) then hp_usb h v + d else hp_usb h v; hp_lists := hp_lists h;
     hp_configs := hp_configs h; hp_descs := hp_descs h |}.

Definition count_blocks (lists configs descs : Z) : mem unit := λ h,
  Ret (tt, {| hp_devs := hp_devs h; hp_next := hp_next h; hp_usb := hp_usb h; hp_lists := hp_lists h + lists;
              hp_configs := hp_configs h + configs; hp_descs := hp_descs h + descs |}).

(** [*a] *)
Definition load_dev (a : nat) : mem uvc_device := λ h,
  match hp_devs h !! a with
  | Some d => Ret (d, h)
  | None => Undef UseAfterFree
  end.

Definition store_dev (a : nat) (d : uvc_device) : mem unit := λ h,
  Ret (tt, set_devs h (<[a := d]> (hp_devs h)) (hp_next h)).

Definition free_dev (a : nat) : mem unit := λ h,
  Ret (tt, set_devs h (delete a (hp_devs h)) (hp_next h)).

Definition libusb_ref (u : nat) (d : Z) : mem unit := λ h, Ret (tt, bump_usb h u d).

(** ** Reference counts *)

Definition uvc_ref_device (a : nat) : mem unit :=
  d ← load_dev a;
  _ ← store_dev a (uvc_dev (dv_usb_dev d) (dv_ref d + 1));
  libusb_ref (dv_usb_dev d) 1.

Definition uvc_unref_device (a : nat) : mem unit :=
  d ← load_dev a;
  _ ← libusb_ref (dv_usb_dev d) (-1);
  if dv_ref d - 1 =? 0 then free_dev a else store_dev a (uvc_dev (dv_usb_dev d) (dv_ref d - 1)).

(** A reference to the device of an open handle, [a]. *)
Definition uvc_get_device (a : nat) : mem nat :=
  _ ← uvc_ref_device a;
  mret a.

(** [open_devices] are the devices of the open handles of the context. *)
Fixpoint uvc_already_open (open_devices : list nat) (usb_dev : nat) : mem Z :=
  match open_devices with
  | [] => mret 0
  | a :: rest =>
      d ← load_dev a;
      if bool_decide (usb_dev = dv_usb_dev d) then mret 1 else uvc_already_open rest usb_dev
  end.

(** A new [uvc_device_t] with one reference. *)
Definition new_device (u : nat) : mem nat := λ h,
  let a := hp_next h in
  (_ ← uvc_ref_device a; mret a) (set_devs h (<[a := uvc_dev u 0]> (hp_devs h)) (S a)).

(** ** The list of cameras *)

(** Whether an altsetting makes its device a camera. *)
Definition camera_alt (vid pid : Z) (alt : usb_altsetting) : bool :=
  if (vid =? 0x199e) && (0x8201 <=? pid) && (pid <=? 0x8208) then false
  else ((vid =? 0x199e) && ((pid =? 0x8101) || (pid =? 0x8102))
        && (as_bInterfaceClass alt =? 255) && (as_bInterfaceSubClass alt =? 2))
       || ((as_bInterfaceClass alt =? 14) && (as_bInterfaceSubClass alt =? 2)).

(** [got_interface] after the loops over the interfaces and their altsettings. *)
Definition got_interface (vid pid : Z) (config : usb_config) : bool :=
  existsb (existsb (camera_alt vid pid)) config.

Section lists.
(** What [libusb_get_device_list] returns; [None] is an error. *)
Context (devices : option (list usb_device)).

(** The loop: [usbs] are the devices from index [u] on. *)
Fixpoint collect (u : nat) (usbs : list usb_device) : mem (list nat) :=
  match usbs with
  | [] => mret []
  | usb :: rest =>
      match ud_config usb with
      | None => collect (S u) rest
      | Some config =>
          _ ← count_blocks 0 1 0;
          match ud_ids usb with
          | None => collect (S u) rest
          | Some (vid, pid) =>
              _ ← count_blocks 0 (-1) 0;
              if got_interface vid pid config then
                a ← new_device u;
                l ← collect (S u) rest;
                mret (a :: l)
              else collect (S u) rest
          end
      end
  end.

(** libusb's list holds a reference to each device until it is freed. *)
Fixpoint ref_all (d : Z) (n : nat) : mem unit :=
  match n with
  | O => mret tt
  | S n => _ ← ref_all d n; libusb_ref n d
  end.

Definition uvc_get_device_list : mem (Z * list nat) :=
  match devices with
  | None => mret (UVC_ERROR_IO, [])
  | Some usbs =>
      _ ← ref_all 1 (length usbs);
      _ ← count_blocks 1 0 0;
      l ← collect 0 usbs;
      _ ← ref_all (-1) (length usbs);
      mret (UVC_SUCCESS, l)
  end.

Fixpoint unref_all (l : list nat) : mem unit :=
  match l with
  | [] => mret tt
  | a :: l => _ ← uvc_unref_device a; unref_all l
  end.

Definition uvc_free_device_list (l : list nat) (unref_devices : bool) : mem unit :=
  _ ← (if unref_devices then unref_all l else mret tt);
  count_blocks (-1) 0 0.

(** ** Descriptors *)

Record uvc_device_descriptor := {
  dd_idVendor : Z;
  dd_idProduct : Z;
  dd_serialNumber : option bytes;
  dd_manufacturer : option bytes;
  dd_product : option bytes;
}.

Definition usb_of (u : nat) : option usb_device := default [] devices !! u.

(** The descriptor, or [None] with libusb's error. *)
Definition uvc_get_device_descriptor (a : nat) : mem (option uvc_device_descriptor) :=
  d ← load_dev a;
  match usb_of (dv_usb_dev d) with
  | Some {| ud_ids := Some (vid, pid); ud_strings := strings |} =>
      _ ← count_blocks 0 0 1;
      mret (Some {| dd_idVendor := vid; dd_idProduct := pid;
                    dd_serialNumber := strings ≫= us_serial;
                    dd_manufacturer := strings ≫= us_manufacturer;
                    dd_product := strings ≫= us_product |})
  | _ => mret None
  end.

(** The same for a device that is open, so that its strings can be asked for at once. *)
Definition get_device_descriptor (a : nat) (strings : usb_strings) : mem (option uvc_device_descriptor) :=
  d ← load_dev a;
  match usb_of (dv_usb_dev d) ≫= ud_ids with
  | None => mret None
  | Some (vid, pid) =>
      _ ← count_blocks 0 0 1;
      mret (Some {| dd_idVendor := vid; dd_idProduct := pid; dd_serialNumber := us_serial strings;
                    dd_manufacturer := us_manufacturer strings; dd_product := us_product strings |})
  end.

Definition uvc_free_device_descriptor (desc : uvc_device_descriptor) : mem unit := count_blocks 0 0 (-1).

Definition wanted (vid pid : Z) (sn : option bytes) (desc : uvc_device_descriptor) : bool :=
  ((vid =? 0) || (dd_idVendor desc =? vid))
  && ((pid =? 0) || (dd_idProduct desc =? pid))
  && match sn with
     | None => true
     | Some sn => bool_decide (dd_serialNumber desc = Some sn)
     end.

(** ** Finding *)

Section find.
Context (vid pid : Z) (sn : option bytes).

(** The first device wanted. *)
Fixpoint find_in (l : list nat) : mem (option nat) :=
  match l with
  | [] => mret None
  | a :: l =>
      desc ← uvc_get_device_descriptor a;
      match desc with
      | None => find_in l
      | Some desc =>
          _ ← uvc_free_device_descriptor desc;
          if wanted vid pid sn desc then mret (Some a) else find_in l
      end
  end.

Definition uvc_find_device : mem (Z * option nat) :=
  r ← uvc_get_device_list;
  let '(ret, l) := r in
  if negb (ret =? UVC_SUCCESS) then mret (ret, None) else
  found ← find_in l;
  _ ← match found with Some a => uvc_ref_device a | None => mret tt end;
  _ ← uvc_free_device_list l true;
  match found with
  | Some a => mret (UVC_SUCCESS, Some a)
  | None => mret (UVC_ERROR_NO_DEVICE, None)
  end.

(** All devices wanted, each with a reference for the result. *)
Fixpoint find_all_in (l : list nat) : mem (list nat) :=
  match l with
  | [] => mret []
  | a :: l =>
      desc ← uvc_get_device_descriptor a;
      match desc with
      | None => find_all_in l
      | Some desc =>
          _ ← (if wanted vid pid sn desc then uvc_ref_device a else mret tt);
          _ ← uvc_free_device_descriptor desc;
          rest ← find_all_in l;
          mret (if wanted vid pid sn desc then a :: rest else rest)
      end
  end.

Definition uvc_find_devices : mem (Z * option (list nat)) :=
  r ← uvc_get_device_list;
  let '(ret, l) := r in
  if negb (ret =? UVC_SUCCESS) then mret (ret, None) else
  _ ← count_blocks 1 0 0;
  found ← find_all_in l;
  _ ← uvc_free_device_list l true;
  if bool_decide (found = []) then mret (UVC_ERROR_NO_DEVICE, None)
  else mret (UVC_SUCCESS, Some found).
End find.
End lists.
