(* ===== verification/DiscoveryFacts.v ===== *)
(** * DiscoveryFacts: what finding a camera returns and leaves in memory

    [uvc_find_device] returns the first camera wanted with one reference, for the
    caller; the other blocks it allocated are freed, but for the configurations of
    devices that cannot be described, and libusb's counts are as before but for that
    reference. *)

From stdpp Require Import prelude gmap.
From S2P Require Import Prelude Types Discovery.

(** ** Running memory operations *)

Section run.
Context {A B : Type}.

Lemma mem_run_bind (m : mem A) (f : A → mem B) h a h' : m h = Ret (a, h') → (m ≫= f) h = f a h'.
Proof. unfold mbind, mem_bind. by intros ->. Qed.

Lemma mem_run_ret (a : A) (f : A → mem B) h : (mret a ≫= f) h = f a h.
Proof. done. Qed.
End run.

(** Allocating and freeing again. *)
Definition with_blocks (h : heap) (lists configs descs : Z) : heap :=
  {| hp_devs := hp_devs h; hp_next := hp_next h; hp_usb := hp_usb h; hp_lists := hp_lists h + lists;
     hp_configs := hp_configs h + configs; hp_descs := hp_descs h + descs |}.

Lemma run_count {B} a b c (f : unit → mem B) h : (count_blocks a b c ≫= f) h = f tt (with_blocks h a b c).
Proof. done. Qed.

Lemma with_blocks_add h a b c a' b' c' :
  with_blocks (with_blocks h a b c) a' b' c' = with_blocks h (a + a') (b + b') (c + c').
Proof. unfold with_blocks. simpl. f_equal; lia. Qed.

Lemma with_blocks_0 h : with_blocks h 0 0 0 = h.
Proof. destruct h. unfold with_blocks. simpl. f_equal; lia. Qed.

(** ** The wrapped devices in memory *)

(** [E] pairs addresses with the USB devices behind them; each has one reference
    and [extra] ones. *)
Definition dev_map (E : list (nat * nat)) (extra : nat → Z) : gmap nat uvc_device :=
  list_to_map ((λ e, (e.1, uvc_dev e.2 (1 + extra e.1))) <$> E).

Lemma dev_map_fst E extra : ((λ e : nat * nat, (e.1, uvc_dev e.2 (1 + extra e.1))) <$> E).*1 = E.*1.
Proof. by rewrite <- list_fmap_compose. Qed.

Lemma dev_map_in E extra a u : NoDup E.*1 → (a, u) ∈ E → dev_map E extra !! a = Some (uvc_dev u (1 + extra a)).
Proof.
  intros Hn Hin. apply elem_of_list_to_map_1; [by rewrite dev_map_fst|].
  apply list_elem_of_fmap. by exists (a, u).
Qed.

Lemma dev_map_out E extra a : a ∉ E.*1 → dev_map E extra !! a = None.
Proof. intros. apply not_elem_of_list_to_map_1. by rewrite dev_map_fst. Qed.

Definition one_more (extra : nat → Z) (a : nat) : nat → Z := λ b, if decide (b = a) then extra b + 1 else extra b.

Lemma dev_map_ref E extra a u base :
  NoDup E.*1 → (a, u) ∈ E →
  <[a := uvc_dev u (1 + extra a + 1)]> (dev_map E extra ∪ base) = dev_map E (one_more extra a) ∪ base.
Proof.
  intros Hn Hin. apply map_eq. intros b. destruct (decide (b = a)) as [->|Hne].
  - rewrite lookup_insert_eq. symmetry. apply lookup_union_Some_l. rewrite (dev_map_in E _ a u) by done.
    unfold one_more. rewrite decide_True by done. do 2 f_equal. lia.
  - rewrite lookup_insert_ne by done. rewrite !lookup_union. f_equal.
    destruct (decide (b ∈ E.*1)) as [Hb|Hb]; [|by rewrite !dev_map_out].
    apply list_elem_of_fmap in Hb as ([b' v] & -> & Hb). simpl.
    rewrite !(dev_map_in E _ b' v) by done. unfold one_more. by rewrite decide_False.
Qed.

(** What is left of them after each lost a reference. *)
Definition kept_map (E : list (nat * nat)) (extra : nat → Z) : gmap nat uvc_device :=
  list_to_map ((λ e, (e.1, uvc_dev e.2 (extra e.1))) <$> filter (λ e, extra e.1 ≠ 0) E).

(** How many of the USB devices [us] are [v]. *)
Fixpoint occurrences (v : nat) (us : list nat) : Z :=
  match us with
  | [] => 0
  | u :: us => (if decide (v = u) then 1 else 0) + occurrences v us
  end.

(** Nothing but the devices and libusb's counts differs. *)
Definition same_blocks (h h' : heap) : Prop :=
  hp_next h' = hp_next h ∧ hp_lists h' = hp_lists h ∧ hp_configs h' = hp_configs h ∧ hp_descs h' = hp_descs h.

Lemma same_blocks_trans h1 h2 h3 : same_blocks h1 h2 → same_blocks h2 h3 → same_blocks h1 h3.
Proof. unfold same_blocks. intuition congruence. Qed.

Lemma run_ref a u r h :
  hp_devs h !! a = Some (uvc_dev u r) →
  uvc_ref_device a h = Ret (tt, bump_usb (set_devs h (<[a := uvc_dev u (r + 1)]> (hp_devs h)) (hp_next h)) u 1).
Proof. intros Ha. unfold uvc_ref_device, mbind, mem_bind, load_dev. by rewrite Ha. Qed.

Lemma run_unref a u r h :
  hp_devs h !! a = Some (uvc_dev u r) →
  ∃ h', uvc_unref_device a h = Ret (tt, h') ∧ same_blocks h h'
    ∧ hp_devs h' = (if r - 1 =? 0 then delete a (hp_devs h) else <[a := uvc_dev u (r - 1)]> (hp_devs h))
    ∧ ∀ v, hp_usb h' v = hp_usb h v - (if decide (v = u) then 1 else 0).
Proof.
  intros Ha. unfold uvc_unref_device, mbind, mem_bind, load_dev. rewrite Ha. cbn [dv_usb_dev dv_ref libusb_ref].
  destruct (r - 1 =? 0); (eexists; split; [reflexivity|]); split_and!; try done; intros v; simpl; case_decide; lia.
Qed.

Lemma dev_map_cons a u E extra : dev_map ((a, u) :: E) extra = <[a := uvc_dev u (1 + extra a)]> (dev_map E extra).
Proof. done. Qed.

Lemma unref_all_run E extra base h :
  NoDup E.*1 → (∀ a, 0 ≤ extra a) → (∀ a, a ∈ E.*1 → base !! a = None) → hp_devs h = dev_map E extra ∪ base →
  ∃ h', unref_all E.*1 h = Ret (tt, h') ∧ same_blocks h h' ∧ hp_devs h' = kept_map E extra ∪ base
    ∧ ∀ v, hp_usb h' v = hp_usb h v - occurrences v E.*2.
Proof.
  revert base h. induction E as [|[a u] E IH]; intros base h Hn He Hb Hh.
  { exists h. cbn [fmap list_fmap unref_all occurrences]. split_and!; try done. intros v. lia. }
  cbn [fmap list_fmap fst snd] in Hn, Hb |- *. apply NoDup_cons in Hn as [Ha Hn].
  rewrite dev_map_cons in Hh. cbn [unref_all].
  destruct (run_unref a u (1 + extra a) h) as (h1 & Hr & Hs1 & Hd1 & Hu1).
  { rewrite Hh. apply lookup_union_Some_l, lookup_insert_eq. }
  rewrite (mem_run_bind _ _ _ _ _ Hr).
  set (base' := if 1 + extra a - 1 =? 0 then base else <[a := uvc_dev u (1 + extra a - 1)]> base).
  destruct (IH base' h1) as (h' & Hrun & Hs & Hd & Hu); [done..| | |].
  - intros b Hin. unfold base'. assert (b ≠ a) by (intros ->; done).
    destruct (_ =? 0); rewrite ?lookup_insert_ne by done; apply Hb; by right.
  - rewrite Hd1, Hh, <- insert_union_l. unfold base'.
    destruct (_ =? 0); [rewrite delete_insert_eq, delete_id; [done|]|rewrite insert_insert_eq, <- insert_union_r; [done|by apply dev_map_out]].
    apply lookup_union_None. split; [by apply dev_map_out|apply Hb; by left].
  - exists h'. split; [done|]. split; [by eapply same_blocks_trans|]. split.
    + rewrite Hd. unfold base', kept_map. rewrite filter_cons. cbn [fst].
      destruct (Z.eqb_spec (1 + extra a - 1) 0) as [E0|E0].
      * rewrite decide_False by lia. done.
      * rewrite decide_True by lia. cbn [fmap list_fmap fst snd list_to_map foldr]. rewrite <- insert_union_l, <- insert_union_r.
        -- do 2 f_equal. lia.
        -- apply not_elem_of_list_to_map_1. rewrite <- list_fmap_compose.
           intros ([b v] & -> & Hin%list_elem_of_filter)%list_elem_of_fmap. destruct Ha. apply list_elem_of_fmap. exists (b, v). by split; [|apply Hin].
    + intros v. rewrite Hu, Hu1. cbn [occurrences]. case_decide; lia.
Qed.

Lemma kept_map_fst E extra :
  ((λ e : nat * nat, (e.1, uvc_dev e.2 (extra e.1))) <$> filter (λ e, extra e.1 ≠ 0) E).*1 = (filter (λ e, extra e.1 ≠ 0) E).*1.
Proof. by rewrite <- list_fmap_compose. Qed.

Lemma kept_map_in E extra a u :
  NoDup E.*1 → (a, u) ∈ E → extra a ≠ 0 → kept_map E extra !! a = Some (uvc_dev u (extra a)).
Proof.
  intros Hn Hin He. apply elem_of_list_to_map_1.
  - rewrite kept_map_fst. eapply sublist_NoDup; [exact Hn|]. apply fmap_sublist, sublist_filter.
  - apply list_elem_of_fmap. exists (a, u). split; [done|]. by apply list_elem_of_filter.
Qed.

Lemma kept_map_out E extra a : a ∉ E.*1 ∨ extra a = 0 → kept_map E extra !! a = None.
Proof.
  intros H. apply not_elem_of_list_to_map_1. rewrite kept_map_fst.
  intros ([b v] & -> & [He Hin]%list_elem_of_filter)%list_elem_of_fmap. destruct H as [H|H]; [|done].
  destruct H. apply list_elem_of_fmap. by exists (b, v).
Qed.

Lemma kept_map_none E : kept_map E (λ _, 0) = ∅.
Proof. apply map_eq. intros a. rewrite lookup_empty. apply kept_map_out. by right. Qed.

Lemma kept_map_one E a u : NoDup E.*1 → (a, u) ∈ E → kept_map E (one_more (λ _, 0) a) = {[a := uvc_dev u 1]}.
Proof.
  intros Hn Hin. apply map_eq. intros b. destruct (decide (b = a)) as [->|Hne].
  - rewrite lookup_singleton_eq, (kept_map_in E _ a u); [|done..|]; unfold one_more; by rewrite decide_True.
  - rewrite lookup_singleton_ne by done. apply kept_map_out. right. unfold one_more. by rewrite decide_False.
Qed.

(** [uvc_free_device_list] on devices with references to spare. *)
Lemma free_list_run E extra base h :
  NoDup E.*1 → (∀ a, 0 ≤ extra a) → (∀ a, a ∈ E.*1 → base !! a = None) → hp_devs h = dev_map E extra ∪ base →
  ∃ h', uvc_free_device_list E.*1 true h = Ret (tt, h') ∧ hp_devs h' = kept_map E extra ∪ base
    ∧ (∀ v, hp_usb h' v = hp_usb h v - occurrences v E.*2)
    ∧ hp_lists h' = hp_lists h - 1 ∧ hp_descs h' = hp_descs h ∧ hp_configs h' = hp_configs h.
Proof.
  intros Hn He Hb Hh. destruct (unref_all_run E extra base h Hn He Hb Hh) as (h' & Hr & (? & ? & ? & ?) & Hd & Hu).
  unfold uvc_free_device_list. rewrite (mem_run_bind _ _ _ _ _ Hr). eexists. split; [reflexivity|]. simpl.
  split_and!; [done|done|lia..].
Qed.

(** ** The list *)

Definition is_camera (usb : usb_device) : bool :=
  match ud_config usb, ud_ids usb with
  | Some config, Some (vid, pid) => got_interface vid pid config
  | _, _ => false
  end.

(** The cameras among [usbs], by index. *)
Fixpoint cameras (u : nat) (usbs : list usb_device) : list nat :=
  match usbs with
  | [] => []
  | usb :: usbs => if is_camera usb then u :: cameras (S u) usbs else cameras (S u) usbs
  end.

(** Devices whose configuration can be read and whose descriptor cannot. *)
Fixpoint undescribed (usbs : list usb_device) : Z :=
  match usbs with
  | [] => 0
  | usb :: usbs =>
      (match ud_config usb, ud_ids usb with Some _, None => 1 | _, _ => 0 end) + undescribed usbs
  end.

Definition heap_ok (h : heap) : Prop := ∀ a, is_Some (hp_devs h !! a) → (a < hp_next h)%nat.

(** New addresses for the cameras. *)
Definition fresh_devs (h : heap) (us : list nat) : list (nat * nat) := zip (seq (hp_next h) (length us)) us.

Lemma fresh_devs_fst h us : (fresh_devs h us).*1 = seq (hp_next h) (length us).
Proof. apply fst_zip. by rewrite length_seq. Qed.

Lemma fresh_devs_snd h us : (fresh_devs h us).*2 = us.
Proof. apply snd_zip. by rewrite length_seq. Qed.

Lemma fresh_devs_nodup h us : NoDup (fresh_devs h us).*1.
Proof. rewrite fresh_devs_fst. apply NoDup_seq. Qed.

Lemma fresh_not_in_heap h us a : heap_ok h → a ∈ (fresh_devs h us).*1 → hp_devs h !! a = None.
Proof.
  rewrite fresh_devs_fst, elem_of_seq. intros Hok [Hge _]. destruct (hp_devs h !! a) eqn:E; [|done].
  assert (a < hp_next h)%nat by (apply Hok; by rewrite E). lia.
Qed.

(** What [collect] leaves behind. *)
Record collected (h h' : heap) (us : list nat) (leaked : Z) : Prop := {
  co_devs : hp_devs h' = dev_map (fresh_devs h us) (λ _, 0) ∪ hp_devs h;
  co_next : hp_next h' = (hp_next h + length us)%nat;
  co_usb v : hp_usb h' v = hp_usb h v + occurrences v us;
  co_lists : hp_lists h' = hp_lists h;
  co_configs : hp_configs h' = hp_configs h + leaked;
  co_descs : hp_descs h' = hp_descs h;
}.

Lemma collected_none h n : collected h (with_blocks h 0 n 0) [] n.
Proof. split; simpl; try lia. symmetry. apply (left_id_L ∅ (∪)). Qed.

Lemma collected_skip h h' us leaked n :
  collected (with_blocks h 0 n 0) h' us leaked → collected h h' us (n + leaked).
Proof. intros [? ? ? ? ? ?]. split; simpl in *; try done; try lia. Qed.

(** The heap after one device was wrapped. *)
Definition one_dev (h : heap) (u : nat) : heap :=
  bump_usb (set_devs h (<[hp_next h := uvc_dev u 1]> (hp_devs h)) (S (hp_next h))) u 1.

Lemma new_device_run h u : new_device u h = Ret (hp_next h, one_dev h u).
Proof.
  unfold new_device. set (h1 := set_devs h _ _).
  rewrite (mem_run_bind _ _ _ _ _ (run_ref (hp_next h) u 0 h1 (lookup_insert_eq _ _ _))).
  unfold h1, one_dev. simpl. by rewrite insert_insert_eq.
Qed.

Lemma one_dev_ok h u : heap_ok h → heap_ok (one_dev h u).
Proof.
  intros Hok a. simpl. destruct (decide (a = hp_next h)) as [->|Hne]; [lia|].
  rewrite lookup_insert_ne by done. intros H%Hok. lia.
Qed.

Lemma collected_dev h h' u us leaked :
  heap_ok h → collected (one_dev h u) h' us leaked → collected h h' (u :: us) leaked.
Proof.
  intros Hok [Hd Hn Hu Hl Hc Hs]. split; simpl in *; try done; try lia.
  - rewrite Hd. unfold fresh_devs at 2. cbn [length seq zip zip_with]. rewrite dev_map_cons.
    replace (1 + 0) with 1 by lia. rewrite <- insert_union_l, <- insert_union_r; [done|].
    apply dev_map_out. rewrite fresh_devs_fst. simpl. rewrite elem_of_seq. lia.
  - intros v. rewrite Hu. repeat case_decide; lia.
Qed.

Lemma collect_run usbs u h :
  heap_ok h →
  ∃ h', collect u usbs h = Ret (seq (hp_next h) (length (cameras u usbs)), h')
    ∧ collected h h' (cameras u usbs) (undescribed usbs).
Proof.
  revert u h. induction usbs as [|usb usbs IH]; intros u h Hok; cbn [collect cameras undescribed].
  { exists h. split; [done|]. rewrite <- (with_blocks_0 h) at 2. apply collected_none. }
  unfold is_camera. destruct (ud_config usb) as [config|]; [|apply (IH (S u) h Hok)].
  rewrite run_count. destruct (ud_ids usb) as [[vid pid]|].
  - rewrite run_count, with_blocks_add. change (with_blocks h (0 + 0) (1 + -1) (0 + 0)) with (with_blocks h 0 0 0).
    rewrite with_blocks_0. destruct (got_interface vid pid config); [|apply (IH (S u) h Hok)].
    rewrite (mem_run_bind _ _ _ _ _ (new_device_run h u)).
    destruct (IH (S u) (one_dev h u) (one_dev_ok h u Hok)) as (h' & Hr & Hc).
    rewrite (mem_run_bind _ _ _ _ _ Hr). exists h'. split; [done|]. by apply collected_dev.
  - destruct (IH (S u) (with_blocks h 0 1 0) Hok) as (h' & Hr & Hc). exists h'. split; [done|]. by apply collected_skip.
Qed.

Lemma ref_all_run d n h :
  ∃ h', ref_all d n h = Ret (tt, h') ∧ hp_devs h' = hp_devs h ∧ same_blocks h h'
    ∧ ∀ v, hp_usb h' v = hp_usb h v + (if decide (v < n)%nat then d else 0).
Proof.
  revert h. induction n as [|n IH]; intros h; cbn [ref_all].
  { exists h. split_and!; try done. intros v. rewrite decide_False by lia. lia. }
  destruct (IH h) as (h1 & Hr & Hd & Hs & Hu). rewrite (mem_run_bind _ _ _ _ _ Hr). eexists. split; [reflexivity|].
  split_and!; [done|apply Hs..|]. intros v. simpl. rewrite Hu. repeat case_decide; lia.
Qed.

Lemma get_device_list_run usbs h :
  heap_ok h →
  ∃ h', uvc_get_device_list (Some usbs) h
          = Ret ((UVC_SUCCESS, seq (hp_next h) (length (cameras 0 usbs))), h')
    ∧ collected (with_blocks h 1 0 0) h' (cameras 0 usbs) (undescribed usbs).
Proof.
  intros Hok. unfold uvc_get_device_list.
  destruct (ref_all_run 1 (length usbs) h) as (h1 & Hr1 & Hd1 & (Hn1 & Hl1 & Hc1 & Hs1) & Hu1).
  rewrite (mem_run_bind _ _ _ _ _ Hr1), run_count.
  destruct (collect_run usbs 0 (with_blocks h1 1 0 0)) as (h2 & Hr2 & [Hd2 Hn2 Hu2 Hl2 Hc2 Hs2]).
  { intros a. simpl. rewrite Hd1, Hn1. apply Hok. }
  rewrite (mem_run_bind _ _ _ _ _ Hr2).
  destruct (ref_all_run (-1) (length usbs) h2) as (h3 & Hr3 & Hd3 & (Hn3 & Hl3 & Hc3 & Hs3) & Hu3).
  rewrite (mem_run_bind _ _ _ _ _ Hr3). exists h3. cbn [hp_next with_blocks]. rewrite Hn1. split; [done|].
  unfold fresh_devs in Hd2. simpl in *.
  split; unfold fresh_devs; simpl; try congruence; try lia.
  intros v. rewrite Hu3, Hu2, Hu1. case_decide; lia.
Qed.

(** Listing the devices returns exactly the cameras, in libusb's order, each in
    a new block with one reference, which is counted by libusb too; libusb's own
    list is given back.  The one thing not given back is the configuration of a
    device whose device descriptor cannot be read. *)
Theorem device_list_correct usbs h :
  heap_ok h →
  ∃ h', uvc_get_device_list (Some usbs) h
          = Ret ((UVC_SUCCESS, seq (hp_next h) (length (cameras 0 usbs))), h')
    ∧ hp_devs h' = dev_map (fresh_devs h (cameras 0 usbs)) (λ _, 0) ∪ hp_devs h
    ∧ (∀ v, hp_usb h' v = hp_usb h v + occurrences v (cameras 0 usbs))
    ∧ hp_lists h' = hp_lists h + 1 ∧ hp_descs h' = hp_descs h
    ∧ hp_configs h' = hp_configs h + undescribed usbs.
Proof.
  intros Hok. destruct (get_device_list_run usbs h Hok) as (h' & Hr & [Hd Hn Hu Hl Hc Hs]).
  exists h'. simpl in *. split_and!; try done; lia.
Qed.

(** ** Finding *)

Section find.
Context (usbs : list usb_device) (vid pid : Z) (sn : option bytes).

(** Whether the USB device is one that is asked for. *)
Definition wanted_usb (u : nat) : bool :=
  match usbs !! u with
  | Some {| ud_ids := Some (v, p); ud_strings := strings |} =>
      ((vid =? 0) || (v =? vid)) && ((pid =? 0) || (p =? pid))
      && match sn with
         | None => true
         | Some sn => bool_decide (strings ≫= us_serial = Some sn)
         end
  | _ => false
  end.

Abbreviation descriptor a := (uvc_get_device_descriptor (Some usbs) a).

(** Reading a descriptor and freeing it leaves the heap as it was. *)
Lemma descriptor_run a u r h :
  hp_devs h !! a = Some (uvc_dev u r) →
  (descriptor a h = Ret (None, h) ∧ wanted_usb u = false)
  ∨ ∃ desc, descriptor a h = Ret (Some desc, with_blocks h 0 0 1) ∧ wanted vid pid sn desc = wanted_usb u.
Proof.
  intros Ha. unfold uvc_get_device_descriptor, wanted_usb, usb_of, mbind, mem_bind, load_dev. rewrite Ha. cbn [dv_usb_dev default id].
  destruct (usbs !! u) as [[config [[v p]|] strings]|]; [|by left..].
  right. eexists. split; [reflexivity|done].
Qed.

(** The heap has the devices of [E]. *)
Definition has_devs (h : heap) (E : list (nat * nat)) : Prop :=
  Forall (λ e, ∃ r, hp_devs h !! e.1 = Some (uvc_dev e.2 r)) E.

Lemma dev_map_has h E extra base : NoDup E.*1 → hp_devs h = dev_map E extra ∪ base → has_devs h E.
Proof.
  intros Hn Hh. apply Forall_forall. intros [a u] Hin. exists (1 + extra a). rewrite Hh. cbn [fst snd].
  apply lookup_union_Some_l. by apply dev_map_in.
Qed.

(** A device is found to be open iff a handle of the context is for it. *)
Lemma already_open_run E u h :
  has_devs h E → uvc_already_open E.*1 u h = Ret (if bool_decide (u ∈ E.*2) then 1 else 0, h).
Proof.
  induction 1 as [|[a v] E [r Ha] _ IH]; [done|]. cbn [fmap list_fmap fst snd uvc_already_open] in *.
  unfold mbind, mem_bind, load_dev. rewrite Ha. cbn [dv_usb_dev]. destruct (decide (u = v)) as [->|Hne].
  - rewrite !bool_decide_true; [done|left|done].
  - rewrite (bool_decide_false (u = v)) by done. rewrite IH.
    rewrite (bool_decide_ext (u ∈ E.*2) (u ∈ v :: E.*2)) by (rewrite elem_of_cons; naive_solver). done.
Qed.

(** An open device is described as one that [uvc_get_device_descriptor] opens. *)
Lemma open_descriptor_run a u r usb strings h :
  hp_devs h !! a = Some (uvc_dev u r) → usbs !! u = Some usb → ud_strings usb = Some strings →
  get_device_descriptor (Some usbs) a strings h = descriptor a h.
Proof.
  intros Ha Hu Hs. unfold get_device_descriptor, uvc_get_device_descriptor, usb_of, mbind, mem_bind, load_dev.
  rewrite Ha. cbn [dv_usb_dev default id]. rewrite Hu. destruct usb as [config [[v p]|] strings']; [|done].
  cbn [ud_strings] in Hs. by subst strings'.
Qed.

Lemma find_in_run E h :
  has_devs h E →
  find_in (Some usbs) vid pid sn E.*1 h = Ret (fst <$> List.find (λ e, wanted_usb e.2) E, h).
Proof.
  induction 1 as [|[a u] E [r Ha] _ IH]; [done|]. cbn [fmap list_fmap fst snd find_in List.find] in *.
  destruct (descriptor_run a u r h Ha) as [[Hr ->]|(desc & Hr & Hw)]; rewrite (mem_run_bind _ _ _ _ _ Hr); [done|].
  unfold uvc_free_device_descriptor. rewrite run_count, with_blocks_add.
  change (with_blocks h (0 + 0) (0 + 0) (1 + -1)) with (with_blocks h 0 0 0). rewrite with_blocks_0, Hw.
  by destruct (wanted_usb u).
Qed.

(** The first camera that is asked for. *)
Definition first_wanted : option nat := List.find wanted_usb (cameras 0 usbs).

Lemma find_fresh h us :
  match List.find (λ e, wanted_usb e.2) (fresh_devs h us) with
  | Some (a, u) => List.find wanted_usb us = Some u ∧ (a, u) ∈ fresh_devs h us
  | None => List.find wanted_usb us = None
  end.
Proof.
  unfold fresh_devs. generalize (hp_next h). induction us as [|u us IH]; intros n; [done|].
  cbn [length seq zip zip_with List.find snd]. destruct (wanted_usb u).
  - split; [done|]. by left.
  - specialize (IH (S n)). destruct (List.find _ _) as [[a v]|]; [|done]. destruct IH. split; [done|by right].
Qed.

(** C20: when libusb lists its devices and memory does not run out, [uvc_find_device]
    returns the first camera in libusb's order that has the vendor, product and serial
    number asked for, or says that there is none.  The camera returned has one
    reference, the caller's, and libusb counts one reference more to its device and to
    no other.  All lists, descriptors and camera structures allocated on the way are
    freed again.  What stays allocated, exactly, is one configuration descriptor for
    every device that has one and whose device descriptor cannot be read. *)
Theorem find_device_correct h :
  heap_ok h →
  returns (uvc_find_device (Some usbs) vid pid sn h) (λ '(ret, found, h'),
    hp_lists h' = hp_lists h ∧ hp_descs h' = hp_descs h ∧ hp_configs h' = hp_configs h + undescribed usbs
    ∧ match first_wanted with
      | Some u => ret = UVC_SUCCESS ∧ ∃ a, found = Some a ∧ hp_devs h !! a = None
                    ∧ hp_devs h' = <[a := uvc_dev u 1]> (hp_devs h)
                    ∧ ∀ v, hp_usb h' v = hp_usb h v + (if decide (v = u) then 1 else 0)
      | None => ret = UVC_ERROR_NO_DEVICE ∧ found = None ∧ hp_devs h' = hp_devs h
                ∧ ∀ v, hp_usb h' v = hp_usb h v
      end).
Proof.
  intros Hok. unfold uvc_find_device, first_wanted.
  destruct (get_device_list_run usbs h Hok) as (h1 & Hr1 & [Hd1 Hn1 Hu1 Hl1 Hc1 Hs1]).
  rewrite (mem_run_bind _ _ _ _ _ Hr1). cbn [negb Z.eqb UVC_SUCCESS].
  set (us := cameras 0 usbs) in *. set (E := fresh_devs (with_blocks h 1 0 0) us) in *.
  assert (NoDup E.*1) as HnE by apply fresh_devs_nodup.
  assert (seq (hp_next h) (length us) = E.*1) as -> by (symmetry; apply (fresh_devs_fst (with_blocks h 1 0 0))).
  rewrite (mem_run_bind _ _ _ _ _ (find_in_run E h1 (dev_map_has h1 E _ _ HnE Hd1))).
  assert (∀ a, a ∈ E.*1 → hp_devs h !! a = None) as Hfresh by (intros a Ha; by apply (fresh_not_in_heap (with_blocks h 1 0 0) us)).
  assert (E.*2 = us) as HsE by apply fresh_devs_snd.
  pose proof (find_fresh (with_blocks h 1 0 0) us) as Hfind. fold E in Hfind.
  destruct (List.find (λ e, wanted_usb e.2) E) as [[a u]|]; cbn [fmap option_fmap option_map fst].
  - destruct Hfind as [-> Hin]. assert (a ∈ E.*1) as Ha by (apply list_elem_of_fmap; by exists (a, u)).
    assert (hp_devs h1 !! a = Some (uvc_dev u 1)) as Hl by (rewrite Hd1; by apply lookup_union_Some_l, dev_map_in).
    rewrite (mem_run_bind _ _ _ _ _ (run_ref a u 1 h1 Hl)). set (h2 := bump_usb _ u 1).
    destruct (free_list_run E (one_more (λ _, 0) a) (hp_devs h) h2) as (h3 & Hr3 & Hd3 & Hu3 & Hl3 & Hs3 & Hc3); [done| |done| |].
    { intros b. unfold one_more. case_decide; lia. }
    { unfold h2. simpl. rewrite Hd1. by apply (dev_map_ref E (λ _, 0) a u). }
    rewrite (mem_run_bind _ _ _ _ _ Hr3). cbn [returns mret]. simpl in *. split_and!; [lia..|done|].
    exists a. split_and!; [done|by apply Hfresh| |].
    + rewrite Hd3, (kept_map_one E a u) by done. by rewrite insert_union_singleton_l.
    + intros v. rewrite Hu3, HsE. simpl. rewrite Hu1. case_decide; lia.
  - rewrite Hfind, mem_run_ret.
    destruct (free_list_run E (λ _, 0) (hp_devs h) h1) as (h3 & Hr3 & Hd3 & Hu3 & Hl3 & Hs3 & Hc3); [done| |done|done|].
    { done. }
    rewrite (mem_run_bind _ _ _ _ _ Hr3). cbn [returns mret]. simpl in *. split_and!; [lia..|done|done| |].
    + rewrite Hd3, kept_map_none. apply (left_id_L ∅ (∪)).
    + intros v. rewrite Hu3, HsE, Hu1. lia.
Qed.

(** References for the wanted ones among [E]. *)
Fixpoint bumped (E : list (nat * nat)) (extra : nat → Z) : nat → Z :=
  match E with
  | [] => extra
  | e :: E => bumped E (if wanted_usb e.2 then one_more extra e.1 else extra)
  end.

Definition wanted_devs (E : list (nat * nat)) : list (nat * nat) := filter (λ e, wanted_usb e.2 = true) E.

Lemma bumped_out E extra a : a ∉ (wanted_devs E).*1 → bumped E extra a = extra a.
Proof.
  revert extra. induction E as [|[b u] E IH]; intros extra Ha; [done|]. unfold wanted_devs in *. cbn [bumped fst snd].
  rewrite filter_cons in Ha. cbn [snd] in Ha. destruct (wanted_usb u).
  - rewrite decide_True in Ha by done. cbn [fmap list_fmap fst] in Ha. apply not_elem_of_cons in Ha as [Hne Ha].
    rewrite IH by done. unfold one_more. by rewrite decide_False.
  - rewrite decide_False in Ha by done. by apply IH.
Qed.

Lemma wanted_devs_sub E a : a ∈ (wanted_devs E).*1 → a ∈ E.*1.
Proof.
  intros ([b u] & -> & [_ Hin]%list_elem_of_filter)%list_elem_of_fmap. apply list_elem_of_fmap. by exists (b, u).
Qed.

Lemma bumped_in E extra a : NoDup E.*1 → a ∈ (wanted_devs E).*1 → bumped E extra a = extra a + 1.
Proof.
  revert extra. induction E as [|[b u] E IH]; intros extra Hn Ha; [by apply elem_of_nil in Ha|].
  cbn [fmap list_fmap fst] in Hn. apply NoDup_cons in Hn as [Hb Hn].
  unfold wanted_devs in *. cbn [bumped fst snd]. rewrite filter_cons in Ha. cbn [snd] in Ha. destruct (wanted_usb u).
  - rewrite decide_True in Ha by done. cbn [fmap list_fmap fst] in Ha. apply elem_of_cons in Ha as [->|Ha].
    + rewrite bumped_out by (intros H; by apply Hb, wanted_devs_sub). unfold one_more. by rewrite decide_True.
    + rewrite IH by done. unfold one_more. rewrite decide_False; [done|]. intros ->. by apply Hb, wanted_devs_sub.
  - rewrite decide_False in Ha by done. by apply IH.
Qed.

Lemma kept_bumped E : NoDup E.*1 → kept_map E (bumped E (λ _, 0)) = dev_map (wanted_devs E) (λ _, 0).
Proof.
  intros Hn. assert (NoDup (wanted_devs E).*1) as Hnw.
  { eapply sublist_NoDup; [exact Hn|]. apply fmap_sublist, sublist_filter. }
  apply map_eq. intros a. destruct (decide (a ∈ (wanted_devs E).*1)) as [Ha|Ha].
  - pose proof (bumped_in E (λ _, 0) a Hn Ha) as Hb. apply list_elem_of_fmap in Ha as ([b u] & -> & Hin). cbn [fst] in *.
    rewrite (dev_map_in _ _ b u) by done. apply list_elem_of_filter in Hin as [_ Hin].
    rewrite (kept_map_in E _ b u) by (done || lia). by rewrite Hb.
  - rewrite dev_map_out by done. apply kept_map_out. right. by rewrite bumped_out.
Qed.

Lemma find_all_run E E' extra base h :
  NoDup E.*1 → (∀ e, e ∈ E' → e ∈ E) → hp_devs h = dev_map E extra ∪ base →
  ∃ h', find_all_in (Some usbs) vid pid sn E'.*1 h = Ret ((wanted_devs E').*1, h')
    ∧ hp_devs h' = dev_map E (bumped E' extra) ∪ base ∧ same_blocks h h'
    ∧ ∀ v, hp_usb h' v = hp_usb h v + occurrences v (wanted_devs E').*2.
Proof.
  intros Hn. revert extra h. induction E' as [|[a u] E' IH]; intros extra h Hsub Hh.
  { exists h. split_and!; try done. intros v. simpl. lia. }
  assert ((a, u) ∈ E) as Hin by (apply Hsub; by left). cbn [fmap list_fmap fst find_all_in bumped snd].
  assert (hp_devs h !! a = Some (uvc_dev u (1 + extra a))) as Ha by (rewrite Hh; by apply lookup_union_Some_l, dev_map_in).
  assert (∀ e, e ∈ E' → e ∈ E) as Hsub' by (intros e He; apply Hsub; by right).
  unfold wanted_devs in *. rewrite filter_cons. cbn [snd].
  destruct (descriptor_run a u _ h Ha) as [[Hr ->]|(desc & Hr & Hw)]; rewrite (mem_run_bind _ _ _ _ _ Hr).
  { rewrite decide_False by done. by apply IH. }
  rewrite Hw. set (h0 := with_blocks h 0 0 1). destruct (wanted_usb u).
  - rewrite (mem_run_bind _ _ _ _ _ (run_ref a u (1 + extra a) h0 Ha)), decide_True by done.
    unfold uvc_free_device_descriptor. rewrite run_count.
    destruct (IH (one_more extra a) (with_blocks (bump_usb (set_devs h0 (<[a := uvc_dev u (1 + extra a + 1)]> (hp_devs h0)) (hp_next h0)) u 1) 0 0 (-1)))
      as (h' & Hr' & Hd & (Hs1 & Hs2 & Hs3 & Hs4) & Hu); [done| |].
    { simpl. rewrite Hh. by apply dev_map_ref. }
    rewrite (mem_run_bind _ _ _ _ _ Hr'). exists h'. simpl in *. split_and!; try done; [split_and!; lia|].
    intros v. rewrite Hu. repeat case_decide; unfold fmap; lia.
  - rewrite mem_run_ret, decide_False by done. unfold uvc_free_device_descriptor. rewrite run_count. unfold h0.
    rewrite with_blocks_add. change (with_blocks h (0 + 0) (0 + 0) (1 + -1)) with (with_blocks h 0 0 0).
    rewrite with_blocks_0. destruct (IH extra h Hsub' Hh) as (h' & Hr' & Hrest).
    rewrite (mem_run_bind _ _ _ _ _ Hr'). by exists h'.
Qed.

(** [uvc_find_devices] returns every camera asked for, in libusb's order, each
    with one reference; when there is none it says so, but keeps the empty list it
    allocated. *)
Theorem find_devices_correct h :
  heap_ok h →
  let F := wanted_devs (fresh_devs h (cameras 0 usbs)) in
  returns (uvc_find_devices (Some usbs) vid pid sn h) (λ '(ret, found, h'),
    F.*2 = filter (λ u, wanted_usb u = true) (cameras 0 usbs)
    ∧ hp_devs h' = dev_map F (λ _, 0) ∪ hp_devs h
    ∧ (∀ v, hp_usb h' v = hp_usb h v + occurrences v F.*2)
    ∧ hp_lists h' = hp_lists h + 1 ∧ hp_descs h' = hp_descs h
    ∧ if decide (F = []) then ret = UVC_ERROR_NO_DEVICE ∧ found = None
      else ret = UVC_SUCCESS ∧ found = Some F.*1).
Proof.
  intros Hok F. unfold uvc_find_devices.
  destruct (get_device_list_run usbs h Hok) as (h1 & Hr1 & [Hd1 Hn1 Hu1 Hl1 Hc1 Hs1]).
  rewrite (mem_run_bind _ _ _ _ _ Hr1). cbn [negb Z.eqb UVC_SUCCESS]. rewrite run_count.
  set (us := cameras 0 usbs) in *. change (fresh_devs (with_blocks h 1 0 0) us) with (fresh_devs h us) in Hd1.
  set (E := fresh_devs h us) in *.
  assert (NoDup E.*1) as HnE by apply fresh_devs_nodup.
  assert (seq (hp_next h) (length us) = E.*1) as -> by (symmetry; apply fresh_devs_fst).
  assert (E.*2 = us) as HsE by apply fresh_devs_snd.
  destruct (find_all_run E E (λ _, 0) (hp_devs h) (with_blocks h1 1 0 0) HnE) as (h2 & Hr2 & Hd2 & (_ & Hl2 & _ & Hs2) & Hu2); [done|done|].
  rewrite (mem_run_bind _ _ _ _ _ Hr2).
  assert (∀ a, 0 ≤ bumped E (λ _, 0) a) as Hpos.
  { intros a. destruct (decide (a ∈ (wanted_devs E).*1)); [rewrite bumped_in|rewrite bumped_out]; done || lia. }
  destruct (free_list_run E (bumped E (λ _, 0)) (hp_devs h) h2 HnE Hpos) as (h3 & Hr3 & Hd3 & Hu3 & Hl3 & Hs3); [|done|].
  { intros a Ha. by apply (fresh_not_in_heap h us). }
  rewrite (mem_run_bind _ _ _ _ _ Hr3). rewrite kept_bumped in Hd3 by done.
  assert (F.*2 = filter (λ u, wanted_usb u = true) us) as HF.
  { rewrite <- HsE. unfold F, wanted_devs. generalize E. clear. intros E. induction E as [|[a u] E IH]; [done|].
    rewrite fmap_cons, !filter_cons. cbn [snd]. case_decide; cbn [fmap list_fmap snd]; by rewrite <- IH. }
  assert (∀ v, hp_usb h3 v = hp_usb h v + occurrences v F.*2) as Hu.
  { intros v. rewrite Hu3, HsE, Hu2. simpl. rewrite Hu1. simpl. fold F. unfold us. lia. }
  simpl in *. fold F in Hd3 |- *. destruct F as [|e F'] eqn:EF; cbn [fmap list_fmap]; simpl; split_and!; try done; lia.
Qed.
End find.

(** ** Two cameras and a mouse *)

Definition usb_with (class subclass vid pid : Z) (serial : option bytes) : usb_device :=
  {| ud_config := Some [[{| as_bInterfaceNumber := 0; as_bAlternateSetting := 0; as_bInterfaceClass := class;
                            as_bInterfaceSubClass := subclass; as_endpoint := []; as_extra := [] |}]];
     ud_ids := Some (vid, pid);
     ud_strings := Some {| us_serial := serial; us_manufacturer := None; us_product := None |} |}.

Definition desk : list usb_device :=
  [usb_with 3 1 0x046d 0xc077 None; usb_with 14 2 0x046d 0x0825 (Some [65]); usb_with 14 2 0x046d 0x082d (Some [66])].

Definition empty_heap : heap :=
  {| hp_devs := ∅; hp_next := 1; hp_usb := λ _, 1; hp_lists := 0; hp_configs := 0; hp_descs := 0 |}.

Lemma empty_heap_ok : heap_ok empty_heap.
Proof. intros a. simpl. rewrite lookup_empty. by intros []. Qed.

Lemma device_list_correct_witness :
  ∃ h', uvc_get_device_list (Some desk) empty_heap = Ret ((UVC_SUCCESS, [1; 2]%nat), h')
    ∧ hp_usb h' 2%nat = 2 ∧ hp_configs h' = 0.
Proof.
  destruct (device_list_correct desk empty_heap empty_heap_ok) as (h' & Hr & _ & Hu & _ & _ & Hc).
  exists h'. split; [exact Hr|]. split; [rewrite Hu; reflexivity|rewrite Hc; reflexivity].
Defined.

Lemma find_device_correct_witness :
  ∃ h', uvc_find_device (Some desk) 0x046d 0 (Some [66]) empty_heap = Ret ((UVC_SUCCESS, Some 2%nat), h')
    ∧ hp_devs h' = {[2%nat := uvc_dev 2 1]} ∧ hp_lists h' = 0.
Proof.
  pose proof (find_device_correct desk 0x046d 0 (Some [66]) empty_heap empty_heap_ok) as H.
  assert (match uvc_find_device (Some desk) 0x046d 0 (Some [66]) empty_heap with
          | Ret ((_, found), _) => found
          | _ => None
          end = Some 2%nat) as Hv by (vm_compute; reflexivity).
  destruct (uvc_find_device _ _ _ _ _) as [[[ret found] h']|]; [|discriminate Hv]. subst found.
  destruct H as (Hl & _ & _ & Hret & a & Ha & _ & Hd & _). injection Ha as <-. exists h'.
  rewrite Hret, Hd, Hl. split; [reflexivity|]. split; reflexivity.
Defined.

Lemma find_devices_correct_witness :
  ∃ h', uvc_find_devices (Some desk) 0x1234 0 None empty_heap = Ret ((UVC_ERROR_NO_DEVICE, None), h')
    ∧ hp_lists h' = 1.
Proof.
  pose proof (find_devices_correct desk 0x1234 0 None empty_heap empty_heap_ok) as H. cbv zeta in H.
  destruct (uvc_find_devices _ _ _ _ _) as [[[ret found] h']|]; [|destruct H].
  destruct H as (_ & _ & _ & Hl & _ & Hret). exists h'. rewrite decide_True in Hret by reflexivity.
  destruct Hret as [-> ->]. split; [reflexivity|exact Hl].
Defined.
