(* ===== verification/Printf.v ===== *)
(** * Printf: formatted output of C

    What the diagnostics use of the C library: string literals with their escapes,
    and [fprintf] with decimal, hexadecimal and string conversions.  A format string
    is read as the C library reads it; an argument that is missing or of the wrong
    kind is undefined behaviour. *)

From Stdlib Require Import Ascii.
From stdpp Require Import prelude strings.
From S2P Require Import Prelude.

(** ** String literals *)

Definition newline : ascii := "010"%char.
Definition tab : ascii := "009"%char.

(** The escapes [\n] and [\t]; any other escaped character stands for itself. *)
Fixpoint c_literal (s : string) : string :=
  match s with
  | String "\" (String c s) =>
      String (if decide (c = "n"%char) then newline else if decide (c = "t"%char) then tab else c) (c_literal s)
  | String c s => String c (c_literal s)
  | EmptyString => EmptyString
  end.

(** ** Numbers *)

Definition digit_char (d : Z) : ascii :=
  nth (Z.to_nat d) ["0"; "1"; "2"; "3"; "4"; "5"; "6"; "7"; "8"; "9"; "a"; "b"; "c"; "d"; "e"; "f"]%char "0"%char.

(** The digits of [n] in front of [acc]; [fuel] bounds their number. *)
Fixpoint show_digits (fuel : nat) (base n : Z) (acc : string) : string :=
  match fuel with
  | O => acc
  | S fuel =>
      let acc := String (digit_char (n mod base)) acc in
      if n <? base then acc else show_digits fuel base (n / base) acc
  end.

(** A 32-bit number has at most 32 digits in any base. *)
Definition show_nat (base n : Z) : string := show_digits 32 base n "".

Definition show_int (z : Z) : string :=
  if z <? 0 then String "-" (show_nat 10 (- z)) else show_nat 10 z.

(** [n] times the character [c] in front of [s]. *)
Fixpoint pad (n : nat) (c : ascii) (s : string) : string :=
  match n with
  | O => s
  | S n => String c (pad n c s)
  end.

Definition pad_to (width : nat) (c : ascii) (s : string) : string := pad (width - String.length s) c s.

(** ** Formats *)

Inductive conversion :=
  | Conv_d
  | Conv_u
  | Conv_x
  | Conv_s.

#[export] Instance conversion_eq_dec : EqDecision conversion.
Proof. solve_decision. Defined.

(** A character of the output, or a conversion with the flag 0 and a field width. *)
Inductive piece :=
  | Lit (c : ascii)
  | Spec (zero : bool) (width : nat) (conv : conversion).

(** Inside a conversion specification: the flag and the width read so far. *)
Fixpoint parse_format (spec : option (bool * nat)) (s : string) : list piece :=
  match s, spec with
  | EmptyString, _ => []
  | String c s, None =>
      if decide (c = "%"%char) then parse_format (Some (false, 0%nat)) s else Lit c :: parse_format None s
  | String c s, Some (zero, width) =>
      match c with
      | "d"%char => Spec zero width Conv_d :: parse_format None s
      | "u"%char => Spec zero width Conv_u :: parse_format None s
      | "x"%char => Spec zero width Conv_x :: parse_format None s
      | "s"%char => Spec zero width Conv_s :: parse_format None s
      | "0"%char => parse_format (Some (true, width)) s
      | _ => parse_format (Some (zero, (Nat.sub (nat_of_ascii c) (nat_of_ascii "0")))) s
      end
  end.

(** An argument: an integer of 32 bits, or a string. *)
Inductive arg :=
  | AInt (z : Z)
  | AStr (s : string).

Definition convert_arg (zero : bool) (width : nat) (conv : conversion) (a : arg) : outcome string :=
  let fill := if zero then "0"%char else " "%char in
  match conv, a with
  | Conv_d, AInt z =>
      Ret (if zero && (i32 z <? 0) then String "-" (pad_to (pred width) "0"%char (show_nat 10 (- i32 z)))
           else pad_to width fill (show_int (i32 z)))
  | Conv_u, AInt z => Ret (pad_to width fill (show_nat 10 (u32 z)))
  | Conv_x, AInt z => Ret (pad_to width fill (show_nat 16 (u32 z)))
  | Conv_s, AStr s => Ret (pad_to width " "%char s)
  | _, _ => Undef BadArgument
  end.

Fixpoint format (ps : list piece) (args : list arg) : outcome string :=
  match ps with
  | [] => Ret ""
  | Lit c :: ps =>
      rest ← format ps args;
      Ret (String c rest)
  | Spec zero width conv :: ps =>
      match args with
      | [] => Undef BadArgument
      | a :: args =>
          s ← convert_arg zero width conv a;
          rest ← format ps args;
          Ret (s +:+ rest)
      end
  end.

(** The text that [fprintf] writes. *)
Definition fprintf (fmt : string) (args : list arg) : outcome string :=
  format (parse_format None (c_literal fmt)) args.

(** ** Strings in memory *)

Definition char_of (b : Z) : ascii := ascii_of_N (Z.to_N b).

(** The string that starts with [l]: up to the first zero, which has to be there. *)
Fixpoint c_string (l : bytes) : outcome string :=
  match l with
  | [] => Undef OutOfBounds
  | b :: l =>
      if b =? 0 then Ret "" else
      s ← c_string l;
      Ret (String (char_of b) s)
  end.
