(* ===== verification/Diag.v ===== *)
(** * Diag: diagnostics, src/diag.c

    Error messages, and the printing of control blocks and device descriptions.  A
    function gives the file it writes to and the text; the format strings are those of
    the code. *)

From stdpp Require Import prelude strings.
From S2P Require Import Prelude Types Descriptors Handles Discovery Printf.

Inductive file :=
  | Stdout
  | Stderr
  | OtherFile (n : nat).

(** [if (stream == NULL) stream = stderr] *)
Definition stream_or_stderr (stream : option file) : file := default Stderr stream.

(** Text put together; the first fault ends it. *)
Definition emit (parts : list (outcome string)) : outcome string :=
  foldr (λ p rest, s ← p; r ← rest; Ret (s +:+ r)) (Ret "") parts.

(** ** Errors *)

Definition uvc_error_msgs : list (Z * string) :=
  [(UVC_SUCCESS, "Success");
   (UVC_ERROR_IO, "I/O error");
   (UVC_ERROR_INVALID_PARAM, "Invalid parameter");
   (UVC_ERROR_ACCESS, "Access denied");
   (UVC_ERROR_NO_DEVICE, "No such device");
   (UVC_ERROR_NOT_FOUND, "Not found");
   (UVC_ERROR_BUSY, "Busy");
   (UVC_ERROR_TIMEOUT, "Timeout");
   (UVC_ERROR_OVERFLOW, "Overflow");
   (UVC_ERROR_PIPE, "Pipe");
   (UVC_ERROR_INTERRUPTED, "Interrupted");
   (UVC_ERROR_NO_MEM, "Out of memory");
   (UVC_ERROR_NOT_SUPPORTED, "Not supported");
   (UVC_ERROR_INVALID_DEVICE, "Invalid device");
   (UVC_ERROR_INVALID_MODE, "Invalid mode");
   (UVC_ERROR_CALLBACK_EXISTS, "Callback exists")].

Definition uvc_strerror (err : Z) : string :=
  match list_find (λ m, m.1 = err) uvc_error_msgs with
  | Some (_, m) => m.2
  | None => "Unknown error"
  end.

Definition uvc_perror (err : Z) (msg : option string) : outcome (file * string) :=
  let prefix := match msg with
                | Some (String _ _ as msg) => msg +:+ ": "
                | _ => ""
                end in
  text ← emit [Ret prefix; fprintf "%s (%d)\n" [AStr (uvc_strerror err); AInt err]];
  Ret (Stderr, text).

(** ** Control blocks *)

Definition uvc_print_stream_ctrl (ctrl : uvc_stream_ctrl) (stream : option file) : outcome (file * string) :=
  text ← emit
    [fprintf "bmHint: %04x\n" [AInt (sc_bmHint ctrl)];
     fprintf "bFormatIndex: %d\n" [AInt (sc_bFormatIndex ctrl)];
     fprintf "bFrameIndex: %d\n" [AInt (sc_bFrameIndex ctrl)];
     fprintf "dwFrameInterval: %u\n" [AInt (sc_dwFrameInterval ctrl)];
     fprintf "wKeyFrameRate: %d\n" [AInt (sc_wKeyFrameRate ctrl)];
     fprintf "wPFrameRate: %d\n" [AInt (sc_wPFrameRate ctrl)];
     fprintf "wCompQuality: %d\n" [AInt (sc_wCompQuality ctrl)];
     fprintf "wCompWindowSize: %d\n" [AInt (sc_wCompWindowSize ctrl)];
     fprintf "wDelay: %d\n" [AInt (sc_wDelay ctrl)];
     fprintf "dwMaxVideoFrameSize: %u\n" [AInt (sc_dwMaxVideoFrameSize ctrl)];
     fprintf "dwMaxPayloadTransferSize: %u\n" [AInt (sc_dwMaxPayloadTransferSize ctrl)];
     fprintf "bInterfaceNumber: %d\n" [AInt (sc_bInterfaceNumber ctrl)]];
  Ret (stream_or_stderr stream, text).

(** ** Device descriptions *)

Definition _uvc_name_for_format_subtype (subtype : Z) : string :=
  if subtype =? UVC_VS_FORMAT_UNCOMPRESSED then "UncompressedFormat"
  else if subtype =? UVC_VS_FORMAT_MJPEG then "MJPEGFormat"
  else if subtype =? UVC_VS_FORMAT_FRAME_BASED then "FrameFormat"
  else "Unknown".

(** The subtypes whose formats are printed in full. *)
Definition known_format (subtype : Z) : bool :=
  (subtype =? UVC_VS_FORMAT_UNCOMPRESSED) || (subtype =? UVC_VS_FORMAT_MJPEG)
  || (subtype =? UVC_VS_FORMAT_FRAME_BASED).

(** [10000000 / interval] *)
Definition rate (interval : Z) : outcome Z := cdiv 10000000 interval.

(** The line of a frame interval table with place [i] on: up to the terminator. *)
Fixpoint print_intervals (fmt : string) (i : Z) (intervals : list Z) : outcome string :=
  match intervals with
  | [] => Undef OutOfBounds
  | v :: rest =>
      if v =? 0 then Ret "" else
      r ← rate v;
      emit [fprintf fmt [AInt i; AInt r]; print_intervals fmt (i + 1) rest]
  end.

(** [for (i = 0; i < 16; ++i) fprintf(stream, "%02x", guidFormat[i])] *)
Fixpoint print_guid (n : nat) (i : Z) (guid : bytes) : outcome string :=
  match n with
  | O => Ret ""
  | S n =>
      b ← rd guid i;
      emit [fprintf "%02x" [AInt b]; print_guid n (i + 1) guid]
  end.

(** The texts of the two functions differ in their indentation. *)
Record layout := {
  ly_format : string;
  ly_format2 : string;
  ly_frame : string;
  ly_interval : string;
  ly_range : string;
  ly_step : string;
}.

Definition diag_layout : layout := {|
  ly_format := "\t\%s(%d)\n\t\t  bits per pixel: %d\n\t\t  GUID: ";
  ly_format2 := "\t\t  default frame: %d\n\t\t  aspect ratio: %dx%d\n\t\t  interlace flags: %02x\n\t\t  copy protect: %02x\n";
  ly_frame := "\t\t\tFrameDescriptor(%d)\n\t\t\t  capabilities: %02x\n\t\t\t  size: %dx%d\n\t\t\t  bit rate: %d-%d\n\t\t\t  max frame size: %d\n\t\t\t  default interval: 1/%d\n";
  ly_interval := "\t\t\t  interval[%d]: 1/%d\n";
  ly_range := "\t\t\t  min interval[%d] = 1/%d\n\t\t\t  max interval[%d] = 1/%d\n";
  ly_step := "\t\t\t  interval step[%d] = 1/%d\n"
|}.

Definition frameformats_layout : layout := {|
  ly_format := "         \%s(%d)\n            bits per pixel: %d\n            GUID: ";
  ly_format2 := "            default frame: %d\n            aspect ratio: %dx%d\n            interlace flags: %02x\n            copy protect: %02x\n";
  ly_frame := "               FrameDescriptor(%d)\n                  capabilities: %02x\n                  size: %dx%d\n                  bit rate: %d-%d\n                  max frame size: %d\n                  default interval: 1/%d\n";
  ly_interval := "                  interval[%d]: 1/%d\n";
  ly_range := "                  min interval[%d] = 1/%d\n                  max interval[%d] = 1/%d\n";
  ly_step := "                  interval step[%d] = 1/%d\n"
|}.

Definition print_frame (ly : layout) (frame_desc : uvc_frame_desc) : outcome string :=
  default_rate ← rate (fr_dwDefaultFrameInterval frame_desc);
  emit
    [fprintf (ly_frame ly)
       [AInt (fr_bFrameIndex frame_desc); AInt (fr_bmCapabilities frame_desc); AInt (fr_wWidth frame_desc);
        AInt (fr_wHeight frame_desc); AInt (fr_dwMinBitRate frame_desc); AInt (fr_dwMaxBitRate frame_desc);
        AInt (fr_dwMaxVideoFrameBufferSize frame_desc); AInt default_rate];
     match fr_intervals frame_desc with
     | Some intervals => print_intervals (ly_interval ly) 0 intervals
     | None =>
         min_rate ← rate (fr_dwMinFrameInterval frame_desc);
         max_rate ← rate (fr_dwMaxFrameInterval frame_desc);
         emit
           [fprintf (ly_range ly)
              [AInt (fr_dwMinFrameInterval frame_desc); AInt min_rate;
               AInt (fr_dwMaxFrameInterval frame_desc); AInt max_rate];
            if nz (fr_dwFrameIntervalStep frame_desc) then
              step_rate ← rate (fr_dwFrameIntervalStep frame_desc);
              fprintf (ly_step ly) [AInt (fr_dwFrameIntervalStep frame_desc); AInt step_rate]
            else Ret ""]
     end].

Definition print_still_res (res : uvc_still_frame_res) : outcome string :=
  fprintf "\t\t\t  wWidth(%d) = %d\n\t\t\t  wHeight(%d) = %d\n"
    [AInt (sr_bResolutionIndex res); AInt (sr_wWidth res); AInt (sr_bResolutionIndex res); AInt (sr_wHeight res)].

Definition print_still_frame (still : uvc_still_frame_desc) : outcome string :=
  emit
    (fprintf "\t\t\tStillFrameDescriptor\n\t\t\t  bEndPointAddress: %02x\n" [AInt (sf_bEndPointAddress still)]
     :: (print_still_res <$> sf_imageSizePatterns still)).

(** [still]: whether the still image frames are printed too.  The four-character code
    shares its memory with the GUID, and is printed as a string. *)
Definition print_format (ly : layout) (still : bool) (fmt_desc : uvc_format_desc) : outcome string :=
  if known_format (fm_bDescriptorSubtype fmt_desc) then
    fourcc ← c_string (fm_guidFormat fmt_desc);
    emit
      ([fprintf (ly_format ly)
          [AStr (_uvc_name_for_format_subtype (fm_bDescriptorSubtype fmt_desc)); AInt (fm_bFormatIndex fmt_desc);
           AInt (fm_bBitsPerPixel fmt_desc)];
        print_guid 16 0 (fm_guidFormat fmt_desc);
        fprintf " (%4s)\n" [AStr fourcc];
        fprintf (ly_format2 ly)
          [AInt (fm_bDefaultFrameIndex fmt_desc); AInt (fm_bAspectRatioX fmt_desc); AInt (fm_bAspectRatioY fmt_desc);
           AInt (fm_bmInterlaceFlags fmt_desc); AInt (fm_bCopyProtect fmt_desc)]]
       ++ (print_frame ly <$> fm_frame_descs fmt_desc)
       ++ (if still then print_still_frame <$> fm_still_frame_desc fmt_desc else []))
  else fprintf "\t-UnknownFormat (%d)\n" [AInt (fm_bDescriptorSubtype fmt_desc)].

(** The streaming interfaces with their numbers from [stream_idx + 1] on. *)
Fixpoint print_stream_ifs (stream_idx : Z) (l : list uvc_streaming_interface) : outcome string :=
  match l with
  | [] => Ret ""
  | stream_if :: l =>
      let stream_idx := stream_idx + 1 in
      emit
        (fprintf "VideoStreaming(%d):\n\tbEndpointAddress: %d\n\tFormats:\n"
           [AInt stream_idx; AInt (si_bEndpointAddress stream_if)]
         :: (print_format diag_layout true <$> si_format_descs stream_if)
         ++ [print_stream_ifs stream_idx l])
  end.

Definition string_or (s : option bytes) (none : string) : outcome string :=
  match s with
  | Some s => c_string (s ++ [0])
  | None => Ret none
  end.

Definition mem_lift {A} (m : outcome A) : mem A := λ h,
  a ← m;
  Ret (a, h).

(** [dev] is [devh->dev].  The result of [uvc_get_device_descriptor] is not looked at:
    when it fails, [desc] is what was on the stack. *)
Definition uvc_print_diag (devices : option (list usb_device)) (devh : uvc_device_handle) (dev : nat)
    (stream : option file) : mem (file * string) :=
  let stream := stream_or_stderr stream in
  info ← mem_lift (deref (dh_info devh));
  if nz (ci_bcdUVC (di_ctrl_if info)) then
    stored ← uvc_get_device_descriptor devices dev;
    desc ← mem_lift (match stored with Some desc => Ret desc | None => Undef Uninitialised end);
    serial ← mem_lift (string_or (dd_serialNumber desc) "[none]");
    head ← mem_lift (fprintf "DEVICE CONFIGURATION (%04x:%04x/%s) ---\n"
                   [AInt (dd_idVendor desc); AInt (dd_idProduct desc); AStr serial]);
    _ ← uvc_free_device_descriptor desc;
    text ← mem_lift (emit
      [Ret head;
       fprintf "Status: %s\n" [AStr (match dh_streams devh with [] => "idle" | _ => "streaming" end)];
       fprintf "VideoControl:\n\tbcdUVC: 0x%04x\n" [AInt (ci_bcdUVC (di_ctrl_if info))];
       print_stream_ifs 0 (di_stream_ifs info);
       fprintf "END DEVICE CONFIGURATION\n" []]);
    mret (stream, text)
  else
    text ← mem_lift (fprintf "uvc_print_diag: Device not configured!\n" []);
    mret (stream, text).

Definition uvc_print_frameformats (devh : uvc_device_handle) : outcome (file * string) :=
  info ← deref (dh_info devh);
  text ←
    (if nz (ci_bcdUVC (di_ctrl_if info)) then
       emit (print_format frameformats_layout false <$> (di_stream_ifs info ≫= si_format_descs))
     else fprintf "uvc_print_frameformats: Device not configured!\n" []);
  Ret (Stdout, text).
