(* ===== verification/DiagFacts.v ===== *)
(** * DiagFacts: what the diagnostics print, and when they can

    A control block can be read back from its text.  Printing the description of a
    device is safe exactly for descriptions that the parsers do not always produce. *)

From Stdlib Require Import Ascii.
From stdpp Require Import prelude strings.
From S2P Require Import Prelude Types Descriptors DescriptorsFacts Handles NegotiationFacts Discovery DiscoveryFacts Printf Diag.

(** ** Reading back *)

Definition digit_value (base : Z) (c : ascii) : option Z :=
  let n := Z.of_nat (nat_of_ascii c) in
  let d := if (48 <=? n) && (n <=? 57) then n - 48 else if (97 <=? n) && (n <=? 102) then n - 87 else 99 in
  if d <? base then Some d else None.

(** Reads digits on from the value [acc]. *)
Fixpoint read_digits (base acc : Z) (s : string) : Z * string :=
  match s with
  | String c s' =>
      match digit_value base c with
      | Some d => read_digits base (acc * base + d) s'
      | None => (acc, s)
      end
  | EmptyString => (acc, EmptyString)
  end.

Definition base_of (conv : conversion) : Z := match conv with Conv_x => 16 | _ => 10 end.

(** [sscanf] for the formats here: the numbers, and the rest of the text. *)
Fixpoint scan (ps : list piece) (s : string) : option (list Z * string) :=
  match ps with
  | [] => Some ([], s)
  | Lit c :: ps =>
      match s with
      | String c' s => if decide (c = c') then scan ps s else None
      | EmptyString => None
      end
  | Spec _ _ conv :: ps =>
      let '(n, s) := read_digits (base_of conv) 0 s in
      '(l, s) ← scan ps s;
      Some (n :: l, s)
  end.

Lemma digit_value_char base d : 0 ≤ d < base → base ≤ 16 → digit_value base (digit_char d) = Some d.
Proof.
  intros Hd Hb.
  assert (d ∈ seqZ 0 16) as Hin by (apply elem_of_seqZ; lia).
  assert (Forall (λ d, ∀ base, digit_value base (digit_char d) = if d <? base then Some d else None) (seqZ 0 16))
    as Hall by (repeat constructor).
  rewrite Forall_forall in Hall. rewrite Hall by done. by rewrite (proj2 (Z.ltb_lt _ _)) by lia.
Qed.

(** A text that does not go on with a digit. *)
Definition no_digit (base : Z) (s : string) : Prop :=
  match s with
  | String c _ => digit_value base c = None
  | EmptyString => True
  end.

Lemma read_no_digit base acc s : no_digit base s → read_digits base acc s = (acc, s).
Proof. destruct s as [|c s]; [done|]. cbn. by intros ->. Qed.

Lemma read_show_digits fuel base n s :
  2 ≤ base ≤ 16 → 0 ≤ n < base ^ Z.of_nat fuel →
  read_digits base 0 (show_digits fuel base n s) = read_digits base n s.
Proof.
  intros Hb. revert n s. induction fuel as [|fuel IH]; intros n s Hn; cbn [show_digits].
  { change (base ^ Z.of_nat 0) with 1 in Hn. by replace n with 0 by lia. }
  rewrite Nat2Z.inj_succ, Z.pow_succ_r in Hn by lia.
  pose proof (Z.mod_pos_bound n base ltac:(lia)). pose proof (Z.div_mod n base ltac:(lia)) as Hdm.
  destruct (Z.ltb_spec n base).
  - cbn [read_digits]. rewrite digit_value_char by lia. by rewrite Z.mod_small by lia.
  - rewrite IH.
    + cbn [read_digits]. rewrite digit_value_char by lia. f_equal. lia.
    + split; [apply Z.div_pos; lia|]. apply Z.div_lt_upper_bound; lia.
Qed.

Lemma read_pad base n s : 2 ≤ base ≤ 16 → read_digits base 0 (pad n "0" s) = read_digits base 0 s.
Proof.
  intros Hb. induction n as [|n IH]; [done|]. cbn [pad read_digits].
  change "0"%char with (digit_char 0). by rewrite digit_value_char by lia.
Qed.

(** The format, as the pieces [fprintf] works through. *)
Definition pieces (fmt : string) : list piece := parse_format None (c_literal fmt).

(** Every number ends before a character that is not a digit, and is padded with
    zeros if at all: what makes a format readable. *)
Fixpoint readable (ps : list piece) : bool :=
  match ps with
  | [] => true
  | Lit _ :: ps => readable ps
  | Spec zero width conv :: ps =>
      (zero || (width =? 0)%nat) && negb (bool_decide (conv = Conv_s))
      && match ps with
         | Lit c :: _ => bool_decide (digit_value (base_of conv) c = None)
         | _ => false
         end
      && readable ps
  end.

(** One number per conversion, not negative and in the range of the conversion. *)
Fixpoint numbers_fit (ps : list piece) (zs : list Z) : Prop :=
  match ps with
  | [] => zs = []
  | Lit _ :: ps => numbers_fit ps zs
  | Spec _ _ conv :: ps =>
      match zs with
      | [] => False
      | z :: zs => 0 ≤ z < (match conv with Conv_d => 2 ^ 31 | _ => 2 ^ 32 end) ∧ numbers_fit ps zs
      end
  end.

Lemma str_app_cons c s1 s2 : String c s1 +:+ s2 = String c (s1 +:+ s2).
Proof. done. Qed.

Lemma str_app_assoc (s1 s2 s3 : string) : (s1 +:+ s2) +:+ s3 = s1 +:+ (s2 +:+ s3).
Proof. induction s1 as [|c s1 IH]; [done|]. by rewrite !str_app_cons, IH. Qed.

Lemma show_digits_app fuel base n s rest :
  show_digits fuel base n s +:+ rest = show_digits fuel base n (s +:+ rest).
Proof.
  revert n s. induction fuel as [|fuel IH]; intros n s; cbn [show_digits]; [done|].
  destruct (n <? base); [done|]. by rewrite IH.
Qed.

Lemma pad_app n c s rest : pad n c s +:+ rest = pad n c (s +:+ rest).
Proof. induction n as [|n IH]; [done|]. cbn [pad]. by rewrite str_app_cons, IH. Qed.

Lemma read_show base (n : Z) (w : nat) rest :
  2 ≤ base ≤ 16 → 0 ≤ n < 2 ^ 32 → no_digit base rest →
  read_digits base 0 (pad_to w "0" (show_nat base n) +:+ rest) = (n, rest).
Proof.
  intros Hb Hn Hd. unfold pad_to, show_nat. rewrite pad_app, read_pad, show_digits_app, read_show_digits; try done.
  - by apply read_no_digit.
  - split; [lia|]. eapply Z.lt_le_trans; [apply Hn|]. apply Z.pow_le_mono_l. lia.
Qed.

Lemma pad_to_0 c s : pad_to 0 c s = s.
Proof. done. Qed.

(** A converted number is read back. *)
Lemma read_converted zero width conv (z : Z) rest :
  zero || (width =? 0)%nat = true → conv ≠ Conv_s →
  0 ≤ z < (match conv with Conv_d => 2 ^ 31 | _ => 2 ^ 32 end) → no_digit (base_of conv) rest →
  ∃ s, convert_arg zero width conv (AInt z) = Ret s ∧ read_digits (base_of conv) 0 (s +:+ rest) = (z, rest).
Proof.
  intros Hf Hs Hz Hd.
  assert (∀ s, pad_to width (if zero then "0"%char else " "%char) s = pad_to width "0" s) as Hfill.
  { intros s. destruct zero; [done|]. by apply Nat.eqb_eq in Hf as ->. }
  destruct conv; [| | |done]; cbn [convert_arg base_of] in *; rewrite Hfill; eexists; (split; [done|]).
  - assert (i32 z = z) as -> by (apply wraps_small; lia). rewrite (proj2 (Z.ltb_ge _ _)), andb_false_r by lia.
    unfold show_int. rewrite (proj2 (Z.ltb_ge _ _)) by lia. apply read_show; [lia|lia|done].
  - assert (u32 z = z) as -> by (by apply wrapu_id). apply read_show; [lia|lia|done].
  - assert (u32 z = z) as -> by (by apply wrapu_id). apply read_show; [lia|lia|done].
Qed.

(** What is printed with a readable format is read back, and nothing more. *)
Lemma scan_format ps zs :
  readable ps = true → numbers_fit ps zs →
  ∃ s, format ps (AInt <$> zs) = Ret s ∧ ∀ rest, scan ps (s +:+ rest) = Some (zs, rest).
Proof.
  revert zs. induction ps as [|[c|zero width conv] ps IH]; intros zs Hr Hn; cbn [readable numbers_fit] in *.
  - subst. exists "". split; [done|]. done.
  - destruct (IH zs Hr Hn) as (s & Hs & Hscan). exists (String c s). cbn [format]. rewrite Hs. split; [done|].
    intros rest. rewrite str_app_cons. cbn [scan]. by rewrite decide_True.
  - destruct zs as [|z zs]; [done|]. destruct Hn as [Hz Hn].
    rewrite !andb_true_iff, negb_true_iff, bool_decide_eq_false in Hr. destruct Hr as [[[Hf Hc] Hd] Hr].
    destruct (IH zs Hr Hn) as (s & Hs & Hscan).
    assert (∀ rest, no_digit (base_of conv) (s +:+ rest)) as Hno.
    { intros rest. destruct ps as [|[c|] ps]; [done| |done]. apply bool_decide_eq_true in Hd.
      cbn [format] in Hs. apply bind_Ret_inv in Hs as (s' & _ & [= <-]). done. }
    destruct (read_converted zero width conv z (s +:+ "")) as (sz & Hsz & _); [done..|].
    exists (sz +:+ s). cbn [format fmap list_fmap]. rewrite Hsz, Hs. split; [done|]. intros rest.
    destruct (read_converted zero width conv z (s +:+ rest)) as (sz' & Hsz' & Hread); [done..|].
    rewrite Hsz in Hsz'. injection Hsz' as <-. cbn [scan]. by rewrite str_app_assoc, Hread, Hscan.
Qed.

Lemma scan_app ps qs s l rest :
  scan ps s = Some (l, rest) → scan (ps ++ qs) s = '(k, rest) ← scan qs rest; Some (l ++ k, rest).
Proof.
  revert s l. induction ps as [|[c|zero width conv] ps IH]; intros s l; cbn [scan app].
  - intros [= <- <-]. by destruct (scan qs s) as [[]|].
  - destruct s as [|c' s]; [done|]. case_decide; [|done]. apply IH.
  - destruct (read_digits (base_of conv) 0 s) as [n s']. destruct (scan ps s') as [[k r]|] eqn:E; [|done].
    intros [= <- <-]. rewrite (IH s' k E). by destruct (scan qs r) as [[]|].
Qed.

Lemma emit_cons p parts : emit (p :: parts) = (s ← p; r ← emit parts; Ret (s +:+ r)).
Proof. done. Qed.

(** Several prints in a row. *)
Lemma scan_emit (parts : list (string * list Z)) :
  Forall (λ p, readable (pieces p.1) = true ∧ numbers_fit (pieces p.1) p.2) parts →
  ∃ s, emit ((λ p, fprintf p.1 (AInt <$> p.2)) <$> parts) = Ret s
       ∧ ∀ rest, scan (parts ≫= λ p, pieces p.1) (s +:+ rest) = Some (parts ≫= snd, rest).
Proof.
  induction 1 as [|[fmt zs] parts [Hr Hn] _ IH]; [by exists ""|].
  destruct IH as (s & Hs & Hscan). destruct (scan_format _ _ Hr Hn) as (s1 & Hs1 & Hscan1).
  exists (s1 +:+ s). cbn [fst snd] in *. rewrite fmap_cons, emit_cons. cbn [fst snd].
  change (fprintf fmt (AInt <$> zs)) with (format (pieces fmt) (AInt <$> zs)). rewrite Hs1, Hs.
  split; [done|]. intros rest.
  cbn [mbind list_bind fst snd]. rewrite str_app_assoc. erewrite scan_app by apply Hscan1. by rewrite Hscan.
Qed.

(** ** Control blocks *)

(** The text of a control block, as one format. *)
Definition stream_ctrl_format : string :=
  "bmHint: %04x\nbFormatIndex: %d\nbFrameIndex: %d\ndwFrameInterval: %u\nwKeyFrameRate: %d\nwPFrameRate: %d\nwCompQuality: %d\nwCompWindowSize: %d\nwDelay: %d\ndwMaxVideoFrameSize: %u\ndwMaxPayloadTransferSize: %u\nbInterfaceNumber: %d\n".

(** The numbers of a text that has this form from its first to its last character. *)
Definition read_stream_ctrl (text : string) : option (list Z) :=
  '(l, rest) ← scan (pieces stream_ctrl_format) text;
  if decide (rest = "") then Some l else None.

Definition printed_fields (c : uvc_stream_ctrl) : list Z :=
  [sc_bmHint c; sc_bFormatIndex c; sc_bFrameIndex c; sc_dwFrameInterval c; sc_wKeyFrameRate c; sc_wPFrameRate c;
   sc_wCompQuality c; sc_wCompWindowSize c; sc_wDelay c; sc_dwMaxVideoFrameSize c;
   sc_dwMaxPayloadTransferSize c; sc_bInterfaceNumber c].

(** The prints of [uvc_print_stream_ctrl]. *)
Definition ctrl_parts (c : uvc_stream_ctrl) : list (string * list Z) :=
  [("bmHint: %04x\n", [sc_bmHint c]); ("bFormatIndex: %d\n", [sc_bFormatIndex c]);
   ("bFrameIndex: %d\n", [sc_bFrameIndex c]); ("dwFrameInterval: %u\n", [sc_dwFrameInterval c]);
   ("wKeyFrameRate: %d\n", [sc_wKeyFrameRate c]); ("wPFrameRate: %d\n", [sc_wPFrameRate c]);
   ("wCompQuality: %d\n", [sc_wCompQuality c]); ("wCompWindowSize: %d\n", [sc_wCompWindowSize c]);
   ("wDelay: %d\n", [sc_wDelay c]); ("dwMaxVideoFrameSize: %u\n", [sc_dwMaxVideoFrameSize c]);
   ("dwMaxPayloadTransferSize: %u\n", [sc_dwMaxPayloadTransferSize c]);
   ("bInterfaceNumber: %d\n", [sc_bInterfaceNumber c])].

Lemma ctrl_parts_readable c :
  ctrl_wf c → fits 8 (sc_bInterfaceNumber c) →
  Forall (λ p, readable (pieces p.1) = true ∧ numbers_fit (pieces p.1) p.2) (ctrl_parts c).
Proof.
  intros [] Hi. unfold fits in *. unfold ctrl_parts.
  repeat (apply Forall_cons; split; [split; [reflexivity|cbn; split; [lia|done]]|]). constructor.
Qed.

(** C33: the text [uvc_print_stream_ctrl] writes determines the control block: every
    printed field is read back from it with its value, and nothing is left over.  It
    goes to the given file, or to stderr. *)
Theorem print_stream_ctrl_roundtrip c stream :
  ctrl_wf c → fits 8 (sc_bInterfaceNumber c) →
  ∃ text, uvc_print_stream_ctrl c stream = Ret (default Stderr stream, text)
          ∧ read_stream_ctrl text = Some (printed_fields c).
Proof.
  intros Hc Hi. destruct (scan_emit _ (ctrl_parts_readable c Hc Hi)) as (s & Hs & Hscan).
  exists s. unfold uvc_print_stream_ctrl. change (emit _) with (emit ((λ p, fprintf p.1 (AInt <$> p.2)) <$> ctrl_parts c)).
  rewrite Hs. split; [done|]. specialize (Hscan ""). unfold read_stream_ctrl.
  replace (pieces stream_ctrl_format) with (ctrl_parts c ≫= λ p, pieces p.1) by reflexivity.
  assert (s +:+ "" = s) as Happ by (clear; induction s as [|ch s IH]; [done|]; by rewrite str_app_cons, IH).
  rewrite Happ in Hscan. by rewrite Hscan.
Qed.

Lemma print_stream_ctrl_roundtrip_witness :
  ∃ text, uvc_print_stream_ctrl sample_ctrl None = Ret (Stderr, text)
          ∧ read_stream_ctrl text = Some (printed_fields sample_ctrl).
Proof. apply (print_stream_ctrl_roundtrip sample_ctrl None); [apply sample_ctrl_wf|vm_compute; by split]. Defined.

(** ** When a description can be printed *)

Definition prints {A} (m : outcome A) : Prop := ∃ a, m = Ret a.

Lemma prints_Ret {A} (a : A) : prints (Ret a).
Proof. by exists a. Qed.

Lemma prints_bind {A B} (m : outcome A) (f : A → outcome B) :
  prints (m ≫= f) ↔ ∃ a, m = Ret a ∧ prints (f a).
Proof.
  unfold prints. setoid_rewrite bind_Ret_inv. naive_solver.
Qed.

Lemma emit_prints parts : prints (emit parts) ↔ Forall prints parts.
Proof.
  induction parts as [|p parts IH]; [split; [constructor|intros; apply prints_Ret]|].
  rewrite emit_cons, Forall_cons, <- IH, prints_bind. setoid_rewrite prints_bind. unfold prints. naive_solver.
Qed.

(** The arguments are there and of the right kind. *)
Fixpoint args_match (ps : list piece) (args : list arg) : bool :=
  match ps with
  | [] => true
  | Lit _ :: ps => args_match ps args
  | Spec _ _ conv :: ps =>
      match conv, args with
      | Conv_s, AStr _ :: args => args_match ps args
      | (Conv_d | Conv_u | Conv_x), AInt _ :: args => args_match ps args
      | _, _ => false
      end
  end.

Lemma fprintf_prints fmt args : args_match (pieces fmt) args = true → prints (fprintf fmt args).
Proof.
  unfold fprintf. fold (pieces fmt). generalize (pieces fmt). intros ps. revert args.
  induction ps as [|[c|zero width conv] ps IH]; intros args H; cbn [format args_match] in *.
  - apply prints_Ret.
  - destruct (IH args H) as [s ->]. apply prints_Ret.
  - destruct args as [|a args]; [by destruct conv|].
    destruct conv, a; try done; destruct (IH args H) as [r Hr]; cbn [convert_arg mbind outcome_bind];
      rewrite Hr; apply prints_Ret.
Qed.

(** A print whose format and arguments fit. *)
Ltac print_line := by apply fprintf_prints.

Lemma rate_prints interval : prints (rate interval) ↔ interval ≠ 0.
Proof.
  unfold rate, cdiv, prints. case_decide; split; intros H'; try done; [by destruct H'|by eexists].
Qed.

Lemma c_string_prints l : prints (c_string l) ↔ 0 ∈ l.
Proof.
  induction l as [|b l IH]; cbn [c_string].
  - rewrite elem_of_nil. split; [intros [? [=]]|done].
  - rewrite elem_of_cons. destruct (Z.eqb_spec b 0) as [->|]; [split; [by left|intros; apply prints_Ret]|].
    rewrite prints_bind, <- IH. unfold prints. naive_solver.
Qed.

Lemma print_guid_prints n i guid : 0 ≤ i → i + Z.of_nat n ≤ len guid → prints (print_guid n i guid).
Proof.
  revert i. induction n as [|n IH]; intros i Hi Hl; cbn [print_guid]; [apply prints_Ret|].
  rewrite rd_byte_at by lia. cbn [mbind outcome_bind]. apply emit_prints.
  constructor; [print_line|]. constructor; [|done]. apply IH; lia.
Qed.

Section layouts.
Context (ly : layout).

(** The formats of the layout are right for the arguments they get. *)
Record layout_ok : Prop := {
  lo_format : ∀ s a b, args_match (pieces (ly_format ly)) [AStr s; AInt a; AInt b] = true;
  lo_format2 : ∀ a b c d e,
    args_match (pieces (ly_format2 ly)) [AInt a; AInt b; AInt c; AInt d; AInt e] = true;
  lo_frame : ∀ a b c d e f g h,
    args_match (pieces (ly_frame ly))
      [AInt a; AInt b; AInt c; AInt d; AInt e; AInt f; AInt g; AInt h] = true;
  lo_interval : ∀ a b, args_match (pieces (ly_interval ly)) [AInt a; AInt b] = true;
  lo_range : ∀ a b c d, args_match (pieces (ly_range ly)) [AInt a; AInt b; AInt c; AInt d] = true;
  lo_step : ∀ a b, args_match (pieces (ly_step ly)) [AInt a; AInt b] = true;
}.

Hypothesis Hly : layout_ok.

Lemma print_intervals_prints i l :
  Forall (λ z, fits 32 z ∧ z ≠ 0) l → prints (print_intervals (ly_interval ly) i (l ++ [0])).
Proof using Hly.
  intros Hl. revert i. induction Hl as [|z l [_ Hz] _ IH]; intros i; cbn [print_intervals app].
  - apply prints_Ret.
  - rewrite (proj2 (Z.eqb_neq _ _) Hz). destruct (proj2 (rate_prints z) Hz) as [r ->].
    cbn [mbind outcome_bind]. apply emit_prints. constructor; [apply fprintf_prints, Hly|].
    constructor; [apply IH|done].
Qed.

(** What [print_frame] divides by. *)
Definition frame_printable (f : uvc_frame_desc) : Prop :=
  fr_dwDefaultFrameInterval f ≠ 0
  ∧ (fr_intervals f = None → fr_dwMinFrameInterval f ≠ 0 ∧ fr_dwMaxFrameInterval f ≠ 0).

Lemma print_range_prints f :
  prints (min_rate ← rate (fr_dwMinFrameInterval f);
          max_rate ← rate (fr_dwMaxFrameInterval f);
          emit
            [fprintf (ly_range ly)
               [AInt (fr_dwMinFrameInterval f); AInt min_rate; AInt (fr_dwMaxFrameInterval f); AInt max_rate];
             if nz (fr_dwFrameIntervalStep f) then
               step_rate ← rate (fr_dwFrameIntervalStep f);
               fprintf (ly_step ly) [AInt (fr_dwFrameIntervalStep f); AInt step_rate]
             else Ret ""])
  ↔ fr_dwMinFrameInterval f ≠ 0 ∧ fr_dwMaxFrameInterval f ≠ 0.
Proof using Hly.
  rewrite <- !rate_prints, prints_bind. setoid_rewrite prints_bind. split; [unfold prints; naive_solver|].
  intros [[r Hr] [r' Hr']]. exists r. split; [done|]. exists r'. split; [done|]. apply emit_prints.
  constructor; [apply fprintf_prints, Hly|]. constructor; [|done].
  destruct (nz _) eqn:E; [|apply prints_Ret]. apply nz_true, rate_prints in E as [q ->].
  apply fprintf_prints, Hly.
Qed.

Lemma print_frame_prints f : frame_wf f → prints (print_frame ly f) ↔ frame_printable f.
Proof using Hly.
  intros Hf. pose proof (wf_intervals f Hf) as Hi. unfold print_frame, frame_printable.
  rewrite prints_bind, <- rate_prints. setoid_rewrite emit_prints. setoid_rewrite Forall_cons.
  setoid_rewrite Forall_cons. destruct (fr_intervals f) as [a|].
  - destruct Hi as (l & -> & _ & _ & Hl). split; [unfold prints; naive_solver|].
    intros [[r Hr] _]. exists r. split_and!; [done|apply fprintf_prints, Hly|by apply print_intervals_prints|done].
  - rewrite <- print_range_prints. split; [unfold prints; naive_solver|].
    intros [[r Hr] H]. exists r. split_and!; [done|apply fprintf_prints, Hly|by apply H|done].
Qed.
End layouts.

Lemma diag_layout_ok : layout_ok diag_layout.
Proof. by split. Qed.

Lemma frameformats_layout_ok : layout_ok frameformats_layout.
Proof. by split. Qed.

(** The four-character code is printed as a string, so there has to be a zero in its
    memory. *)
Definition format_printable (f : uvc_format_desc) : Prop :=
  known_format (fm_bDescriptorSubtype f) = true → 0 ∈ fm_guidFormat f ∧ Forall frame_printable (fm_frame_descs f).

Definition info_printable (info : uvc_device_info) : Prop :=
  Forall (λ s, Forall format_printable (si_format_descs s)) (di_stream_ifs info).

Lemma Forall_iff_under {A} (W P Q : A → Prop) l :
  Forall W l → (∀ x, W x → P x ↔ Q x) → Forall P l ↔ Forall Q l.
Proof.
  intros Hw Hpq. induction Hw as [|x l Hx _ IH]; [split; constructor|]. by rewrite !Forall_cons, IH, Hpq.
Qed.

Lemma print_still_frame_prints still : prints (print_still_frame still).
Proof.
  apply emit_prints. constructor; [print_line|]. apply Forall_fmap, Forall_true. intros res. print_line.
Qed.

Lemma print_format_prints ly still f :
  layout_ok ly → format_wf f → prints (print_format ly still f) ↔ format_printable f.
Proof.
  intros Hly (_ & Hg & _ & Hfs). unfold print_format, format_printable.
  destruct (known_format _); [|split; [done|intros _; print_line]].
  assert (Forall prints (print_frame ly <$> fm_frame_descs f) ↔ Forall frame_printable (fm_frame_descs f)) as Hfr.
  { rewrite Forall_fmap. eapply Forall_iff_under; [done|]. intros fr Hf. by apply print_frame_prints. }
  rewrite prints_bind. setoid_rewrite emit_prints. setoid_rewrite Forall_app. setoid_rewrite Forall_app.
  setoid_rewrite Hfr. rewrite <- c_string_prints. split.
  - intros (fourcc & Hc & _ & H & _) _. split; [by exists fourcc|done].
  - intros [[fourcc Hc] Hf]; [done|]. exists fourcc. split; [done|]. split_and!; [|done|].
    + constructor; [apply fprintf_prints, Hly|]. constructor; [apply print_guid_prints; unfold len; lia|].
      constructor; [print_line|]. constructor; [apply fprintf_prints, Hly|done].
    + destruct still; [|done]. apply Forall_fmap, Forall_true. intros. apply print_still_frame_prints.
Qed.

Lemma print_formats_prints ly still fs :
  layout_ok ly → Forall format_wf fs →
  Forall prints (print_format ly still <$> fs) ↔ Forall format_printable fs.
Proof.
  intros Hly Hfs. rewrite Forall_fmap. eapply Forall_iff_under; [done|]. intros f Hf. by apply print_format_prints.
Qed.

Lemma print_stream_ifs_prints i l :
  Forall stream_if_wf l →
  prints (print_stream_ifs i l) ↔ Forall (λ s, Forall format_printable (si_format_descs s)) l.
Proof.
  intros Hl. revert i. induction Hl as [|s l Hs _ IH]; intros i; cbn [print_stream_ifs].
  { split; [constructor|intros; apply prints_Ret]. }
  rewrite emit_prints, Forall_cons, Forall_app, Forall_singleton, IH, Forall_cons.
  rewrite print_formats_prints by (apply diag_layout_ok || done).
  split; [by intros (_ & ? & ?)|]. intros [? ?]. split_and!; [print_line|done..].
Qed.

Lemma string_or_prints s none : prints (string_or s none).
Proof.
  destruct s as [s|]; [|apply prints_Ret]. apply c_string_prints, elem_of_app. right. by left.
Qed.

Lemma prints_to {A} (m : outcome A) (f : file) : prints (a ← m; Ret (f, a)) ↔ prints m.
Proof.
  rewrite prints_bind. split; [intros (a & Ha & _); by exists a|].
  intros [a ->]. exists a. split; [done|apply prints_Ret].
Qed.

Lemma run_mem_lift {A B} (m : outcome A) (f : A → mem B) h : (mem_lift m ≫= f) h = (a ← m; f a h).
Proof. unfold mem_lift, mbind, mem_bind. by destruct m. Qed.

Definition described (devices : option (list usb_device)) (u : nat) : Prop :=
  ∃ usb ids, usb_of devices u = Some usb ∧ ud_ids usb = Some ids.

(** Reading the descriptor of a device and giving it back. *)
Lemma run_descriptor devices a d h :
  hp_devs h !! a = Some d →
  (described devices (dv_usb_dev d)
   ∧ ∃ desc h', uvc_get_device_descriptor devices a h = Ret (Some desc, h')
                ∧ uvc_free_device_descriptor desc h' = Ret (tt, h))
  ∨ (¬ described devices (dv_usb_dev d) ∧ uvc_get_device_descriptor devices a h = Ret (None, h)).
Proof.
  intros Ha. unfold uvc_get_device_descriptor, mbind, mem_bind, load_dev, described. rewrite Ha.
  destruct (usb_of devices (dv_usb_dev d)) as [[config [[vid pid]|] strings]|].
  - left. split; [by eexists _, _|]. eexists _, _. split; [done|].
    unfold uvc_free_device_descriptor, count_blocks. cbn. destruct h. cbn. do 3 f_equal; lia.
  - right. split; [|done]. intros (usb & ids & [= <-] & [=]).
  - right. split; [|done]. by intros (usb & ids & [=] & _).
Qed.

(** The two ways [uvc_print_diag] goes; the memory is as before. *)
Lemma print_diag_prints devices devh info a d stream h :
  dh_info devh = Some info → info_wf info → hp_devs h !! a = Some d →
  (prints (uvc_print_diag devices devh a stream h)
   ↔ (ci_bcdUVC (di_ctrl_if info) ≠ 0 → described devices (dv_usb_dev d) ∧ info_printable info))
  ∧ if_returns (uvc_print_diag devices devh a stream h) (λ r, r.2 = h ∧ r.1.1 = default Stderr stream).
Proof.
  intros Hi Hwf Ha. unfold uvc_print_diag. rewrite Hi, run_mem_lift. cbn [deref mbind outcome_bind].
  destruct (nz _) eqn:E; [apply nz_true in E|apply nz_false in E; split; [|done]; split; [done|intros _; apply prints_Ret]].
  destruct (run_descriptor devices a d h) as [(Hdesc & desc & h' & Hget & Hfree)|(Hdesc & Hget)];
    [done|rewrite (mem_run_bind _ _ _ _ _ Hget)..].
  - rewrite run_mem_lift. cbn [mbind outcome_bind]. rewrite run_mem_lift.
    destruct (string_or_prints (dd_serialNumber desc) "[none]") as [serial ->]. cbn [mbind outcome_bind].
    rewrite run_mem_lift. destruct (fprintf_prints "DEVICE CONFIGURATION (%04x:%04x/%s) ---\n"
      [AInt (dd_idVendor desc); AInt (dd_idProduct desc); AStr serial]) as [head ->]; [done|].
    cbn [mbind outcome_bind]. rewrite (mem_run_bind _ _ _ _ _ Hfree), run_mem_lift. cbn [mbind outcome_bind]. split.
    + rewrite prints_bind. transitivity (info_printable info); [|naive_solver].
      transitivity (prints (print_stream_ifs 0 (di_stream_ifs info))); [|by apply print_stream_ifs_prints].
      match goal with |- context [emit ?l] => transitivity (prints (emit l)) end.
      * split; [intros (text & Ht & _); by exists text|]. intros [text Ht]. exists text. split; [done|apply prints_Ret].
      * rewrite emit_prints, !Forall_cons. split; [by intros (_ & _ & _ & ? & _)|].
        intros H. split_and!; [apply prints_Ret|print_line..|done|print_line|done].
    + apply if_returns_skip. intros text _. done.
  - rewrite run_mem_lift. split; [|done]. split; [by intros [? ?]|]. naive_solver.
Qed.

Lemma print_frameformats_prints devh info :
  dh_info devh = Some info → info_wf info →
  prints (uvc_print_frameformats devh) ↔ (ci_bcdUVC (di_ctrl_if info) ≠ 0 → info_printable info).
Proof.
  intros Hi Hwf. unfold uvc_print_frameformats. rewrite Hi. cbn [deref mbind outcome_bind]. rewrite prints_to.
  destruct (nz _) eqn:E; [apply nz_true in E|apply nz_false in E; split; [done|intros _; print_line]].
  rewrite emit_prints, print_formats_prints.
  - rewrite Forall_bind. unfold info_printable. naive_solver.
  - apply frameformats_layout_ok.
  - by apply Forall_bind.
Qed.

(** C19: for the description of any device that was opened, [uvc_print_frameformats]
    completes exactly when the control interface has no version (and there is nothing
    to print), or when every format that is printed has a zero byte in its GUID, and
    every frame of it a default interval, and a smallest and largest one where it has no
    table, that are not zero.  [uvc_print_diag] needs besides that libusb delivers the
    device's own descriptor; it gives back what it allocates, and prints to the file it
    was given or to stderr. *)
Theorem print_diag_safe_iff ids config ret info devh devices a d stream h :
  config_ok config →
  uvc_get_device_info ids (Some config) = Ret (ret, Some info) →
  dh_info devh = Some info →
  hp_devs h !! a = Some d →
  (prints (uvc_print_frameformats devh) ↔ (ci_bcdUVC (di_ctrl_if info) ≠ 0 → info_printable info))
  ∧ (prints (uvc_print_diag devices devh a stream h)
     ↔ (ci_bcdUVC (di_ctrl_if info) ≠ 0 → described devices (dv_usb_dev d) ∧ info_printable info))
  ∧ if_returns (uvc_print_diag devices devh a stream h) (λ r, r.2 = h ∧ r.1.1 = default Stderr stream).
Proof.
  intros Hc Hg Hi Ha. destruct (get_device_info_inv _ _ _ _ Hc Hg) as (_ & Hwf & _).
  split; [by apply print_frameformats_prints|]. by apply print_diag_prints.
Qed.

(** The sample device with a frame that offers a range of intervals from 0 to 0. *)
Definition no_interval_frame : bytes :=
  [38; 36; 0x11; 1; 0] ++ le16 1920 ++ le16 1080 ++ le32 1000 ++ le32 3072
  ++ le32 0 ++ [0] ++ le32 0 ++ le32 0 ++ le32 0 ++ le32 0.

Definition no_interval_config : usb_config :=
  match sample_config with
  | [ctrl; [a]] =>
      [ctrl; [{| as_bInterfaceNumber := as_bInterfaceNumber a; as_bAlternateSetting := as_bAlternateSetting a;
                 as_bInterfaceClass := as_bInterfaceClass a; as_bInterfaceSubClass := as_bInterfaceSubClass a;
                 as_endpoint := as_endpoint a;
                 as_extra := sample_vs_input_header ++ sample_format ++ no_interval_frame |}]]
  | c => c
  end.

Definition no_interval_info : uvc_device_info :=
  match uvc_get_device_info None (Some no_interval_config) with
  | Ret (_, Some info) => info
  | _ => info_zero []
  end.

Definition diag_handle (info : uvc_device_info) : uvc_device_handle :=
  {| dh_usb_dev := true; dh_info := Some info; dh_streams := []; dh_is_isight := false; dh_claimed := 0;
     dh_transfer_buffer_count := 0; dh_has_quarantined_stream := false; dh_reattach_guard := None |}.

(** One device in memory, and what libusb says of it. *)
Definition diag_heap : heap :=
  {| hp_devs := {[ 0%nat := uvc_dev 0 1 ]}; hp_next := 1; hp_usb := λ _, 1; hp_lists := 0; hp_configs := 0;
     hp_descs := 0 |}.

Definition diag_devices : option (list usb_device) :=
  Some [{| ud_config := Some sample_config; ud_ids := Some (0x2ca3, 0x0023); ud_strings := None |}].

Lemma print_diag_safe_iff_witness :
  prints (uvc_print_diag diag_devices (diag_handle sample_info) 0 None diag_heap)
  ∧ ¬ prints (uvc_print_frameformats (diag_handle no_interval_info)).
Proof.
  split.
  - destruct (print_diag_safe_iff None sample_config UVC_SUCCESS sample_info (diag_handle sample_info) diag_devices 0%nat
                (uvc_dev 0 1) None diag_heap sample_config_ok sample_get_info eq_refl eq_refl) as (_ & [_ H] & _).
    apply H. clear H. intros _. split; [|by apply (bool_decide_unpack _)]. eexists _, _. split; reflexivity.
  - rewrite (proj1 (print_diag_safe_iff None no_interval_config UVC_SUCCESS no_interval_info
               (diag_handle no_interval_info) None 0%nat (uvc_dev 0 1) None diag_heap
               ltac:(repeat constructor; by apply (bool_decide_unpack _))
               ltac:(vm_compute; reflexivity) eq_refl eq_refl)).
    intros H. specialize (H ltac:(by vm_compute)). revert H.
    by apply (bool_decide_unpack (¬ info_printable no_interval_info)).
Defined.
