(* ===== verification/Context.v ===== *)
(** * Context: contexts, open devices and the event thread, src/init.c and src/device.c

    A context owns the list of its open devices and, when the library made the
    libusb context, a thread that handles libusb's events as long as devices are
    open.  The application opens and closes devices and finally the context; the
    event thread runs beside it.  A step is one access to the context, or one call
    that blocks; a step that touches a freed context, or joins a thread that cannot
    be joined, has no defined behaviour.  [pthread_create], whose result the code
    does not look at, is taken to succeed. *)

From stdpp Require Import prelude.
From S2P Require Import Prelude Machine Types.

(** ** State *)

Inductive thread_state :=
  | ThreadRuns
  | ThreadExited
  | ThreadJoined.

(** Handles are numbered in the order they are opened. *)
Inductive handle_state :=
  | HandleOpen
  | HandleFreed
  | HandleLeaked.

(** Where the application is: between calls; in [uvc_close] of a handle after its
    streams and status transfer were stopped, or in its [pthread_join]; in the loop
    of [uvc_exit]; after it.  [exiting]: the close is [uvc_exit]'s. *)
Inductive app_pc :=
  | AppIdle
  | AppClosing (d : nat) (exiting : bool)
  | AppJoining (d : nat) (exiting : bool)
  | AppExiting
  | AppExited.

Record cstate := {
  cx_own_usb_ctx : bool;
  cx_open_devices : list nat;
  cx_handles : list handle_state;
  cx_threads : list thread_state;
  cx_handler_thread : option nat;
  cx_kill_handler_thread : bool;
  cx_has_quarantined_device : bool;
  cx_live : bool;                   (* the context is allocated, and so is libusb's *)
  cx_app : app_pc;
}.

Definition set_app (c : cstate) (pc : app_pc) : cstate :=
  {| cx_own_usb_ctx := cx_own_usb_ctx c; cx_open_devices := cx_open_devices c; cx_handles := cx_handles c;
     cx_threads := cx_threads c; cx_handler_thread := cx_handler_thread c;
     cx_kill_handler_thread := cx_kill_handler_thread c;
     cx_has_quarantined_device := cx_has_quarantined_device c; cx_live := cx_live c; cx_app := pc |}.

Definition set_open (c : cstate) (devices : list nat) (handles : list handle_state) : cstate :=
  {| cx_own_usb_ctx := cx_own_usb_ctx c; cx_open_devices := devices; cx_handles := handles;
     cx_threads := cx_threads c; cx_handler_thread := cx_handler_thread c;
     cx_kill_handler_thread := cx_kill_handler_thread c;
     cx_has_quarantined_device := cx_has_quarantined_device c; cx_live := cx_live c; cx_app := cx_app c |}.

Definition set_threads (c : cstate) (threads : list thread_state) (handler : option nat) : cstate :=
  {| cx_own_usb_ctx := cx_own_usb_ctx c; cx_open_devices := cx_open_devices c; cx_handles := cx_handles c;
     cx_threads := threads; cx_handler_thread := handler;
     cx_kill_handler_thread := cx_kill_handler_thread c;
     cx_has_quarantined_device := cx_has_quarantined_device c; cx_live := cx_live c; cx_app := cx_app c |}.

Definition set_flags (c : cstate) (kill quarantined live : bool) : cstate :=
  {| cx_own_usb_ctx := cx_own_usb_ctx c; cx_open_devices := cx_open_devices c; cx_handles := cx_handles c;
     cx_threads := cx_threads c; cx_handler_thread := cx_handler_thread c;
     cx_kill_handler_thread := kill; cx_has_quarantined_device := quarantined; cx_live := live;
     cx_app := cx_app c |}.

(** ** The calls *)

(** [usb_ctx]: the caller brings a libusb context; [ret] is [libusb_init]'s result. *)
Definition uvc_init (usb_ctx : bool) (ret : Z) : Z * option cstate :=
  let ctx own := {| cx_own_usb_ctx := own; cx_open_devices := []; cx_handles := []; cx_threads := [];
                    cx_handler_thread := None; cx_kill_handler_thread := false;
                    cx_has_quarantined_device := false; cx_live := true; cx_app := AppIdle |} in
  if usb_ctx then (UVC_SUCCESS, Some (ctx false))
  else if ret =? UVC_SUCCESS then (ret, Some (ctx true)) else (ret, None).

Definition uvc_start_handler_thread (c : cstate) : cstate :=
  if cx_own_usb_ctx c then set_threads c (cx_threads c ++ [ThreadRuns]) (Some (length (cx_threads c))) else c.

(** [uvc_open_internal] once the device is set up: the thread, the list. *)
Definition finish_open (c : cstate) : cstate :=
  let d := length (cx_handles c) in
  let c := if cx_own_usb_ctx c && bool_decide (cx_open_devices c = []) && negb (cx_has_quarantined_device c)
           then uvc_start_handler_thread c else c in
  set_open c (cx_open_devices c ++ [d]) (cx_handles c ++ [HandleOpen]).

(** [DL_DELETE(ctx->open_devices, devh)] *)
Definition unlink (d : nat) (c : cstate) (fate : handle_state) : cstate :=
  set_open c (filter (λ x, x ≠ d) (cx_open_devices c)) (<[d := fate]> (cx_handles c)).

(** Where a close goes back to. *)
Definition after_close (exiting : bool) : app_pc := if exiting then AppExiting else AppIdle.

(** [uvc_close] from the test for a quarantine on; [quarantined]: a stream or the
    status transfer of the device could not be stopped. *)
Definition close_decide (d : nat) (exiting quarantined : bool) (c : cstate) : cstate :=
  if quarantined then
    set_app (set_flags (unlink d c HandleLeaked) (cx_kill_handler_thread c) true (cx_live c)) (after_close exiting)
  else if cx_own_usb_ctx c && bool_decide (cx_open_devices c = [d]) && negb (cx_has_quarantined_device c) then
    set_app (set_flags c true (cx_has_quarantined_device c) (cx_live c)) (AppJoining d exiting)
  else set_app (unlink d c HandleFreed) (after_close exiting).

(** [pthread_join(ctx->handler_thread, NULL)] and the rest of the close; [None]: it
    waits. *)
Definition close_join (d : nat) (exiting : bool) (c : cstate) : option (outcome cstate) :=
  match cx_handler_thread c with
  | None => Some (Undef UseAfterFree)
  | Some t =>
      match cx_threads c !! t with
      | Some ThreadRuns => None
      | Some ThreadExited =>
          let c := set_threads c (<[t := ThreadJoined]> (cx_threads c)) (cx_handler_thread c) in
          Some (Ret (set_app (unlink d c HandleFreed) (after_close exiting)))
      | _ => Some (Undef UseAfterFree)
      end
  end.

(** [uvc_exit] after its loop. *)
Definition finish_exit (c : cstate) : cstate :=
  if cx_has_quarantined_device c then set_app c AppExited
  else set_app (set_flags c (cx_kill_handler_thread c) (cx_has_quarantined_device c) false) AppExited.

Definition uvc_num_devices (c : cstate) : Z := len (cx_open_devices c).

(** One round of [_uvc_handle_events] of thread [t]: look at the flag, then handle
    events on the libusb context. *)
Definition _uvc_handle_events (t : nat) (c : cstate) : outcome cstate :=
  if negb (cx_live c) then Undef UseAfterFree
  else if cx_kill_handler_thread c
  then Ret (set_threads c (<[t := ThreadExited]> (cx_threads c)) (cx_handler_thread c))
  else Ret c.

(** ** Interleaving *)

(** The application opens a device, begins to close one, begins to exit, or goes on
    (with the outcome of the stops, where it matters); or thread [t] runs. *)
Inductive context_label :=
  | XOpen
  | XClose (d : nat)
  | XExit
  | XGo (quarantined : bool)
  | XThread (t : nat).

Definition context_step (l : context_label) (c : cstate) : option (outcome cstate) :=
  match cx_app c, l with
  | _, XThread t =>
      match cx_threads c !! t with
      | Some ThreadRuns => Some (_uvc_handle_events t c)
      | _ => None
      end
  | AppIdle, XOpen => Some (Ret (finish_open c))
  | AppIdle, XClose d => if bool_decide (d ∈ cx_open_devices c) then Some (Ret (set_app c (AppClosing d false))) else None
  | AppIdle, XExit => Some (Ret (set_app c AppExiting))
  | AppClosing d exiting, XGo quarantined => Some (Ret (close_decide d exiting quarantined c))
  | AppJoining d exiting, XGo _ => close_join d exiting c
  | AppExiting, XGo _ =>
      Some (Ret (match cx_open_devices c with
                 | [] => finish_exit c
                 | d :: _ => set_app c (AppClosing d true)
                 end))
  | _, _ => None
  end.

Abbreviation run_context := (run_labels context_step).
