(* ===== verification/ContextFacts.v ===== *)
(** * ContextFacts: one event thread, and no context freed under it

    While the thread runs its context stays allocated; a thread is joined at most
    once; after [uvc_exit] everything is freed unless a device was quarantined.
    Against that stands what the flag that ends the thread does to a context that
    is used again. *)

From stdpp Require Import prelude.
From S2P Require Import Prelude Machine Types Context.

(** ** The invariant *)

Definition app_ok (c : cstate) : Prop :=
  match cx_app c with
  | AppClosing d _ => d ∈ cx_open_devices c
  | AppJoining d _ => cx_open_devices c = [d] ∧ cx_own_usb_ctx c = true
                      ∧ cx_has_quarantined_device c = false ∧ cx_kill_handler_thread c = true
  | AppExited => cx_open_devices c = []
  | _ => True
  end.

(** The application may still have a thread to join. *)
Definition joinable (c : cstate) : Prop :=
  ∃ t, cx_handler_thread c = Some t ∧ (cx_threads c !! t = Some ThreadRuns ∨ cx_threads c !! t = Some ThreadExited).

Record cinv (c : cstate) : Prop := {
  ci_runs t : cx_threads c !! t = Some ThreadRuns →
    cx_handler_thread c = Some t ∧ cx_live c = true ∧ (cx_open_devices c ≠ [] ∨ cx_has_quarantined_device c = true);
  ci_joinable : cx_open_devices c ≠ [] → cx_own_usb_ctx c = true → cx_has_quarantined_device c = false → joinable c;
  ci_own : cx_own_usb_ctx c = false → cx_threads c = [];
  ci_nodup : NoDup (cx_open_devices c);
  ci_handles d : d ∈ cx_open_devices c ↔ cx_handles c !! d = Some HandleOpen;
  ci_leaked d : cx_handles c !! d = Some HandleLeaked → cx_has_quarantined_device c = true;
  ci_live : cx_live c = match cx_app c with AppExited => cx_has_quarantined_device c | _ => true end;
  ci_app : app_ok c;
}.

(** Moving the application on changes nothing else. *)
Lemma cinv_goto c pc :
  cinv c → app_ok (set_app c pc) → cx_app c ≠ AppExited → pc ≠ AppExited → cinv (set_app c pc).
Proof.
  intros [Hr Hj Hown Hn Hh Hl Hli Ha] Ha' H1 H2. split; try done. cbn [set_app cx_live cx_app]. rewrite Hli.
  by destruct (cx_app c), pc.
Qed.

(** ** Opening *)

Lemma finish_open_inv c : cinv c → cx_app c = AppIdle → cinv (finish_open c).
Proof.
  intros [Hr Hj Hown Hn Hh Hl Hli Ha] Hpc. rewrite Hpc in Hli.
  assert (cinv_open : ∀ threads handler,
    (∀ t, threads !! t = Some ThreadRuns → handler = Some t) →
    (cx_own_usb_ctx c = true → cx_has_quarantined_device c = false →
       ∃ t, handler = Some t ∧ (threads !! t = Some ThreadRuns ∨ threads !! t = Some ThreadExited)) →
    (cx_own_usb_ctx c = false → threads = []) →
    cinv (set_open (set_threads c threads handler) (cx_open_devices c ++ [length (cx_handles c)])
            (cx_handles c ++ [HandleOpen]))).
  { intros threads handler H1 H2 H3. split; cbn; try done.
    - intros t Ht. split_and!; [auto|done|left; by destruct (cx_open_devices c)].
    - apply NoDup_app. split_and!; [done| |apply NoDup_singleton].
      intros d Hd ->%list_elem_of_singleton. apply Hh, lookup_lt_Some in Hd. lia.
    - intros d. rewrite elem_of_app, list_elem_of_singleton, Hh. split.
      + intros [Hd| ->]; [by apply lookup_app_l_Some|by apply list_lookup_middle].
      + intros [Hd|[Hge Hd]]%lookup_app_Some; [by left|]. right.
        destruct (d - length (cx_handles c))%nat eqn:E; [lia|done].
    - intros d [Hd|[_ Hd]]%lookup_app_Some; [by apply (Hl d)|]. by apply list_lookup_singleton_Some in Hd as [_ ?].
    - by rewrite Hpc.
    - unfold app_ok. cbn. by rewrite Hpc. }
  unfold finish_open, uvc_start_handler_thread.
  destruct (cx_own_usb_ctx c) eqn:Eo; cbn [andb].
  2:{ apply (cinv_open (cx_threads c) (cx_handler_thread c)); [|done|done]. intros t Ht. by apply (Hr t). }
  destruct (decide (cx_open_devices c = [] ∧ cx_has_quarantined_device c = false)) as [[He Hq]|Hno].
  - rewrite bool_decide_true, Hq by done. cbn [andb negb].
    apply cinv_open.
    + intros t [Ht|[Hge Ht]]%lookup_app_Some.
      * destruct (Hr t Ht) as (_ & _ & [H|H]); congruence.
      * f_equal. destruct (t - length (cx_threads c))%nat eqn:E; [lia|done].
    + intros _ _. exists (length (cx_threads c)). split; [done|]. left. by apply list_lookup_middle.
    + congruence.
  - replace (bool_decide (cx_open_devices c = []) && negb (cx_has_quarantined_device c)) with false
      by (case_bool_decide; destruct (cx_has_quarantined_device c); naive_solver).
    apply (cinv_open (cx_threads c) (cx_handler_thread c)); [intros t Ht; by apply (Hr t)| |congruence].
    intros _ Hq. apply Hj; [|done|done]. intros He. by destruct Hno.
Qed.

(** ** Closing *)

Lemma unlinked_nodup d (l : list nat) : NoDup l → NoDup (filter (λ x, x ≠ d) l).
Proof. intros. by apply NoDup_filter. Qed.

Lemma unlinked_handles c d fate :
  fate ≠ HandleOpen → (∀ x, x ∈ cx_open_devices c ↔ cx_handles c !! x = Some HandleOpen) →
  ∀ x, x ∈ filter (λ x, x ≠ d) (cx_open_devices c) ↔ <[d := fate]> (cx_handles c) !! x = Some HandleOpen.
Proof.
  intros Hf Hh x. rewrite list_elem_of_filter, Hh. destruct (decide (x = d)) as [->|Hne].
  - split; [by intros [? _]|]. intros H. exfalso. destruct (decide (d < length (cx_handles c))%nat).
    + rewrite list_lookup_insert_eq in H by done. by injection H as ->.
    + rewrite list_insert_ge in H by lia. apply lookup_lt_Some in H. lia.
  - rewrite list_lookup_insert_ne by done. naive_solver.
Qed.

(** The last device is the only one whose unlinking empties the list. *)
Lemma unlinked_empty d (l : list nat) : NoDup l → d ∈ l → l ≠ [d] → filter (λ x, x ≠ d) l ≠ [].
Proof.
  intros Hn Hin Hne Hnil. apply Hne. destruct l as [|a [|b l]]; [by apply elem_of_nil in Hin| |].
  - apply list_elem_of_singleton in Hin. by subst.
  - exfalso. assert (∀ x, x ∈ a :: b :: l → x = d) as Hall.
    { intros x Hx. destruct (decide (x = d)); [done|].
      assert (x ∈ filter (λ x, x ≠ d) (a :: b :: l)) as H by (by apply list_elem_of_filter).
      rewrite Hnil in H. by apply elem_of_nil in H. }
    apply NoDup_cons in Hn as [Ha _]. apply Ha. rewrite (Hall a), (Hall b); [by left|right; by left|by left].
Qed.

Lemma unlinked_leaked c d fate x :
  <[d := fate]> (cx_handles c) !! x = Some HandleLeaked → fate = HandleLeaked ∨ cx_handles c !! x = Some HandleLeaked.
Proof.
  destruct (decide (x = d)) as [->|Hne]; [|rewrite list_lookup_insert_ne by done; by right].
  destruct (decide (d < length (cx_handles c))%nat); [rewrite list_lookup_insert_eq by done|rewrite list_insert_ge by lia; by right].
  intros [= ->]. by left.
Qed.

Lemma close_decide_inv d exiting quarantined c :
  cinv c → cx_app c = AppClosing d exiting → cinv (close_decide d exiting quarantined c).
Proof.
  intros [Hr Hj Hown Hn Hh Hl Hli Ha] Hpc. unfold app_ok in Ha. rewrite Hpc in Hli, Ha.
  assert (after_close exiting ≠ AppExited) as Hne by (by destruct exiting).
  unfold close_decide. destruct quarantined.
  { split; cbn; try done.
    - intros t Ht. destruct (Hr t Ht) as (? & ? & _). auto.
    - by apply unlinked_nodup.
    - by apply unlinked_handles.
    - by destruct exiting.
    - unfold app_ok. cbn. by destruct exiting. }
  destruct (decide (cx_own_usb_ctx c = true ∧ cx_open_devices c = [d] ∧ cx_has_quarantined_device c = false)) as [(Ho & Hd & Hq)|Hno].
  { rewrite bool_decide_true, Ho, Hq by done. cbn [andb negb]. split; try done; cbn.
    - intros t Ht. destruct (Hr t Ht) as (? & ? & [?|?]); [auto|congruence].
    - intros _ Ho' _. by apply Hj; [rewrite Hd|..].
    - intros x Hx%Hl. congruence. }
  replace (cx_own_usb_ctx c && bool_decide (cx_open_devices c = [d]) && negb (cx_has_quarantined_device c)) with false
    by (destruct (cx_own_usb_ctx c), (cx_has_quarantined_device c); case_bool_decide; naive_solver).
  split; cbn; try done.
  - intros t Ht. destruct (Hr t Ht) as (? & ? & Hopen). split_and!; [done|done|].
    destruct (cx_has_quarantined_device c) eqn:Hq; [by right|]. left. apply unlinked_empty; [done|done|].
    intros Hd. apply Hno. split_and!; [|done|done].
    destruct (cx_own_usb_ctx c) eqn:Ho; [done|]. by rewrite (Hown eq_refl) in Ht.
  - intros Hopen. apply Hj. intros He. by rewrite He in Hopen.
  - by apply unlinked_nodup.
  - by apply unlinked_handles.
  - intros x [?|?]%unlinked_leaked; [done|by apply (Hl x)].
  - by destruct exiting.
  - unfold app_ok. cbn. by destruct exiting.
Qed.

Lemma close_join_inv d exiting c o :
  cinv c → cx_app c = AppJoining d exiting → close_join d exiting c = Some o → returns o cinv.
Proof.
  intros [Hr Hj Hown Hn Hh Hl Hli Ha] Hpc. unfold app_ok in Ha. rewrite Hpc in Hli, Ha.
  destruct Ha as (Hd & Ho & Hq & Hk). destruct Hj as (t & Ht & Hs); [by rewrite Hd|done|done|].
  unfold close_join. rewrite Ht. destruct Hs as [Hs|Hs]; rewrite Hs; [done|]. intros [= <-]. cbn [returns].
  assert (filter (λ x, x ≠ d) (cx_open_devices c) = []) as Hnil.
  { rewrite Hd, filter_cons, decide_False by (by intros []). done. }
  split; cbn; rewrite ?Hnil; try done.
  - intros t' Ht'. destruct (decide (t' = t)) as [->|Hne].
    + rewrite list_lookup_insert_eq in Ht' by (by apply lookup_lt_Some in Hs). done.
    + rewrite list_lookup_insert_ne in Ht' by done. destruct (Hr t' Ht') as (? & _). congruence.
  - congruence.
  - by apply NoDup_nil_2.
  - intros x. rewrite <- Hnil. by apply unlinked_handles.
  - intros x [?|?]%unlinked_leaked; [done|by apply (Hl x)].
  - by destruct exiting.
  - unfold app_ok. cbn. by destruct exiting.
Qed.

Lemma finish_exit_inv c :
  cinv c → cx_app c = AppExiting → cx_open_devices c = [] → cinv (finish_exit c).
Proof.
  intros [Hr Hj Hown Hn Hh Hl Hli Ha] Hpc He. rewrite Hpc in Hli. unfold finish_exit.
  destruct (cx_has_quarantined_device c) eqn:Hq; split; cbn; rewrite ?Hq; try done.
  intros t Ht. destruct (Hr t Ht) as (_ & _ & [?|?]); [done|congruence].
Qed.

(** ** The thread *)

Lemma handle_events_inv t c :
  cinv c → cx_threads c !! t = Some ThreadRuns → returns (_uvc_handle_events t c) cinv.
Proof.
  intros Hi Ht. pose proof Hi as [Hr Hj Hown Hn Hh Hl Hli Ha]. destruct (Hr t Ht) as (Hhd & Hlive & Hwhy).
  unfold _uvc_handle_events. rewrite Hlive. cbn [negb]. destruct (cx_kill_handler_thread c); [|done].
  split; cbn; try done.
  - intros t' Ht'. destruct (decide (t' = t)) as [->|Hne]; [by destruct (Hr t Ht) as (? & ? & ?)|].
    rewrite list_lookup_insert_ne in Ht' by done. by apply Hr.
  - intros _ _ _. exists t. cbn. split; [done|]. right. apply list_lookup_insert_eq. by apply lookup_lt_Some in Ht.
  - intros H. by rewrite (Hown H) in Ht.
Qed.

Lemma context_step_inv l c o : cinv c → context_step l c = Some o → returns o cinv.
Proof.
  intros Hi Hs. unfold context_step in Hs. destruct (cx_app c) eqn:Hpc, l; try discriminate.
  all: try (destruct (cx_threads c !! _) as [[]|] eqn:Ht; try discriminate; injection Hs as <-; by apply handle_events_inv).
  - injection Hs as <-. by apply finish_open_inv.
  - case_bool_decide; [|done]. injection Hs as <-. apply cinv_goto; try done. by rewrite Hpc.
  - injection Hs as <-. apply cinv_goto; try done. by rewrite Hpc.
  - injection Hs as <-. by apply close_decide_inv.
  - by eapply close_join_inv.
  - injection Hs as <-. destruct (cx_open_devices c) as [|d l] eqn:He; [by apply finish_exit_inv|].
    apply cinv_goto; try done; [|by rewrite Hpc]. unfold app_ok. cbn. rewrite He. by left.
Qed.

Lemma context_run_inv ls c o : cinv c → run_context ls c = Some o → returns o cinv.
Proof.
  intros Hi. apply (run_invariant _ cinv (λ _ _, True)); [|done|].
  - intros l c1 o1 H1 _. by apply context_step_inv.
  - apply (legal_labels _ (λ _, True)). by apply Forall_true.
Qed.

Lemma init_inv usb_ctx ret c : snd (uvc_init usb_ctx ret) = Some c → cinv c.
Proof.
  unfold uvc_init. destruct usb_ctx; [|destruct (_ =? _)]; intros [= <-]; split; try done; try (by apply NoDup_nil_2).
  all: intros d; cbn; rewrite lookup_nil; split; [by intros ?%elem_of_nil|done].
Qed.

(** ** What holds *)

(** C11: however opening, closing, quarantines and the event thread interleave, on a
    system where the thread can be created, the thread never touches a freed context, at most one runs, and none is joined
    twice.  A handle on the list is one that is open, and none is on it twice.
    After [uvc_exit] no handle is open; the context is freed unless a device was
    quarantined, and then no thread runs and no handle was leaked. *)
Theorem context_safe usb_ctx ret c ls o :
  snd (uvc_init usb_ctx ret) = Some c → run_context ls c = Some o →
  returns o (λ c',
    (∀ t, cx_threads c' !! t = Some ThreadRuns → cx_live c' = true)
    ∧ (∀ t u, cx_threads c' !! t = Some ThreadRuns → cx_threads c' !! u = Some ThreadRuns → t = u)
    ∧ NoDup (cx_open_devices c') ∧ (∀ d, d ∈ cx_open_devices c' ↔ cx_handles c' !! d = Some HandleOpen)
    ∧ (cx_app c' = AppExited →
         cx_live c' = cx_has_quarantined_device c' ∧ (∀ d, cx_handles c' !! d ≠ Some HandleOpen)
         ∧ (cx_live c' = false →
              (∀ t, cx_threads c' !! t ≠ Some ThreadRuns) ∧ (∀ d, cx_handles c' !! d ≠ Some HandleLeaked)))).
Proof.
  intros Hc Hr. eapply returns_mono; [eapply context_run_inv; [by eapply init_inv|done]|].
  intros c' [Hruns Hj Hown Hn Hh Hl Hli Ha]. split_and!; try done.
  - intros t Ht. by apply (Hruns t).
  - intros t u [Ht _]%Hruns [Hu _]%Hruns. congruence.
  - intros Hpc. unfold app_ok in Ha. rewrite Hpc in Ha, Hli. split_and!; [done| |].
    + intros d Hd%Hh. rewrite Ha in Hd. by apply elem_of_nil in Hd.
    + intros Hlive. split; [intros t Ht; destruct (Hruns t Ht) as (_ & ? & _); congruence|].
      intros d Hd%Hl. congruence.
Qed.

(** A close never waits for ever: where it joins the event thread, the thread
    has been told to end, and after at most one step of it the close returns. *)
Lemma join_returns c1 d exiting :
  cinv c1 → cx_app c1 = AppJoining d exiting →
  ∃ ls' c2, (length ls' ≤ 2)%nat ∧ run_context ls' c1 = Some (Ret c2) ∧ cx_app c2 = after_close exiting
    ∧ cx_open_devices c2 = [] ∧ cx_handles c2 = <[d := HandleFreed]> (cx_handles c1)
    ∧ cx_has_quarantined_device c2 = false.
Proof.
  intros [Hruns Hj Hown Hn Hh Hl Hli Ha] Hpc.
  unfold app_ok in Ha. rewrite Hpc in Ha, Hli. destruct Ha as (Hd & Ho & Hq & Hk).
  destruct Hj as (t & Ht & Hs); [by rewrite Hd|done|done|].
  assert (filter (λ x, x ≠ d) (cx_open_devices c1) = []) as Hnil.
  { rewrite Hd, filter_cons, decide_False by (by intros []). done. }
  assert (∀ c, cx_app c = AppJoining d exiting → cx_handler_thread c = Some t → cx_threads c !! t = Some ThreadExited →
    cx_open_devices c = cx_open_devices c1 → cx_handles c = cx_handles c1 →
    cx_has_quarantined_device c = false →
    ∃ c2, context_step (XGo false) c = Some (Ret c2) ∧ cx_app c2 = after_close exiting
      ∧ cx_open_devices c2 = [] ∧ cx_handles c2 = <[d := HandleFreed]> (cx_handles c1)
      ∧ cx_has_quarantined_device c2 = false) as Hjoin.
  { intros c' H1 H2 H3 H4 H5 H6. unfold context_step, close_join. rewrite H1, H2, H3. eexists. split; [reflexivity|].
    cbn. rewrite H4, H5. by split_and!. }
  destruct Hs as [Hs|Hs].
  - destruct (Hjoin (set_threads c1 (<[t := ThreadExited]> (cx_threads c1)) (cx_handler_thread c1))) as (c2 & Hstep & Hrest); try done.
    { apply list_lookup_insert_eq. by apply lookup_lt_Some in Hs. }
    exists [XThread t; XGo false], c2. split; [done|]. split; [|done]. cbn [run_labels].
    unfold context_step at 1. rewrite Hpc, Hs. unfold _uvc_handle_events. rewrite Hli, Hk. cbn [negb].
    by rewrite Hstep.
  - destruct (Hjoin c1) as (c2 & Hstep & Hrest); try done.
    exists [XGo false], c2. split; [simpl; lia|]. cbn [run_labels]. by rewrite Hstep.
Qed.

(** ** A context that is used again *)

Lemma kill_stays ls c c' :
  cx_kill_handler_thread c = true → run_context ls c = Some (Ret c') → cx_kill_handler_thread c' = true.
Proof.
  apply (run_keeps _ (λ c, cx_kill_handler_thread c = true)). clear. intros l c c1 Hk E.
  unfold context_step, close_join, _uvc_handle_events, close_decide, finish_open, uvc_start_handler_thread, finish_exit in E.
  destruct (cx_app c), l; try discriminate; repeat (case_match; try discriminate); injection E as <-; try done.
  all: cbn; by repeat case_match.
Qed.

Lemma own_stays ls c c' :
  cx_own_usb_ctx c = true → run_context ls c = Some (Ret c') → cx_own_usb_ctx c' = true.
Proof.
  apply (run_keeps _ (λ c, cx_own_usb_ctx c = true)). clear. intros l c c1 Hk E.
  unfold context_step, close_join, _uvc_handle_events, close_decide, finish_open, uvc_start_handler_thread, finish_exit in E.
  destruct (cx_app c), l; try discriminate; repeat (case_match; try discriminate); injection E as <-; try done.
  all: cbn; by repeat case_match.
Qed.

(** No thread runs. *)
Definition unserviced (c : cstate) : Prop := ∀ t, cx_threads c !! t ≠ Some ThreadRuns.

(** A device is opened on an empty context whose flag is set. *)
Lemma reopened c1 :
  cinv c1 → cx_app c1 = AppIdle → cx_own_usb_ctx c1 = true → cx_open_devices c1 = [] →
  cx_has_quarantined_device c1 = false → cx_kill_handler_thread c1 = true →
  ∃ t c2, run_context [XOpen; XThread t] c1 = Some (Ret c2) ∧ cx_open_devices c2 ≠ [] ∧ unserviced c2
    ∧ cx_kill_handler_thread c2 = true.
Proof.
  intros [Hruns Hj Hown Hn Hh Hl Hli Ha] Hpc Ho Hd Hq Hk.
  rewrite Hpc in Hli. exists (length (cx_threads c1)). cbn [run_labels]. unfold context_step at 1. rewrite Hpc.
  unfold finish_open, uvc_start_handler_thread. rewrite Ho, Hd, Hq. cbn.
  unfold context_step. cbn. rewrite list_lookup_middle by done. rewrite Hpc.
  unfold _uvc_handle_events. cbn. rewrite Hli, Hk. cbn. eexists. split; [reflexivity|]. split; [cbn; by rewrite Hd|]. split; [|done].
  intros t. cbn. destruct (decide (t = length (cx_threads c1))) as [->|Hne].
  - rewrite list_lookup_insert_eq by (rewrite length_app; simpl; lia). done.
  - rewrite list_lookup_insert_ne by done. intros [Ht|[Hge Ht]]%lookup_app_Some.
    + destruct (Hruns t Ht) as (_ & _ & [?|?]); congruence.
    + destruct (t - length (cx_threads c1))%nat eqn:E; [lia|done].
Qed.

(** C40: a context that made its own libusb context services no device after the
    last of its devices was closed once.  From any state in which one device is open,
    none was quarantined and the application is between calls: closing the device
    without a quarantine returns, if only the event thread takes a step; and whenever
    after that close the context is idle and empty again with nothing quarantined,
    the event thread that opening another device starts ends at its first step, so
    that the device is open and nothing handles its events, and so does every later
    one, for the flag that ends the thread is never cleared. *)
Theorem reopened_context_unserviced usb_ctx ret c ls c1 d :
  snd (uvc_init usb_ctx ret) = Some c → run_context ls c = Some (Ret c1) →
  cx_app c1 = AppIdle → cx_own_usb_ctx c1 = true → cx_open_devices c1 = [d] → cx_has_quarantined_device c1 = false →
  (∃ ls2 c2, run_context (XClose d :: XGo false :: ls2) c1 = Some (Ret c2) ∧ cx_app c2 = AppIdle
     ∧ cx_open_devices c2 = [] ∧ cx_has_quarantined_device c2 = false)
  ∧ ∀ ls2 c2, run_context (XClose d :: XGo false :: ls2) c1 = Some (Ret c2) →
      cx_app c2 = AppIdle → cx_open_devices c2 = [] → cx_has_quarantined_device c2 = false →
      ∃ t c3, run_context [XOpen; XThread t] c2 = Some (Ret c3) ∧ cx_open_devices c3 ≠ [] ∧ unserviced c3
        ∧ ∀ ls3 c4, run_context ls3 c3 = Some (Ret c4) → cx_kill_handler_thread c4 = true.
Proof.
  intros Hc Hr Hpc Ho Hd Hq. pose proof (context_run_inv ls c _ (init_inv _ _ _ Hc) Hr) as Hi. cbn [returns] in Hi.
  set (c1' := set_app (set_flags (set_app c1 (AppClosing d false)) true false (cx_live c1)) (AppJoining d false)).
  assert (∀ ls2, run_context (XClose d :: XGo false :: ls2) c1 = run_context ls2 c1') as Hgo.
  { intros ls2. cbn [run_labels]. unfold context_step at 1. rewrite Hpc, bool_decide_true by (rewrite Hd; by left).
    unfold context_step at 1. cbn [set_app cx_app]. unfold close_decide. cbn [set_app cx_own_usb_ctx cx_open_devices cx_has_quarantined_device].
    rewrite Ho, Hd, Hq, bool_decide_true by done. done. }
  assert (cinv c1') as Hi'.
  { apply (context_run_inv [XClose d; XGo false] c1 (Ret c1') Hi). by rewrite Hgo. }
  split.
  - destruct (join_returns c1' d false Hi' eq_refl) as (ls2 & c2 & _ & H1 & H2 & H3 & _ & H4).
    exists ls2, c2. by rewrite Hgo.
  - intros ls2 c2 Hrun Hpc2 Hd2 Hq2. rewrite Hgo in Hrun.
    destruct (reopened c2) as (t & c3 & H1 & H2 & H3 & H4); try done.
    + by apply (context_run_inv ls2 c1' (Ret c2)).
    + by apply (own_stays ls2 c1').
    + by apply (kill_stays ls2 c1').
    + exists t, c3. split_and!; try done. intros ls3 c4. by apply kill_stays.
Qed.

(** ** Small runs *)

Definition own_context : cstate :=
  {| cx_own_usb_ctx := true; cx_open_devices := []; cx_handles := []; cx_threads := []; cx_handler_thread := None;
     cx_kill_handler_thread := false; cx_has_quarantined_device := false; cx_live := true; cx_app := AppIdle |}.

(** The first of two devices is quarantined, then the context is closed. *)
Definition quarantine_exit : list context_label :=
  [XOpen; XOpen; XExit; XGo false; XGo true; XThread 0; XGo false; XGo false; XGo false].

Lemma context_safe_witness :
  ∃ c', run_context quarantine_exit own_context = Some (Ret c') ∧ cx_app c' = AppExited ∧ cx_live c' = true
    ∧ cx_handles c' = [HandleLeaked; HandleFreed] ∧ cx_threads c' = [ThreadRuns].
Proof.
  destruct (run_context quarantine_exit own_context) as [o|] eqn:E; [|vm_compute in E; discriminate].
  pose proof (context_safe false 0 own_context quarantine_exit o eq_refl E) as H.
  vm_compute in E. injection E as <-. eexists. split; [reflexivity|]. split; [reflexivity|].
  split; [exact (proj1 H 0%nat eq_refl)|]. split; reflexivity.
Defined.

Lemma reopened_context_unserviced_witness :
  ∃ c1 ls2 c2 t c3, run_context [XOpen] own_context = Some (Ret c1)
    ∧ run_context (XClose 0 :: XGo false :: ls2) c1 = Some (Ret c2)
    ∧ run_context [XOpen; XThread t] c2 = Some (Ret c3) ∧ unserviced c3.
Proof.
  destruct (run_context [XOpen] own_context) as [[c1|]|] eqn:E; [|vm_compute in E; discriminate..].
  assert (cx_app c1 = AppIdle ∧ cx_own_usb_ctx c1 = true ∧ cx_open_devices c1 = [0%nat]
    ∧ cx_has_quarantined_device c1 = false) as (H1 & H2 & H3 & H4).
  { vm_compute in E. injection E as <-. repeat split. }
  destruct (reopened_context_unserviced false 0 own_context [XOpen] c1 0 eq_refl E H1 H2 H3 H4)
    as ((ls2 & c2 & Hr & H5 & H6 & H7) & Hall).
  destruct (Hall ls2 c2 Hr H5 H6 H7) as (t & c3 & Hr3 & _ & Hu & _).
  exists c1, ls2, c2, t, c3. split; [reflexivity|]. split; [exact Hr|]. split; [exact Hr3|exact Hu].
Defined.
