(* ===== verification/Device.v ===== *)
(** * Device: opening and closing a device, src/device.c

    [uvc_open_internal] and [uvc_close] as sequences of requests: what is claimed,
    released and closed, in which order, on every path.  The list of open devices
    and the event thread are in Context, the status transfer's own steps in Status,
    the streams' in Transfers. *)

From stdpp Require Import prelude.
From S2P Require Import Prelude Types Environment Descriptors ReattachGuard Handles Claims.

Definition set_info (d : uvc_device_handle) (info : option uvc_device_info) : uvc_device_handle :=
  {| dh_usb_dev := dh_usb_dev d; dh_info := info; dh_streams := dh_streams d;
     dh_is_isight := dh_is_isight d; dh_claimed := dh_claimed d;
     dh_transfer_buffer_count := dh_transfer_buffer_count d;
     dh_has_quarantined_stream := dh_has_quarantined_stream d;
     dh_reattach_guard := dh_reattach_guard d |}.

Definition set_is_isight (d : uvc_device_handle) (is_isight : bool) : uvc_device_handle :=
  {| dh_usb_dev := dh_usb_dev d; dh_info := dh_info d; dh_streams := dh_streams d;
     dh_is_isight := is_isight; dh_claimed := dh_claimed d;
     dh_transfer_buffer_count := dh_transfer_buffer_count d;
     dh_has_quarantined_stream := dh_has_quarantined_stream d;
     dh_reattach_guard := dh_reattach_guard d |}.

(** The VideoControl interface. *)
Definition ctrl_of (info : uvc_device_info) : Z := ci_bInterfaceNumber (di_ctrl_if info).

Section device.
Context `{Environment} (active_backend : uvc_reattach_backend) (fuel : nat).

(** [uvc_free_devh]: what another process or libusb sees of it is that the guard is
    let go; the memory of the handle goes last. *)
Definition uvc_free_devh (devh : uvc_device_handle) : io unit :=
  _ ← uvc_reattach_guard_destroy (dh_reattach_guard devh);
  _ ← call Free;
  mret tt.

(** The [fail] label of [uvc_open_internal]. *)
Definition open_failed (devh : uvc_device_handle) (ret : Z) : io (Z * option uvc_device_handle) :=
  devh ← match dh_info devh with
         | Some info =>
             res ← uvc_release_if devh (ctrl_of info);
             mret res.2
         | None => mret devh
         end;
  _ ← call LibusbClose;
  _ ← uvc_free_devh devh;
  mret (ret, None).

(** The status endpoint, if there is one: allocate a transfer and submit it. *)
Definition start_status (info : uvc_device_info) : io Z :=
  if nz (ci_bEndpointAddress (di_ctrl_if info)) then
    xfer ← call AllocTransfer;
    if xfer =? 0 then mret UVC_ERROR_NO_MEM else call SubmitTransfer
  else mret UVC_SUCCESS.

(** [uvc_get_device_info] with the allocation of the description, which it checks;
    the rest of it, with the allocations of the parsers taken to succeed, is
    [Descriptors.uvc_get_device_info]. *)
Definition get_device_info_checked (ids : option (Z * Z)) (config : option usb_config)
    : io (Z * option uvc_device_info) :=
  internal_info ← call (Calloc BInfo);
  if internal_info =? 0 then mret (UVC_ERROR_NO_MEM, None) else
  lift (uvc_get_device_info ids config).

(** [ids] and [config] are what libusb says of the device.  The handle's [calloc] is
    not checked. *)
Definition uvc_open_internal (ids : option (Z * Z)) (config : option usb_config)
    : io (Z * option uvc_device_handle) :=
  p ← call (Calloc BHandle);
  if p =? 0 then lift (Undef NullDeref) else
  let devh := handle_with None 0 None in
  res ← get_device_info_checked ids config;
  let '(ret, info) := res in
  let devh := set_info devh info in
  if negb (ret =? UVC_SUCCESS) then open_failed devh ret else
  info ← lift (deref info);
  res ← uvc_claim_if active_backend fuel devh (ctrl_of info);
  let '(ret, devh) := res in
  if negb (ret =? UVC_SUCCESS) then open_failed devh ret else
  desc ← ask GetDeviceDescriptor;
  let devh := set_is_isight devh ((desc_field desc 0 =? 0x05ac) && (desc_field desc 1 =? 0x8501)) in
  ret ← start_status info;
  if nz ret then open_failed devh ret else
  mret (ret, Some devh).

Definition uvc_open (ids : option (Z * Z)) (config : option usb_config) : io (Z * option uvc_device_handle) :=
  ret ← call LibusbOpen;
  if negb (ret =? UVC_SUCCESS) then mret (ret, None) else
  uvc_open_internal ids config.

(** [auto_detach]: whether the library is built with LIBUVC_AUTO_DETACH_KERNEL_DRIVER. *)
Definition uvc_wrap (auto_detach : bool) (sys_dev : Z) (ids : option (Z * Z)) (config : option usb_config)
    : io (Z * option uvc_device_handle) :=
  err ← call (WrapSysDevice sys_dev);
  if negb (err =? LIBUSB_SUCCESS) then mret (err, None) else
  _ ← (if auto_detach then call (SetAutoDetachKernelDriver 1) else mret 0);
  p ← call (Calloc BDevice);
  if p =? 0 then lift (Undef NullDeref) else
  uvc_open_internal ids config.

(** [uvc_close] once the streams are stopped; [status_stopped] is what
    [uvc_stop_status_xfer] returned.  The result: whether the handle was
    quarantined. *)
Definition uvc_close (devh : uvc_device_handle) (status_stopped : bool) : io bool :=
  if dh_has_quarantined_stream devh || negb status_stopped then mret true else
  devh ← uvc_release_claimed_ifs devh;
  _ ← call LibusbClose;
  _ ← uvc_free_devh devh;
  mret false.
End device.
