(* ===== verification/DeviceFacts.v ===== *)
(** * DeviceFacts: the order of claims, releases and the closing of the USB handle

    On every path through [uvc_open_internal] and [uvc_close] what was claimed is
    released before the USB handle is closed, and the helper process is woken only
    after that; a quarantine does none of it. *)

From stdpp Require Import prelude.
From S2P Require Import Prelude Types Environment Descriptors DescriptorsFacts ReattachGuard ReattachGuardFacts Handles Claims ClaimsFacts Negotiation NegotiationFacts Device.

(** ** Milestones of a history *)

Inductive milestone :=
  | MClaim (i : Z)        (* an accepted claim *)
  | MRelease (i : Z)
  | MClose.               (* the USB handle is closed *)

Definition milestone_of (e : event) : option milestone :=
  match e.1 with
  | ClaimInterface i => if rs_code e.2 =? UVC_SUCCESS then Some (MClaim i) else None
  | ReleaseInterface i => Some (MRelease i)
  | LibusbClose => Some MClose
  | _ => None
  end.

Definition milestones (t : trace) : list milestone := omap milestone_of t.

Lemma milestones_app t t' : milestones (t ++ t') = milestones t ++ milestones t'.
Proof. apply omap_app. Qed.

(** Requests that are no milestone. *)
Definition idle (q : request) : Prop :=
  match q with
  | ClaimInterface _ | ReleaseInterface _ | LibusbClose => False
  | _ => True
  end.

Lemma milestones_idle t q r : idle q → milestones (t ++ [(q, r)]) = milestones t.
Proof. intros Hq. rewrite milestones_app. destruct q; try done; by rewrite app_nil_r. Qed.

Lemma milestones_step l t q r : milestones t = l → idle q → milestones (t ++ [(q, r)]) = l.
Proof. intros <-. apply milestones_idle. Qed.

#[local] Hint Resolve milestones_step : core.
#[local] Hint Extern 1 (idle _) => exact I : core.

Lemma disarm_milestones `{Environment} devh i t :
  wp (disarm devh i) (λ devh' t', milestones t' = milestones t
    ∧ dh_claimed devh' = dh_claimed devh ∧ dh_info devh' = dh_info devh) t.
Proof.
  unfold disarm, uvc_reattach_guard_disarm, store_armed. wp_run. repeat (case_match; wp_run); auto.
Qed.

Section claims.
Context `{Environment} (b : uvc_reattach_backend) (fuel n : nat).
Context (Hhost : host_process n) (Hfuel : (n < fuel)%nat).

Lemma create_milestones bus dev vid pid bcd t :
  wp (uvc_reattach_guard_create b fuel bus dev vid pid bcd) (λ _ t', milestones t' = milestones t) t.
Proof.
  destruct Hhost as [Hfork Hs]. unfold uvc_reattach_guard_create. wp_run.
  case_match; wp_run; [auto|]. case_match; wp_run; [auto|]. case_match; wp_run; [auto 10|].
  unfold fd_scan_limit. wp_run. rewrite (proj2 (Z.eqb_neq _ 0)) by apply Hfork. wp_run.
  case_match; wp_run; [auto 15|].
  eapply wp_mono; [apply (ask_while_settles _ _ _ n); [done|lia]|].
  intros r t' (evs & -> & Hr & Hall). wp_run. rewrite milestones_app.
  assert (milestones (evs ++ [(Waitpid, r)]) = []) as ->.
  { rewrite milestones_idle by done. clear Hr. induction Hall as [|[q r'] evs [Hq _] _ IH]; [done|].
    simpl in Hq. subst q. exact IH. }
  rewrite app_nil_r. auto 12.
Qed.

Lemma arm_handle_milestones devh i t :
  wp (uvc_arm_reattach_guard b fuel devh i) (λ devh' t', milestones t' = milestones t
    ∧ dh_claimed devh' = dh_claimed devh ∧ dh_info devh' = dh_info devh) t.
Proof.
  unfold uvc_arm_reattach_guard, uvc_reattach_guard_arm, store_armed. destruct (dh_reattach_guard devh).
  { wp_run. case_match; wp_run; auto. }
  case_match; wp_run; [done|]. case_match; wp_run; [auto|].
  eapply wp_mono; [apply create_milestones|]. intros [g|] t' Ht; wp_run; [case_match; wp_run|]; split; auto.
  all: rewrite ?milestones_idle by done; rewrite Ht; auto.
Qed.

(** A claim on a handle that has none: an accepted one is the only milestone. *)
Lemma claim_milestones devh i t :
  0 ≤ i < 31 → dh_claimed devh = 0 →
  wp (uvc_claim_if b fuel devh i) (λ '(ret, devh') t', dh_info devh' = dh_info devh
    ∧ if ret =? UVC_SUCCESS
      then milestones t' = milestones t ++ [MClaim i] ∧ dh_claimed devh' = Z.shiftl 1 i
      else milestones t' = milestones t ∧ dh_claimed devh' = 0) t.
Proof.
  intros Hi Hc. unfold uvc_claim_if. rewrite wp_bind, wp_lift, shl1_in by done. cbn [returns].
  rewrite Hc, Z.land_0_l. change (nz 0) with false. cbn iota. wp_run.
  eapply wp_mono; [apply arm_handle_milestones|]. intros devh1 t1 (Hm & Hc1 & Hi1).
  unfold detach_and_claim. wp_run. rewrite Hc in Hc1.
  set (r := answer t1 _). destruct (_ && _) eqn:Et; wp_run.
  { eapply wp_mono; [apply disarm_milestones|]. intros devh2 t2 (Hm2 & Hc2 & Hi2). wp_run.
    destruct (rs_code r =? UVC_SUCCESS) eqn:Er; [done|].
    rewrite Hm2, milestones_idle by done. split_and!; congruence. }
  set (r2 := answer _ (ClaimInterface i)). destruct (rs_code r2 =? UVC_SUCCESS) eqn:E2; wp_run.
  { rewrite E2. split; [done|]. rewrite milestones_app, milestones_idle, Hm by done. split.
    - unfold milestones. cbn [omap list_omap]. unfold milestone_of. cbn [fst snd]. by rewrite E2.
    - simpl. rewrite Hc1, Z.lor_0_l. apply wrapu_id. apply fits_bits; [lia|apply Z.shiftl_nonneg; lia|].
      intros j Hj. rewrite Z.shiftl_spec by lia. rewrite Z.bits_above_log2; simpl; lia. }
  assert (milestones ((t1 ++ [(DetachKernelDriver i, r)]) ++ [(ClaimInterface i, r2)]) = milestones t) as Hm2.
  { rewrite milestones_app, milestones_idle, Hm by done. unfold milestones at 2. cbn [omap list_omap].
    unfold milestone_of. cbn [fst snd]. by rewrite E2, app_nil_r. }
  set (r3 := answer _ (AttachKernelDriver i)). destruct (driver_back (rs_code r3)); wp_run.
  - eapply wp_mono; [apply disarm_milestones|]. intros devh2 t2 (Hm3 & Hc2 & Hi2). wp_run.
    rewrite E2, Hm3, milestones_idle by done. split_and!; congruence.
  - rewrite E2, milestones_idle by done. split_and!; congruence.
Qed.

End claims.

Section closing.
Context `{Environment}.

Lemma release_milestones devh i t :
  0 ≤ i < 31 → Z.testbit (dh_claimed devh) i = true →
  wp (uvc_release_if devh i) (λ res t', milestones t' = milestones t ++ [MRelease i]) t.
Proof.
  intros Hi Hb. unfold uvc_release_if. rewrite wp_bind, wp_lift, shl1_in by done. cbn [returns].
  rewrite land_bit, Hb by lia. cbn [negb]. wp_run. set (r := answer _ (ReleaseInterface i)).
  set (t2 := (t ++ _) ++ [(ReleaseInterface i, r)]).
  assert (milestones t2 = milestones t ++ [MRelease i]) as Hm.
  { unfold t2. by rewrite milestones_app, milestones_idle. }
  case_match; wp_run; [done|]. set (r3 := answer _ (AttachKernelDriver i)). rewrite release_ret_test.
  case_match; wp_run; [|by rewrite milestones_idle].
  eapply wp_mono; [apply disarm_milestones|]. intros devh2 t3 (Hm3 & _). wp_run. by rewrite Hm3, milestones_idle.
Qed.

(** *** Everything claimed is released *)

(** Releases are the only milestones from [t] to [t']. *)
Definition releasing (t t' : trace) : Prop :=
  ∃ evs, t' = t ++ evs ∧ milestones evs = MRelease <$> releases evs.

Lemma releasing_refl t : releasing t t.
Proof. exists []. by rewrite app_nil_r. Qed.

Lemma releasing_trans t1 t2 t3 : releasing t1 t2 → releasing t2 t3 → releasing t1 t3.
Proof.
  intros (l & -> & Hl) (k & -> & Hk). exists (l ++ k). by rewrite app_assoc, milestones_app, releases_app, fmap_app, Hl, Hk.
Qed.

Lemma releasing_step t1 t2 q r :
  releasing t1 t2 → (∀ i, q ≠ ClaimInterface i) → q ≠ LibusbClose → releasing t1 (t2 ++ [(q, r)]).
Proof. intros H1 H2 H3. eapply releasing_trans; [exact H1|]. exists [(q, r)]. split; [done|]. destruct q; try done. by destruct (H2 idx). Qed.

Hint Resolve releasing_refl : core.
Hint Extern 1 (releasing _ (_ ++ _)) => eapply releasing_step; [|done|done] : core.

Lemma disarm_releasing devh i t : wp (disarm devh i) (λ _ t', releasing t t') t.
Proof. unfold disarm, uvc_reattach_guard_disarm, store_armed. wp_run. repeat (case_match; wp_run); auto. Qed.

Lemma release_releasing devh i t :
  0 ≤ i < 31 → wp (uvc_release_if devh i) (λ _ t', releasing t t') t.
Proof.
  intros Hi. unfold uvc_release_if. rewrite wp_bind, wp_lift, shl1_in by done. cbn [returns].
  case_match; wp_run; [done|]. case_match; wp_run; [auto 6|]. rewrite release_ret_test.
  case_match; wp_run; [|auto 8]. eapply wp_mono; [apply disarm_releasing|]. intros devh2 t3 Hr. wp_run.
  eapply releasing_trans; [|exact Hr]. auto 8.
Qed.

Lemma release_releasing_run devh i t res t' : uvc_release_if devh i t = Ret (res, t') → releasing t t'.
Proof.
  intros Hr. destruct (decide (0 ≤ i < 31)) as [Hi|Hi].
  - pose proof (release_releasing devh i t Hi) as Hw. unfold wp in Hw. by rewrite Hr in Hw.
  - apply run_bind_inv in Hr as (bit & t1 & Hs & _). unfold lift, shl1 in Hs. by rewrite decide_False in Hs by lia.
Qed.

Lemma release_others_releasing m ctrl i devh t devh' t' :
  release_others m ctrl i devh t = Ret (devh', t') → releasing t t'.
Proof.
  revert i devh t. induction m as [|m IH]; intros i devh t Hr; cbn [release_others] in Hr.
  { by injection Hr as <- <-. }
  apply run_bind_inv in Hr as (devh1 & t1 & H1 & H2). eapply releasing_trans; [|by eapply IH].
  destruct (negb (i =? ctrl)); [|by injection H1 as <- <-].
  apply run_bind_inv in H1 as (bit & t2 & Hb & H1). unfold lift in Hb. destruct (shl1u i); [|done]. injection Hb as -> <-.
  destruct (nz _); [|by injection H1 as <- <-].
  apply run_bind_inv in H1 as (res & t3 & H1 & H3). injection H3 as <- <-. by eapply release_releasing_run.
Qed.

Lemma release_all_releasing devh t devh' t' :
  uvc_release_claimed_ifs devh t = Ret (devh', t') → releasing t t'.
Proof.
  intros Hr. unfold uvc_release_claimed_ifs in Hr. apply run_bind_inv in Hr as (devh1 & t1 & H1 & H2).
  eapply releasing_trans; [by eapply release_others_releasing|]. destruct (0 <=? _); [|by injection H2 as <- <-].
  apply run_bind_inv in H2 as (res & t3 & H2 & H3). injection H3 as <- <-. by eapply release_releasing_run.
Qed.

(** ** Closing *)

(** What [uvc_free_devh] asks for. *)
Definition teardown (guard : option uvc_reattach_guard) : list request :=
  match guard with
  | Some g => [Close (rg_notify_fd g); Munmap; Free; Free]
  | None => [Free]
  end.

Lemma free_devh_run devh t :
  ∃ evs, uvc_free_devh devh t = Ret (tt, t ++ evs) ∧ evs.*1 = teardown (dh_reattach_guard devh).
Proof.
  unfold uvc_free_devh, uvc_reattach_guard_destroy. destruct (dh_reattach_guard devh); rewrite ?bind_assoc.
  - io_step. rewrite bind_assoc. io_step. rewrite bind_assoc. io_step. io_step. io_step.
    rewrite <- !app_assoc. eexists. split; [reflexivity|done].
  - io_step. io_step. eexists. split; [reflexivity|done].
Qed.

(** Once the streams are closed: every interface still claimed is released, the
    VideoControl interface last, before the USB handle is closed; the helper is let go
    after that.  When a transfer could not be stopped, nothing is asked for. *)
Lemma close_run devh info status_stopped t :
  dh_info devh = Some info → fits 31 (dh_claimed devh) → 0 ≤ ctrl_of info < 31 →
  wp (uvc_close devh status_stopped) (λ quarantined t',
    if dh_has_quarantined_stream devh || negb status_stopped then quarantined = true ∧ t' = t
    else quarantined = false ∧ ∃ evs r tail guard, t' = t ++ evs ++ [(LibusbClose, r)] ++ tail
      ∧ milestones evs = MRelease <$> others (dh_claimed devh) (ctrl_of info) 0 32
          ++ (if Z.testbit (dh_claimed devh) (ctrl_of info) then [ctrl_of info] else [])
      ∧ tail.*1 = teardown guard) t.
Proof.
  intros Hinfo Hf Hc. unfold uvc_close. destruct (_ || _); wp_run; [done|].
  pose proof (release_claimed_ifs_run devh info t Hinfo Hf Hc) as Hw.
  unfold wp at 1 in Hw. unfold wp at 1. destruct (uvc_release_claimed_ifs devh t) as [[devh1 t1]|] eqn:E; [|done].
  cbn [returns] in *. destruct Hw as (evs & -> & Hrel & _).
  destruct (release_all_releasing devh t devh1 _ E) as (evs' & He & Hm). apply app_inv_head in He as <-.
  wp_run. set (r := answer _ LibusbClose).
  destruct (free_devh_run devh1 ((t ++ evs) ++ [(LibusbClose, r)])) as (tail & Hrun & Htail).
  rewrite (wp_Ret _ _ _ _ _ Hrun). wp_run. split; [done|]. exists evs, r, tail, (dh_reattach_guard devh1).
  rewrite <- !app_assoc. rewrite Hm, Hrel. split_and!; [done|done|done].
Qed.

(** ** Opening *)

(** The USB handle is closed last of all that counts, and [l] comes before. *)
Definition failed_after (t t' : trace) (l : list milestone) : Prop :=
  ∃ guard t1 r tail, t' = t1 ++ [(LibusbClose, r)] ++ tail ∧ milestones t1 = milestones t ++ l ∧ tail.*1 = teardown guard.

Lemma open_failed_unclaimed devh ret t t0 :
  dh_claimed devh = 0 → (∀ info, dh_info devh = Some info → 0 ≤ ctrl_of info < 31) → milestones t = milestones t0 →
  wp (open_failed devh ret) (λ '(ret', devh') t', ret' = ret ∧ devh' = None ∧ failed_after t0 t' []) t.
Proof.
  intros Hc Hi Hm. unfold open_failed.
  assert (∀ d : uvc_device_handle, wp (call LibusbClose ≫= λ _, uvc_free_devh d ≫= λ _, mret (ret, None))
    (λ '(ret', devh') t', ret' = ret ∧ devh' = (None : option uvc_device_handle) ∧ failed_after t0 t' []) t) as Htail.
  { intros d. wp_run. set (r := answer t LibusbClose).
    destruct (free_devh_run d (t ++ [(LibusbClose, r)])) as (tail & Hrun & Ht).
    rewrite (wp_Ret _ _ _ _ _ Hrun). wp_run. split_and!; [done..|]. exists (dh_reattach_guard d), t, r, tail.
    rewrite app_nil_r, <- app_assoc. by split_and!. }
  destruct (dh_info devh) as [info|]; rewrite !wp_bind; [|apply (Htail devh)].
  rewrite (wp_Ret _ _ _ _ _ (release_unclaimed devh (ctrl_of info) t (Hi info eq_refl) ltac:(by rewrite Hc, Z.testbit_0_l))).
  apply (Htail devh).
Qed.

Lemma open_failed_claimed devh info ret t t0 :
  dh_info devh = Some info → 0 ≤ ctrl_of info < 31 → dh_claimed devh = Z.shiftl 1 (ctrl_of info) →
  milestones t = milestones t0 ++ [MClaim (ctrl_of info)] →
  wp (open_failed devh ret) (λ '(ret', devh') t', ret' = ret ∧ devh' = None
    ∧ failed_after t0 t' [MClaim (ctrl_of info); MRelease (ctrl_of info)]) t.
Proof.
  intros Hinfo Hi Hc Hm. unfold open_failed. rewrite Hinfo. wp_run.
  eapply wp_mono; [apply release_milestones; [done|]|].
  { rewrite Hc, Z.shiftl_spec, Z.sub_diag by lia. done. }
  intros res t1 Ht1. wp_run. set (r := answer t1 LibusbClose).
  destruct (free_devh_run res.2 (t1 ++ [(LibusbClose, r)])) as (tail & Hrun & Ht).
  rewrite (wp_Ret _ _ _ _ _ Hrun). wp_run. split_and!; [done..|]. exists (dh_reattach_guard res.2), t1, r, tail.
  rewrite Ht1, Hm, <- !app_assoc. by split_and!.
Qed.

Lemma start_status_milestones info t :
  wp (start_status info) (λ ret t', milestones t' = milestones t) t.
Proof. unfold start_status. repeat (case_match; wp_run); auto. Qed.

End closing.

Section opening.
Context `{Environment} (b : uvc_reattach_backend) (fuel n : nat).
Context (Hhost : host_process n) (Hfuel : (n < fuel)%nat).

(** The device is open, with its descriptors parsed and its VideoControl interface
    claimed; or it is not, and what was claimed has been released. *)
Definition opened_or_not (info0 : option uvc_device_info) (t : trace) (res : Z * option uvc_device_handle) (t' : trace)
    : Prop :=
  match res.2 with
  | Some devh => res.1 = UVC_SUCCESS ∧ ∃ info, info0 = Some info ∧ dh_info devh = Some info
      ∧ dh_claimed devh = Z.shiftl 1 (ctrl_of info) ∧ milestones t' = milestones t ++ [MClaim (ctrl_of info)]
  | None => res.1 ≠ UVC_SUCCESS
      ∧ (failed_after t t' [] ∨ ∃ i, failed_after t t' [MClaim i; MRelease i])
  end.

Lemma open_internal_run ids config ret0 info0 t :
  uvc_get_device_info ids config = Ret (ret0, info0) →
  (∀ info, info0 = Some info → 0 ≤ ctrl_of info < 31) →
  rs_code (answer t (Calloc BHandle)) ≠ 0 →
  wp (uvc_open_internal b fuel ids config) (opened_or_not info0 t) t.
Proof.
  intros Hinfo Hctrl Hcalloc. unfold uvc_open_internal, opened_or_not. wp_run.
  rewrite (proj2 (Z.eqb_neq _ 0) Hcalloc). unfold get_device_info_checked. wp_run.
  set (t0 := (t ++ [_]) ++ [_]). assert (milestones t0 = milestones t) as Hm0 by (unfold t0; auto).
  case_match; wp_run.
  { eapply wp_mono; [by apply (open_failed_unclaimed _ _ _ t)|]. intros [ret devh] t' (-> & -> & Hf). cbn [fst snd]. auto. }
  rewrite Hinfo. wp_run. cbn [returns].
  destruct (Z.eqb_spec ret0 UVC_SUCCESS) as [->|Hne]; cbn [negb].
  2:{ eapply wp_mono; [by apply (open_failed_unclaimed _ _ _ t)|]. intros [ret devh] t' (-> & -> & Hf). cbn [fst snd]. auto. }
  destruct info0 as [info|].
  2:{ exfalso. unfold uvc_get_device_info in Hinfo. destruct config; [|done]. inv_ret Hinfo.
      case_match; [discriminate|]. injection Hinfo as ->. discriminate. }
  wp_run. cbn [deref returns]. specialize (Hctrl info eq_refl). wp_run.
  eapply wp_mono; [by apply (claim_milestones b fuel n)|]. intros [ret devh] t1 [Hi Hres]. cbn [set_info dh_info] in Hi.
  destruct (Z.eqb_spec ret UVC_SUCCESS) as [->|Hne]; cbn [negb]; destruct Hres as [Hm1 Hc1]; rewrite Hm0 in Hm1.
  2:{ eapply wp_mono; [apply (open_failed_unclaimed _ _ _ t); [done| |done]|].
      - intros info'. rewrite Hi. by intros [= <-].
      - intros [ret' devh'] t' (-> & -> & Hf). cbn [fst snd]. auto. }
  wp_run. set (devh1 := set_is_isight devh _). eapply wp_mono; [apply start_status_milestones|].
  intros ret t2 Hm2. rewrite milestones_idle, Hm1 in Hm2 by done. unfold nz.
  destruct (Z.eqb_spec ret 0) as [->|Hne]; cbn [negb]; wp_run.
  - split; [done|]. exists info. by split_and!.
  - eapply wp_mono; [by apply (open_failed_claimed devh1 info ret t2 t)|].
    intros [ret' devh'] t' (-> & -> & Hf). cbn [fst snd]. split; [done|]. right. eauto.
Qed.

End opening.

(** ** The small device *)

Definition open_env : Environment := λ t q,
  match q with
  | AllocTransfer => answer_code 4096
  | _ => agree_env t q
  end.

Lemma open_host : host_process (H := open_env) 0.
Proof. split; [intros t; discriminate|intros t _; reflexivity]. Qed.

