(* ===== verification/Session.v ===== *)
(** * Session: starting and ending to stream, src/stream.c and src/device.c

    The calls an application makes for a whole session, composed of the parts:
    [uvc_start_streaming] opens a stream and starts it, [uvc_stop_streaming] closes
    all streams of a device, [uvc_close] does this first.  This is the sequence of
    requests of the thread that makes the calls; how its steps interleave with the
    callbacks is in Transfers.  What only the other threads decide is an argument:
    [pending] says of a stream whether a stop left transfers in its slots. *)

From stdpp Require Import prelude.
From S2P Require Import Prelude Types Environment ReattachGuard Handles Claims Stream Start Device.

Definition set_quarantined_stream (d : uvc_device_handle) (quarantined : bool) : uvc_device_handle :=
  {| dh_usb_dev := dh_usb_dev d; dh_info := dh_info d; dh_streams := dh_streams d;
     dh_is_isight := dh_is_isight d; dh_claimed := dh_claimed d;
     dh_transfer_buffer_count := dh_transfer_buffer_count d;
     dh_has_quarantined_stream := quarantined; dh_reattach_guard := dh_reattach_guard d |}.

Section session.
Context `{Environment} (active_backend : uvc_reattach_backend) (fuel : nat) (junk : Z).

(** ** Starting *)

(** The loop that fills the slots; a transfer that could not be allocated is filled
    in all the same. *)
Fixpoint alloc_transfers (n : nat) : io unit :=
  match n with
  | O => mret tt
  | S n =>
      xfer ← call AllocTransfer;
      if xfer =? 0 then lift (Undef NullDeref) else alloc_transfers n
  end.

(** The loop that submits them: the last result, and how many were accepted; [k] are
    and [n] are left. *)
Fixpoint submit_transfers (n k : nat) (ret : Z) : io (Z * nat) :=
  match n with
  | O => mret (ret, k)
  | S n =>
      ret ← call SubmitTransfer;
      if negb (ret =? UVC_SUCCESS) then mret (ret, k) else submit_transfers n (S k) ret
  end.

(** [uvc_stream_start] on a stream without transfers: the result, the handle and the
    number of slots that hold a transfer at the end. *)
Definition start_stream (devh : uvc_device_handle) (strmh : uvc_stream_handle) (cb : bool)
    : io (Z * uvc_stream_handle * nat) :=
  res ← stream_start_setup devh strmh;
  match res with
  | (ret, strmh, None) => mret (ret, strmh, 0%nat)
  | (_, strmh, Some setup) =>
      let num_transfer_bufs := Z.to_nat (tu_count setup) in
      _ ← alloc_transfers num_transfer_bufs;
      let strmh := set_user_cb strmh cb in
      res ← submit_transfers num_transfer_bufs 0 UVC_SUCCESS;
      let '(ret, transfer_id) := res in
      if negb (ret =? UVC_SUCCESS) && (0 <? transfer_id)%nat then mret (UVC_SUCCESS, strmh, transfer_id)
      else if negb (ret =? UVC_SUCCESS) then mret (UVC_ERROR_IO, strmh, 0%nat)
      else mret (ret, strmh, transfer_id)
  end.

(** The flavour is chosen by the interface, not by the caller. *)
Definition uvc_stream_start_iso (devh : uvc_device_handle) (strmh : uvc_stream_handle) (cb : bool)
    : io (Z * uvc_stream_handle * nat) :=
  start_stream devh strmh cb.

(** ** Closing *)

Definition free_if (p : option bytes) : io unit :=
  match p with
  | Some _ => _ ← call Free; mret tt
  | None => mret tt
  end.

(** [uvc_stream_close] of the stream at place [k] of the device's list, after the
    stop. *)
Definition uvc_stream_close (devh : uvc_device_handle) (k : nat) (strmh : uvc_stream_handle) (transfers_pending : bool)
    : io uvc_device_handle :=
  let devh := set_streams devh (delete k (dh_streams devh)) in
  if transfers_pending then mret (set_quarantined_stream devh true) else
  res ← uvc_release_if devh (si_bInterfaceNumber (sh_stream_if strmh));
  _ ← free_if (uf_data (sh_frame strmh));
  _ ← free_if (uf_metadata (sh_frame strmh));
  _ ← call Free;
  _ ← call Free;
  _ ← call Free;
  _ ← call Free;
  _ ← call Free;
  mret res.2.

(** The result, the device and the number of transfers in flight. *)
Definition uvc_start_streaming (devh : uvc_device_handle) (ctrl : uvc_stream_ctrl) (cb : bool)
    : io (Z * uvc_device_handle * nat) :=
  res ← uvc_stream_open_ctrl active_backend fuel junk devh ctrl;
  let '(ret, strmh, devh) := res in
  if negb (ret =? UVC_SUCCESS) then mret (ret, devh, 0%nat) else
  strmh ← lift (deref strmh);
  let k := pred (length (dh_streams devh)) in
  res ← start_stream devh strmh cb;
  let '(ret, strmh, filled) := res in
  let devh := set_streams devh (<[k := strmh]> (dh_streams devh)) in
  if negb (ret =? UVC_SUCCESS) then
    devh ← uvc_stream_close devh k strmh (0 <? filled)%nat;
    mret (ret, devh, filled)
  else mret (UVC_SUCCESS, devh, filled).

Definition uvc_start_iso_streaming (devh : uvc_device_handle) (ctrl : uvc_stream_ctrl) (cb : bool)
    : io (Z * uvc_device_handle * nat) :=
  uvc_start_streaming devh ctrl cb.

(** The loop of [uvc_stop_streaming]: the stream to close is the first. *)
Fixpoint close_streams (pending : uvc_stream_handle → bool) (l : list uvc_stream_handle) (devh : uvc_device_handle)
    : io uvc_device_handle :=
  match l with
  | [] => mret devh
  | strmh :: l =>
      devh ← uvc_stream_close devh 0 strmh (pending strmh);
      close_streams pending l devh
  end.

Definition uvc_stop_streaming (pending : uvc_stream_handle → bool) (devh : uvc_device_handle) : io uvc_device_handle :=
  close_streams pending (dh_streams devh) devh.

(** All of [uvc_close]. *)
Definition close_session (pending : uvc_stream_handle → bool) (devh : uvc_device_handle) (status_stopped : bool)
    : io bool :=
  devh ← match dh_streams devh with
         | [] => mret devh
         | _ => uvc_stop_streaming pending devh
         end;
  uvc_close devh status_stopped.
End session.
