(* ===== verification/SessionFacts.v ===== *)
(** * SessionFacts: a session starts and ends as a whole

    Starting to stream either leaves a running stream or the device as it was; closing
    a device with open streams gives every interface back, VideoControl last. *)

From stdpp Require Import prelude.
From S2P Require Import Prelude Types Environment ReattachGuard Handles Claims ClaimsFacts Negotiation NegotiationFacts Stream StreamFacts DeliveryFacts Start Transfers StartFacts Device DeviceFacts Session.

(** ** Starting *)

Section start.
Context `{Environment}.

Lemma alloc_transfers_run m t :
  (∀ t', rs_code (answer t' AllocTransfer) ≠ 0) → wp (alloc_transfers m) (λ _ _, True) t.
Proof.
  intros Ha. revert t. induction m as [|m IH]; intros t; cbn [alloc_transfers]; wp_run; [done|].
  rewrite (proj2 (Z.eqb_neq _ 0) (Ha _)). apply IH.
Qed.

(** [submit_transfers] stops at the first refusal. *)
Lemma submit_transfers_run m : ∀ k ret t,
  ret = UVC_SUCCESS →
  wp (submit_transfers m k ret) (λ '(r, k') _, (k ≤ k' ≤ k + m)%nat ∧ (r = UVC_SUCCESS → k' = (k + m)%nat)) t.
Proof.
  induction m as [|m IH]; intros k ret t Hr; cbn [submit_transfers]; wp_run; [lia|].
  destruct (Z.eqb_spec (rs_code (answer t SubmitTransfer)) UVC_SUCCESS) as [E|E]; cbn [negb]; wp_run.
  - eapply wp_mono; [by apply IH|]. intros [r k'] t' [H1 H2]. split; [lia|]. intros Hs. specialize (H2 Hs). lia.
  - split; [lia|done].
Qed.

(** A stream that was started runs with at least one transfer in flight; one that
    could not be has none. *)
Lemma start_stream_run devh info alts h cb t :
  (∀ t', rs_code (answer t' AllocTransfer) ≠ 0) →
  dh_info devh = Some info → interface_of info h = Some alts → 0 ≤ si_bInterfaceNumber (sh_stream_if h) →
  Forall altsetting_wf alts → sh_running h = false →
  0 < sc_dwMaxPayloadTransferSize (sh_cur_ctrl h) → fits 32 (sc_dwMaxVideoFrameSize (sh_cur_ctrl h)) →
  wp (start_stream devh h cb) (λ '(ret, h', filled) _,
    sh_stream_if h' = sh_stream_if h ∧ sh_cur_ctrl h' = sh_cur_ctrl h
    ∧ if ret =? UVC_SUCCESS
      then sh_running h' = true ∧ sh_user_cb h' = cb ∧ (1 ≤ filled ≤ 100)%nat
        ∧ h' = set_user_cb (set_format (start_reset h) (sh_frame_format h')) cb
        ∧ is_Some (uvc_find_frame_desc_stream h (sc_bFormatIndex (sh_cur_ctrl h)) (sc_bFrameIndex (sh_cur_ctrl h)))
      else filled = 0%nat) t.
Proof.
  intros Ha Hinfo Halts Hif Hwf Hrun Hp Hm. unfold start_stream. rewrite wp_bind.
  pose proof (start_setup_run devh info alts h t Hinfo Halts Hif Hwf Hp Hm) as Hsetup.
  apply wp_iff in Hsetup as ([[ret h'] setup] & t1 & E & Hh & Hres). rewrite (wp_Ret _ _ _ _ _ E).
  assert (sh_stream_if h' = sh_stream_if h ∧ sh_cur_ctrl h' = sh_cur_ctrl h
    ∧ (setup ≠ None → h' = set_format (start_reset h) (sh_frame_format h'))) as (Hi & Hc & Hh').
  { specialize (Hh (opened h) cb eq_refl). unfold uvc_stream_start in Hh.
    cbn [opened ts_h] in Hh. rewrite Hrun in Hh. destruct setup; cbn [is_Some bool_decide] in Hh; by rewrite <- Hh. }
  destruct setup as [tu|]; wp_run; last first.
  { destruct Hres as [Hne _]. by rewrite (proj2 (Z.eqb_neq _ _) Hne). }
  destruct Hres as (_ & _ & Hr & _ & Hcount & _). apply start_setup_frame in E as Hframe.
  assert (set_user_cb h' cb = set_user_cb (set_format (start_reset h) (sh_frame_format h')) cb) as Hst
    by (f_equal; by apply Hh').
  eapply wp_mono; [by apply alloc_transfers_run|]. intros _ t2 _. wp_run.
  eapply wp_mono; [by apply submit_transfers_run|]. intros [r k] t3 [Hk Hall].
  assert ((UVC_SUCCESS =? UVC_SUCCESS) = true) as Hyes by done.
  assert ((UVC_ERROR_IO =? UVC_SUCCESS) = false) as Hno by done.
  destruct (Z.eqb_spec r UVC_SUCCESS) as [->|Er]; cbn [negb andb].
  - wp_run. rewrite Hyes. specialize (Hall eq_refl). split_and!; try done; lia.
  - destruct (Nat.ltb_spec 0 k); wp_run; rewrite ?Hyes, ?Hno; split_and!; try done; lia.
Qed.
End start.

(** ** Giving an interface back *)

(** The handle does not claim interface [i], or libusb refused to release it. *)
Definition given_back (devh : uvc_device_handle) (t : trace) (i : Z) : Prop :=
  Z.testbit (dh_claimed devh) i = false ∨ ∃ r, (ReleaseInterface i, r) ∈ t ∧ rs_code r ≠ UVC_SUCCESS.

Section close.
Context `{Environment}.

Lemma disarm_keeps devh i t :
  wp (disarm devh i) (λ devh' t', dh_streams devh' = dh_streams devh ∧ dh_info devh' = dh_info devh
    ∧ dh_claimed devh' = dh_claimed devh ∧ dh_has_quarantined_stream devh' = dh_has_quarantined_stream devh) t.
Proof. unfold disarm, uvc_reattach_guard_disarm, store_armed. wp_run. repeat (case_match; wp_run); auto. Qed.

Lemma release_keeps devh i t :
  0 ≤ i < 31 →
  wp (uvc_release_if devh i) (λ res t', dh_streams res.2 = dh_streams devh ∧ dh_info res.2 = dh_info devh
    ∧ dh_has_quarantined_stream res.2 = dh_has_quarantined_stream devh
    ∧ given_back res.2 t' i) t.
Proof.
  intros Hi. unfold uvc_release_if, given_back. rewrite wp_bind, wp_lift, shl1_in by done. cbn [returns].
  rewrite land_bit by lia. destruct (Z.testbit (dh_claimed devh) i) eqn:Hb; cbn [negb]; wp_run; [|auto].
  set (r := answer _ (ReleaseInterface i)).
  destruct (Z.eqb_spec (rs_code r) UVC_SUCCESS) as [Er|Er]; cbn [negb]; wp_run.
  - set (devh1 := set_claimed _ _).
    assert (Z.testbit (dh_claimed devh1) i = false) as Hc.
    { cbn [devh1 set_claimed dh_claimed]. rewrite Z.land_spec, testbit_not32 by (apply bit_fits || lia).
      rewrite testbit_bit by lia. rewrite bool_decide_true by done. apply andb_false_r. }
    rewrite release_ret_test. case_match; wp_run; [|by auto].
    eapply wp_mono; [apply disarm_keeps|]. intros devh2 t2 (H1 & H2 & H3 & H4). wp_run. cbn [snd].
    rewrite H1, H2, H3, H4. auto.
  - split_and!; try done. right. exists r. split; [set_solver|done].
Qed.

Lemma close_stream_keeps devh k s t :
  0 ≤ si_bInterfaceNumber (sh_stream_if s) < 31 →
  wp (uvc_stream_close devh k s false) (λ devh' t', dh_streams devh' = delete k (dh_streams devh)
    ∧ given_back devh' t' (si_bInterfaceNumber (sh_stream_if s))) t.
Proof.
  intros Hi. unfold uvc_stream_close, free_if. rewrite wp_bind. eapply wp_mono; [by apply release_keeps|].
  intros res t1 (Hs & _ & _ & Hg). destruct (uf_data _), (uf_metadata _); wp_run; split; try done.
  all: destruct Hg as [Hg|(r & Hr & Hne)]; [by left|right; exists r; set_solver].
Qed.
End close.

Section session.
Context `{Environment} (b : uvc_reattach_backend) (fuel n : nat) (junk : Z).
Context (Hhost : host_process n) (Hfuel : (n < fuel)%nat).

(** The streaming interfaces of the description are interfaces of the configuration. *)
Definition interfaces_ok (info : uvc_device_info) : Prop :=
  Forall (λ s, 0 ≤ si_bInterfaceNumber s < 31
    ∧ ∃ alts, di_config info !! Z.to_nat (si_bInterfaceNumber s) = Some alts ∧ Forall altsetting_wf alts)
    (di_stream_ifs info).

(** The stream as it is after a successful start. *)
Definition started_stream (s : uvc_streaming_interface) (ctrl : uvc_stream_ctrl) (format : Z) (cb : bool)
    : uvc_stream_handle :=
  set_user_cb (set_format (start_reset (fresh_stream junk s ctrl)) format) cb.

Lemma start_streaming_run devh info ctrl cb t :
  (∀ t', rs_code (answer t' AllocTransfer) ≠ 0) →
  dh_info devh = Some info → interfaces_ok info → NoDup (open_interfaces devh) →
  0 < sc_dwMaxPayloadTransferSize ctrl → fits 32 (sc_dwMaxVideoFrameSize ctrl) →
  wp (uvc_start_streaming b fuel junk devh ctrl cb) (λ '(ret, devh', in_flight) t',
    if ret =? UVC_SUCCESS then
      (1 ≤ in_flight ≤ 100)%nat ∧ ∃ s, dh_streams devh' = dh_streams devh ++ [s]
        ∧ sh_running s = true ∧ sh_user_cb s = cb ∧ sh_cur_ctrl s = ctrl
        ∧ si_bInterfaceNumber (sh_stream_if s) = sc_bInterfaceNumber ctrl
        ∧ sh_stream_if s ∈ di_stream_ifs info
        ∧ (buffers_allocated → s = started_stream (sh_stream_if s) ctrl (sh_frame_format s) cb)
        ∧ is_Some (uvc_find_frame_desc_stream s (sc_bFormatIndex ctrl) (sc_bFrameIndex ctrl))
    else
      in_flight = 0%nat ∧ dh_streams devh' = dh_streams devh
      ∧ ((∃ t1, uvc_stream_open_ctrl b fuel junk devh ctrl t = Ret ((ret, None, devh'), t1))
         ∨ given_back devh' t' (sc_bInterfaceNumber ctrl))) t.
Proof.
  intros Ha Hinfo Hifs Hnd Hp Hm. unfold uvc_start_streaming.
  assert (Forall (λ s, 0 ≤ si_bInterfaceNumber s < 31) (di_stream_ifs info)) as Hrange.
  { eapply Forall_impl; [exact Hifs|]. by intros s []. }
  pose proof (stream_open_run b fuel n junk Hhost Hfuel devh info ctrl t Hinfo Hm Hrange Hnd) as Hopen.
  rewrite wp_bind. apply wp_iff in Hopen as ([[ret strmh] devh1] & t1 & E & Hi1 & _ & Hres).
  rewrite (wp_Ret _ _ _ _ _ E). destruct strmh as [s|]; last first.
  { destruct Hres as [Hne Hs]. rewrite (proj2 (Z.eqb_neq _ _) Hne). cbn [negb]. wp_run.
    rewrite (proj2 (Z.eqb_neq _ _) Hne). split_and!; eauto. }
  destruct Hres as (-> & Hs & _ & Hrun & Hctrl & Hin & Hnum & Hfresh).
  change (UVC_SUCCESS =? UVC_SUCCESS) with true. cbn [negb]. wp_run. cbn [deref returns].
  destruct (proj1 (Forall_forall _ _) Hifs _ Hin) as (Hr & alts & Halts & Hwf).
  rewrite wp_bind. eapply wp_mono.
  { apply (start_stream_run devh1 info alts s cb); [done|by rewrite Hi1|done|lia|done|done|by rewrite Hctrl|by rewrite Hctrl]. }
  intros [[ret h'] filled] t2 (Hif & Hc & Hres).
  assert (<[pred (length (dh_streams devh1)) := h']> (dh_streams devh1) = dh_streams devh ++ [h']) as Hins.
  { rewrite Hs, length_app. cbn [length]. rewrite Nat.add_1_r. cbn [pred].
    rewrite insert_app_r_alt, Nat.sub_diag by lia. done. }
  destruct (Z.eqb_spec ret UVC_SUCCESS) as [->|Hne]; cbn [negb].
  - wp_run. change (UVC_SUCCESS =? UVC_SUCCESS) with true. cbv iota. destruct Hres as (H1 & H2 & H3 & H4 & H5).
    split; [done|]. exists h'. rewrite Hins. split; [done|]. split_and!; try congruence.
    + intros Hbuf. rewrite Hif. unfold started_stream. by rewrite <- (Hfresh Hbuf).
    + unfold uvc_find_frame_desc_stream in *. by rewrite Hif, <- Hctrl.
  - subst filled. wp_run. eapply wp_mono; [apply close_stream_keeps; rewrite Hif; lia|].
    intros devh2 t3 [Hd Hg]. wp_run. rewrite (proj2 (Z.eqb_neq _ _) Hne). split; [done|].
    rewrite Hd. cbn [set_streams dh_streams]. rewrite Hins, Hif, Hnum in *.
    split; [|by right]. rewrite Hs, length_app. cbn [length]. rewrite Nat.add_1_r. cbn [pred].
    rewrite delete_middle. apply app_nil_r.
Qed.

(** C17: starting to stream is all or nothing.  It returns whatever libusb and the
    device answer; on success one stream was added, which runs with the parameters
    asked for and has 1 to 100 transfers in flight.  On failure the device has the
    streams it had and no transfer was left behind; unless the stream could not be
    opened at all, its interface has been given back, or libusb refused to take it.
    The conditions: libusb can allocate the transfers, which the code does not check;
    the payload size asked for is not zero; the streaming interfaces of the
    description are numbered below 31 and their numbers are indices of interfaces of
    the configuration with well-formed endpoints; no two open streams share one; and
    signals interrupt the wait for the helper's parent finitely often. *)
Theorem start_streaming_all_or_nothing devh info ctrl cb t :
  (∀ t', rs_code (answer t' AllocTransfer) ≠ 0) →
  dh_info devh = Some info → interfaces_ok info → NoDup (open_interfaces devh) →
  0 < sc_dwMaxPayloadTransferSize ctrl → fits 32 (sc_dwMaxVideoFrameSize ctrl) →
  wp (uvc_start_streaming b fuel junk devh ctrl cb) (λ '(ret, devh', in_flight) t',
    if ret =? UVC_SUCCESS then
      (1 ≤ in_flight ≤ 100)%nat ∧ ∃ s, dh_streams devh' = dh_streams devh ++ [s]
        ∧ sh_running s = true ∧ sh_user_cb s = cb ∧ sh_cur_ctrl s = ctrl
        ∧ si_bInterfaceNumber (sh_stream_if s) = sc_bInterfaceNumber ctrl
    else
      in_flight = 0%nat ∧ dh_streams devh' = dh_streams devh
      ∧ ((∃ t1, uvc_stream_open_ctrl b fuel junk devh ctrl t = Ret ((ret, None, devh'), t1))
         ∨ given_back devh' t' (sc_bInterfaceNumber ctrl))) t.
Proof.
  intros. eapply wp_mono; [by apply (start_streaming_run devh info)|]. intros [[ret devh'] k] t'.
  destruct (ret =? UVC_SUCCESS); [|done]. intros (? & s & ? & ? & ? & ? & ? & _). split; [done|]. exists s. by split_and!.
Qed.
End session.

(** ** Closing *)

Definition number (s : uvc_stream_handle) : Z := si_bInterfaceNumber (sh_stream_if s).

(** The interfaces released with the streams: those claimed whose transfers ended. *)
Definition stopped (pending : uvc_stream_handle → bool) (claimed : Z) (l : list uvc_stream_handle) : list Z :=
  omap (λ s, if negb (pending s) && Z.testbit claimed (number s) then Some (number s) else None) l.

Lemma elem_of_stopped pending claimed l j : j ∈ stopped pending claimed l → j ∈ number <$> l.
Proof.
  induction l as [|s l IH]; cbn [stopped omap list_omap fmap list_fmap]; [done|].
  intros Hj. destruct (_ && _); [|right; by apply IH]. apply elem_of_cons in Hj as [->|Hj]; [left|right; by apply IH].
Qed.

Lemma stopped_claimed pending claimed l j : j ∈ stopped pending claimed l → Z.testbit claimed j = true.
Proof.
  intros (s & _ & Hs)%list_elem_of_omap. destruct (_ && _) eqn:E; [|done]. injection Hs as <-.
  by apply andb_true_iff in E as [_ ?].
Qed.

Lemma stopped_ext pending c1 c2 l :
  (∀ s, s ∈ l → Z.testbit c1 (number s) = Z.testbit c2 (number s)) → stopped pending c1 l = stopped pending c2 l.
Proof.
  induction l as [|s l IH]; cbn [stopped omap list_omap]; intros Hl; [done|].
  rewrite (Hl s) by left. fold (stopped pending c1 l) (stopped pending c2 l).
  rewrite IH by (intros; apply Hl; by right). done.
Qed.

(** The events of a part of closing: [l] is released, nothing else happens that
    counts, and [c'] is what is left of the claims [c]. *)
Definition closing (l : list Z) (c c' : Z) (t t' : trace) : Prop :=
  ∃ evs, t' = t ++ evs ∧ releases evs = l ∧ milestones evs = MRelease <$> l ∧ left_claimed c c' evs.

Lemma closing_refl c t : fits 32 c → closing [] c c t t.
Proof. intros Hc. exists []. rewrite app_nil_r. split_and!; [done..|]. by apply left_claimed_nil. Qed.

Lemma closing_trans l k c1 c2 c3 t1 t2 t3 :
  (∀ j, j ∈ l → j ∉ k) → closing l c1 c2 t1 t2 → closing k c2 c3 t2 t3 → closing (l ++ k) c1 c3 t1 t3.
Proof.
  intros Hd (evs & -> & Hr & Hm & Hl) (evs' & -> & Hr' & Hm' & Hl'). exists (evs ++ evs').
  rewrite app_assoc, releases_app, milestones_app, fmap_app, Hr, Hr', Hm, Hm'. split_and!; [done..|].
  eapply left_claimed_app; [|done..]. by rewrite Hr, Hr'.
Qed.

Lemma closing_free l c c' t t' r : closing l c c' t t' → closing l c c' t (t' ++ [(Free, r)]).
Proof.
  intros Hc. rewrite <- (app_nil_r l). eapply closing_trans; [set_solver|exact Hc|].
  destruct Hc as (_ & _ & _ & _ & [Hf _]). exists [(Free, r)]. split_and!; [done..|].
  split; [done|]. intros j Hj. simpl. by rewrite andb_true_r.
Qed.

(** *** The helper process *)

(** The handle's guard, if it has one, has the mask the helper would find. *)
Definition watched (devh : uvc_device_handle) (t : trace) : Prop :=
  fits 32 (shared_armed t) ∧ ∀ g, dh_reattach_guard devh = Some g → synced g t.

(** Requests that do not let go of the helper. *)
Definition spares_helper (q : request) : Prop :=
  match q with
  | Close _ | Munmap => False
  | _ => True
  end.

(** From [t] to [t'] the helper was not let go, and every interface but those of [l]
    stayed armed if it was. *)
Definition helper_kept (l : list Z) (t t' : trace) : Prop :=
  (∃ evs, t' = t ++ evs ∧ Forall (λ e, spares_helper e.1) evs)
  ∧ ∀ j, 0 ≤ j → j ∉ l → Z.testbit (shared_armed t') j = Z.testbit (shared_armed t) j.

Lemma helper_kept_refl t : helper_kept [] t t.
Proof. split; [|done]. exists []. by rewrite app_nil_r. Qed.

Lemma helper_kept_trans l k t1 t2 t3 : helper_kept l t1 t2 → helper_kept k t2 t3 → helper_kept (l ++ k) t1 t3.
Proof.
  intros [(evs & -> & Hf) Hj] [(evs' & -> & Hf') Hj']. split.
  - exists (evs ++ evs'). rewrite app_assoc. split; [done|]. by apply Forall_app.
  - intros j H0 [H1 H2]%not_elem_of_app. rewrite Hj', Hj by done. done.
Qed.

(** A request that does not write the mask. *)
Lemma watched_step devh t q r : watched devh t → ¬ (∃ m, q = StoreArmed m) → watched devh (t ++ [(q, r)]).
Proof.
  intros [Hf Hg] Hq. split; [|intros g Hd; by apply synced_call; [apply Hg|]].
  rewrite shared_snoc. destruct q; try done. naive_solver.
Qed.

Lemma helper_kept_step l t t' q r :
  helper_kept l t t' → ¬ (∃ m, q = StoreArmed m) → spares_helper q → helper_kept l t (t' ++ [(q, r)]).
Proof.
  intros Hk Hq Hs. rewrite <- (app_nil_r l). eapply helper_kept_trans; [exact Hk|]. split.
  - exists [(q, r)]. split; [done|]. by repeat constructor.
  - intros j _ _. rewrite shared_snoc. destruct q; try done. naive_solver.
Qed.

Lemma watched_guard devh devh' t : dh_reattach_guard devh' = dh_reattach_guard devh → watched devh t → watched devh' t.
Proof. unfold watched. by intros ->. Qed.

Section ending.
Context `{Environment}.

Lemma disarm_helper devh i t :
  0 ≤ i < 31 → watched devh t → wp (disarm devh i) (λ devh' t', watched devh' t' ∧ helper_kept [i] t t') t.
Proof.
  intros Hi [Hf Hg]. unfold disarm, uvc_reattach_guard_disarm, store_armed, UVC_REATTACH_MAX_INTERFACES.
  destruct (dh_reattach_guard devh) as [g|]; wp_run.
  2:{ split; [by split|]. split; [exists []; by rewrite app_nil_r|done]. }
  destruct (Hg g eq_refl) as [Ha Hm]. replace ((i <? 0) || (32 <=? i)) with false by lia. wp_run. rewrite Ha.
  split; [split|split].
  - rewrite shared_snoc. by apply clear_bit_fits.
  - intros g' [= <-]. split; [|done]. by rewrite shared_snoc.
  - eexists. split; [done|]. by repeat constructor.
  - intros j Hj Hne%not_elem_of_cons. rewrite shared_snoc. cbn [mask_after fst].
    rewrite testbit_clear_bit by (done || lia). rewrite bool_decide_true by (intros ->; by destruct Hne). apply andb_true_r.
Qed.

Lemma release_helper devh i t :
  0 ≤ i < 31 → watched devh t →
  wp (uvc_release_if devh i) (λ res t',
    watched res.2 t' ∧ helper_kept (if Z.testbit (dh_claimed devh) i then [i] else []) t t') t.
Proof.
  intros Hi Hw. unfold uvc_release_if. rewrite wp_bind, wp_lift, shl1_in by done. cbn [returns].
  rewrite land_bit by lia. destruct (Z.testbit (dh_claimed devh) i); cbn [negb]; wp_run; [|by split; [|apply helper_kept_refl]].
  assert (helper_kept [i] t t) as Hk by (split; [exists []; by rewrite app_nil_r|done]).
  destruct (negb _); wp_run; [split; [repeat apply watched_step|repeat apply helper_kept_step]; try done; by intros []|].
  set (devh1 := set_claimed _ _). set (t3 := ((t ++ _) ++ _) ++ _).
  assert (watched devh1 t3 ∧ helper_kept [] t t3) as [Hw3 Hk3].
  { split; [apply (watched_guard devh); [done|]; repeat apply watched_step|repeat apply helper_kept_step]; try done;
      try (by intros []). apply helper_kept_refl. }
  rewrite release_ret_test. destruct (driver_back _); wp_run.
  - eapply wp_mono; [by apply disarm_helper|]. intros devh2 t4 [H1 H2]. wp_run. split; [done|].
    by apply (helper_kept_trans [] [i] t t3).
  - split; [done|]. destruct Hk3 as [H1 H2]. split; [done|]. intros j Hj _. apply H2; [done|set_solver].
Qed.

Lemma release_closing devh i t :
  0 ≤ i < 31 → fits 32 (dh_claimed devh) →
  wp (uvc_release_if devh i) (λ res t',
    closing (if Z.testbit (dh_claimed devh) i then [i] else []) (dh_claimed devh) (dh_claimed res.2) t t') t.
Proof.
  intros Hi Hf. destruct (Z.testbit (dh_claimed devh) i) eqn:Hb.
  - eapply wp_mono; [apply wp_and; [by apply release_left|by apply release_releasing]|].
    intros res t' [(evs & -> & Hr & _ & Hl) (evs' & E & Hm)]. apply app_inv_head in E as <-.
    exists evs. rewrite Hr in Hm. by split_and!.
  - rewrite (wp_Ret _ _ _ _ _ (release_unclaimed devh i t Hi Hb)). by apply closing_refl.
Qed.

Lemma close_stream_closing devh s l pending t :
  0 ≤ number s < 31 → fits 32 (dh_claimed devh) → dh_streams devh = s :: l →
  wp (uvc_stream_close devh 0 s (pending s)) (λ devh' t', dh_streams devh' = l ∧ dh_info devh' = dh_info devh
    ∧ dh_has_quarantined_stream devh' = pending s || dh_has_quarantined_stream devh
    ∧ closing (stopped pending (dh_claimed devh) [s]) (dh_claimed devh) (dh_claimed devh') t t'
    ∧ (watched devh t → watched devh' t' ∧ helper_kept (stopped pending (dh_claimed devh) [s]) t t')) t.
Proof.
  intros Hi Hf Hs. unfold uvc_stream_close, free_if. cbn [stopped omap list_omap]. rewrite Hs.
  destruct (pending s); cbn [negb andb orb]; [wp_run; split_and!; try done; [by apply closing_refl|]; auto using helper_kept_refl|].
  set (devh1 := set_streams devh _). rewrite wp_bind.
  assert (wp (uvc_release_if devh1 (number s)) (λ res t', watched devh1 t → watched res.2 t'
    ∧ helper_kept (if Z.testbit (dh_claimed devh1) (number s) then [number s] else []) t t') t) as Hhelper.
  { apply wp_iff. pose proof (release_keeps devh1 (number s) t Hi) as Hret. apply wp_iff in Hret as (res & t1 & E & _).
    exists res, t1. split; [done|]. intros Hw. pose proof (release_helper devh1 (number s) t Hi Hw) as Hr.
    by rewrite (wp_Ret _ _ _ _ _ E) in Hr. }
  eapply wp_mono; [apply wp_and; [apply wp_and; [by apply (release_keeps devh1)|by apply (release_closing devh1)]|exact Hhelper]|].
  intros res t1 [[(H1 & H2 & H3 & _) H4] H5]. fold (number s) in H4.
  change (dh_claimed devh1) with (dh_claimed devh) in H4, H5. change (watched devh1 t) with (watched devh t) in H5.
  assert (∀ t' r k, (watched devh t → watched res.2 t' ∧ helper_kept k t t') →
    watched devh t → watched res.2 (t' ++ [(Free, r)]) ∧ helper_kept k t (t' ++ [(Free, r)])) as Hfree.
  { intros t' r k Ht' [? ?]%Ht'. split; [apply watched_step|apply helper_kept_step]; try done; by intros []. }
  destruct (Z.testbit (dh_claimed devh) (number s)).
  all: destruct (uf_data _), (uf_metadata _); wp_run; split_and!; try done;
    first [repeat apply closing_free; exact H4|repeat apply Hfree; exact H5].
Qed.

Lemma close_streams_closing pending l : ∀ devh t,
  fits 32 (dh_claimed devh) → dh_streams devh = l → Forall (λ s, 0 ≤ number s < 31) l → NoDup (number <$> l) →
  wp (close_streams pending l devh) (λ devh' t', dh_streams devh' = [] ∧ dh_info devh' = dh_info devh
    ∧ dh_has_quarantined_stream devh' = existsb pending l || dh_has_quarantined_stream devh
    ∧ closing (stopped pending (dh_claimed devh) l) (dh_claimed devh) (dh_claimed devh') t t'
    ∧ (watched devh t → watched devh' t' ∧ helper_kept (stopped pending (dh_claimed devh) l) t t')) t.
Proof.
  induction l as [|s l IH]; intros devh t Hf Hs Hr Hn; cbn [close_streams].
  { wp_run. split_and!; try done; [by apply closing_refl|]. auto using helper_kept_refl. }
  apply Forall_cons in Hr as [Hi Hr]. apply NoDup_cons in Hn as [Hnew Hn].
  rewrite wp_bind. eapply wp_mono; [by apply (close_stream_closing devh s l)|].
  intros devh1 t1 (Hs1 & Hi1 & Hq1 & Hc1 & Hh1).
  assert (fits 32 (dh_claimed devh1)) as Hf1 by (by destruct Hc1 as (? & _ & _ & _ & [? _])).
  eapply wp_mono; [by apply IH|]. intros devh2 t2 (Hs2 & Hi2 & Hq2 & Hc2 & Hh2).
  assert (stopped pending (dh_claimed devh1) l = stopped pending (dh_claimed devh) l) as Hsame.
  { apply stopped_ext. intros s' Hs'. rewrite Forall_forall in Hr. specialize (Hr s' Hs').
    destruct Hc1 as (evs & _ & Hrel & _ & [_ Hbits]). rewrite Hbits by lia. rewrite Hrel, bool_decide_true; [simpl; by rewrite andb_true_r|].
    intros Hj%elem_of_stopped%list_elem_of_singleton. apply Hnew. rewrite <- Hj. by apply list_elem_of_fmap_2. }
  assert (stopped pending (dh_claimed devh) (s :: l)
    = stopped pending (dh_claimed devh) [s] ++ stopped pending (dh_claimed devh) l) as ->.
  { change (s :: l) with ([s] ++ l). unfold stopped. by rewrite omap_app. }
  rewrite Hsame in *. split_and!; [done|congruence| | |].
  - rewrite Hq2, Hq1. cbn [existsb]. by destruct (pending s), (existsb pending l).
  - eapply closing_trans; [|exact Hc1|exact Hc2].
    intros j Hj%elem_of_stopped Hj'%elem_of_stopped. apply list_elem_of_singleton in Hj as ->. by apply Hnew.
  - intros [Hw1 Hk1]%Hh1. destruct (Hh2 Hw1). split; [done|]. by eapply helper_kept_trans.
Qed.
End ending.

Lemma teardown_milestones tail guard : tail.*1 = teardown guard → milestones tail = [].
Proof.
  intros Ht. destruct guard; cbn [teardown] in Ht.
  - destruct tail as [|[q1 ?] [|[q2 ?] [|[q3 ?] [|[q4 ?] [|]]]]]; try discriminate Ht. by injection Ht as -> -> -> ->.
  - destruct tail as [|[q1 ?] [|]]; try discriminate Ht. by injection Ht as ->.
Qed.

Lemma stop_streaming_closing `{Environment} pending devh t :
  fits 32 (dh_claimed devh) → Forall (λ s, 0 ≤ number s < 31) (dh_streams devh) → NoDup (open_interfaces devh) →
  wp (match dh_streams devh with [] => mret devh | _ => uvc_stop_streaming pending devh end) (λ devh' t',
    dh_streams devh' = [] ∧ dh_info devh' = dh_info devh
    ∧ dh_has_quarantined_stream devh' = existsb pending (dh_streams devh) || dh_has_quarantined_stream devh
    ∧ closing (stopped pending (dh_claimed devh) (dh_streams devh)) (dh_claimed devh) (dh_claimed devh') t t'
    ∧ (watched devh t → watched devh' t'
         ∧ helper_kept (stopped pending (dh_claimed devh) (dh_streams devh)) t t')) t.
Proof.
  intros Hf Hr Hn. destruct (dh_streams devh) eqn:E.
  - wp_run. split_and!; try done; [by apply closing_refl|]. auto using helper_kept_refl.
  - rewrite <- E in *. by apply close_streams_closing.
Qed.


(** ** A camera with one isochronous stream *)

Definition session_stream_if : uvc_streaming_interface :=
  {| si_bInterfaceNumber := 1; si_format_descs := [small_format]; si_bEndpointAddress := 0x81;
     si_bTerminalLink := 0; si_bStillCaptureMethod := 0 |}.

Definition session_info : uvc_device_info :=
  set_stream_ifs (info_zero [[]; [idle_alt; video_alt]]) [session_stream_if].

Lemma session_interfaces : interfaces_ok session_info.
Proof.
  repeat constructor; try (cbn; lia). exists [idle_alt; video_alt]. split; [reflexivity|].
  repeat constructor; simpl; try lia; discriminate.
Qed.

Lemma start_streaming_all_or_nothing_witness :
  wp (uvc_start_streaming (H := open_env) (default_backend (H := open_env)) 1 0xAA
        (handle_with (Some session_info) 0 None) (ctrl_with_size 64) true)
    (λ '(ret, devh', in_flight) _, ret = UVC_SUCCESS ∧ in_flight = 100%nat ∧ length (dh_streams devh') = 1%nat) [].
Proof.
  pose proof (start_streaming_all_or_nothing (H := open_env) (default_backend (H := open_env)) 1 0 0xAA open_host
    ltac:(lia) (handle_with (Some session_info) 0 None) session_info (ctrl_with_size 64) true []
    ltac:(intros t; discriminate) eq_refl session_interfaces ltac:(apply NoDup_nil_2) ltac:(simpl; lia)
    ltac:(simpl; unfold fits; lia)) as Hw.
  assert (match uvc_start_streaming (H := open_env) (default_backend (H := open_env)) 1 0xAA
        (handle_with (Some session_info) 0 None) (ctrl_with_size 64) true [] with
          | Ret ((ret, _, k), _) => Some (ret, k)
          | Undef _ => None
          end = Some (UVC_SUCCESS, 100%nat)) as Hv by (vm_compute; reflexivity).
  destruct (proj1 (wp_iff _ _ _) Hw) as ([[ret devh'] k] & t' & E & Hres). clear Hw. rewrite E in Hv.
  injection Hv as Hret Hk. subst ret k. destruct Hres as (_ & s & Hs & _).
  apply (proj2 (wp_iff _ _ _)). exists (UVC_SUCCESS, devh', 100%nat), t'. split; [exact E|]. split; [reflexivity|]. split; [reflexivity|]. rewrite Hs. reflexivity.
Defined.

(** VideoControl and the interface of the stream are claimed, nothing is in flight. *)
Definition session_handle : uvc_device_handle :=
  set_streams (handle_with (Some session_info) 3 None) [stream_zero session_stream_if].

Lemma session_watched : watched session_handle [].
Proof. split; [split; cbn; lia|discriminate]. Qed.

