(* ===== verification/PipelineFacts.v ===== *)
(** * PipelineFacts: from starting to stream to the frames an application polls

    The parts put together: an application starts to stream and polls, while transfers
    complete in between.  Seen from the application a stream is a mailbox for one
    frame, filled by the assembler of Assembly. *)

From stdpp Require Import prelude.
From S2P Require Import Prelude Types Environment Descriptors DescriptorsFacts ReattachGuard Handles Claims ClaimsFacts Negotiation NegotiationFacts Stream StreamFacts DeliveryFacts Start Transfers TransfersFacts Assembly StartFacts Device DeviceFacts Session SessionFacts.

(** ** The mailbox *)

(** What happens to a running stream: a transfer completes, or the application polls. *)
Inductive stream_event :=
  | Completes (data : xfer_data)
  | Polls.

Definition event_ok (e : stream_event) : Prop :=
  match e with
  | Completes data => data_ok data
  | Polls => True
  end.

Definition event_payloads (e : stream_event) : Z :=
  match e with
  | Completes data => payload_count data
  | Polls => 0
  end.

Definition total_payloads (events : list stream_event) : Z := foldr (λ e n, event_payloads e + n) 0 events.

Lemma total_payloads_nonneg events : 0 ≤ total_payloads events.
Proof.
  induction events as [|e events IH]; [done|]. change (0 ≤ event_payloads e + total_payloads events).
  destruct e as [[payload|packets]|]; cbn [event_payloads payload_count]; try lia. pose proof (len_nonneg packets). lia.
Qed.

(** The answers to the polls: the newest frame that ended since the last poll, with
    its number and whether it is intact (no error was reported in it), or nothing. *)
Fixpoint mailbox_run (is_isight : bool) (max : Z) (a : assembler) (box : option announcement) (events : list stream_event)
    : list (option announcement) :=
  match events with
  | [] => []
  | Completes data :: rest =>
      let '(a, out) := am_complete max is_isight a data in
      let box := match last out with Some frame => Some frame | None => box end in
      mailbox_run is_isight max a box rest
  | Polls :: rest => box :: mailbox_run is_isight max a None rest
  end.

(** ** The code *)

Section code.
Context (clock : Z → Z) (is_isight : bool) (junk : Z) (info : uvc_device_info).
Context (wait : uvc_stream_handle → uvc_stream_handle).
Context (timedwait : Z * Z → uvc_stream_handle → Z * uvc_stream_handle) (now_sec now_nsec : Z).

(** The results of the polls, with the code of the transfer callback in between. *)
Fixpoint stream_run (h : uvc_stream_handle) (events : list stream_event) : outcome (list (Z * option uvc_frame)) :=
  match events with
  | [] => Ret []
  | Completes data :: rest =>
      '(h, _) ← process_completed clock is_isight h data;
      stream_run h rest
  | Polls :: rest =>
      '(ret, frame, h) ← uvc_stream_get_frame junk enough_memory info wait timedwait now_sec now_nsec h (-1);
      results ← stream_run h rest;
      Ret ((ret, frame) :: results)
  end.

(** The frame has the number and the image, followed by zeros up to the size of the
    picture if at all, and the dimensions that were negotiated. *)
Definition shows (format : Z) (desc : uvc_frame_desc) (frame : Z * bytes) (f : uvc_frame) : Prop :=
  uf_sequence f = frame.1 ∧ uf_frame_format f = format
  ∧ uf_width f = fr_wWidth desc ∧ uf_height f = fr_wHeight desc
  ∧ (uf_data_bytes f = len frame.2 ∨ uf_data_bytes f = Z.max (len frame.2) (uf_height f * uf_step f))
  ∧ take (Z.to_nat (uf_data_bytes f)) (block (uf_data f))
    = frame.2 ++ replicate (Z.to_nat (uf_data_bytes f - len frame.2)) 0.

(** A frame is answered whether or not it is intact. *)
Definition answers (format : Z) (desc : uvc_frame_desc) (expected : option announcement) (result : Z * option uvc_frame)
    : Prop :=
  result.1 = UVC_SUCCESS
  ∧ match expected, result.2 with
    | Some (_, frame), Some f => shows format desc frame f
    | None, None => True
    | _, _ => False
    end.

(** A running stream that is polled, and the mailbox it is. *)
Record serving (ctrl : uvc_stream_ctrl) (format : Z) (a : assembler) (box : option announcement) (h : uvc_stream_handle)
    : Prop := {
  sv_implements : implements (sc_dwMaxVideoFrameSize ctrl) a h;
  sv_ctrl : sh_cur_ctrl h = ctrl;
  sv_format : sh_frame_format h = format;
  sv_running : sh_running h = true;
  sv_no_cb : sh_user_cb h = false;
  sv_frame : frame_ok (sh_frame h);
  sv_seq : 1 ≤ am_seq a;
  sv_number : (am_held a).1 = am_seq a - 1;
  sv_box : match box with
           | Some (_, frame) => frame = am_held a ∧ sh_last_polled_seq h < frame.1
           | None => sh_last_polled_seq h = (am_held a).1
           end;
}.

Lemma serving_complete ctrl format a box h data :
  serving ctrl format a box h → data_ok data → am_seq a + 2 * payload_count data < 2 ^ 32 →
  let '(a', out) := am_complete (sc_dwMaxVideoFrameSize ctrl) is_isight a data in
  returns (process_completed clock is_isight h data)
    (λ '(h', _), serving ctrl format a' (match last out with Some frame => Some frame | None => box end) h')
  ∧ am_seq a' ≤ am_seq a + 2 * payload_count data.
Proof.
  intros [] Hd Hsmall.
  pose proof (complete_refines clock (sc_dwMaxVideoFrameSize ctrl) is_isight a h data sv_implements0 Hd) as Hr.
  destruct (complete_advances (sc_dwMaxVideoFrameSize ctrl) is_isight a data) as (E1 & E2 & E3 & E4); [lia..|done|].
  destruct (am_complete _ _ _ _) as [a' out]. cbn [fst snd] in *. split; [|lia].
  eapply returns_mono; [exact Hr|]. intros [h' pubs] (Himp & _ & Hrun & Hcb & Hfr & Hctrl & Hpolled & Hfmt).
  split; try congruence; [pose proof (len_nonneg out); lia|].
  unfold newest in E4. rewrite Hpolled. destruct (last out) as [[woken frame]|] eqn:El; cbn [default from_option fmap option_fmap option_map snd id] in E4.
  - split; [done|]. assert (1 ≤ len out) by (destruct out; [done|]; rewrite len_cons; pose proof (len_nonneg out); lia).
    rewrite <- E4. destruct box as [[w v]|]; [destruct sv_box0 as [-> Hlt]|]; lia.
  - by rewrite E4.
Qed.

Lemma serving_poll ctrl format a box h fmt desc :
  uvc_find_frame_desc info (sc_bFormatIndex ctrl) (sc_bFrameIndex ctrl) = Some (fmt, desc) → frame_wf desc →
  serving ctrl format a box h →
  returns (uvc_stream_get_frame junk enough_memory info wait timedwait now_sec now_nsec h (-1)) (λ '(ret, frame, h'),
    answers format desc box (ret, frame) ∧ serving ctrl format a None h').
Proof.
  intros Hdesc Hwf []. unfold uvc_stream_get_frame. rewrite sv_running0, sv_no_cb0. cbn [negb].
  pose proof (fl_hold _ _ _ (proj1 sv_implements0)) as Hhold.
  destruct (fl_held _ _ _ (proj1 sv_implements0)) as (Hs & Hb & Ht). rewrite Hs.
  destruct box as [[w frame]|].
  - destruct sv_box0 as [-> Hlt]. rewrite (proj2 (Z.ltb_lt _ _) Hlt). unfold take_frame. rewrite returns_bind.
    eapply returns_mono; [by apply (populate_frame_run junk info h (sc_dwMaxVideoFrameSize ctrl) fmt desc);
      [..|rewrite sv_ctrl0|]|].
    intros h' (Hh' & Hok & (Hw & Hh & _ & Hseq & Hf & _) & Hdata & Hn & _). cbn [returns]. split.
    + split; [done|]. unfold shows, image_data in *. cbn [snd]. rewrite Hb, Ht in *.
      split_and!; try congruence.
    + rewrite Hh' in Hok |- *. cbn [sh_frame set_frame] in Hok. destruct sv_implements0 as [[] Hroom].
      by split.
  - rewrite sv_box0, Z.ltb_irrefl. change (negb (-1 =? -1)) with false. cbn [returns]. split; [done|]. by split.
Qed.

Lemma serving_run ctrl format fmt desc events : ∀ a box h,
  uvc_find_frame_desc info (sc_bFormatIndex ctrl) (sc_bFrameIndex ctrl) = Some (fmt, desc) → frame_wf desc →
  serving ctrl format a box h → Forall event_ok events → am_seq a + 2 * total_payloads events < 2 ^ 32 →
  returns (stream_run h events) (Forall2 (answers format desc)
    (mailbox_run is_isight (sc_dwMaxVideoFrameSize ctrl) a box events)).
Proof.
  induction events as [|[data|] events IH]; intros a box h Hdesc Hwf Hsv Hok Hsmall;
    cbn [stream_run mailbox_run total_payloads foldr event_payloads] in *; [by constructor|..];
    apply Forall_cons in Hok as [He Hok]; fold (total_payloads events) in Hsmall.
  - pose proof (total_payloads_nonneg events).
    pose proof (serving_complete ctrl format a box h data Hsv He ltac:(lia)) as Hc.
    destruct (am_complete _ _ _ _) as [a' out]. destruct Hc as [Hc Hle]. rewrite returns_bind.
    eapply returns_mono; [exact Hc|]. intros [h' pubs] Hsv'. apply IH; try done; lia.
  - rewrite returns_bind. eapply returns_mono; [by apply (serving_poll ctrl format a box h fmt desc)|].
    intros [[ret frame] h'] [Ha Hsv']. rewrite returns_bind. eapply returns_mono; [by apply (IH a None)|].
    intros results Hres. cbn [returns]. by constructor.
Qed.
End code.

(** ** The whole session *)

Lemma formats_frame_wf formats format_id frame_id format desc :
  Forall format_wf formats → find_frame_in_formats formats format_id frame_id = Some (format, desc) → frame_wf desc.
Proof.
  induction 1 as [|f formats (_ & _ & _ & Hf) _ IH]; cbn [find_frame_in_formats]; [done|].
  destruct (_ =? _); [|done]. destruct (list_find _ _) as [[i fr]|] eqn:E; [|done]. intros [= <- <-].
  apply list_find_Some in E as [E _]. by eapply (Forall_lookup_1 _ _ i).
Qed.

(** A frame that one interface offers is found among all interfaces, and is well formed. *)
Lemma frame_of_interface info s format_id frame_id :
  info_wf info → s ∈ di_stream_ifs info → is_Some (_uvc_find_frame_desc_stream_if s format_id frame_id) →
  ∃ format desc, uvc_find_frame_desc info format_id frame_id = Some (format, desc) ∧ frame_wf desc.
Proof.
  unfold info_wf, uvc_find_frame_desc. induction 1 as [|s' ifs Hs' _ IH]; intros Hin Hsome; [by apply elem_of_nil in Hin|].
  cbn [find_frame_in_ifs]. destruct (_uvc_find_frame_desc_stream_if s' format_id frame_id) as [[format desc]|] eqn:E.
  - exists format, desc. split; [done|]. by eapply formats_frame_wf.
  - apply elem_of_cons in Hin as [->|Hin]; [rewrite E in Hsome; by apply is_Some_None in Hsome|by apply IH].
Qed.

Lemma started_serving junk s ctrl format :
  fits 32 (sc_dwMaxVideoFrameSize ctrl) →
  serving ctrl format am_start None (started_stream junk s ctrl format false).
Proof.
  intros Hm. split; try done.
  apply (implements_start (started_stream junk s ctrl format false)); try done.
  pose proof (fresh_stream_inv junk s ctrl Hm) as (H1 & H2 & H3). by split_and!.
Qed.

Section session.
Context `{Environment} (b : uvc_reattach_backend) (fuel n : nat) (junk : Z).
Context (Hhost : host_process n) (Hfuel : (n < fuel)%nat).

(** C3: a stream that is polled is a mailbox for the newest frame, from the
    application's call to start streaming to the frames it polls.  When starting
    succeeded, then for any transfers that complete and any polls (that do not wait) in
    between, up to 2^31 payloads, bulk or isochronous, with any bytes and any failed
    packets, nothing goes wrong and each poll is answered at once: with the newest
    frame that ended since the poll before, with its image and its number, in the
    dimensions of the descriptor, or with no frame when none ended.  The frames are
    those of the abstract assembler.  This includes frames in which the device or
    libusb reported an error: the code wakes nobody for such a frame, but keeps it,
    and a poll returns it like any other, where the comments in stream.c and
    libuvc_internal.h and the change log say that it is suppressed.  The conditions:
    memory does not run out (of the four buffers, the transfers and the frames, none
    of which is checked as it should be); the description is well formed; its
    streaming interfaces are numbered below 31 and are interfaces of the configuration;
    the payload size asked for is not zero; no two open streams share an interface;
    and signals interrupt the wait for the helper's parent finitely often. *)
Theorem stream_is_mailbox clock wait timedwait now_sec now_nsec devh info ctrl t :
  (∀ t', rs_code (answer t' AllocTransfer) ≠ 0) → buffers_allocated →
  dh_info devh = Some info → info_wf info → interfaces_ok info → NoDup (open_interfaces devh) →
  0 < sc_dwMaxPayloadTransferSize ctrl → fits 32 (sc_dwMaxVideoFrameSize ctrl) →
  wp (uvc_start_streaming b fuel junk devh ctrl false) (λ '(ret, devh', _) _,
    ret = UVC_SUCCESS →
    ∃ s format desc, dh_streams devh' = dh_streams devh ++ [s]
      ∧ uvc_find_frame_desc info (sc_bFormatIndex ctrl) (sc_bFrameIndex ctrl) = Some (format, desc)
      ∧ ∀ events, Forall event_ok events → 1 + 2 * total_payloads events < 2 ^ 32 →
        returns (stream_run clock (dh_is_isight devh) junk info wait timedwait now_sec now_nsec s events)
          (Forall2 (answers (sh_frame_format s) desc)
             (mailbox_run (dh_is_isight devh) (sc_dwMaxVideoFrameSize ctrl) am_start None events))) t.
Proof.
  intros Ha Hbuf Hinfo Hwf Hifs Hnd Hp Hm.
  eapply wp_mono; [by apply (start_streaming_run b fuel n junk Hhost Hfuel devh info)|].
  intros [[ret devh'] k] t' Hres ->. destruct Hres as (_ & s & Hs & _ & _ & _ & _ & Hin & Hst & Hsome).
  destruct (frame_of_interface info _ _ _ Hwf Hin Hsome) as (format & desc & Hdesc & Hfwf).
  exists s, format, desc. split_and!; [done..|]. intros events Hok Hsmall.
  eapply serving_run; [done..| |done|by cbn [am_start am_seq]].
  rewrite (Hst Hbuf). by apply started_serving.
Qed.
End session.

(** ** Two frames are sent and three polls made *)

Definition sample_events : list stream_event :=
  [ Polls; Completes (BulkData [2; 0; 10; 11]); Polls; Completes (IsoData [(0, [2; 2; 12]); (1, []); (0, [2; 3; 20; 21])]);
    Polls; Polls ].

Lemma session_info_wf : info_wf session_info.
Proof.
  apply Forall_cons_2; [|by apply Forall_nil_2]. apply Forall_cons_2; [|by apply Forall_nil_2].
  unfold format_wf. split_and!; try (cbn; unfold fits; lia).
  apply Forall_cons_2; [exact degenerate_frame_wf|by apply Forall_nil_2].
Qed.

(** The first frame is never polled: when the application asks again the second has
    taken its place.  A packet of the second failed, and it is returned all the same. *)
Lemma stream_is_mailbox_witness :
  wp (uvc_start_streaming (H := open_env) (default_backend (H := open_env)) 1 0xAA
        (handle_with (Some session_info) 0 None) (ctrl_with_size 64) false)
    (λ '(ret, devh', _) _, ret = UVC_SUCCESS ∧ ∃ s, dh_streams devh' = [s]
       ∧ returns (stream_run (λ _, 0) false 0xAA session_info id (λ _ h, (0, h)) 0 0 s sample_events)
           (Forall2 (answers (sh_frame_format s) degenerate_frame) [None; None; Some (false, (2, [20; 21])); None])) [].
Proof.
  pose proof (stream_is_mailbox (H := open_env) (default_backend (H := open_env)) 1 0 0xAA open_host ltac:(lia)
    (λ _, 0) id (λ _ h, (0, h)) 0 0 (handle_with (Some session_info) 0 None) session_info (ctrl_with_size 64) []
    ltac:(intros t; discriminate) ltac:(intros t b; discriminate) eq_refl session_info_wf session_interfaces ltac:(apply NoDup_nil_2)
    ltac:(simpl; lia) ltac:(simpl; unfold fits; lia)) as Hw.
  assert (match uvc_start_streaming (H := open_env) (default_backend (H := open_env)) 1 0xAA
        (handle_with (Some session_info) 0 None) (ctrl_with_size 64) false [] with
          | Ret ((ret, _, _), _) => Some ret
          | Undef _ => None
          end = Some UVC_SUCCESS) as Hv by (vm_compute; reflexivity).
  destruct (proj1 (wp_iff _ _ _) Hw) as ([[ret devh'] k] & t' & E & Hres). clear Hw. rewrite E in Hv.
  injection Hv as Hret. subst ret. destruct (Hres eq_refl) as (s & format & desc & Hs & Hdesc & Hrun).
  apply (proj2 (wp_iff _ _ _)). exists (UVC_SUCCESS, devh', k), t'. split; [exact E|].
  split; [reflexivity|]. exists s. split; [exact Hs|]. change (uvc_find_frame_desc session_info 1 1 = Some (format, desc)) in Hdesc.
  assert (uvc_find_frame_desc session_info 1 1 = Some (small_format, degenerate_frame)) as Hd by reflexivity.
  rewrite Hd in Hdesc. injection Hdesc as <- <-.
  assert (mailbox_run false 64 am_start None sample_events = [None; None; Some (false, (2, [20; 21])); None]) as Hbox
    by (vm_compute; reflexivity).
  rewrite <- Hbox. apply Hrun.
  - repeat constructor; cbn [event_ok data_ok payload_ok snd]; try (unfold len; simpl; lia); by apply (bool_decide_unpack _).
  - unfold total_payloads, sample_events, event_payloads, payload_count, len. simpl. lia.
Defined.
